(** * The job engine of the service manager (src/core/job.c)

    A shallow embedding of the job-type algebra, the per-unit job slots,
    the run queue, the finish/propagation kernel and the job serializer,
    together with the properties the specification states about them. *)

From Stdlib Require Import ZArith Lia Ascii String DecimalString DecimalN DecimalPos DecimalFacts.
From stdpp Require Import base option list gmap.

Local Open Scope Z_scope.

(** ** Enumerations *)

(** Modelled from the spec: the [JobType] enumeration is declared in job.h,
    which is not part of the sources at hand.  The merge-domain types come
    first (the layout of [job_merging_table] fixes their values 0..4),
    [JOB_NOP] closes the range of types that may enter a transaction, and
    the compound types lie beyond it. *)
Inductive JobType : Set :=
| JOB_START
| JOB_VERIFY_ACTIVE
| JOB_STOP
| JOB_RELOAD
| JOB_RESTART
| JOB_NOP
| JOB_TRY_RESTART
| JOB_TRY_RELOAD
| JOB_RELOAD_OR_START
| _JOB_TYPE_INVALID.

Definition JobType_to_Z (t : JobType) : Z :=
  match t with
  | JOB_START => 0
  | JOB_VERIFY_ACTIVE => 1
  | JOB_STOP => 2
  | JOB_RELOAD => 3
  | JOB_RESTART => 4
  | JOB_NOP => 5
  | JOB_TRY_RESTART => 6
  | JOB_TRY_RELOAD => 7
  | JOB_RELOAD_OR_START => 8
  | _JOB_TYPE_INVALID => -1
  end.

Definition _JOB_TYPE_MAX_MERGING : Z := 5.
Definition _JOB_TYPE_MAX_IN_TRANSACTION : Z := 6.
Definition _JOB_TYPE_MAX : Z := 9.

Inductive JobState : Set := JOB_WAITING | JOB_RUNNING.

Inductive JobResult : Set :=
| JOB_DONE
| JOB_CANCELED
| JOB_TIMEOUT
| JOB_FAILED
| JOB_DEPENDENCY
| JOB_SKIPPED
| JOB_INVALID
| JOB_ASSERT
| JOB_UNSUPPORTED.

Inductive UnitActiveState : Set :=
| UNIT_ACTIVE
| UNIT_RELOADING
| UNIT_INACTIVE
| UNIT_FAILED
| UNIT_ACTIVATING
| UNIT_DEACTIVATING.

#[global] Instance JobType_eq_dec : EqDecision JobType.
Proof. solve_decision. Defined.
#[global] Instance JobState_eq_dec : EqDecision JobState.
Proof. solve_decision. Defined.
#[global] Instance JobResult_eq_dec : EqDecision JobResult.
Proof. solve_decision. Defined.
#[global] Instance UnitActiveState_eq_dec : EqDecision UnitActiveState.
Proof. solve_decision. Defined.

(** Modelled from the spec: the two activation-state macros of unit.h. *)
Definition UNIT_IS_INACTIVE_OR_DEACTIVATING (s : UnitActiveState) : bool :=
  match s with
  | UNIT_INACTIVE | UNIT_FAILED | UNIT_DEACTIVATING => true
  | _ => false
  end.

Definition UNIT_IS_ACTIVE_OR_RELOADING (s : UnitActiveState) : bool :=
  match s with
  | UNIT_ACTIVE | UNIT_RELOADING => true
  | _ => false
  end.

(** The errno values the engine returns or dispatches on (Linux numbering). *)
Definition ENOEXEC : Z := 8.
Definition EAGAIN : Z := 11.
Definition EEXIST : Z := 17.
Definition EINVAL : Z := 22.
Definition EBADR : Z := 53.
Definition EPROTO : Z := 71.
Definition ENOTSUP : Z := 95.
Definition EALREADY : Z := 114.

(** ** The job-type algebra *)

(** The lower triangle of the merge matrix, without its diagonal;
    [_JOB_TYPE_INVALID] is the [-1] of the C table. *)
Definition job_merging_table : list JobType :=
  [ (* JOB_VERIFY_ACTIVE *) JOB_START;
    (* JOB_STOP          *) _JOB_TYPE_INVALID; _JOB_TYPE_INVALID;
    (* JOB_RELOAD        *) JOB_RELOAD_OR_START; JOB_RELOAD; _JOB_TYPE_INVALID;
    (* JOB_RESTART       *) JOB_RESTART; JOB_RESTART; _JOB_TYPE_INVALID; JOB_RESTART ].

Definition in_merge_domain (t : JobType) : bool :=
  (0 <=? JobType_to_Z t) && (JobType_to_Z t <? _JOB_TYPE_MAX_MERGING).

(** [None] stands for a failed [assert]: an argument outside the merge
    domain. *)
Definition job_type_lookup_merge (a b : JobType) : option JobType :=
  if negb (in_merge_domain a) then None
  else if negb (in_merge_domain b) then None
  else if decide (a = b) then Some a
  else
    let '(a, b) :=
      if JobType_to_Z a <? JobType_to_Z b then (b, a) else (a, b) in
    job_merging_table
      !! Z.to_nat ((JobType_to_Z a - 1) * JobType_to_Z a / 2 + JobType_to_Z b).

Definition job_type_is_redundant (a : JobType) (b : UnitActiveState) : option bool :=
  match a with
  | JOB_START => Some (bool_decide (b = UNIT_ACTIVE) || bool_decide (b = UNIT_RELOADING))
  | JOB_STOP => Some (bool_decide (b = UNIT_INACTIVE) || bool_decide (b = UNIT_FAILED))
  | JOB_VERIFY_ACTIVE => Some (bool_decide (b = UNIT_ACTIVE) || bool_decide (b = UNIT_RELOADING))
  | JOB_RELOAD => Some (bool_decide (b = UNIT_RELOADING))
  | JOB_RESTART => Some (bool_decide (b = UNIT_ACTIVATING))
  | JOB_NOP => Some true
  | _ => None
  end.

(** [s] is the result of [unit_active_state(u)]. *)
Definition job_type_collapse (t : JobType) (s : UnitActiveState) : JobType :=
  match t with
  | JOB_TRY_RESTART =>
      if UNIT_IS_INACTIVE_OR_DEACTIVATING s then JOB_NOP else JOB_RESTART
  | JOB_RELOAD_OR_START =>
      if UNIT_IS_INACTIVE_OR_DEACTIVATING s then JOB_START else JOB_RELOAD
  | _ => t
  end.

(** The C function writes through [*a] and returns an error code; here it
    returns the code together with the new contents of [*a]. *)
Definition job_type_merge_and_collapse (a b : JobType) (s : UnitActiveState)
  : option (Z * JobType) :=
  t ← job_type_lookup_merge a b;
  if JobType_to_Z t <? 0 then Some (- EEXIST, a)
  else Some (0, job_type_collapse t s).

(** Modelled from the spec: the inline helpers of job.h.  Two types are
    mergeable when their merge result is not [-1], conflicting otherwise,
    and [a] is a superset of [b] when merging [b] into [a] leaves [a]. *)
Definition job_type_is_mergeable (a b : JobType) : option bool :=
  t ← job_type_lookup_merge a b; Some (0 <=? JobType_to_Z t).

Definition job_type_is_conflicting (a b : JobType) : option bool :=
  negb <$> job_type_is_mergeable a b.

Definition job_type_is_superset (a b : JobType) : option bool :=
  t ← job_type_lookup_merge a b; Some (bool_decide (a = t)).

Definition job_type_allows_late_merge (t : JobType) : bool :=
  negb (bool_decide (t = JOB_RELOAD)).

(** ** The data model *)

(** Jobs and units are heap objects in the C code, linked by pointers in
    both directions.  Pointers are modelled as natural-number addresses
    into two stores of the manager state. *)

Record Job : Type := mkJob {
  j_unit : nat;                        (* Unit *unit *)
  j_id : Z;                            (* uint32_t id *)
  j_type : JobType;
  j_state : JobState;
  j_result : JobResult;
  j_begin_usec : Z;                    (* usec_t begin_usec *)
  j_timer_event_source : option Z;     (* armed deadline, or NULL *)
  j_clients : list string;             (* sd_bus_track *clients *)
  j_deserialized_clients : list string;
  j_installed : bool;
  j_in_run_queue : bool;
  j_in_dbus_queue : bool;
  j_override : bool;
  j_irreversible : bool;
  j_ignore_order : bool;
  j_reloaded : bool;
  j_sent_dbus_new_signal : bool
}.

Inductive UnitDependency : Set :=
| UNIT_AFTER
| UNIT_BEFORE
| UNIT_REQUIRED_BY
| UNIT_REQUIRED_BY_OVERRIDABLE
| UNIT_BOUND_BY
| UNIT_CONFLICTED_BY.

Record Unit : Type := mkUnit {
  u_job : option nat;                  (* Job *job *)
  u_nop_job : option nat;              (* Job *nop_job *)
  u_dependencies : UnitDependency -> list nat;   (* in iteration order *)
  u_active_state : UnitActiveState;    (* what unit_active_state(u) reports *)
  u_job_timeout : Z                    (* usec_t job_timeout *)
}.

(** Calls that leave the engine: bus signals, the hooks of the unit and
    the manager, and the log lines of [job_install] and
    [job_finish_and_invalidate].  They are recorded, newest first.  The
    other log lines of job.c (the debug lines of [job_change_type] and
    of the functions that restore jobs after a reload, the warning of
    [job_dispatch_timer]) are not recorded. *)
Inductive Event : Type :=
| EvJobInstalled (j : nat) (u : nat) (t : JobType)
| EvJobMerged (j : nat) (u : nat) (t : JobType)
| EvJobMergedRunning (j : nat) (u : nat) (t : JobType)
| EvJobFinished (j : nat) (u : nat) (t : JobType) (result : JobResult)
| EvStatusMessage (u : nat) (t : JobType) (result : JobResult)
| EvJobRemovedSignal (j : nat)
| EvUnitAddToGcQueue (u : nat)
| EvJobFailedNotice (u : nat) (t : JobType) (result : JobResult)
| EvUnitStartOnFailure (u : nat)
| EvUnitTriggerNotify (u : nat)
| EvManagerCheckFinished
| EvEmergencyAction (u : nat)
| EvRunQueueEventSourceEnabled
| EvJobsInProgressEventSourceUnref.

Record Manager : Type := mkManager {
  units : gmap nat Unit;               (* the Unit objects, by address *)
  job_heap : gmap nat Job;             (* the allocated Job objects, by address *)
  next_ptr : nat;                      (* next address handed out by new0 *)
  jobs : gmap Z nat;                   (* Hashmap *jobs: id -> Job* *)
  run_queue : list nat;
  dbus_job_queue : list nat;
  pending_finished_jobs : list nat;
  current_job_id : Z;                  (* uint32_t *)
  n_installed_jobs : Z;                (* unsigned *)
  n_running_jobs : Z;                  (* unsigned *)
  n_failed_jobs : Z;                   (* unsigned *)
  n_reloading : Z;                     (* int *)
  trace : list Event
}.

Definition u32 (z : Z) : Z := z mod 2 ^ 32.

(** *** Field updates *)

Definition set_j_id (v : Z) (J : Job) : Job :=
  {| j_unit := j_unit J; j_id := v; j_type := j_type J; j_state := j_state J; j_result := j_result J; j_begin_usec := j_begin_usec J; j_timer_event_source := j_timer_event_source J; j_clients := j_clients J; j_deserialized_clients := j_deserialized_clients J; j_installed := j_installed J; j_in_run_queue := j_in_run_queue J; j_in_dbus_queue := j_in_dbus_queue J; j_override := j_override J; j_irreversible := j_irreversible J; j_ignore_order := j_ignore_order J; j_reloaded := j_reloaded J; j_sent_dbus_new_signal := j_sent_dbus_new_signal J |}.
Definition set_j_type (v : JobType) (J : Job) : Job :=
  {| j_unit := j_unit J; j_id := j_id J; j_type := v; j_state := j_state J; j_result := j_result J; j_begin_usec := j_begin_usec J; j_timer_event_source := j_timer_event_source J; j_clients := j_clients J; j_deserialized_clients := j_deserialized_clients J; j_installed := j_installed J; j_in_run_queue := j_in_run_queue J; j_in_dbus_queue := j_in_dbus_queue J; j_override := j_override J; j_irreversible := j_irreversible J; j_ignore_order := j_ignore_order J; j_reloaded := j_reloaded J; j_sent_dbus_new_signal := j_sent_dbus_new_signal J |}.
Definition set_j_state (v : JobState) (J : Job) : Job :=
  {| j_unit := j_unit J; j_id := j_id J; j_type := j_type J; j_state := v; j_result := j_result J; j_begin_usec := j_begin_usec J; j_timer_event_source := j_timer_event_source J; j_clients := j_clients J; j_deserialized_clients := j_deserialized_clients J; j_installed := j_installed J; j_in_run_queue := j_in_run_queue J; j_in_dbus_queue := j_in_dbus_queue J; j_override := j_override J; j_irreversible := j_irreversible J; j_ignore_order := j_ignore_order J; j_reloaded := j_reloaded J; j_sent_dbus_new_signal := j_sent_dbus_new_signal J |}.
Definition set_j_result (v : JobResult) (J : Job) : Job :=
  {| j_unit := j_unit J; j_id := j_id J; j_type := j_type J; j_state := j_state J; j_result := v; j_begin_usec := j_begin_usec J; j_timer_event_source := j_timer_event_source J; j_clients := j_clients J; j_deserialized_clients := j_deserialized_clients J; j_installed := j_installed J; j_in_run_queue := j_in_run_queue J; j_in_dbus_queue := j_in_dbus_queue J; j_override := j_override J; j_irreversible := j_irreversible J; j_ignore_order := j_ignore_order J; j_reloaded := j_reloaded J; j_sent_dbus_new_signal := j_sent_dbus_new_signal J |}.
Definition set_j_begin_usec (v : Z) (J : Job) : Job :=
  {| j_unit := j_unit J; j_id := j_id J; j_type := j_type J; j_state := j_state J; j_result := j_result J; j_begin_usec := v; j_timer_event_source := j_timer_event_source J; j_clients := j_clients J; j_deserialized_clients := j_deserialized_clients J; j_installed := j_installed J; j_in_run_queue := j_in_run_queue J; j_in_dbus_queue := j_in_dbus_queue J; j_override := j_override J; j_irreversible := j_irreversible J; j_ignore_order := j_ignore_order J; j_reloaded := j_reloaded J; j_sent_dbus_new_signal := j_sent_dbus_new_signal J |}.
Definition set_j_timer_event_source (v : option Z) (J : Job) : Job :=
  {| j_unit := j_unit J; j_id := j_id J; j_type := j_type J; j_state := j_state J; j_result := j_result J; j_begin_usec := j_begin_usec J; j_timer_event_source := v; j_clients := j_clients J; j_deserialized_clients := j_deserialized_clients J; j_installed := j_installed J; j_in_run_queue := j_in_run_queue J; j_in_dbus_queue := j_in_dbus_queue J; j_override := j_override J; j_irreversible := j_irreversible J; j_ignore_order := j_ignore_order J; j_reloaded := j_reloaded J; j_sent_dbus_new_signal := j_sent_dbus_new_signal J |}.
Definition set_j_deserialized_clients (v : list string) (J : Job) : Job :=
  {| j_unit := j_unit J; j_id := j_id J; j_type := j_type J; j_state := j_state J; j_result := j_result J; j_begin_usec := j_begin_usec J; j_timer_event_source := j_timer_event_source J; j_clients := j_clients J; j_deserialized_clients := v; j_installed := j_installed J; j_in_run_queue := j_in_run_queue J; j_in_dbus_queue := j_in_dbus_queue J; j_override := j_override J; j_irreversible := j_irreversible J; j_ignore_order := j_ignore_order J; j_reloaded := j_reloaded J; j_sent_dbus_new_signal := j_sent_dbus_new_signal J |}.
Definition set_j_installed (v : bool) (J : Job) : Job :=
  {| j_unit := j_unit J; j_id := j_id J; j_type := j_type J; j_state := j_state J; j_result := j_result J; j_begin_usec := j_begin_usec J; j_timer_event_source := j_timer_event_source J; j_clients := j_clients J; j_deserialized_clients := j_deserialized_clients J; j_installed := v; j_in_run_queue := j_in_run_queue J; j_in_dbus_queue := j_in_dbus_queue J; j_override := j_override J; j_irreversible := j_irreversible J; j_ignore_order := j_ignore_order J; j_reloaded := j_reloaded J; j_sent_dbus_new_signal := j_sent_dbus_new_signal J |}.
Definition set_j_in_run_queue (v : bool) (J : Job) : Job :=
  {| j_unit := j_unit J; j_id := j_id J; j_type := j_type J; j_state := j_state J; j_result := j_result J; j_begin_usec := j_begin_usec J; j_timer_event_source := j_timer_event_source J; j_clients := j_clients J; j_deserialized_clients := j_deserialized_clients J; j_installed := j_installed J; j_in_run_queue := v; j_in_dbus_queue := j_in_dbus_queue J; j_override := j_override J; j_irreversible := j_irreversible J; j_ignore_order := j_ignore_order J; j_reloaded := j_reloaded J; j_sent_dbus_new_signal := j_sent_dbus_new_signal J |}.
Definition set_j_in_dbus_queue (v : bool) (J : Job) : Job :=
  {| j_unit := j_unit J; j_id := j_id J; j_type := j_type J; j_state := j_state J; j_result := j_result J; j_begin_usec := j_begin_usec J; j_timer_event_source := j_timer_event_source J; j_clients := j_clients J; j_deserialized_clients := j_deserialized_clients J; j_installed := j_installed J; j_in_run_queue := j_in_run_queue J; j_in_dbus_queue := v; j_override := j_override J; j_irreversible := j_irreversible J; j_ignore_order := j_ignore_order J; j_reloaded := j_reloaded J; j_sent_dbus_new_signal := j_sent_dbus_new_signal J |}.
Definition set_j_override (v : bool) (J : Job) : Job :=
  {| j_unit := j_unit J; j_id := j_id J; j_type := j_type J; j_state := j_state J; j_result := j_result J; j_begin_usec := j_begin_usec J; j_timer_event_source := j_timer_event_source J; j_clients := j_clients J; j_deserialized_clients := j_deserialized_clients J; j_installed := j_installed J; j_in_run_queue := j_in_run_queue J; j_in_dbus_queue := j_in_dbus_queue J; j_override := v; j_irreversible := j_irreversible J; j_ignore_order := j_ignore_order J; j_reloaded := j_reloaded J; j_sent_dbus_new_signal := j_sent_dbus_new_signal J |}.
Definition set_j_irreversible (v : bool) (J : Job) : Job :=
  {| j_unit := j_unit J; j_id := j_id J; j_type := j_type J; j_state := j_state J; j_result := j_result J; j_begin_usec := j_begin_usec J; j_timer_event_source := j_timer_event_source J; j_clients := j_clients J; j_deserialized_clients := j_deserialized_clients J; j_installed := j_installed J; j_in_run_queue := j_in_run_queue J; j_in_dbus_queue := j_in_dbus_queue J; j_override := j_override J; j_irreversible := v; j_ignore_order := j_ignore_order J; j_reloaded := j_reloaded J; j_sent_dbus_new_signal := j_sent_dbus_new_signal J |}.
Definition set_j_ignore_order (v : bool) (J : Job) : Job :=
  {| j_unit := j_unit J; j_id := j_id J; j_type := j_type J; j_state := j_state J; j_result := j_result J; j_begin_usec := j_begin_usec J; j_timer_event_source := j_timer_event_source J; j_clients := j_clients J; j_deserialized_clients := j_deserialized_clients J; j_installed := j_installed J; j_in_run_queue := j_in_run_queue J; j_in_dbus_queue := j_in_dbus_queue J; j_override := j_override J; j_irreversible := j_irreversible J; j_ignore_order := v; j_reloaded := j_reloaded J; j_sent_dbus_new_signal := j_sent_dbus_new_signal J |}.
Definition set_j_reloaded (v : bool) (J : Job) : Job :=
  {| j_unit := j_unit J; j_id := j_id J; j_type := j_type J; j_state := j_state J; j_result := j_result J; j_begin_usec := j_begin_usec J; j_timer_event_source := j_timer_event_source J; j_clients := j_clients J; j_deserialized_clients := j_deserialized_clients J; j_installed := j_installed J; j_in_run_queue := j_in_run_queue J; j_in_dbus_queue := j_in_dbus_queue J; j_override := j_override J; j_irreversible := j_irreversible J; j_ignore_order := j_ignore_order J; j_reloaded := v; j_sent_dbus_new_signal := j_sent_dbus_new_signal J |}.
Definition set_j_sent_dbus_new_signal (v : bool) (J : Job) : Job :=
  {| j_unit := j_unit J; j_id := j_id J; j_type := j_type J; j_state := j_state J; j_result := j_result J; j_begin_usec := j_begin_usec J; j_timer_event_source := j_timer_event_source J; j_clients := j_clients J; j_deserialized_clients := j_deserialized_clients J; j_installed := j_installed J; j_in_run_queue := j_in_run_queue J; j_in_dbus_queue := j_in_dbus_queue J; j_override := j_override J; j_irreversible := j_irreversible J; j_ignore_order := j_ignore_order J; j_reloaded := j_reloaded J; j_sent_dbus_new_signal := v |}.
Definition set_u_job (v : option nat) (U : Unit) : Unit :=
  {| u_job := v; u_nop_job := u_nop_job U; u_dependencies := u_dependencies U; u_active_state := u_active_state U; u_job_timeout := u_job_timeout U |}.
Definition set_u_nop_job (v : option nat) (U : Unit) : Unit :=
  {| u_job := u_job U; u_nop_job := v; u_dependencies := u_dependencies U; u_active_state := u_active_state U; u_job_timeout := u_job_timeout U |}.
Definition set_units (v : gmap nat Unit) (m : Manager) : Manager :=
  {| units := v; job_heap := job_heap m; next_ptr := next_ptr m; jobs := jobs m; run_queue := run_queue m; dbus_job_queue := dbus_job_queue m; pending_finished_jobs := pending_finished_jobs m; current_job_id := current_job_id m; n_installed_jobs := n_installed_jobs m; n_running_jobs := n_running_jobs m; n_failed_jobs := n_failed_jobs m; n_reloading := n_reloading m; trace := trace m |}.
Definition set_job_heap (v : gmap nat Job) (m : Manager) : Manager :=
  {| units := units m; job_heap := v; next_ptr := next_ptr m; jobs := jobs m; run_queue := run_queue m; dbus_job_queue := dbus_job_queue m; pending_finished_jobs := pending_finished_jobs m; current_job_id := current_job_id m; n_installed_jobs := n_installed_jobs m; n_running_jobs := n_running_jobs m; n_failed_jobs := n_failed_jobs m; n_reloading := n_reloading m; trace := trace m |}.
Definition set_next_ptr (v : nat) (m : Manager) : Manager :=
  {| units := units m; job_heap := job_heap m; next_ptr := v; jobs := jobs m; run_queue := run_queue m; dbus_job_queue := dbus_job_queue m; pending_finished_jobs := pending_finished_jobs m; current_job_id := current_job_id m; n_installed_jobs := n_installed_jobs m; n_running_jobs := n_running_jobs m; n_failed_jobs := n_failed_jobs m; n_reloading := n_reloading m; trace := trace m |}.
Definition set_jobs (v : gmap Z nat) (m : Manager) : Manager :=
  {| units := units m; job_heap := job_heap m; next_ptr := next_ptr m; jobs := v; run_queue := run_queue m; dbus_job_queue := dbus_job_queue m; pending_finished_jobs := pending_finished_jobs m; current_job_id := current_job_id m; n_installed_jobs := n_installed_jobs m; n_running_jobs := n_running_jobs m; n_failed_jobs := n_failed_jobs m; n_reloading := n_reloading m; trace := trace m |}.
Definition set_run_queue (v : list nat) (m : Manager) : Manager :=
  {| units := units m; job_heap := job_heap m; next_ptr := next_ptr m; jobs := jobs m; run_queue := v; dbus_job_queue := dbus_job_queue m; pending_finished_jobs := pending_finished_jobs m; current_job_id := current_job_id m; n_installed_jobs := n_installed_jobs m; n_running_jobs := n_running_jobs m; n_failed_jobs := n_failed_jobs m; n_reloading := n_reloading m; trace := trace m |}.
Definition set_dbus_job_queue (v : list nat) (m : Manager) : Manager :=
  {| units := units m; job_heap := job_heap m; next_ptr := next_ptr m; jobs := jobs m; run_queue := run_queue m; dbus_job_queue := v; pending_finished_jobs := pending_finished_jobs m; current_job_id := current_job_id m; n_installed_jobs := n_installed_jobs m; n_running_jobs := n_running_jobs m; n_failed_jobs := n_failed_jobs m; n_reloading := n_reloading m; trace := trace m |}.
Definition set_pending_finished_jobs (v : list nat) (m : Manager) : Manager :=
  {| units := units m; job_heap := job_heap m; next_ptr := next_ptr m; jobs := jobs m; run_queue := run_queue m; dbus_job_queue := dbus_job_queue m; pending_finished_jobs := v; current_job_id := current_job_id m; n_installed_jobs := n_installed_jobs m; n_running_jobs := n_running_jobs m; n_failed_jobs := n_failed_jobs m; n_reloading := n_reloading m; trace := trace m |}.
Definition set_current_job_id (v : Z) (m : Manager) : Manager :=
  {| units := units m; job_heap := job_heap m; next_ptr := next_ptr m; jobs := jobs m; run_queue := run_queue m; dbus_job_queue := dbus_job_queue m; pending_finished_jobs := pending_finished_jobs m; current_job_id := v; n_installed_jobs := n_installed_jobs m; n_running_jobs := n_running_jobs m; n_failed_jobs := n_failed_jobs m; n_reloading := n_reloading m; trace := trace m |}.
Definition set_n_installed_jobs (v : Z) (m : Manager) : Manager :=
  {| units := units m; job_heap := job_heap m; next_ptr := next_ptr m; jobs := jobs m; run_queue := run_queue m; dbus_job_queue := dbus_job_queue m; pending_finished_jobs := pending_finished_jobs m; current_job_id := current_job_id m; n_installed_jobs := v; n_running_jobs := n_running_jobs m; n_failed_jobs := n_failed_jobs m; n_reloading := n_reloading m; trace := trace m |}.
Definition set_n_running_jobs (v : Z) (m : Manager) : Manager :=
  {| units := units m; job_heap := job_heap m; next_ptr := next_ptr m; jobs := jobs m; run_queue := run_queue m; dbus_job_queue := dbus_job_queue m; pending_finished_jobs := pending_finished_jobs m; current_job_id := current_job_id m; n_installed_jobs := n_installed_jobs m; n_running_jobs := v; n_failed_jobs := n_failed_jobs m; n_reloading := n_reloading m; trace := trace m |}.
Definition set_n_failed_jobs (v : Z) (m : Manager) : Manager :=
  {| units := units m; job_heap := job_heap m; next_ptr := next_ptr m; jobs := jobs m; run_queue := run_queue m; dbus_job_queue := dbus_job_queue m; pending_finished_jobs := pending_finished_jobs m; current_job_id := current_job_id m; n_installed_jobs := n_installed_jobs m; n_running_jobs := n_running_jobs m; n_failed_jobs := v; n_reloading := n_reloading m; trace := trace m |}.
Definition set_trace (v : list Event) (m : Manager) : Manager :=
  {| units := units m; job_heap := job_heap m; next_ptr := next_ptr m; jobs := jobs m; run_queue := run_queue m; dbus_job_queue := dbus_job_queue m; pending_finished_jobs := pending_finished_jobs m; current_job_id := current_job_id m; n_installed_jobs := n_installed_jobs m; n_running_jobs := n_running_jobs m; n_failed_jobs := n_failed_jobs m; n_reloading := n_reloading m; trace := v |}.

(** ** The state-and-abort monad

    Every engine function runs on the manager state.  [Abort] is a failed
    [assert] or the dereference of a pointer that names no live object;
    [OutOfFuel] is only produced by the bounded recursion of
    [job_finish_and_invalidate_rec]. *)

Inductive outcome (A : Type) : Type :=
| Done (a : A) (m : Manager)
| Abort
| OutOfFuel.
Arguments Done {A} a m.
Arguments Abort {A}.
Arguments OutOfFuel {A}.

Definition M (A : Type) : Type := Manager -> outcome A.

#[global] Instance M_ret : MRet M := fun A a m => Done a m.
#[global] Instance M_bind : MBind M := fun A B f x m =>
  match x m with
  | Done a m' => f a m'
  | Abort => Abort
  | OutOfFuel => OutOfFuel
  end.

Definition abort {A} : M A := fun _ => Abort.
Definition out_of_fuel {A} : M A := fun _ => OutOfFuel.
Definition gets {A} (f : Manager -> A) : M A := fun m => Done (f m) m.
Definition modify (f : Manager -> Manager) : M () := fun m => Done tt (f m).
Definition massert (b : bool) : M () := if b then mret tt else abort.
Definition when (b : bool) (c : M ()) : M () := if b then c else mret tt.

Fixpoint foreach {A} (l : list A) (body : A -> M ()) : M () :=
  match l with
  | [] => mret tt
  | x :: l => body x;; foreach l body
  end.

Definition get_job (j : nat) : M Job := fun m =>
  match job_heap m !! j with
  | Some J => Done J m
  | None => Abort
  end.

Definition get_unit (u : nat) : M Unit := fun m =>
  match units m !! u with
  | Some U => Done U m
  | None => Abort
  end.

Definition update_job (j : nat) (f : Job -> Job) : M () :=
  J ← get_job j;
  modify (fun m => set_job_heap (<[j := f J]> (job_heap m)) m).

Definition update_unit (u : nat) (f : Unit -> Unit) : M () :=
  U ← get_unit u;
  modify (fun m => set_units (<[u := f U]> (units m)) m).

Definition emit (e : Event) : M () :=
  modify (fun m => set_trace (e :: trace m) m).

(** [LIST_REMOVE] on an intrusive list: the node of [j] leaves the list. *)
Definition LIST_REMOVE (j : nat) (l : list nat) : list nat :=
  filter (fun x => x ≠ j) l.

(** The slot of a unit a job of type [t] belongs to. *)
Definition unit_slot (t : JobType) (U : Unit) : option nat :=
  if decide (t = JOB_NOP) then u_nop_job U else u_job U.

Definition set_unit_slot (t : JobType) (v : option nat) (U : Unit) : Unit :=
  if decide (t = JOB_NOP) then set_u_nop_job v U else set_u_job v U.

(** ** Job construction and destruction *)

(** Allocation is taken to succeed. *)
Definition job_new_raw (u : nat) : M nat :=
  get_unit u;;
  p ← gets next_ptr;
  modify (fun m =>
    set_next_ptr (S p)
      (set_job_heap
         (<[p := {| j_unit := u; j_id := 0; j_type := _JOB_TYPE_INVALID;
                    j_state := JOB_WAITING; j_result := JOB_DONE;
                    j_begin_usec := 0; j_timer_event_source := None;
                    j_clients := []; j_deserialized_clients := [];
                    j_installed := false; j_in_run_queue := false;
                    j_in_dbus_queue := false; j_override := false;
                    j_irreversible := false; j_ignore_order := false;
                    j_reloaded := false; j_sent_dbus_new_signal := false |}]>
            (job_heap m)) m));;
  mret p.

Definition job_new (u : nat) (type : JobType) : M nat :=
  massert (JobType_to_Z type <? _JOB_TYPE_MAX);;
  j ← job_new_raw u;
  id ← gets current_job_id;
  modify (set_current_job_id (u32 (id + 1)));;
  update_job j (fun J => set_j_type type (set_j_id id J));;
  mret j.

Definition job_unlink (j : nat) : M () :=
  J ← get_job j;
  massert (negb (j_installed J));;
  when (j_in_run_queue J)
    (modify (fun m => set_run_queue (LIST_REMOVE j (run_queue m)) m);;
     update_job j (set_j_in_run_queue false));;
  J ← get_job j;
  when (j_in_dbus_queue J)
    (modify (fun m => set_dbus_job_queue (LIST_REMOVE j (dbus_job_queue m)) m);;
     update_job j (set_j_in_dbus_queue false));;
  update_job j (set_j_timer_event_source None).

Definition job_free (j : nat) : M () :=
  J ← get_job j;
  massert (negb (j_installed J));;
  job_unlink j;;
  modify (fun m => set_job_heap (delete j (job_heap m)) m).

Definition job_set_state (j : nat) (state : JobState) : M () :=
  J ← get_job j;
  if decide (j_state J = state) then mret tt
  else
    update_job j (set_j_state state);;
    if negb (j_installed J) then mret tt
    else if decide (state = JOB_RUNNING) then
      modify (fun m => set_n_running_jobs (u32 (n_running_jobs m + 1)) m)
    else
      n ← gets n_running_jobs;
      massert (0 <? n);;
      modify (set_n_running_jobs (n - 1));;
      when (n - 1 <=? 0) (emit EvJobsInProgressEventSourceUnref).

Definition job_uninstall (j : nat) : M () :=
  J ← get_job j;
  massert (j_installed J);;
  job_set_state j JOB_WAITING;;
  U ← get_unit (j_unit J);
  massert (bool_decide (unit_slot (j_type J) U = Some j));;
  nr ← gets n_reloading;
  when (nr <=? 0) (emit (EvJobRemovedSignal j));;
  update_unit (j_unit J) (set_unit_slot (j_type J) None);;
  emit (EvUnitAddToGcQueue (j_unit J));;
  modify (fun m => set_jobs (delete (j_id J) (jobs m)) m);;
  update_job j (set_j_installed false).

Definition job_merge_into_installed (j other : nat) : M () :=
  J ← get_job j;
  O ← get_job other;
  massert (j_installed J);;
  massert (bool_decide (j_unit J = j_unit O));;
  (if decide (j_type J ≠ JOB_NOP) then
     U ← get_unit (j_unit J);
     match job_type_merge_and_collapse (j_type J) (j_type O) (u_active_state U) with
     | Some (_, t) => update_job j (set_j_type t)
     | None => abort
     end
   else massert (bool_decide (j_type O = JOB_NOP)));;
  update_job j (fun J =>
    set_j_ignore_order (j_ignore_order J || j_ignore_order O)
      (set_j_irreversible (j_irreversible J || j_irreversible O)
         (set_j_override (j_override J || j_override O) J))).

(** ** Queues *)

Definition job_add_to_run_queue (j : nat) : M () :=
  J ← get_job j;
  massert (j_installed J);;
  if j_in_run_queue J then mret tt
  else
    q ← gets run_queue;
    when (bool_decide (q = [])) (emit EvRunQueueEventSourceEnabled);;
    modify (fun m => set_run_queue (j :: run_queue m) m);;
    update_job j (set_j_in_run_queue true).

Definition job_add_to_dbus_queue (j : nat) : M () :=
  J ← get_job j;
  massert (j_installed J);;
  if j_in_dbus_queue J then mret tt
  else
    modify (fun m => set_dbus_job_queue (j :: dbus_job_queue m) m);;
    update_job j (set_j_in_dbus_queue true).

Definition job_change_type (j : nat) (newtype : JobType) : M () :=
  update_job j (set_j_type newtype).

(** Allocation of the set is taken to succeed, so the result is never
    negative. *)
Definition job_save_pending_finished_job (j : nat) : M Z :=
  job_unlink j;;
  modify (fun m => set_pending_finished_jobs (j :: pending_finished_jobs m) m);;
  mret 1.

(** ** Runnability *)

(** The first loop of [job_is_runnable]: is there a job on some unit of
    the set? *)
Fixpoint any_unit_has_job (l : list nat) : M bool :=
  match l with
  | [] => mret false
  | other :: l =>
      O ← get_unit other;
      match u_job O with
      | Some _ => mret true
      | None => any_unit_has_job l
      end
  end.

(** The second loop: is there a stop or restart job on some unit of the
    set? *)
Fixpoint any_unit_has_stop_job (l : list nat) : M bool :=
  match l with
  | [] => mret false
  | other :: l =>
      O ← get_unit other;
      match u_job O with
      | Some oj =>
          OJ ← get_job oj;
          if bool_decide (j_type OJ = JOB_STOP) || bool_decide (j_type OJ = JOB_RESTART)
          then mret true
          else any_unit_has_stop_job l
      | None => any_unit_has_stop_job l
      end
  end.

Definition job_is_runnable (j : nat) : M bool :=
  J ← get_job j;
  massert (j_installed J);;
  if j_ignore_order J then mret true
  else if decide (j_type J = JOB_NOP) then mret true
  else
    U ← get_unit (j_unit J);
    blocked ←
      (if bool_decide (j_type J = JOB_START) ||
          bool_decide (j_type J = JOB_VERIFY_ACTIVE) ||
          bool_decide (j_type J = JOB_RELOAD)
       then any_unit_has_job (u_dependencies U UNIT_AFTER)
       else mret false);
    if (blocked : bool) then mret false
    else
      stopping ← any_unit_has_stop_job (u_dependencies U UNIT_BEFORE);
      mret (negb stopping).

(** ** Finishing a job and propagating the result *)

Definition is_start_or_verify (t : JobType) : bool :=
  bool_decide (t = JOB_START) || bool_decide (t = JOB_VERIFY_ACTIVE).

(** One [SET_FOREACH] loop of the dependency-failure block; [finish] is
    the recursive call [job_finish_and_invalidate(other->job,
    JOB_DEPENDENCY, true, false)] and [skip_override] tells the loop over
    [UNIT_REQUIRED_BY_OVERRIDABLE] from the other three. *)
Definition fail_dependents (finish : nat -> M Z) (skip_override : bool)
    (l : list nat) : M () :=
  foreach l (fun other =>
    O ← get_unit other;
    match u_job O with
    | Some oj =>
        OJ ← get_job oj;
        if negb (skip_override && j_override OJ) && is_start_or_verify (j_type OJ)
        then finish oj;; mret tt
        else mret tt
    | None => mret tt
    end).

(** The two loops after the [finish:] label. *)
Definition requeue_neighbours (l : list nat) : M () :=
  foreach l (fun other =>
    O ← get_unit other;
    match u_job O with
    | Some oj => job_add_to_run_queue oj
    | None => mret tt
    end).

Definition finish_label (u : nat) : M Z :=
  U ← get_unit u;
  requeue_neighbours (u_dependencies U UNIT_AFTER);;
  requeue_neighbours (u_dependencies U UNIT_BEFORE);;
  emit EvManagerCheckFinished;;
  mret 0.

Fixpoint job_finish_and_invalidate_rec (fuel : nat) (j : nat)
    (result : JobResult) (recursive already : bool) : M Z :=
  match fuel with
  | O => out_of_fuel
  | S fuel =>
      J ← get_job j;
      massert (j_installed J);;
      massert (JobType_to_Z (j_type J) <? _JOB_TYPE_MAX_IN_TRANSACTION);;
      let u := j_unit J in
      let t := j_type J in
      update_job j (set_j_result result);;
      emit (EvJobFinished j u t result);;
      when (negb already) (emit (EvStatusMessage u t result));;
      job_add_to_dbus_queue j;;
      if bool_decide (result = JOB_DONE) && bool_decide (t = JOB_RESTART) then
        job_change_type j JOB_START;;
        job_set_state j JOB_WAITING;;
        job_add_to_run_queue j;;
        finish_label u
      else
        when (bool_decide (result = JOB_FAILED) || bool_decide (result = JOB_INVALID))
          (modify (fun m => set_n_failed_jobs (u32 (n_failed_jobs m + 1)) m));;
        job_uninstall j;;
        nr ← gets n_reloading;
        J' ← get_job j;
        (if (0 <? nr) && j_reloaded J' then
           r ← job_save_pending_finished_job j;
           when (r <? 0) (job_free j)
         else job_free j);;
        U ← get_unit u;
        when (negb (bool_decide (result = JOB_DONE)) && recursive)
          (let finish oj :=
             job_finish_and_invalidate_rec fuel oj JOB_DEPENDENCY true false in
           if is_start_or_verify t then
             fail_dependents finish false (u_dependencies U UNIT_REQUIRED_BY);;
             fail_dependents finish false (u_dependencies U UNIT_BOUND_BY);;
             fail_dependents finish true (u_dependencies U UNIT_REQUIRED_BY_OVERRIDABLE)
           else if bool_decide (t = JOB_STOP) then
             fail_dependents finish false (u_dependencies U UNIT_CONFLICTED_BY)
           else mret tt);;
        when (bool_decide (result = JOB_TIMEOUT) || bool_decide (result = JOB_DEPENDENCY))
          (emit (EvJobFailedNotice u t result);;
           emit (EvUnitStartOnFailure u));;
        emit (EvUnitTriggerNotify u);;
        finish_label u
  end.

(** Every nested call finishes a job that sits in the regular slot of some
    unit, after the caller emptied the slot of its own unit; so the depth
    of the recursion is bounded by the number of units. *)
Definition job_finish_and_invalidate (j : nat) (result : JobResult)
    (recursive already : bool) : M Z := fun m =>
  job_finish_and_invalidate_rec (S (size (units m))) j result recursive already m.

(** ** Installing a job into the slot of its unit *)

Definition job_install (j : nat) : M nat :=
  J ← get_job j;
  massert (negb (j_installed J));;
  massert (JobType_to_Z (j_type J) <? _JOB_TYPE_MAX_IN_TRANSACTION);;
  massert (bool_decide (j_state J = JOB_WAITING));;
  U ← get_unit (j_unit J);
  let install : M nat :=
    update_unit (j_unit J) (set_unit_slot (j_type J) (Some j));;
    update_job j (set_j_installed true);;
    modify (fun m => set_n_installed_jobs (u32 (n_installed_jobs m + 1)) m);;
    emit (EvJobInstalled j (j_unit J) (j_type J));;
    mret j in
  match unit_slot (j_type J) U with
  | Some uj =>
      UJ ← get_job uj;
      match job_type_is_conflicting (j_type UJ) (j_type J) with
      | None => abort
      | Some true =>
          job_finish_and_invalidate uj JOB_CANCELED false false;;
          install
      | Some false =>
          late ←
            (if bool_decide (j_state UJ = JOB_WAITING) then mret true
             else if job_type_allows_late_merge (j_type J) then
               match job_type_is_superset (j_type UJ) (j_type J) with
               | Some b => mret b
               | None => abort
               end
             else mret false);
          if (late : bool) then
            job_merge_into_installed uj j;;
            UJ' ← get_job uj;
            emit (EvJobMerged uj (j_unit UJ') (j_type UJ'));;
            mret uj
          else
            job_merge_into_installed uj j;;
            UJ' ← get_job uj;
            emit (EvJobMergedRunning uj (j_unit UJ') (j_type UJ'));;
            job_set_state uj JOB_WAITING;;
            mret uj
      end
  | None => install
  end.

Definition job_install_deserialized (j : nat) : M Z :=
  J ← get_job j;
  massert (negb (j_installed J));;
  if (JobType_to_Z (j_type J) <? 0) ||
     (_JOB_TYPE_MAX_IN_TRANSACTION <=? JobType_to_Z (j_type J))
  then mret (- EINVAL)
  else
    U ← get_unit (j_unit J);
    match unit_slot (j_type J) U with
    | Some _ => mret (- EEXIST)
    | None =>
        update_unit (j_unit J) (set_unit_slot (j_type J) (Some j));;
        update_job j (fun J => set_j_reloaded true (set_j_installed true J));;
        when (bool_decide (j_state J = JOB_RUNNING))
          (modify (fun m => set_n_running_jobs (u32 (n_running_jobs m + 1)) m));;
        mret 0
    end.

(** ** Running a job *)

(** The unit primitives are supplied by the unit kinds; each returns 0 or
    a negative errno. *)
Record UnitVTable : Type := mkUnitVTable {
  unit_start : nat -> M Z;
  unit_stop : nat -> M Z;
  unit_reload : nat -> M Z
}.

Definition manager_get_job (id : Z) : M (option nat) :=
  gets (fun m => jobs m !! id).

Definition job_run_and_invalidate (vt : UnitVTable) (j : nat) : M Z :=
  J ← get_job j;
  massert (j_installed J);;
  massert (JobType_to_Z (j_type J) <? _JOB_TYPE_MAX_IN_TRANSACTION);;
  massert (j_in_run_queue J);;
  modify (fun m => set_run_queue (LIST_REMOVE j (run_queue m)) m);;
  update_job j (set_j_in_run_queue false);;
  if negb (bool_decide (j_state J = JOB_WAITING)) then mret 0
  else
    runnable ← job_is_runnable j;
    if negb runnable then mret (- EAGAIN)
    else
      job_set_state j JOB_RUNNING;;
      job_add_to_dbus_queue j;;
      let id := j_id J in
      r ←
        match j_type J with
        | JOB_START =>
            r ← unit_start vt (j_unit J);
            mret (if decide (r = - EBADR) then 0 else r)
        | JOB_VERIFY_ACTIVE =>
            U ← get_unit (j_unit J);
            if UNIT_IS_ACTIVE_OR_RELOADING (u_active_state U) then mret (- EALREADY)
            else if decide (u_active_state U = UNIT_ACTIVATING) then mret (- EAGAIN)
            else mret (- EBADR)
        | JOB_STOP | JOB_RESTART =>
            r ← unit_stop vt (j_unit J);
            mret (if decide (r = - EBADR) then 0 else r)
        | JOB_RELOAD => unit_reload vt (j_unit J)
        | JOB_NOP => mret (- EALREADY)
        | _ => abort
        end;
      found ← manager_get_job id;
      match found with
      | Some j =>
          if decide (r = - EALREADY) then job_finish_and_invalidate j JOB_DONE true true
          else if decide (r = - EBADR) then job_finish_and_invalidate j JOB_SKIPPED true false
          else if decide (r = - ENOEXEC) then job_finish_and_invalidate j JOB_INVALID true false
          else if decide (r = - EPROTO) then job_finish_and_invalidate j JOB_ASSERT true false
          else if decide (r = - ENOTSUP) then job_finish_and_invalidate j JOB_UNSUPPORTED true false
          else if decide (r = - EAGAIN) then job_set_state j JOB_WAITING;; mret r
          else if r <? 0 then job_finish_and_invalidate j JOB_FAILED true false
          else mret r
      | None => mret r
      end.

(** ** Timers *)

Definition job_dispatch_timer (j : nat) : M Z :=
  J ← get_job j;
  massert (bool_decide (is_Some (j_timer_event_source J)));;
  job_finish_and_invalidate j JOB_TIMEOUT true false;;
  emit (EvEmergencyAction (j_unit J));;
  mret 0.

(** [now] is the reading of the monotonic clock; registering the timer is
    taken to succeed. *)
Definition job_start_timer (now : Z) (j : nat) : M Z :=
  J ← get_job j;
  match j_timer_event_source J with
  | Some _ => mret 0
  | None =>
      update_job j (set_j_begin_usec now);;
      U ← get_unit (j_unit J);
      if u_job_timeout U <=? 0 then mret 0
      else
        update_job j
          (set_j_timer_event_source (Some ((now + u_job_timeout U) mod 2 ^ 64)));;
        mret 0
  end.

(** ** Specifications of engine code *)

(** [wpg E c Q m]: running [c] from [m] returns, in a state and with a
    value that satisfy [Q]; when the run aborts or runs out of fuel the
    verdict is [E].  With [E := False] this is total correctness, with
    [E := True] partial correctness. *)
Definition wpg {A} (E : Prop) (c : M A) (Q : A -> Manager -> Prop)
    (m : Manager) : Prop :=
  match c m with
  | Done a m' => Q a m'
  | _ => E
  end.

Abbreviation wp := (wpg False).
Abbreviation wlp := (wpg True).

(** ** Well-formed manager states *)

(** The job a slot points to is live, belongs to this unit, is installed,
    is of the slot's kind and of a type that may enter a transaction. *)
Definition slot_job_ok (h : gmap nat Job) (nop : bool) (u p : nat) : bool :=
  match h !! p with
  | Some J =>
      bool_decide (j_unit J = u) && j_installed J
      && bool_decide (bool_decide (j_type J = JOB_NOP) = nop)
      && (JobType_to_Z (j_type J) <? _JOB_TYPE_MAX_IN_TRANSACTION)
  | None => false
  end.

Definition all_dependencies : list UnitDependency :=
  [UNIT_AFTER; UNIT_BEFORE; UNIT_REQUIRED_BY; UNIT_REQUIRED_BY_OVERRIDABLE;
   UNIT_BOUND_BY; UNIT_CONFLICTED_BY].

Definition unit_ok (us : gmap nat Unit) (h : gmap nat Job) (u : nat) (U : Unit) : bool :=
  from_option (slot_job_ok h false u) true (u_job U)
  && from_option (slot_job_ok h true u) true (u_nop_job U)
  && forallb (fun d =>
       forallb (fun o => bool_decide (is_Some (us !! o))) (u_dependencies U d))
       all_dependencies.

(** An installed job sits in the slot of its unit. *)
Definition job_ok (us : gmap nat Unit) (p : nat) (J : Job) : bool :=
  negb (j_installed J)
  || match us !! j_unit J with
     | Some U => bool_decide (unit_slot (j_type J) U = Some p)
     | None => false
     end.

Definition running_installed (J : Job) : bool :=
  j_installed J && bool_decide (j_state J = JOB_RUNNING).

(** The number of entries of a store that pass a test. *)
Definition count_if {A} (f : A -> bool) (s : gmap nat A) : nat :=
  size (filter (fun kv : nat * A => f kv.2 = true) s).

Definition count_running (h : gmap nat Job) : nat :=
  count_if running_installed h.

Record WF' (us : gmap nat Unit) (h : gmap nat Job) (n : Z) : Prop := mkWF {
  wf_units : map_Forall (fun u U => unit_ok us h u U = true) us;
  wf_jobs : map_Forall (fun p J => job_ok us p J = true) h;
  wf_running : n = Z.of_nat (count_running h)
}.

Definition WF (m : Manager) : Prop :=
  WF' (units m) (job_heap m) (n_running_jobs m).

#[global] Instance WF'_dec us h n : Decision (WF' us h n).
Proof.
  destruct (decide (map_Forall (fun u U => unit_ok us h u U = true) us)) as [H1|H1];
    [|right; intros [? ? ?]; done].
  destruct (decide (map_Forall (fun p J => job_ok us p J = true) h)) as [H2|H2];
    [|right; intros [? ? ?]; done].
  destruct (decide (n = Z.of_nat (count_running h))) as [H3|H3];
    [|right; intros [? ? ?]; done].
  left; by constructor.
Defined.

#[global] Instance WF_dec m : Decision (WF m).
Proof. unfold WF; apply _. Defined.

(** The number of units whose regular slot is taken: the measure that
    bounds the recursion of [job_finish_and_invalidate_rec]. *)
Definition has_job (U : Unit) : bool := bool_decide (is_Some (u_job U)).

Definition occupied (us : gmap nat Unit) : nat := count_if has_job us.

(** The fields of a job that well-formedness looks at. *)
Definition job_core (J : Job) : nat * bool * JobType * JobState :=
  (j_unit J, j_installed J, j_type J, j_state J).

Definition job_is_installed (m : Manager) (j : nat) : bool :=
  match job_heap m !! j with
  | Some J => j_installed J
  | None => false
  end.

(** What a run of the finish kernel may do to the units: slots are only
    ever emptied and no unit goes away. *)
Definition units_shrink (m m' : Manager) : Prop :=
  (occupied (units m') <= occupied (units m))%nat /\
  (forall o, is_Some (units m !! o) -> is_Some (units m' !! o)).

(** ** What a run of the finish kernel changes

    [job_stable m m' o p]: the job [p] still sits in the regular slot of
    unit [o], with its type and override flag as they were. *)
Definition job_stable (m m' : Manager) (o p : nat) : Prop :=
  (exists O', units m' !! o = Some O' /\ u_job O' = Some p) /\
  (forall P, job_heap m !! p = Some P ->
     exists P', job_heap m' !! p = Some P' /\
       j_type P' = j_type P /\ j_override P' = j_override P).

(** [changes X ex m m']: from [m] to [m'] the dependency sets are kept,
    jobs that were not installed are untouched, only jobs and results
    allowed by [X] were logged as finished, every job that sat in a
    regular slot either still does or was logged as finished, and the
    failure counter moved only if [X] allows a failed or invalid result.
    Nothing is created on the way: a unit of [m'] is a unit of [m], its
    regular slot as before or emptied, and a job of [m'] that was not
    logged as finished is a job of [m] with the same type and override
    flag.  The job [ex], if any, is exempt: it is the one being worked
    on. *)
Record changes (X : nat -> JobResult -> Prop) (ex : option nat)
    (m m' : Manager) : Prop := mkChanges {
  ch_units : forall o O, units m !! o = Some O ->
    exists O', units m' !! o = Some O' /\ u_dependencies O' = u_dependencies O;
  ch_units_rev : forall o O', units m' !! o = Some O' ->
    exists O, units m !! o = Some O /\
      (u_job O' = u_job O \/ u_job O' = None);
  ch_heap : forall p, Some p ≠ ex -> job_is_installed m p = false ->
    job_heap m' !! p = job_heap m !! p;
  ch_trace : exists new, trace m' = new ++ trace m /\
    (forall p u t r, EvJobFinished p u t r ∈ new -> X p r) /\
    (forall o O p, units m !! o = Some O -> u_job O = Some p ->
       Some p = ex \/ job_stable m m' o p \/
       exists u t r, EvJobFinished p u t r ∈ new /\
         (r ≠ JOB_DONE -> job_is_installed m' p = false)) /\
    (forall q Q', job_heap m' !! q = Some Q' ->
       Some q = ex \/ (exists u t r, EvJobFinished q u t r ∈ new) \/
       exists Q, job_heap m !! q = Some Q /\
         j_type Q' = j_type Q /\ j_override Q' = j_override Q);
  ch_failed : (forall p, ~ X p JOB_FAILED /\ ~ X p JOB_INVALID) ->
    n_failed_jobs m' = n_failed_jobs m
}.

(** The event [e] was logged on the way from [m] to [m']. *)
Definition logged (m m' : Manager) (e : Event) : Prop :=
  exists new, trace m' = new ++ trace m /\ e ∈ new.

(** The jobs and results a run of [job_finish_and_invalidate] on [j] with
    [result] may log as finished: the job itself, and dependents failed
    with [JOB_DEPENDENCY]. *)
Definition finish_allows (j : nat) (result : JobResult)
    (p : nat) (r : JobResult) : Prop :=
  (p = j /\ r = result) \/ r = JOB_DEPENDENCY.

(** What [job_finish_and_invalidate j result ...] guarantees when it
    returns: the run is logged, and unless it patched a restart into a
    start the job is no longer installed. *)
Definition finish_post (j : nat) (result : JobResult) (m m' : Manager) : Prop :=
  changes (finish_allows j result) None m m' /\
  (forall J, job_heap m !! j = Some J ->
     logged m m' (EvJobFinished j (j_unit J) (j_type J) result) /\
     (~ (result = JOB_DONE /\ j_type J = JOB_RESTART) ->
      job_is_installed m' j = false)).

(** The job [p], other than [j], sits in the regular slot of the unit [o]
    in [m] and is one the dependency-failure loops would fail: a start or
    verify-active job and, in the loop that skips overriding jobs, one
    without the override flag. *)
Definition dependent_job (m : Manager) (j : nat) (skip_override : bool)
    (o p : nat) : Prop :=
  p ≠ j /\
  exists O P, units m !! o = Some O /\ u_job O = Some p /\
    job_heap m !! p = Some P /\
    is_start_or_verify (j_type P) = true /\
    (skip_override = true -> j_override P = false).

(** The units the dependency-failure block of a job [J] of unit [U]
    visits, with the loop that visits them: for a start or verify-active
    job the units of [UNIT_REQUIRED_BY] and [UNIT_BOUND_BY], and with
    [skip_override] those of [UNIT_REQUIRED_BY_OVERRIDABLE]; for a stop
    job the units of [UNIT_CONFLICTED_BY]. *)
Definition propagates_to (J : Job) (U : Unit) (skip_override : bool)
    (o : nat) : Prop :=
  (is_start_or_verify (j_type J) = true /\
   ((skip_override = false /\
     (o ∈ u_dependencies U UNIT_REQUIRED_BY \/
      o ∈ u_dependencies U UNIT_BOUND_BY)) \/
    (skip_override = true /\
     o ∈ u_dependencies U UNIT_REQUIRED_BY_OVERRIDABLE))) \/
  (j_type J = JOB_STOP /\ skip_override = false /\
   o ∈ u_dependencies U UNIT_CONFLICTED_BY).

(** On the way from [m] to [m'] the job [p] was finished with result
    [JOB_DEPENDENCY], and it is no longer installed. *)
Definition failed_dependency (m m' : Manager) (p : nat) : Prop :=
  (exists u t, logged m m' (EvJobFinished p u t JOB_DEPENDENCY)) /\
  job_is_installed m' p = false.

(** The run from [m] to [m'] finished no job but [j]. *)
Definition only_finished (j : nat) (m m' : Manager) : Prop :=
  forall p u t r, logged m m' (EvJobFinished p u t r) -> p = j.

(** ** Statements of the specification *)

(** Merge followed by collapse, as a partial operation: [None] when the
    two types conflict (the C function returns [-EEXIST]) or lie outside
    the merge domain. *)
Definition merge_then_collapse (a b : JobType) (s : UnitActiveState)
  : option JobType :=
  match job_type_merge_and_collapse a b s with
  | Some (0, t) => Some t
  | _ => None
  end.

Definition is_positive_type (t : JobType) : bool :=
  bool_decide (t = JOB_START) || bool_decide (t = JOB_VERIFY_ACTIVE)
  || bool_decide (t = JOB_RELOAD).

(** The runnability rule of the specification, for a job with the given
    flag and type on the unit [U]. *)
Definition runnable_rule (us : gmap nat Unit) (h : gmap nat Job)
    (ignore_order : bool) (t : JobType) (U : Unit) : Prop :=
  ignore_order = true \/ t = JOB_NOP \/
  ((is_positive_type t = true ->
    forall o O, o ∈ u_dependencies U UNIT_AFTER -> us !! o = Some O ->
      u_job O = None) /\
   (forall o O p P, o ∈ u_dependencies U UNIT_BEFORE -> us !! o = Some O ->
      u_job O = Some p -> h !! p = Some P ->
      j_type P ≠ JOB_STOP /\ j_type P ≠ JOB_RESTART)).

(** The job [j] as the restart patch leaves it: an installed, waiting
    start job with the id [id], marked as queued and present in the run
    queue. *)
Definition patched (j : nat) (id : Z) (m : Manager) : Prop :=
  exists J, job_heap m !! j = Some J /\ j_installed J = true /\
    j_type J = JOB_START /\ j_state J = JOB_WAITING /\ j_id J = id /\
    j_in_run_queue J = true /\ j ∈ run_queue m.

(** The fields of a job the restart patch is about. *)
Definition job_sig (J : Job) : nat * Z * bool * JobType * JobState * bool :=
  (j_unit J, j_id J, j_installed J, j_type J, j_state J, j_in_run_queue J).

(** The queue bit of [j] is backed by the run queue. *)
Definition queued_if_marked (j : nat) (m : Manager) : Prop :=
  forall J, job_heap m !! j = Some J -> j_in_run_queue J = true -> j ∈ run_queue m.

(** ** The serializer *)

Definition ENOBUFS : Z := 105.

(** Modelled from the spec: [LONG_LINE_MAX] of def.h, one MiB. *)
Definition LONG_LINE_MAX : Z := 1048576.

Definition NUL : ascii := "000"%char.
Definition NEWLINE : ascii := "010"%char.

(** [read_line] of fileio.c, on a stream held in memory: [f] is what is
    left to read, [n] the number of characters stored so far.  The result
    is the return value (the number of bytes read, or [-ENOBUFS]), the
    line without its delimiter, and what is left of the stream. *)
Fixpoint read_line_from (limit n : Z) (f : string) : Z * string * string :=
  if limit <=? n then (- ENOBUFS, EmptyString, f)
  else
    match f with
    | EmptyString => (0, EmptyString, EmptyString)
    | String c f' =>
        if Ascii.eqb c NEWLINE || Ascii.eqb c NUL then (1, EmptyString, f')
        else
          let '(count, line, rest) := read_line_from limit (n + 1) f' in
          (if count <? 0 then count else count + 1, String c line, rest)
    end.

Definition read_line (limit : Z) (f : string) : Z * string * string :=
  read_line_from limit 0 f.

(** Modelled from the spec: [WHITESPACE] and [strstrip] of util.[ch];
    [strstrip] drops the white space at both ends of a line. *)
Definition is_whitespace (c : ascii) : bool :=
  Ascii.eqb c " " || Ascii.eqb c "009" || Ascii.eqb c "010" || Ascii.eqb c "013".

Fixpoint skip_whitespace (s : string) : string :=
  match s with
  | String c s' => if is_whitespace c then skip_whitespace s' else s
  | EmptyString => EmptyString
  end.

Fixpoint drop_trailing_whitespace (s : string) : string :=
  match s with
  | EmptyString => EmptyString
  | String c s' =>
      match drop_trailing_whitespace s' with
      | EmptyString => if is_whitespace c then EmptyString else String c EmptyString
      | r => String c r
      end
  end.

Definition strstrip (s : string) : string :=
  drop_trailing_whitespace (skip_whitespace s).

(** [k = strcspn(l, "=")] and the split that follows it: the key is [l]
    up to the first ['='], the value what comes after it (the empty rest
    of the line if there is none). *)
Fixpoint split_assignment (l : string) : string * string :=
  match l with
  | EmptyString => (EmptyString, EmptyString)
  | String c l' =>
      if Ascii.eqb c "=" then (EmptyString, l')
      else let '(k, v) := split_assignment l' in (String c k, v)
  end.

(** [fprintf] with [%u] and [USEC_FMT]: the decimal numeral of an unsigned
    value. *)
Definition print_unsigned (z : Z) : string :=
  NilZero.string_of_uint (N.to_uint (Z.to_N z)).

Definition is_digit (c : ascii) : bool :=
  (48 <=? nat_of_ascii c)%nat && (nat_of_ascii c <=? 57)%nat.

Fixpoint digits_prefix (s : string) : string :=
  match s with
  | String c s' => if is_digit c then String c (digits_prefix s') else EmptyString
  | EmptyString => EmptyString
  end.

Definition decimal_value (s : string) : option Z :=
  match NilZero.uint_of_string s with
  | Some d => Some (Z.of_N (N.of_uint d))
  | None => None
  end.

(** Modelled from the spec: [safe_atou32] of util.c, on decimal numerals:
    the value of a non-empty numeral that fits 32 bits, an error ([None])
    otherwise. *)
Definition safe_atou32 (s : string) : option Z :=
  if String.eqb s EmptyString then None
  else
    match decimal_value s with
    | Some n => if n <? 2 ^ 32 then Some n else None
    | None => None
    end.

(** [isspace] of the C library, in the C locale: the space and the five
    control characters from tab to carriage return. *)
Definition isspace (c : ascii) : bool :=
  Ascii.eqb c " " || ((9 <=? nat_of_ascii c)%nat && (nat_of_ascii c <=? 13)%nat).

Fixpoint skip_isspace (s : string) : string :=
  match s with
  | String c s' => if isspace c then skip_isspace s' else s
  | EmptyString => EmptyString
  end.

(** The optional sign of a numeral: whether it is a minus, and what
    follows the sign. *)
Definition scan_sign (s : string) : bool * string :=
  match s with
  | String c s' =>
      if Ascii.eqb c "-" then (true, s')
      else if Ascii.eqb c "+" then (false, s')
      else (false, s)
  | EmptyString => (false, s)
  end.

Definition ULLONG_MAX : Z := 2 ^ 64 - 1.

(** [sscanf(v, "%llu", &ull)] of the C library: white space ([isspace])
    is skipped, then an optional sign and the longest run of decimal
    digits are read; without a digit nothing is stored.  The value is the
    one of [strtoull]: [ULLONG_MAX] for a numeral beyond 64 bits, and
    after a minus sign the numeral negated modulo 2^64. *)
Definition sscanf_llu (v : string) : option Z :=
  let '(negative, s) := scan_sign (skip_isspace v) in
  let d := digits_prefix s in
  if String.eqb d EmptyString then None
  else
    match decimal_value d with
    | Some n =>
        if ULLONG_MAX <? n then Some ULLONG_MAX
        else if (negative : bool) then Some ((- n) mod 2 ^ 64)
        else Some n
    | None => None
    end.

(** Modelled from the spec: [yes_no] and [parse_boolean] of util.[ch]. *)
Definition yes_no (b : bool) : string := if b then "yes"%string else "no"%string.

Definition ascii_to_lower (c : ascii) : ascii :=
  let n := nat_of_ascii c in
  if (65 <=? n)%nat && (n <=? 90)%nat then ascii_of_nat (n + 32) else c.

Fixpoint string_to_lower (s : string) : string :=
  match s with
  | EmptyString => EmptyString
  | String c s' => String (ascii_to_lower c) (string_to_lower s')
  end.

Definition parse_boolean (v : string) : option bool :=
  let s := string_to_lower v in
  if existsb (String.eqb s) ["1"; "yes"; "y"; "true"; "t"; "on"]%string then Some true
  else if existsb (String.eqb s) ["0"; "no"; "n"; "false"; "f"; "off"]%string then Some false
  else None.

(** [job_type_table] and [job_state_table], in index order; a type
    without an entry has a [NULL] name. *)
Definition job_type_table : list (JobType * string) :=
  [ (JOB_START, "start"); (JOB_VERIFY_ACTIVE, "verify-active");
    (JOB_STOP, "stop"); (JOB_RELOAD, "reload"); (JOB_RESTART, "restart");
    (JOB_NOP, "nop"); (JOB_TRY_RESTART, "try-restart");
    (JOB_RELOAD_OR_START, "reload-or-start") ]%string.

Definition job_state_table : list (JobState * string) :=
  [ (JOB_WAITING, "waiting"); (JOB_RUNNING, "running") ]%string.

(** Modelled from the spec: the two functions [DEFINE_STRING_TABLE_LOOKUP]
    of util.h generates for a table: the name at an index ([None] for
    [NULL]) and the first index whose name is the given string. *)
Fixpoint table_to_string {A} `{EqDecision A} (table : list (A * string))
    (i : A) : option string :=
  match table with
  | [] => None
  | (k, s) :: table => if decide (k = i) then Some s else table_to_string table i
  end.

Fixpoint table_from_string {A} (table : list (A * string)) (s : string)
  : option A :=
  match table with
  | [] => None
  | (k, name) :: table =>
      if String.eqb name s then Some k else table_from_string table s
  end.

Definition job_type_to_string : JobType -> option string :=
  table_to_string job_type_table.

Definition job_type_from_string (s : string) : JobType :=
  default _JOB_TYPE_INVALID (table_from_string job_type_table s).

Definition job_state_to_string : JobState -> option string :=
  table_to_string job_state_table.

Definition job_state_from_string : string -> option JobState :=
  table_from_string job_state_table.

(** [fprintf] with [%s]: glibc prints a [NULL] string as "(null)". *)
Definition print_string (s : option string) : string :=
  default "(null)"%string s.

Definition line (key value : string) : string :=
  String.append key (String "=" (String.append value (String NEWLINE EmptyString))).

(** Modelled from the spec: [bus_track_serialize] of bus-util.c writes one
    [subscribed=] line for each name the track holds. *)
Definition bus_track_serialize (clients : list string) : string :=
  String.concat EmptyString (map (line "subscribed") clients).

(** [job_serialize]: [f] is what the stream holds so far. *)
Definition job_serialize (j : nat) (f : string) : M (Z * string) :=
  J ← get_job j;
  mret (0,
    String.concat EmptyString
      [ f;
        line "job-id" (print_unsigned (j_id J));
        line "job-type" (print_string (job_type_to_string (j_type J)));
        line "job-state" (print_string (job_state_to_string (j_state J)));
        line "job-override" (yes_no (j_override J));
        line "job-irreversible" (yes_no (j_irreversible J));
        line "job-sent-dbus-new-signal" (yes_no (j_sent_dbus_new_signal J));
        line "job-ignore-order" (yes_no (j_ignore_order J));
        (if 0 <? j_begin_usec J then line "job-begin" (print_unsigned (j_begin_usec J))
         else EmptyString);
        bus_track_serialize (j_clients J);
        String NEWLINE EmptyString ]).

(** One pass of the loop of [job_deserialize] on the line [l], already
    stripped and not empty. *)
Definition job_deserialize_line (j : nat) (l : string) : M () :=
  let '(key, v) := split_assignment l in
  if String.eqb key "job-id" then
    match safe_atou32 v with
    | Some id => update_job j (set_j_id id)
    | None => mret tt
    end
  else if String.eqb key "job-type" then
    let t := job_type_from_string v in
    if JobType_to_Z t <? 0 then mret tt
    else if _JOB_TYPE_MAX_IN_TRANSACTION <=? JobType_to_Z t then mret tt
    else update_job j (set_j_type t)
  else if String.eqb key "job-state" then
    match job_state_from_string v with
    | Some s => job_set_state j s
    | None => mret tt
    end
  else if String.eqb key "job-override" then
    match parse_boolean v with
    | Some b => update_job j (fun J => set_j_override (j_override J || b) J)
    | None => mret tt
    end
  else if String.eqb key "job-irreversible" then
    match parse_boolean v with
    | Some b => update_job j (fun J => set_j_irreversible (j_irreversible J || b) J)
    | None => mret tt
    end
  else if String.eqb key "job-sent-dbus-new-signal" then
    match parse_boolean v with
    | Some b =>
        update_job j (fun J =>
          set_j_sent_dbus_new_signal (j_sent_dbus_new_signal J || b) J)
    | None => mret tt
    end
  else if String.eqb key "job-ignore-order" then
    match parse_boolean v with
    | Some b => update_job j (fun J => set_j_ignore_order (j_ignore_order J || b) J)
    | None => mret tt
    end
  else if String.eqb key "job-begin" then
    match sscanf_llu v with
    | Some ull => update_job j (set_j_begin_usec ull)
    | None => mret tt
    end
  else if String.eqb key "subscribed" then
    update_job j (fun J =>
      set_j_deserialized_clients (j_deserialized_clients J ++ [v]) J)
  else mret tt.

(** [job_deserialize]: the result is the return value and what is left of
    the stream.  Appending to [deserialized_clients] is taken to
    succeed. *)
Fixpoint job_deserialize_loop (fuel : nat) (j : nat) (f : string)
  : M (Z * string) :=
  match fuel with
  | O => out_of_fuel
  | S fuel =>
      let '(r, l, rest) := read_line LONG_LINE_MAX f in
      if r <? 0 then mret (r, rest)
      else if r =? 0 then mret (0, rest)
      else
        let l := strstrip l in
        if String.eqb l EmptyString then mret (0, rest)
        else
          job_deserialize_line j l;;
          job_deserialize_loop fuel j rest
  end.

(** Every pass that goes on reads at least one byte, so the length of
    the stream bounds the number of passes. *)
Definition job_deserialize (j : nat) (f : string) : M (Z * string) :=
  get_job j;;
  job_deserialize_loop (S (String.length f)) j f.

(** Characters that neither end a line nor are stripped from it. *)
Definition plain_char (c : ascii) : bool :=
  negb (is_whitespace c) && negb (Ascii.eqb c NUL).

Fixpoint plain (s : string) : bool :=
  match s with
  | EmptyString => true
  | String c s' => plain_char c && plain s'
  end.

(** Modelled from the spec: a client name is a bus name, unique or
    well-known: at most 255 characters, none of them white space or
    NUL. *)
Definition bus_name (s : string) : Prop :=
  plain s = true /\ (String.length s <= 255)%nat.

(** The lines [job_serialize] writes for a job, without their newline,
    each with what [job_deserialize] does to the job when it reads the
    line. *)
Definition assignment (key value : string) : string :=
  String.append key (String "=" value).

Definition serialized_lines (J : Job) : list (string * (Job -> Job)) :=
  [ (assignment "job-id" (print_unsigned (j_id J)), set_j_id (j_id J));
    (assignment "job-type" (print_string (job_type_to_string (j_type J))),
     set_j_type (j_type J));
    (assignment "job-state" (print_string (job_state_to_string (j_state J))),
     set_j_state (j_state J));
    (assignment "job-override" (yes_no (j_override J)),
     fun J' => set_j_override (j_override J' || j_override J) J');
    (assignment "job-irreversible" (yes_no (j_irreversible J)),
     fun J' => set_j_irreversible (j_irreversible J' || j_irreversible J) J');
    (assignment "job-sent-dbus-new-signal" (yes_no (j_sent_dbus_new_signal J)),
     fun J' =>
       set_j_sent_dbus_new_signal
         (j_sent_dbus_new_signal J' || j_sent_dbus_new_signal J) J');
    (assignment "job-ignore-order" (yes_no (j_ignore_order J)),
     fun J' => set_j_ignore_order (j_ignore_order J' || j_ignore_order J) J') ]
  ++ (if 0 <? j_begin_usec J
      then [ (assignment "job-begin" (print_unsigned (j_begin_usec J)),
              set_j_begin_usec (j_begin_usec J)) ]
      else [])
  ++ map (fun c => (assignment "subscribed" c,
                    fun J' => set_j_deserialized_clients
                                (j_deserialized_clients J' ++ [c]) J'))
       (j_clients J).

(** A stream that holds the given lines, the end marker and [rest]. *)
Definition stream_of_lines (ls : list (string * (Job -> Job))) (rest : string)
  : string :=
  fold_right (fun lf acc => String.append (fst lf) (String NEWLINE acc))
    (String NEWLINE rest) ls.

(** What the round trip needs of a line [l] paired with [f]: the line
    survives [read_line] and [strstrip] and is not the end marker, and
    [job_deserialize] turns a job [J] that is not installed into [f J]
    when it reads the line. *)
Definition line_effect (j : nat) (lf : string * (Job -> Job)) : Prop :=
  plain (fst lf) = true /\ fst lf ≠ EmptyString /\
  Z.of_nat (String.length (fst lf)) < LONG_LINE_MAX /\
  (forall J, j_installed (snd lf J) = j_installed J) /\
  forall J m, job_heap m !! j = Some J -> j_installed J = false ->
    wp (job_deserialize_line j (fst lf))
       (fun _ m' => job_heap m' !! j = Some (snd lf J)) m.

(** ** Concrete managers used as examples *)

Definition no_dependencies : UnitDependency -> list nat := fun _ => [].

Definition example_unit (job : option nat)
    (deps : UnitDependency -> list nat) : Unit :=
  {| u_job := job; u_nop_job := None; u_dependencies := deps;
     u_active_state := UNIT_INACTIVE; u_job_timeout := 1000000 |}.

Definition example_job (u : nat) (id : Z) (t : JobType) (s : JobState) : Job :=
  {| j_unit := u; j_id := id; j_type := t; j_state := s; j_result := JOB_DONE;
     j_begin_usec := 5; j_timer_event_source := Some 1000005;
     j_clients := []; j_deserialized_clients := [];
     j_installed := true; j_in_run_queue := false; j_in_dbus_queue := false;
     j_override := false; j_irreversible := false; j_ignore_order := false;
     j_reloaded := false; j_sent_dbus_new_signal := false |}.

Definition example_manager (us : gmap nat Unit) (h : gmap nat Job)
    (ids : gmap Z nat) (queue : list nat) (running : Z) : Manager :=
  {| units := us; job_heap := h; next_ptr := 10; jobs := ids;
     run_queue := queue; dbus_job_queue := []; pending_finished_jobs := [];
     current_job_id := 10; n_installed_jobs := Z.of_nat (size h);
     n_running_jobs := running; n_failed_jobs := 0; n_reloading := 0;
     trace := [] |}.

(** Scenario 6 of the specification: unit 0 (F) is required by unit 1 (G);
    the start job of F (at address 0) is running with its timer armed, the
    start job of G (at address 1) waits in the run queue. *)
Definition timeout_scenario : Manager :=
  example_manager
    (<[0%nat := example_unit (Some 0%nat)
                  (fun d => match d with UNIT_REQUIRED_BY => [1%nat] | _ => [] end)]>
       (<[1%nat := example_unit (Some 1%nat) no_dependencies]> ∅))
    (<[0%nat := example_job 0 1 JOB_START JOB_RUNNING]>
       (<[1%nat := set_j_in_run_queue true (example_job 1 2 JOB_START JOB_WAITING)]> ∅))
    (<[1 := 0%nat]> (<[2 := 1%nat]> ∅))
    [1%nat] 1.

(** A unit kind whose three primitives all return [r] at once. *)
Definition constant_vtable (r : Z) : UnitVTable :=
  {| unit_start := fun _ => mret r;
     unit_stop := fun _ => mret r;
     unit_reload := fun _ => mret r |}.

(** One unit without dependencies; its job of type [t], at address 0 with
    id 1, waits in the run queue. *)
Definition queued_scenario (t : JobType) : Manager :=
  example_manager
    (<[0%nat := example_unit (Some 0%nat) no_dependencies]> ∅)
    (<[0%nat := set_j_in_run_queue true (example_job 0 1 t JOB_WAITING)]> ∅)
    (<[1 := 0%nat]> ∅)
    [0%nat] 0.

(** One unit whose installed start job (address 0, id 1) is running and
    irreversible, and a new stop job for the same unit (address 1, id 2)
    that is not installed yet. *)
Definition irreversible_scenario : Manager :=
  example_manager
    (<[0%nat := example_unit (Some 0%nat) no_dependencies]> ∅)
    (<[0%nat := set_j_irreversible true (example_job 0 1 JOB_START JOB_RUNNING)]>
       (<[1%nat := set_j_timer_event_source None
                     (set_j_installed false (example_job 0 2 JOB_STOP JOB_WAITING))]> ∅))
    (<[1 := 0%nat]> ∅)
    [] 1.

(** Unit 0 is required by unit 1.  The start job of unit 0 (address 0,
    id 1) is running and irreversible, the start job of unit 1
    (address 1, id 2) waits; a new stop job for unit 0 (address 2,
    id 3) is not installed yet. *)
Definition conflict_scenario : Manager :=
  example_manager
    (<[0%nat := example_unit (Some 0%nat)
                  (fun d => match d with UNIT_REQUIRED_BY => [1%nat] | _ => [] end)]>
       (<[1%nat := example_unit (Some 1%nat) no_dependencies]> ∅))
    (<[0%nat := set_j_irreversible true (example_job 0 1 JOB_START JOB_RUNNING)]>
       (<[1%nat := example_job 1 2 JOB_START JOB_WAITING]>
          (<[2%nat := set_j_timer_event_source None
                        (set_j_installed false
                           (example_job 0 3 JOB_STOP JOB_WAITING))]> ∅)))
    (<[1 := 0%nat]> (<[2 := 1%nat]> ∅))
    [] 1.

(** Unit 0 is required, overridably, by unit 1; the start job of unit 0
    (address 0) is running, the start job of unit 1 (address 1) waits and
    carries the override flag. *)
Definition override_scenario : Manager :=
  example_manager
    (<[0%nat := example_unit (Some 0%nat)
                  (fun d => match d with
                            | UNIT_REQUIRED_BY_OVERRIDABLE => [1%nat]
                            | _ => []
                            end)]>
       (<[1%nat := example_unit (Some 1%nat) no_dependencies]> ∅))
    (<[0%nat := example_job 0 1 JOB_START JOB_RUNNING]>
       (<[1%nat := set_j_override true (example_job 1 2 JOB_START JOB_WAITING)]> ∅))
    (<[1 := 0%nat]> (<[2 := 1%nat]> ∅))
    [] 1.

(** One unit whose verify-active job (address 0, id 7) is running, with
    the override flag and two subscribers. *)
Definition subscribed_job : Job :=
  {| j_unit := 0; j_id := 7; j_type := JOB_VERIFY_ACTIVE;
     j_state := JOB_RUNNING; j_result := JOB_DONE;
     j_begin_usec := 1234567; j_timer_event_source := None;
     j_clients := [":1.42"; "org.example.Client"]%string;
     j_deserialized_clients := [];
     j_installed := true; j_in_run_queue := false; j_in_dbus_queue := false;
     j_override := true; j_irreversible := false; j_ignore_order := false;
     j_reloaded := false; j_sent_dbus_new_signal := true |}.

Definition subscribed_scenario : Manager :=
  example_manager
    (<[0%nat := example_unit (Some 0%nat) no_dependencies]> ∅)
    (<[0%nat := subscribed_job]> ∅)
    (<[7 := 0%nat]> ∅)
    [] 1.

(** Unit 0 is ordered after unit 1 and before unit 2.  Its start job
    (address 0, id 1) waits in the run queue.  Unit 1 has no job in its
    regular slot and an installed nop job (address 1, id 2) in its nop
    slot; unit 2 has a waiting start job (address 2, id 3). *)
Definition nop_slot_unit : Unit :=
  example_unit (Some 0%nat)
    (fun d => match d with
              | UNIT_AFTER => [1%nat]
              | UNIT_BEFORE => [2%nat]
              | _ => []
              end).

Definition nop_slot_job : Job :=
  set_j_in_run_queue true (example_job 0 1 JOB_START JOB_WAITING).

Definition nop_slot_scenario : Manager :=
  example_manager
    (<[0%nat := nop_slot_unit]>
       (<[1%nat := set_u_nop_job (Some 1%nat)
                     (example_unit None
                        (fun d => match d with UNIT_BEFORE => [0%nat] | _ => [] end))]>
          (<[2%nat := example_unit (Some 2%nat)
                        (fun d => match d with UNIT_AFTER => [0%nat] | _ => [] end)]>
             ∅)))
    (<[0%nat := nop_slot_job]>
       (<[1%nat := example_job 1 2 JOB_NOP JOB_WAITING]>
          (<[2%nat := example_job 2 3 JOB_START JOB_WAITING]> ∅)))
    (<[1 := 0%nat]> (<[2 := 1%nat]> (<[3 := 2%nat]> ∅)))
    [0%nat] 0.

(** ** Reachable managers *)

(** A manager before any job exists: the units [us] with empty slots,
    no job, empty queues; [reloading] is the reload counter. *)
Definition initial_manager (us : gmap nat Unit) (reloading : Z) : Manager :=
  {| units := us; job_heap := ∅; next_ptr := 0; jobs := ∅;
     run_queue := []; dbus_job_queue := []; pending_finished_jobs := [];
     current_job_id := 1; n_installed_jobs := 0; n_running_jobs := 0;
     n_failed_jobs := 0; n_reloading := reloading; trace := [] |}.

Definition empty_slots (us : gmap nat Unit) : Prop :=
  map_Forall (fun _ U => u_job U = None /\ u_nop_job U = None) us.

(** What the rest of the manager does with the engine: the entry points
    of job.c, and two steps of its callers that the entry points rely on,
    registering a job under its id in [m->jobs] and a change of the
    active state of a unit.  The primitives of the unit kinds are taken
    to return a code and leave the engine alone. *)
Inductive Call : Type :=
| CallJobNew (u : nat) (t : JobType)
| CallJobNewRaw (u : nat)
| CallJobFree (j : nat)
| CallJobUninstall (j : nat)
| CallJobInstall (j : nat)
| CallJobInstallDeserialized (j : nat)
| CallJobDeserialize (j : nat) (f : string)
| CallJobAddToRunQueue (j : nat)
| CallJobAddToDbusQueue (j : nat)
| CallJobRunAndInvalidate (r : Z) (j : nat)
| CallJobFinishAndInvalidate (j : nat) (result : JobResult) (recursive already : bool)
| CallJobDispatchTimer (j : nat)
| CallJobStartTimer (now : Z) (j : nat)
| CallHashmapPut (j : nat)
| CallUnitNotify (u : nat) (s : UnitActiveState).

Definition hashmap_put_job (j : nat) : M () :=
  J ← get_job j;
  modify (fun m => set_jobs (<[j_id J := j]> (jobs m)) m).

Definition unit_notify (u : nat) (s : UnitActiveState) : M () :=
  update_unit u (fun U =>
    {| u_job := u_job U; u_nop_job := u_nop_job U;
       u_dependencies := u_dependencies U; u_active_state := s;
       u_job_timeout := u_job_timeout U |}).

Definition run_call (c : Call) : M () :=
  match c with
  | CallJobNew u t => job_new u t;; mret tt
  | CallJobNewRaw u => job_new_raw u;; mret tt
  | CallJobFree j => job_free j
  | CallJobUninstall j => job_uninstall j
  | CallJobInstall j => job_install j;; mret tt
  | CallJobInstallDeserialized j => job_install_deserialized j;; mret tt
  | CallJobDeserialize j f => job_deserialize j f;; mret tt
  | CallJobAddToRunQueue j => job_add_to_run_queue j
  | CallJobAddToDbusQueue j => job_add_to_dbus_queue j
  | CallJobRunAndInvalidate r j =>
      job_run_and_invalidate (constant_vtable r) j;; mret tt
  | CallJobFinishAndInvalidate j result recursive already =>
      job_finish_and_invalidate j result recursive already;; mret tt
  | CallJobDispatchTimer j => job_dispatch_timer j;; mret tt
  | CallJobStartTimer now j => job_start_timer now j;; mret tt
  | CallHashmapPut j => hashmap_put_job j
  | CallUnitNotify u s => unit_notify u s
  end.

(** The callers of [job_install] pass a job made by [job_new] for a type
    of theirs, never a raw job: the type of the job is not
    [_JOB_TYPE_INVALID], which the assertion of [job_install],
    [type < _JOB_TYPE_MAX_IN_TRANSACTION], would let through. *)
Definition call_allowed (m : Manager) (c : Call) : bool :=
  match c with
  | CallJobInstall j =>
      match job_heap m !! j with
      | Some J => negb (bool_decide (j_type J = _JOB_TYPE_INVALID))
      | None => true
      end
  | _ => true
  end.

Inductive reachable : Manager -> Prop :=
| reachable_initial us reloading :
    empty_slots us -> reachable (initial_manager us reloading)
| reachable_call m c m' :
    reachable m -> call_allowed m c = true -> run_call c m = Done tt m' ->
    reachable m'.

(** Running a list of calls, each allowed and returning. *)
Fixpoint run_calls (cs : list Call) (m : Manager) : option Manager :=
  match cs with
  | [] => Some m
  | c :: cs =>
      if call_allowed m c then
        match run_call c m with
        | Done _ m' => run_calls cs m'
        | _ => None
        end
      else None
  end.

(** The types that may enter a transaction. *)
Definition in_transaction_range (t : JobType) : Prop :=
  0 <= JobType_to_Z t < _JOB_TYPE_MAX_IN_TRANSACTION.

(** The invariant of the job store: addresses in use lie below the next
    one handed out, an installed job has a type of the transaction range,
    and the run queue lists, once each, the jobs whose [in_run_queue] bit
    is set. *)
Record Inv' (h : gmap nat Job) (q : list nat) (n : nat) : Prop := mkInv {
  inv_fresh : forall p P, h !! p = Some P -> (p < n)%nat;
  inv_type : forall p P, h !! p = Some P -> j_installed P = true ->
    in_transaction_range (j_type P);
  inv_nodup : NoDup q;
  inv_queue : forall p, p ∈ q <->
    exists P, h !! p = Some P /\ j_in_run_queue P = true
}.

Definition Inv (m : Manager) : Prop :=
  Inv' (job_heap m) (run_queue m) (next_ptr m).

(** Two units, the second ordered after the first, each with a start job
    of its own, installed and queued; then the job of the second unit is
    picked from the run queue. *)
Definition ordered_units : gmap nat Unit :=
  <[0%nat := example_unit None
               (fun d => match d with UNIT_BEFORE => [1%nat] | _ => [] end)]>
    (<[1%nat := example_unit None
                  (fun d => match d with UNIT_AFTER => [0%nat] | _ => [] end)]> ∅).

Definition blocked_calls : list Call :=
  [ CallJobNew 0 JOB_START; CallJobNew 1 JOB_START;
    CallJobInstall 0; CallJobInstall 1;
    CallHashmapPut 0; CallHashmapPut 1;
    CallJobAddToRunQueue 0; CallJobAddToRunQueue 1;
    CallJobRunAndInvalidate 0 1 ].

(** The same, then the job of the first unit is started and stays
    running, the job of the second unit is queued again and canceled:
    its end puts the jobs of the units ordered around it back into the
    run queue. *)
Definition requeue_calls : list Call :=
  blocked_calls ++
  [ CallJobRunAndInvalidate 0 0; CallJobAddToRunQueue 1;
    CallJobFinishAndInvalidate 1 JOB_CANCELED false false ].

(** A start job is installed on the first unit, then a reload job for the
    same unit is merged into it. *)
Definition merge_calls : list Call :=
  [ CallJobNew 0 JOB_START; CallJobInstall 0;
    CallJobNew 0 JOB_RELOAD; CallJobInstall 1 ].

(** A nop job is made for the first unit and a start job for the second,
    which is ordered after the first; both are installed. *)
Definition nop_calls : list Call :=
  [ CallJobNew 0 JOB_NOP; CallJobNew 1 JOB_START;
    CallJobInstall 0; CallJobInstall 1 ].

(** ** More of job.c: coldplug and bus paths *)

(** [job_coldplug].  [track] stands for [bus_track_coldplug] of
    bus-util.c, from the two client lists to its return value and the
    lists it leaves.  Registering the timer is taken to succeed, as in
    [job_start_timer]. *)
Definition job_coldplug
    (track : list string -> list string -> Z * list string * list string)
    (j : nat) : M Z :=
  J ← get_job j;
  let '(r, clients, deserialized) :=
    track (j_clients J) (j_deserialized_clients J) in
  update_job j (fun J =>
    {| j_unit := j_unit J; j_id := j_id J; j_type := j_type J;
       j_state := j_state J; j_result := j_result J;
       j_begin_usec := j_begin_usec J;
       j_timer_event_source := j_timer_event_source J;
       j_clients := clients; j_deserialized_clients := deserialized;
       j_installed := j_installed J; j_in_run_queue := j_in_run_queue J;
       j_in_dbus_queue := j_in_dbus_queue J; j_override := j_override J;
       j_irreversible := j_irreversible J;
       j_ignore_order := j_ignore_order J; j_reloaded := j_reloaded J;
       j_sent_dbus_new_signal := j_sent_dbus_new_signal J |});;
  if r <? 0 then mret r
  else
    when (bool_decide (j_state J = JOB_WAITING)) (job_add_to_run_queue j);;
    U ← get_unit (j_unit J);
    if (j_begin_usec J =? 0) || (u_job_timeout U =? 0) then mret 0
    else
      update_job j
        (set_j_timer_event_source
           (Some ((j_begin_usec J + u_job_timeout U) mod 2 ^ 64)));;
      mret 0.

(** [job_dbus_path]; [asprintf] is taken to succeed. *)
Definition job_dbus_path (j : nat) : M string :=
  J ← get_job j;
  mret (String.append "/org/freedesktop/systemd1/job/" (print_unsigned (j_id J))).

(** ** Job dependency links

    A [JobDependency] sits in two intrusive lists, the [subject_list] of
    its subject and the [object_list] of its object.  The links live in
    a store of their own; the two maps give the list heads of each job. *)
Record JobDependency : Type := mkJobDependency {
  l_subject : option nat;              (* Job *subject, NULL for the anchor *)
  l_object : nat;                      (* Job *object *)
  l_matters : bool;
  l_conflicts : bool
}.

Record Links : Type := mkLinks {
  link_heap : gmap nat JobDependency;
  link_next : nat;                     (* next address handed out by new0 *)
  subject_list : gmap nat (list nat);  (* Job.subject_list, by job *)
  object_list : gmap nat (list nat)    (* Job.object_list, by job *)
}.

Definition list_of (lists : gmap nat (list nat)) (j : nat) : list nat :=
  default [] (lists !! j).

(** Allocation is taken to succeed. *)
Definition job_dependency_new (subject : option nat) (object : nat)
    (matters conflicts : bool) (ls : Links) : nat * Links :=
  let l := link_next ls in
  (l,
   {| link_heap :=
        <[l := {| l_subject := subject; l_object := object;
                  l_matters := matters; l_conflicts := conflicts |}]>
          (link_heap ls);
      link_next := S l;
      subject_list :=
        match subject with
        | Some s => <[s := l :: list_of (subject_list ls) s]> (subject_list ls)
        | None => subject_list ls
        end;
      object_list :=
        <[object := l :: list_of (object_list ls) object]> (object_list ls) |}).

(** [None] stands for a dangling argument. *)
Definition job_dependency_free (l : nat) (ls : Links) : option Links :=
  match link_heap ls !! l with
  | None => None
  | Some L =>
      Some
        {| link_heap := delete l (link_heap ls);
           link_next := link_next ls;
           subject_list :=
             match l_subject L with
             | Some s =>
                 <[s := LIST_REMOVE l (list_of (subject_list ls) s)]>
                   (subject_list ls)
             | None => subject_list ls
             end;
           object_list :=
             <[l_object L := LIST_REMOVE l (list_of (object_list ls) (l_object L))]>
               (object_list ls) |}
  end.

(** The links of a store are consistent: a link is in the object list of
    its object and in the subject list of its subject, once, and the
    lists hold nothing else; addresses in use lie below the next one. *)
Record links_ok (ls : Links) : Prop := mkLinksOk {
  lo_fresh : forall l L, link_heap ls !! l = Some L -> (l < link_next ls)%nat;
  lo_object : forall j l, l ∈ list_of (object_list ls) j <->
    exists L, link_heap ls !! l = Some L /\ l_object L = j;
  lo_subject : forall j l, l ∈ list_of (subject_list ls) j <->
    exists L, link_heap ls !! l = Some L /\ l_subject L = Some j;
  lo_object_nodup : forall j, NoDup (list_of (object_list ls) j);
  lo_subject_nodup : forall j, NoDup (list_of (subject_list ls) j)
}.

Definition no_links : Links :=
  {| link_heap := ∅; link_next := 0; subject_list := ∅; object_list := ∅ |}.

(** ** Status messages *)

(** Modelled from the spec: [UnitStatusMessageFormats] of unit.h, the
    two tables of a unit kind, indexed by the result of the job; an entry
    may be [NULL]. *)
Record UnitStatusMessageFormats : Type := mkFormats {
  finished_start_job : JobResult -> option string;
  finished_stop_job : JobResult -> option string
}.

(** The assertion [t >= 0 && t < _JOB_TYPE_MAX] at the head of the four
    status functions. *)
Definition job_type_valid (t : JobType) : bool :=
  (0 <=? JobType_to_Z t) && (JobType_to_Z t <? _JOB_TYPE_MAX).

(** The outer [None] stands for the failed assertion. *)
Definition job_get_status_message_format (formats : UnitStatusMessageFormats)
    (t : JobType) (result : JobResult) : option (option string) :=
  if negb (job_type_valid t) then None
  else if bool_decide (t = JOB_START) then Some (finished_start_job formats result)
  else if bool_decide (t = JOB_STOP) || bool_decide (t = JOB_RESTART)
  then Some (finished_stop_job formats result)
  else Some None.

Definition job_get_status_message_format_try_harder
    (formats : UnitStatusMessageFormats) (t : JobType) (result : JobResult)
  : option (option string) :=
  if negb (job_type_valid t) then None
  else
    format ← job_get_status_message_format formats t result;
    match format with
    | Some f => Some (Some f)
    | None =>
        Some
          (if bool_decide (t = JOB_START) then
             match result with
             | JOB_DONE => Some "Started %s."
             | JOB_TIMEOUT => Some "Timed out starting %s."
             | JOB_FAILED => Some "Failed to start %s."
             | JOB_DEPENDENCY => Some "Dependency failed for %s."
             | JOB_ASSERT => Some "Assertion failed for %s."
             | JOB_UNSUPPORTED => Some "Starting of %s not supported."
             | _ => None
             end
           else if bool_decide (t = JOB_STOP) || bool_decide (t = JOB_RESTART) then
             match result with
             | JOB_DONE => Some "Stopped %s."
             | JOB_FAILED => Some "Stopped (with error) %s."
             | JOB_TIMEOUT => Some "Timed out stoppping %s."
             | _ => None
             end
           else if bool_decide (t = JOB_RELOAD) then
             match result with
             | JOB_DONE => Some "Reloaded %s."
             | JOB_FAILED => Some "Reload failed for %s."
             | JOB_TIMEOUT => Some "Timed out reloading %s."
             | _ => None
             end
           else None)%string
    end.

(** What [job_print_status_message] puts on the console: the status tag
    and the format handed to [unit_status_printf], whether
    [manager_flip_auto_status] is called, and whether the hint to run
    systemctl status follows. *)
Inductive StatusTag : Set :=
| TAG_OK | TAG_TIME | TAG_FAILED | TAG_DEPEND | TAG_ASSERT | TAG_UNSUPP | TAG_INFO.

Record ConsoleStatus : Type := mkConsoleStatus {
  cs_tag : StatusTag;
  cs_format : string;
  cs_flip_auto_status : bool;
  cs_hint : bool
}.

(** [condition_result] is the field of the unit; the outer [None] stands
    for the failed assertion, the inner one for no output. *)
Definition job_print_status_message (formats : UnitStatusMessageFormats)
    (condition_result : bool) (t : JobType) (result : JobResult)
  : option (option ConsoleStatus) :=
  if negb (job_type_valid t) then None
  else if bool_decide (t = JOB_START) then
    format ← job_get_status_message_format formats t result;
    match format with
    | None => Some None
    | Some f =>
        Some
          match result with
          | JOB_DONE =>
              if condition_result then Some (mkConsoleStatus TAG_OK f false false)
              else None
          | JOB_TIMEOUT => Some (mkConsoleStatus TAG_TIME f true false)
          | JOB_FAILED => Some (mkConsoleStatus TAG_FAILED f true true)
          | JOB_DEPENDENCY => Some (mkConsoleStatus TAG_DEPEND f true false)
          | JOB_ASSERT => Some (mkConsoleStatus TAG_ASSERT f true false)
          | JOB_UNSUPPORTED => Some (mkConsoleStatus TAG_UNSUPP f true false)
          | _ => None
          end
    end
  else if bool_decide (t = JOB_STOP) || bool_decide (t = JOB_RESTART) then
    format ← job_get_status_message_format formats t result;
    match format with
    | None => Some None
    | Some f =>
        Some
          match result with
          | JOB_TIMEOUT => Some (mkConsoleStatus TAG_TIME f true false)
          | JOB_DONE | JOB_FAILED => Some (mkConsoleStatus TAG_OK f false false)
          | _ => None
          end
    end
  else if bool_decide (t = JOB_VERIFY_ACTIVE) then
    Some (if bool_decide (result = JOB_SKIPPED)
          then Some (mkConsoleStatus TAG_INFO "%s is not active." false false)
          else None)
  else Some None.

(** What [job_log_status_message] hands to [log_unit_struct]: the
    priority, the message id and the format the text is made from. *)
Inductive MessageId : Set :=
| SD_MESSAGE_UNIT_STARTED | SD_MESSAGE_UNIT_FAILED
| SD_MESSAGE_UNIT_STOPPED | SD_MESSAGE_UNIT_RELOADED.

Definition LOG_ERR : Z := 3.
Definition LOG_INFO : Z := 6.

Record LogEntry : Type := mkLogEntry {
  log_priority : Z;
  log_message_id : MessageId;
  log_format : string;
  log_result : JobResult
}.

Definition job_log_status_message (formats : UnitStatusMessageFormats)
    (log_on_console : bool) (t : JobType) (result : JobResult)
  : option (option LogEntry) :=
  if negb (job_type_valid t) then None
  else if log_on_console then Some None
  else
    format ← job_get_status_message_format_try_harder formats t result;
    match format with
    | None => Some None
    | Some f =>
        let priority := if bool_decide (result = JOB_DONE) then LOG_INFO else LOG_ERR in
        Some
          (if bool_decide (t = JOB_START) then
             Some (mkLogEntry priority
                     (if bool_decide (result = JOB_DONE)
                      then SD_MESSAGE_UNIT_STARTED else SD_MESSAGE_UNIT_FAILED)
                     f result)
           else if bool_decide (t = JOB_STOP) then
             Some (mkLogEntry priority SD_MESSAGE_UNIT_STOPPED f result)
           else if bool_decide (t = JOB_RELOAD) then
             Some (mkLogEntry priority SD_MESSAGE_UNIT_RELOADED f result)
           else None)
    end.

(** ** The remaining string tables of job.c *)

(** Modelled from the spec: the [JobMode] enumeration of job.h, as far
    as [job_mode_table] names it. *)
Inductive JobMode : Set :=
| JOB_FAIL | JOB_REPLACE | JOB_REPLACE_IRREVERSIBLY | JOB_ISOLATE
| JOB_FLUSH | JOB_IGNORE_DEPENDENCIES | JOB_IGNORE_REQUIREMENTS.

#[global] Instance JobMode_eq_dec : EqDecision JobMode.
Proof. solve_decision. Defined.

Definition job_mode_table : list (JobMode * string) :=
  [ (JOB_FAIL, "fail"); (JOB_REPLACE, "replace");
    (JOB_REPLACE_IRREVERSIBLY, "replace-irreversibly");
    (JOB_ISOLATE, "isolate"); (JOB_FLUSH, "flush");
    (JOB_IGNORE_DEPENDENCIES, "ignore-dependencies");
    (JOB_IGNORE_REQUIREMENTS, "ignore-requirements") ]%string.

Definition job_result_table : list (JobResult * string) :=
  [ (JOB_DONE, "done"); (JOB_CANCELED, "canceled"); (JOB_TIMEOUT, "timeout");
    (JOB_FAILED, "failed"); (JOB_DEPENDENCY, "dependency");
    (JOB_SKIPPED, "skipped"); (JOB_INVALID, "invalid"); (JOB_ASSERT, "assert");
    (JOB_UNSUPPORTED, "unsupported") ]%string.

Definition job_mode_to_string : JobMode -> option string :=
  table_to_string job_mode_table.
Definition job_mode_from_string : string -> option JobMode :=
  table_from_string job_mode_table.
Definition job_result_to_string : JobResult -> option string :=
  table_to_string job_result_table.
Definition job_result_from_string : string -> option JobResult :=
  table_from_string job_result_table.

(** ** Queueing a job over the bus (dbus-unit.c) *)

(** The fields and hooks of the unit [bus_unit_queue_job] looks at:
    [unit_can_reload], whether [load_state] is [UNIT_NOT_FOUND] or
    [UNIT_ERROR], [unit_active_state], and the two refusal flags. *)
Record BusUnit : Type := mkBusUnit {
  bu_can_reload : bool;
  bu_not_loaded : bool;
  bu_active_state : UnitActiveState;
  bu_refuse_manual_start : bool;
  bu_refuse_manual_stop : bool
}.

(** How far a bus method that queues a job gets: an error of the access
    check, a bus error, or the call of [manager_add_job] of manager.c,
    with the type and mode it passes. *)
Inductive QueueOutcome : Type :=
| AccessError (r : Z)
| InvalidArgs
| NoSuchUnit
| OnlyByDependency
| ManagerAddJob (t : JobType) (mode : JobMode).

(** [access] stands for [mac_selinux_unit_access_check], from the
    permission asked for to its return value.  [None] stands for a
    failed assertion. *)
Definition bus_unit_queue_job (access : string -> Z) (u : BusUnit)
    (type : JobType) (mode : JobMode) (reload_if_possible : bool)
  : option QueueOutcome :=
  if negb (job_type_valid type) then None
  else
    let type :=
      if reload_if_possible && bu_can_reload u then
        if bool_decide (type = JOB_RESTART) then JOB_RELOAD_OR_START
        else if bool_decide (type = JOB_TRY_RESTART) then JOB_TRY_RELOAD
        else type
      else type in
    let r :=
      access
        (if bool_decide (type = JOB_START) || bool_decide (type = JOB_RESTART)
            || bool_decide (type = JOB_TRY_RESTART) then "start"
         else if bool_decide (type = JOB_STOP) then "stop"
         else "reload")%string in
    if r <? 0 then Some (AccessError r)
    else if bool_decide (type = JOB_STOP) && bu_not_loaded u
            && bool_decide (bu_active_state u = UNIT_INACTIVE)
    then Some NoSuchUnit
    else if (bool_decide (type = JOB_START) && bu_refuse_manual_start u)
            || (bool_decide (type = JOB_STOP) && bu_refuse_manual_stop u)
            || ((bool_decide (type = JOB_RESTART) || bool_decide (type = JOB_TRY_RESTART))
                && (bu_refuse_manual_start u || bu_refuse_manual_stop u))
    then Some OnlyByDependency
    else Some (ManagerAddJob type mode).

(** [smode] is the string read from the message; reading it is taken to
    succeed. *)
Definition bus_unit_method_start_generic (access : string -> Z) (u : BusUnit)
    (job_type : JobType) (reload_if_possible : bool) (smode : string)
  : option QueueOutcome :=
  if negb (job_type_valid job_type) then None
  else
    match job_mode_from_string smode with
    | None => Some InvalidArgs
    | Some mode => bus_unit_queue_job access u job_type mode reload_if_possible
    end.

(** The seven bus methods that queue a job. *)
Inductive StartMethod : Set :=
| MethodStart | MethodStop | MethodReload | MethodRestart | MethodTryRestart
| MethodReloadOrRestart | MethodReloadOrTryRestart.

Definition bus_unit_method (method : StartMethod) (access : string -> Z)
    (u : BusUnit) (smode : string) : option QueueOutcome :=
  match method with
  | MethodStart => bus_unit_method_start_generic access u JOB_START false smode
  | MethodStop => bus_unit_method_start_generic access u JOB_STOP false smode
  | MethodReload => bus_unit_method_start_generic access u JOB_RELOAD false smode
  | MethodRestart => bus_unit_method_start_generic access u JOB_RESTART false smode
  | MethodTryRestart =>
      bus_unit_method_start_generic access u JOB_TRY_RESTART false smode
  | MethodReloadOrRestart =>
      bus_unit_method_start_generic access u JOB_RESTART true smode
  | MethodReloadOrTryRestart =>
      bus_unit_method_start_generic access u JOB_TRY_RESTART true smode
  end.

(** ** The bus queue *)

(** The counterpart of [Inv'] for the queue of jobs with pending bus
    signals: addresses in use lie below the next one handed out, and the
    queue lists, once each, the jobs whose [in_dbus_queue] bit is set. *)
Record DInv' (h : gmap nat Job) (q : list nat) (n : nat) : Prop := mkDInv {
  dinv_fresh : forall p P, h !! p = Some P -> (p < n)%nat;
  dinv_nodup : NoDup q;
  dinv_queue : forall p, p ∈ q <->
    exists P, h !! p = Some P /\ j_in_dbus_queue P = true
}.

Definition DInv (m : Manager) : Prop :=
  DInv' (job_heap m) (dbus_job_queue m) (next_ptr m).

(** What a return value of a unit primitive makes of the job, in
    [job_run_and_invalidate]: the result it is finished with, if it is
    finished. *)
Definition result_of_errno (r : Z) : option JobResult :=
  if decide (r = - EALREADY) then Some JOB_DONE
  else if decide (r = - EBADR) then Some JOB_SKIPPED
  else if decide (r = - ENOEXEC) then Some JOB_INVALID
  else if decide (r = - EPROTO) then Some JOB_ASSERT
  else if decide (r = - ENOTSUP) then Some JOB_UNSUPPORTED
  else if decide (r = - EAGAIN) then None
  else if r <? 0 then Some JOB_FAILED
  else None.

(** ** Lines of a stream *)




(** ** The switch of [job_run_and_invalidate] *)

(** The primitive of the unit kind the switch calls for a job of type
    [t], for the types that have one. *)
Definition unit_operation (vt : UnitVTable) (t : JobType)
  : option (nat -> M Z) :=
  match t with
  | JOB_START => Some (unit_start vt)
  | JOB_STOP | JOB_RESTART => Some (unit_stop vt)
  | JOB_RELOAD => Some (unit_reload vt)
  | _ => None
  end.

(** What the switch leaves in [r] when the primitive returned [r0]. *)
Definition operation_code (t : JobType) (r0 : Z) : Z :=
  match t with
  | JOB_START | JOB_STOP | JOB_RESTART => if decide (r0 = - EBADR) then 0 else r0
  | _ => r0
  end.

(** ** More managers used as examples *)

(** One unit without dependencies whose start job, at address 0 with id
    1, is running and still marked as queued. *)
Definition running_queued_scenario : Manager :=
  example_manager
    (<[0%nat := example_unit (Some 0%nat) no_dependencies]> ∅)
    (<[0%nat := set_j_in_run_queue true (example_job 0 1 JOB_START JOB_RUNNING)]> ∅)
    (<[1 := 0%nat]> ∅)
    [0%nat] 1.

(** One unit without job, and a job of type [t] in state [s] for it, at
    address 0 with id 1, that is not installed. *)
Definition uninstalled_scenario (t : JobType) (s : JobState) : Manager :=
  example_manager
    (<[0%nat := example_unit None no_dependencies]> ∅)
    (<[0%nat := set_j_installed false (example_job 0 1 t s)]> ∅)
    ∅ [] 0.

(** One unit whose installed verify-active job (address 0, id 1) waits,
    and a new start job for the same unit (address 1, id 2), not
    installed, that carries the override and irreversible flags. *)
Definition merge_scenario_job : Job :=
  example_job 0 1 JOB_VERIFY_ACTIVE JOB_WAITING.

Definition merge_scenario_other : Job :=
  set_j_irreversible true
    (set_j_override true
       (set_j_installed false (example_job 0 2 JOB_START JOB_WAITING))).

Definition merge_scenario : Manager :=
  example_manager
    (<[0%nat := example_unit (Some 0%nat) no_dependencies]> ∅)
    (<[0%nat := merge_scenario_job]> (<[1%nat := merge_scenario_other]> ∅))
    (<[1 := 0%nat]> ∅)
    [] 0.

(** ** What deserialization may do to a job *)

(** [J'] is [J] after some lines were read into it: the lines set the id,
    the type (to one of the transaction range), the state, the begin
    time; they can raise the four flags but not clear them, and they
    add to the deserialized clients.  The rest of the job is as it
    was. *)
Record deserialized (J J' : Job) : Prop := mkDeserialized {
  ds_unit : j_unit J' = j_unit J;
  ds_installed : j_installed J' = j_installed J;
  ds_in_run_queue : j_in_run_queue J' = j_in_run_queue J;
  ds_in_dbus_queue : j_in_dbus_queue J' = j_in_dbus_queue J;
  ds_timer : j_timer_event_source J' = j_timer_event_source J;
  ds_result : j_result J' = j_result J;
  ds_reloaded : j_reloaded J' = j_reloaded J;
  ds_clients : j_clients J' = j_clients J;
  ds_type : j_type J' = j_type J \/ in_transaction_range (j_type J');
  ds_id : j_id J' = j_id J \/ 0 <= j_id J' < 2 ^ 32;
  ds_begin : j_begin_usec J' = j_begin_usec J \/ 0 <= j_begin_usec J' < 2 ^ 64;
  ds_override : j_override J = true -> j_override J' = true;
  ds_irreversible : j_irreversible J = true -> j_irreversible J' = true;
  ds_ignore_order : j_ignore_order J = true -> j_ignore_order J' = true;
  ds_sent_dbus_new_signal :
    j_sent_dbus_new_signal J = true -> j_sent_dbus_new_signal J' = true;
  ds_subscribed : exists new,
    j_deserialized_clients J' = j_deserialized_clients J ++ new
}.


(** One unit without job and no job at all. *)
Definition idle_scenario : Manager :=
  example_manager (<[0%nat := example_unit None no_dependencies]> ∅) ∅ ∅ [] 0.

(** * Properties *)

(** Turning boolean tests found in hypotheses into propositions. *)
Ltac bool_hyps :=
  repeat match goal with
  | H : _ && _ = true |- _ => apply andb_prop in H as [? ?]
  | H : _ || _ = false |- _ => apply orb_false_elim in H as [? ?]
  | H : negb _ = true |- _ => apply negb_true_iff in H
  | H : negb _ = false |- _ => apply negb_false_iff in H
  | H : bool_decide _ = true |- _ => apply bool_decide_eq_true in H
  | H : bool_decide _ = false |- _ => apply bool_decide_eq_false in H
  | H : (_ <? _) = true |- _ => apply Z.ltb_lt in H
  | H : (_ <? _) = false |- _ => apply Z.ltb_ge in H
  | H : (_ <=? _) = true |- _ => apply Z.leb_le in H
  | H : (_ <=? _) = false |- _ => apply Z.leb_gt in H
  end.

(** ** Rules of the specification calculus *)

Section wpg_rules.
Context {A B : Type} (E : Prop).
Implicit Types (m : Manager) (Q : A -> Manager -> Prop).

Lemma wpg_ret (a : A) Q m : Q a m -> wpg E (mret a) Q m.
Proof. done. Qed.

Lemma wpg_bind (c : M A) (f : A -> M B) (Q : B -> Manager -> Prop) m :
  wpg E c (fun a m' => wpg E (f a) Q m') m -> wpg E (c ≫= f) Q m.
Proof. unfold wpg, mbind, M_bind. by destruct (c m). Qed.

Lemma wpg_mono (c : M A) Q (Q' : A -> Manager -> Prop) m :
  wpg E c Q m -> (forall a m', Q a m' -> Q' a m') -> wpg E c Q' m.
Proof. unfold wpg. destruct (c m); auto. Qed.

Lemma wpg_gets (f : Manager -> A) Q m : Q (f m) m -> wpg E (gets f) Q m.
Proof. done. Qed.

Lemma wpg_abort Q m : E -> wpg E (@abort A) Q m.
Proof. done. Qed.
End wpg_rules.

Section wpg_rules_unit.
Context (E : Prop).
Implicit Types (m : Manager) (Q : () -> Manager -> Prop).

Lemma wpg_modify f Q m : Q tt (f m) -> wpg E (modify f) Q m.
Proof. done. Qed.

Lemma wpg_emit e Q m : Q tt (set_trace (e :: trace m) m) -> wpg E (emit e) Q m.
Proof. done. Qed.

Lemma wpg_massert (b : bool) Q m :
  (if b then Q tt m else E) -> wpg E (massert b) Q m.
Proof. by destruct b. Qed.

Lemma wpg_when (b : bool) c Q m :
  (if b then wpg E c Q m else Q tt m) -> wpg E (when b c) Q m.
Proof. by destruct b. Qed.

Lemma wpg_get_job j (Q : Job -> Manager -> Prop) m :
  match job_heap m !! j with Some J => Q J m | None => E end ->
  wpg E (get_job j) Q m.
Proof. unfold wpg, get_job. by destruct (job_heap m !! j). Qed.

Lemma wpg_get_unit u (Q : Unit -> Manager -> Prop) m :
  match units m !! u with Some U => Q U m | None => E end ->
  wpg E (get_unit u) Q m.
Proof. unfold wpg, get_unit. by destruct (units m !! u). Qed.

Lemma wpg_update_job j f Q m :
  match job_heap m !! j with
  | Some J => Q tt (set_job_heap (<[j := f J]> (job_heap m)) m)
  | None => E
  end ->
  wpg E (update_job j f) Q m.
Proof.
  intros H. apply wpg_bind, wpg_get_job.
  destruct (job_heap m !! j); [by apply wpg_modify|done].
Qed.

Lemma wpg_update_unit u f Q m :
  match units m !! u with
  | Some U => Q tt (set_units (<[u := f U]> (units m)) m)
  | None => E
  end ->
  wpg E (update_unit u f) Q m.
Proof.
  intros H. apply wpg_bind, wpg_get_unit.
  destruct (units m !! u); [by apply wpg_modify|done].
Qed.

(** A loop keeps what each iteration keeps. *)
Lemma wpg_foreach {A} (l : list A) body (I : Manager -> Prop) m :
  I m ->
  (forall x m, x ∈ l -> I m -> wpg E (body x) (fun _ m' => I m') m) ->
  wpg E (foreach l body) (fun _ m' => I m') m.
Proof.
  revert m. induction l as [|x l IH]; intros m HI Hbody; [done|].
  simpl. apply wpg_bind.
  eapply wpg_mono; [apply Hbody; [left|done]|].
  intros ? m' HI'. apply IH; [done|].
  intros y m'' Hy. apply Hbody. by right.
Qed.

(** The same with an invariant that knows which elements were visited. *)
Lemma wpg_foreach_acc {A} (l : list A) body (I : list A -> Manager -> Prop) pre m :
  I pre m ->
  (forall done x m, I done m -> wpg E (body x) (fun _ m' => I (done ++ [x]) m') m) ->
  wpg E (foreach l body) (fun _ m' => I (pre ++ l) m') m.
Proof.
  revert pre m. induction l as [|x l IH]; intros pre m HI Hbody.
  { simpl. by rewrite app_nil_r. }
  simpl. apply wpg_bind.
  eapply wpg_mono; [by apply Hbody|].
  intros ? m' HI'. replace (pre ++ x :: l) with ((pre ++ [x]) ++ l)
    by (by rewrite <-app_assoc).
  by apply IH.
Qed.
End wpg_rules_unit.

Lemma wp_wlp {A} (c : M A) Q m : wp c Q m -> wlp c Q m.
Proof. unfold wpg. by destruct (c m). Qed.

Lemma wp_Done {A} (c : M A) Q m :
  wp c Q m <-> exists a m', c m = Done a m' /\ Q a m'.
Proof.
  unfold wpg. destruct (c m) eqn:Hc; split; try done; eauto.
  - by intros (? & ? & [= <- <-] & ?).
  - by intros (? & ? & ? & ?).
  - by intros (? & ? & ? & ?).
Qed.

Lemma wlp_Done {A} (c : M A) Q m a m' :
  wlp c Q m -> c m = Done a m' -> Q a m'.
Proof. unfold wpg. intros H Hc. by rewrite Hc in H. Qed.

Lemma wlp_intro {A} (c : M A) (Q : A -> Manager -> Prop) m :
  (forall a m', c m = Done a m' -> Q a m') -> wlp c Q m.
Proof. unfold wpg. destruct (c m); auto. Qed.

Lemma wp_and_wlp {A} (c : M A) Q1 Q2 m :
  wp c Q1 m -> wlp c Q2 m -> wp c (fun a m' => Q1 a m' /\ Q2 a m') m.
Proof. unfold wpg. by destruct (c m). Qed.

(** ** Well-formedness: what it gives *)

Lemma count_if_delete {A} (f : A -> bool) (s : gmap nat A) k :
  count_if f s =
    (count_if f (delete k s) + from_option (fun x => Nat.b2n (f x)) 0 (s !! k))%nat.
Proof.
  unfold count_if.
  destruct (s !! k) as [x|] eqn:Hk; simpl.
  - rewrite map_filter_delete.
    destruct (f x) eqn:Hx; simpl.
    + assert (filter (λ kv : nat * A, f kv.2 = true) s !! k = Some x) as Hf
        by (by apply map_lookup_filter_Some).
      rewrite map_size_delete_Some by eauto.
      pose proof (map_size_ne_0_lookup_2 _ k (mk_is_Some _ _ Hf)). lia.
    + rewrite map_size_delete_None; [lia|].
      apply map_lookup_filter_None. right. intros x' Hx'. simpl. congruence.
  - rewrite delete_id by done. lia.
Qed.

Lemma count_if_insert {A} (f : A -> bool) (s : gmap nat A) k x :
  count_if f (<[k := x]> s) = (count_if f (delete k s) + Nat.b2n (f x))%nat.
Proof.
  rewrite (count_if_delete f (<[k := x]> s) k).
  by rewrite lookup_insert_eq, delete_insert_eq.
Qed.

Lemma count_if_update {A} (f : A -> bool) (s : gmap nat A) k x x' :
  s !! k = Some x ->
  (count_if f (<[k := x']> s) + Nat.b2n (f x) = count_if f s + Nat.b2n (f x'))%nat.
Proof.
  intros Hk. rewrite count_if_insert, (count_if_delete f s k), Hk. simpl. lia.
Qed.

Lemma count_if_le_size {A} (f : A -> bool) (s : gmap nat A) :
  (count_if f s <= size s)%nat.
Proof. apply map_subseteq_size, map_filter_subseteq. Qed.

Lemma count_running_delete h j :
  count_running h =
    (count_running (delete j h)
     + from_option (fun J => Nat.b2n (running_installed J)) 0 (h !! j))%nat.
Proof. apply count_if_delete. Qed.

Lemma count_running_insert h j J :
  count_running (<[j := J]> h) =
    (count_running (delete j h) + Nat.b2n (running_installed J))%nat.
Proof. apply count_if_insert. Qed.

Lemma count_running_update h j J J' :
  h !! j = Some J -> running_installed J' = running_installed J ->
  count_running (<[j := J']> h) = count_running h.
Proof.
  intros Hj HJ. pose proof (count_if_update running_installed h j J J' Hj) as H.
  unfold count_running. rewrite HJ in H. lia.
Qed.

(** Emptying a slot of a unit: the regular slot counts, the nop slot does
    not. *)
Lemma occupied_clear_slot us u U t j :
  us !! u = Some U -> unit_slot t U = Some j ->
  (occupied (<[u := set_unit_slot t None U]> us)
   + (if decide (t = JOB_NOP) then 0 else 1) = occupied us)%nat.
Proof.
  intros HU Hs. pose proof (count_if_update has_job us u U (set_unit_slot t None U) HU) as H.
  unfold occupied. unfold unit_slot, set_unit_slot in *.
  destruct (decide (t = JOB_NOP)); unfold has_job in *; simpl in *.
  - destruct (u_job U); simpl in *; lia.
  - rewrite Hs in H. simpl in H. lia.
Qed.

Lemma occupied_le_size us : (occupied us <= size us)%nat.
Proof. apply count_if_le_size. Qed.

Lemma occupied_pos us u U p :
  us !! u = Some U -> u_job U = Some p -> (0 < occupied us)%nat.
Proof.
  intros HU Hp. unfold occupied. rewrite (count_if_delete has_job us u), HU. simpl.
  unfold has_job. rewrite Hp. simpl. lia.
Qed.

Section wf_facts.
Context {us : gmap nat Unit} {h : gmap nat Job} {n : Z} (Hwf : WF' us h n).

Lemma wf_regular_slot u U p :
  us !! u = Some U -> u_job U = Some p ->
  exists J, h !! p = Some J /\ j_unit J = u /\ j_installed J = true /\
    j_type J ≠ JOB_NOP /\ JobType_to_Z (j_type J) < _JOB_TYPE_MAX_IN_TRANSACTION.
Proof.
  intros HU Hp. pose proof (wf_units _ _ _ Hwf u U HU) as Hok.
  unfold unit_ok in Hok. rewrite Hp in Hok. simpl in Hok.
  bool_hyps. unfold slot_job_ok in *. destruct (h !! p) as [J|]; [|done].
  exists J. bool_hyps. repeat split; try done; try lia.
Qed.

Lemma wf_nop_slot u U p :
  us !! u = Some U -> u_nop_job U = Some p ->
  exists J, h !! p = Some J /\ j_unit J = u /\ j_installed J = true /\
    j_type J = JOB_NOP.
Proof.
  intros HU Hp. pose proof (wf_units _ _ _ Hwf u U HU) as Hok.
  unfold unit_ok in Hok. rewrite Hp in Hok. simpl in Hok.
  bool_hyps. unfold slot_job_ok in *. destruct (h !! p) as [J|]; [|done].
  exists J. bool_hyps. repeat split; try done.
Qed.

Lemma wf_dependency u U d o :
  us !! u = Some U -> o ∈ u_dependencies U d -> is_Some (us !! o).
Proof.
  intros HU Ho. pose proof (wf_units _ _ _ Hwf u U HU) as Hok.
  unfold unit_ok in Hok. apply andb_prop in Hok as [_ Hok].
  rewrite forallb_forall in Hok.
  assert (In d all_dependencies) as Hd by (destruct d; simpl; tauto).
  specialize (Hok d Hd). rewrite forallb_forall in Hok.
  apply list_elem_of_In in Ho. specialize (Hok o Ho).
  by apply bool_decide_eq_true in Hok.
Qed.

Lemma wf_installed p J :
  h !! p = Some J -> j_installed J = true ->
  exists U, us !! j_unit J = Some U /\ unit_slot (j_type J) U = Some p.
Proof.
  intros Hp Hi. pose proof (wf_jobs _ _ _ Hwf p J Hp) as Hok.
  unfold job_ok in Hok. rewrite Hi in Hok. simpl in Hok.
  destruct (us !! j_unit J) as [U|]; [|done].
  exists U. split; [done|]. by apply bool_decide_eq_true in Hok.
Qed.

End wf_facts.

(** A Prop-level way into [WF']. *)
Lemma WF'_intro us h n :
  (forall u U p, us !! u = Some U -> u_job U = Some p ->
     exists J, h !! p = Some J /\ j_unit J = u /\ j_installed J = true /\
       j_type J ≠ JOB_NOP /\ JobType_to_Z (j_type J) < _JOB_TYPE_MAX_IN_TRANSACTION) ->
  (forall u U p, us !! u = Some U -> u_nop_job U = Some p ->
     exists J, h !! p = Some J /\ j_unit J = u /\ j_installed J = true /\
       j_type J = JOB_NOP) ->
  (forall u U d o, us !! u = Some U -> o ∈ u_dependencies U d -> is_Some (us !! o)) ->
  (forall p J, h !! p = Some J -> j_installed J = true ->
     exists U, us !! j_unit J = Some U /\ unit_slot (j_type J) U = Some p) ->
  n = Z.of_nat (count_running h) ->
  WF' us h n.
Proof.
  intros H1 H2 H3 H4 H5. constructor; [| |done].
  - intros u U HU. unfold unit_ok.
    apply andb_true_intro; split; [apply andb_true_intro; split|].
    + destruct (u_job U) as [p|] eqn:Hp; [|done]. simpl.
      destruct (H1 u U p HU Hp) as (J & HJ & Hu & Hi & Ht & Hlt).
      unfold slot_job_ok. rewrite HJ, Hi.
      rewrite (bool_decide_eq_true_2 _ Hu), (bool_decide_eq_false_2 _ Ht). simpl.
      by apply Z.ltb_lt.
    + destruct (u_nop_job U) as [p|] eqn:Hp; [|done]. simpl.
      destruct (H2 u U p HU Hp) as (J & HJ & Hu & Hi & Ht).
      unfold slot_job_ok. rewrite HJ, Hi, Ht.
      by rewrite (bool_decide_eq_true_2 _ Hu).
    + apply forallb_forall. intros d _. apply forallb_forall. intros o Ho.
      apply bool_decide_eq_true. eapply H3; [done|]. by apply list_elem_of_In.
  - intros p J Hp. unfold job_ok.
    destruct (j_installed J) eqn:Hi; [|done]. simpl.
    destruct (H4 p J Hp Hi) as (U & -> & Hs). by apply bool_decide_eq_true.
Qed.

(** ** Well-formedness: what keeps it *)

Lemma unit_slot_class t t' U :
  bool_decide (t' = JOB_NOP) = bool_decide (t = JOB_NOP) ->
  unit_slot t' U = unit_slot t U.
Proof.
  unfold unit_slot. intros H.
  destruct (decide (t = JOB_NOP)), (decide (t' = JOB_NOP)); try done.
  - rewrite bool_decide_eq_false_2, bool_decide_eq_true_2 in H by done. done.
  - rewrite bool_decide_eq_true_2, bool_decide_eq_false_2 in H by done. done.
Qed.

(** Rewriting fields of a job that are neither its unit, its installed
    bit, its state nor the slot kind of its type. *)
Lemma WF'_update_job us h n j J J' :
  WF' us h n -> h !! j = Some J ->
  j_unit J' = j_unit J -> j_installed J' = j_installed J ->
  j_state J' = j_state J ->
  bool_decide (j_type J' = JOB_NOP) = bool_decide (j_type J = JOB_NOP) ->
  (JobType_to_Z (j_type J) < _JOB_TYPE_MAX_IN_TRANSACTION ->
   JobType_to_Z (j_type J') < _JOB_TYPE_MAX_IN_TRANSACTION) ->
  WF' us (<[j := J']> h) n.
Proof.
  intros Hwf Hj Hu Hi Hs Hc Ht.
  assert (j_type J' = JOB_NOP <-> j_type J = JOB_NOP) as Hnop.
  { split; intros H; eapply bool_decide_eq_true_1.
    - rewrite <-Hc. by apply bool_decide_eq_true_2.
    - rewrite Hc. by apply bool_decide_eq_true_2. }
  apply WF'_intro.
  - intros u U p HU Hp.
    destruct (wf_regular_slot Hwf u U p HU Hp) as (J0 & HJ0 & ? & ? & ? & ?).
    destruct (decide (p = j)) as [->|Hne].
    + rewrite lookup_insert_eq. exists J'. simplify_eq. rewrite Hu, Hi. repeat split; try done; [tauto|auto].
    + rewrite lookup_insert_ne by done. eauto 10.
  - intros u U p HU Hp.
    destruct (wf_nop_slot Hwf u U p HU Hp) as (J0 & HJ0 & ? & ? & ?).
    destruct (decide (p = j)) as [->|Hne].
    + rewrite lookup_insert_eq. exists J'. simplify_eq. rewrite Hu, Hi. repeat split; try done; tauto.
    + rewrite lookup_insert_ne by done. eauto 10.
  - intros. by eapply (wf_dependency Hwf).
  - intros p J0 Hp Hi0.
    destruct (decide (p = j)) as [->|Hne].
    + rewrite lookup_insert_eq in Hp. injection Hp as <-.
      destruct (wf_installed Hwf j J Hj) as (U & HU & HsU); [congruence|].
      exists U. rewrite Hu, (unit_slot_class _ _ U Hc). done.
    + rewrite lookup_insert_ne in Hp by done. by apply (wf_installed Hwf).
  - rewrite (count_running_update h j J J' Hj).
    + apply (wf_running _ _ _ Hwf).
    + unfold running_installed. by rewrite Hi, Hs.
Qed.

(** A state change of an installed job, with the counter following. *)
Lemma WF'_set_state us h n j J s :
  WF' us h n -> h !! j = Some J -> j_installed J = true -> j_state J ≠ s ->
  match s with
  | JOB_RUNNING => WF' us (<[j := set_j_state s J]> h) (n + 1)
  | JOB_WAITING => 0 < n /\ WF' us (<[j := set_j_state s J]> h) (n - 1)
  end.
Proof.
  intros Hwf Hj Hi Hs.
  assert (forall n', n' = Z.of_nat (count_running (<[j := set_j_state s J]> h)) ->
                     WF' us (<[j := set_j_state s J]> h) n') as Hgen.
  { intros n' Hn'. apply WF'_intro; [| | | |done].
    - intros u U p HU Hp.
      destruct (wf_regular_slot Hwf u U p HU Hp) as (J0 & HJ0 & ? & ? & ? & ?).
      destruct (decide (p = j)) as [->|Hne].
      + rewrite lookup_insert_eq. exists (set_j_state s J). simplify_eq. naive_solver.
      + rewrite lookup_insert_ne by done. eauto 10.
    - intros u U p HU Hp.
      destruct (wf_nop_slot Hwf u U p HU Hp) as (J0 & HJ0 & ? & ? & ?).
      destruct (decide (p = j)) as [->|Hne].
      + rewrite lookup_insert_eq. exists (set_j_state s J). simplify_eq. naive_solver.
      + rewrite lookup_insert_ne by done. eauto 10.
    - intros. by eapply (wf_dependency Hwf).
    - intros p J0 Hp Hi0.
      destruct (decide (p = j)) as [->|Hne].
      + rewrite lookup_insert_eq in Hp. simplify_eq. simpl.
        by apply (wf_installed Hwf j J Hj).
      + rewrite lookup_insert_ne in Hp by done. by apply (wf_installed Hwf). }
  pose proof (wf_running _ _ _ Hwf) as Hn.
  rewrite (count_running_delete h j), Hj in Hn. simpl in Hn.
  pose proof (count_running_insert h j (set_j_state s J)) as Hc.
  unfold running_installed in Hn, Hc. simpl in Hc. rewrite Hi in Hn, Hc. simpl in Hn, Hc.
  destruct s, (j_state J) eqn:HJs; try done.
  - rewrite bool_decide_eq_true_2 in Hn by done.
    rewrite bool_decide_eq_false_2 in Hc by done. simpl in *.
    split; [lia|]. apply Hgen. lia.
  - rewrite bool_decide_eq_false_2 in Hn by done.
    rewrite bool_decide_eq_true_2 in Hc by done. simpl in *.
    apply Hgen. lia.
Qed.

(** Taking a waiting job out of its slot. *)
Lemma WF'_uninstall us h n j J U :
  WF' us h n -> h !! j = Some J -> j_installed J = true ->
  j_state J = JOB_WAITING -> us !! j_unit J = Some U ->
  WF' (<[j_unit J := set_unit_slot (j_type J) None U]> us)
      (<[j := set_j_installed false J]> h) n.
Proof.
  intros Hwf Hj Hi Hs HU.
  destruct (wf_installed Hwf j J Hj Hi) as (U' & HU' & Hslot). simplify_eq.
  apply WF'_intro.
  - intros u U0 p HU0 Hp.
    assert (exists U1, us !! u = Some U1 /\ u_job U1 = Some p /\
              (u = j_unit J -> j_type J ≠ JOB_NOP -> False)) as (U1 & HU1 & Hp1 & Hcl).
    { destruct (decide (u = j_unit J)) as [->|Hne].
      - rewrite lookup_insert_eq in HU0. simplify_eq. exists U. split; [done|].
        unfold set_unit_slot in Hp. destruct (decide (j_type J = JOB_NOP)); simpl in Hp; done.
      - rewrite lookup_insert_ne in HU0 by done. exists U0. done. }
    destruct (wf_regular_slot Hwf u U1 p HU1 Hp1) as (J0 & HJ0 & ? & ? & ? & ?).
    destruct (decide (p = j)) as [->|Hne].
    + simplify_eq. exfalso. by apply Hcl.
    + rewrite lookup_insert_ne by done. eauto 10.
  - intros u U0 p HU0 Hp.
    assert (exists U1, us !! u = Some U1 /\ u_nop_job U1 = Some p /\
              (u = j_unit J -> j_type J = JOB_NOP -> False)) as (U1 & HU1 & Hp1 & Hcl).
    { destruct (decide (u = j_unit J)) as [->|Hne].
      - rewrite lookup_insert_eq in HU0. simplify_eq. exists U. split; [done|].
        unfold set_unit_slot in Hp. destruct (decide (j_type J = JOB_NOP)); simpl in Hp; done.
      - rewrite lookup_insert_ne in HU0 by done. exists U0. done. }
    destruct (wf_nop_slot Hwf u U1 p HU1 Hp1) as (J0 & HJ0 & ? & ? & ?).
    destruct (decide (p = j)) as [->|Hne].
    + simplify_eq. exfalso. by apply Hcl.
    + rewrite lookup_insert_ne by done. eauto 10.
  - intros u U0 d o HU0 Ho.
    assert (is_Some (us !! o)) as [O HO].
    { destruct (decide (u = j_unit J)) as [->|Hne].
      - rewrite lookup_insert_eq in HU0. simplify_eq.
        apply (wf_dependency Hwf (j_unit J) U d o HU).
        unfold set_unit_slot in Ho. by destruct (decide (j_type J = JOB_NOP)).
      - rewrite lookup_insert_ne in HU0 by done. by apply (wf_dependency Hwf u U0 d o). }
    destruct (decide (o = j_unit J)) as [->|Hne].
    + rewrite lookup_insert_eq. eauto.
    + rewrite lookup_insert_ne by done. eauto.
  - intros p J0 Hp Hi0.
    destruct (decide (p = j)) as [->|Hne].
    + rewrite lookup_insert_eq in Hp. by simplify_eq.
    + rewrite lookup_insert_ne in Hp by done.
      destruct (wf_installed Hwf p J0 Hp Hi0) as (U0 & HU0 & Hs0).
      destruct (decide (j_unit J0 = j_unit J)) as [Heq|Hneu].
      * rewrite Heq, lookup_insert_eq. rewrite Heq in HU0. simplify_eq.
        eexists; split; [done|].
        unfold unit_slot, set_unit_slot in *.
        destruct (decide (j_type J = JOB_NOP)), (decide (j_type J0 = JOB_NOP));
          simpl; congruence.
      * rewrite lookup_insert_ne by done. eauto.
  - rewrite (count_running_update h j J _ Hj).
    + apply (wf_running _ _ _ Hwf).
    + unfold running_installed. simpl. rewrite Hi, Hs. done.
Qed.

(** Freeing a job that is not installed. *)
Lemma WF'_free us h n j J :
  WF' us h n -> h !! j = Some J -> j_installed J = false ->
  WF' us (delete j h) n.
Proof.
  intros Hwf Hj Hi. apply WF'_intro.
  - intros u U p HU Hp.
    destruct (wf_regular_slot Hwf u U p HU Hp) as (J0 & HJ0 & ? & ? & ? & ?).
    destruct (decide (p = j)) as [->|Hne]; [congruence|].
    rewrite lookup_delete_ne by done. eauto 10.
  - intros u U p HU Hp.
    destruct (wf_nop_slot Hwf u U p HU Hp) as (J0 & HJ0 & ? & ? & ?).
    destruct (decide (p = j)) as [->|Hne]; [congruence|].
    rewrite lookup_delete_ne by done. eauto 10.
  - intros. by eapply (wf_dependency Hwf).
  - intros p J0 Hp Hi0. apply lookup_delete_Some in Hp as [Hne Hp].
    by apply (wf_installed Hwf).
  - pose proof (wf_running _ _ _ Hwf) as Hn.
    rewrite (count_running_delete h j), Hj in Hn. simpl in Hn.
    unfold running_installed in Hn. rewrite Hi in Hn. simpl in Hn. lia.
Qed.

(** A job that is not installed may change in any way, as long as it
    stays so. *)
Lemma WF'_update_uninstalled us h n j J J' :
  WF' us h n -> h !! j = Some J ->
  j_installed J = false -> j_installed J' = false ->
  WF' us (<[j := J']> h) n.
Proof.
  intros Hwf Hj Hi Hi'. apply WF'_intro.
  - intros u U p HU Hp.
    destruct (wf_regular_slot Hwf u U p HU Hp) as (J0 & HJ0 & ? & ? & ? & ?).
    destruct (decide (p = j)) as [->|Hne]; [congruence|].
    rewrite lookup_insert_ne by done. eauto 10.
  - intros u U p HU Hp.
    destruct (wf_nop_slot Hwf u U p HU Hp) as (J0 & HJ0 & ? & ? & ?).
    destruct (decide (p = j)) as [->|Hne]; [congruence|].
    rewrite lookup_insert_ne by done. eauto 10.
  - intros. by eapply (wf_dependency Hwf).
  - intros p J0 Hp Hi0. destruct (decide (p = j)) as [->|Hne].
    + rewrite lookup_insert_eq in Hp. congruence.
    + rewrite lookup_insert_ne in Hp by done. by apply (wf_installed Hwf).
  - rewrite (count_running_update _ j J); [apply (wf_running _ _ _ Hwf)|done|].
    unfold running_installed. by rewrite Hi, Hi'.
Qed.

(** ** Symbolic execution of engine code *)

(** Reduce projections out of updated records, nothing else. *)
Ltac msimpl :=
  cbn [units job_heap next_ptr jobs run_queue dbus_job_queue
       pending_finished_jobs current_job_id n_installed_jobs n_running_jobs
       n_failed_jobs n_reloading trace
       set_units set_job_heap set_next_ptr set_jobs set_run_queue
       set_dbus_job_queue set_pending_finished_jobs set_current_job_id
       set_n_installed_jobs set_n_running_jobs set_n_failed_jobs set_trace
       j_unit j_id j_type j_state j_result j_begin_usec j_timer_event_source
       j_clients j_deserialized_clients j_installed j_in_run_queue
       j_in_dbus_queue j_override j_irreversible j_ignore_order j_reloaded
       j_sent_dbus_new_signal
       set_j_id set_j_type set_j_state set_j_result set_j_begin_usec
       set_j_timer_event_source set_j_deserialized_clients set_j_installed
       set_j_in_run_queue set_j_in_dbus_queue set_j_override
       set_j_irreversible set_j_ignore_order set_j_reloaded
       set_j_sent_dbus_new_signal
       u_job u_nop_job u_dependencies u_active_state u_job_timeout
       set_u_job set_u_nop_job] in *.

Ltac lookup_simpl :=
  msimpl;
  repeat first
    [ rewrite lookup_insert_eq
    | rewrite lookup_delete_eq
    | rewrite insert_insert_eq
    | rewrite lookup_insert_ne by done
    | rewrite lookup_delete_ne by done
    | rewrite bool_decide_eq_true_2 by done
    | match goal with
      | H : ?x = Some _ |- context [?x] => rewrite H
      | H : ?x = None |- context [?x] => rewrite H
      end ].

(** One step through the code under [wpg]. *)
Ltac wp_step :=
  lookup_simpl;
  lazymatch goal with
  | |- wpg _ (mret _) _ _ => apply wpg_ret
  | |- wpg _ (_ ≫= _) _ _ => apply wpg_bind
  | |- wpg _ (gets _) _ _ => apply wpg_gets
  | |- wpg _ (modify _) _ _ => apply wpg_modify
  | |- wpg _ (emit _) _ _ => apply wpg_emit
  | |- wpg _ abort _ _ => apply wpg_abort; try done
  | |- wpg _ (massert ?b) _ _ =>
      apply wpg_massert; lookup_simpl;
      lazymatch goal with
      | |- if ?b then _ else _ => destruct b eqn:?; [|try done]
      | |- _ => idtac
      end
  | |- wpg _ (when ?b _) _ _ =>
      apply wpg_when; lookup_simpl;
      lazymatch goal with
      | |- if ?b then _ else _ => destruct b eqn:?
      | |- _ => idtac
      end
  | |- wpg _ (get_job _) _ _ =>
      apply wpg_get_job; lookup_simpl;
      lazymatch goal with
      | |- match ?o with _ => _ end => destruct o eqn:?; [|try done]
      | |- _ => idtac
      end
  | |- wpg _ (get_unit _) _ _ =>
      apply wpg_get_unit; lookup_simpl;
      lazymatch goal with
      | |- match ?o with _ => _ end => destruct o eqn:?; [|try done]
      | |- _ => idtac
      end
  | |- wpg _ (update_job _ _) _ _ =>
      apply wpg_update_job; lookup_simpl;
      lazymatch goal with
      | |- match ?o with _ => _ end => destruct o eqn:?; [|try done]
      | |- _ => idtac
      end
  | |- wpg _ (update_unit _ _) _ _ =>
      apply wpg_update_unit; lookup_simpl;
      lazymatch goal with
      | |- match ?o with _ => _ end => destruct o eqn:?; [|try done]
      | |- _ => idtac
      end
  | |- wpg _ (if ?b then _ else _) _ _ =>
      lazymatch b with
      | decide _ => destruct b
      | _ => destruct b eqn:?
      end
  | |- wpg _ (match ?x with _ => _ end) _ _ => destruct x eqn:?
  end.

Ltac wp_run := repeat wp_step; lookup_simpl.

(** The same step, leaving alone the side goals of earlier steps. *)
Ltac wp_next :=
  lazymatch goal with
  | |- wpg _ _ _ _ => wp_step
  | |- _ => idtac
  end.

(** ** The helpers keep well-formedness *)

Lemma job_add_to_dbus_queue_wf E j J m :
  WF m -> job_heap m !! j = Some J -> j_installed J = true ->
  wpg E (job_add_to_dbus_queue j)
    (fun _ m' => WF m' /\ units m' = units m /\
       exists J', job_heap m' !! j = Some J' /\ job_core J' = job_core J) m.
Proof.
  intros Hwf Hj Hi. unfold job_add_to_dbus_queue. wp_run.
  - eauto.
  - split; [|eauto]. unfold WF; msimpl. by eapply WF'_update_job.
Qed.

Lemma job_add_to_run_queue_wf E j J m :
  WF m -> job_heap m !! j = Some J -> j_installed J = true ->
  wpg E (job_add_to_run_queue j)
    (fun _ m' => WF m' /\ units m' = units m /\
       exists J', job_heap m' !! j = Some J' /\ job_core J' = job_core J) m.
Proof.
  intros Hwf Hj Hi. unfold job_add_to_run_queue. wp_run.
  - eauto.
  - split; [|eauto]. unfold WF; msimpl. by eapply WF'_update_job.
  - split; [|eauto]. unfold WF; msimpl. by eapply WF'_update_job.
Qed.

Lemma WF_n_running_nonneg m : WF m -> 0 <= n_running_jobs m.
Proof. intros Hwf. rewrite (wf_running _ _ _ Hwf). lia. Qed.

Lemma job_set_state_wf E j J s m :
  WF m -> job_heap m !! j = Some J ->
  (s = JOB_RUNNING -> n_running_jobs m + 1 < 2 ^ 32) ->
  wpg E (job_set_state j s)
    (fun _ m' => WF m' /\ units m' = units m /\
       exists J', job_heap m' !! j = Some J' /\ j_unit J' = j_unit J /\
         j_installed J' = j_installed J /\ j_type J' = j_type J /\
         j_state J' = s) m.
Proof.
  intros Hwf Hj Hn. unfold job_set_state. wp_run.
  - eauto 10.
  - bool_hyps. split; [|eauto 10]. unfold WF; msimpl.
    by eapply WF'_update_uninstalled.
  - bool_hyps. subst s. specialize (Hn eq_refl).
    pose proof (WF'_set_state _ _ _ j J JOB_RUNNING Hwf Hj) as H'. simpl in H'.
    pose proof (WF_n_running_nonneg m Hwf).
    split; [|eauto 10]. unfold WF; msimpl. unfold u32.
    rewrite Z.mod_small by lia. apply H'; [done|congruence].
  - bool_hyps. destruct s; [|done].
    destruct (WF'_set_state _ _ _ j J JOB_WAITING Hwf Hj) as [? ?]; [done..|].
    split; [|eauto 10]. done.
  - bool_hyps. destruct s; [|done].
    destruct (WF'_set_state _ _ _ j J JOB_WAITING Hwf Hj) as [? ?]; [done..|].
    split; [|eauto 10]. done.
  - bool_hyps. destruct s; [|done].
    destruct (WF'_set_state _ _ _ j J JOB_WAITING Hwf Hj) as [? _]; [done..|lia].
Qed.

(** Run a helper whose specification is known, then go on. *)
Ltac wp_use lem :=
  lookup_simpl;
  lazymatch goal with
  | |- wpg _ (_ ≫= _) _ _ => apply wpg_bind
  | |- _ => idtac
  end;
  eapply wpg_mono; [eapply lem; eauto|cbv beta].

Lemma job_uninstall_wf E j J m :
  WF m -> job_heap m !! j = Some J -> j_installed J = true ->
  wpg E (job_uninstall j)
    (fun _ m' => WF m' /\
       (exists J', job_heap m' !! j = Some J' /\ j_installed J' = false /\
          j_unit J' = j_unit J /\ j_type J' = j_type J) /\
       (exists U, units m !! j_unit J = Some U /\
          unit_slot (j_type J) U = Some j /\
          units m' = <[j_unit J := set_unit_slot (j_type J) None U]> (units m))) m.
Proof.
  intros Hwf Hj Hi. unfold job_uninstall. do 4 wp_step.
  wp_use job_set_state_wf; [done|].
  intros _ m1 (Hwf1 & Hu1 & J1 & HJ1 & HuJ & HiJ & HtJ & HsJ).
  assert (j_installed J1 = true) as Hi1 by congruence.
  destruct (wf_installed Hwf1 j J1 HJ1 Hi1) as (U & HU & Hslot).
  rewrite <-Hu1, <-HuJ, <-HtJ.
  wp_run.
  all: split; [unfold WF; msimpl; apply WF'_uninstall; try done; congruence|].
  all: split; [eexists; split; [done|msimpl; done]|].
  all: by exists U.
Qed.

Lemma job_unlink_wf E j J m :
  WF m -> job_heap m !! j = Some J -> j_installed J = false ->
  wpg E (job_unlink j)
    (fun _ m' => WF m' /\ units m' = units m /\
       exists J', job_heap m' !! j = Some J' /\ j_installed J' = false) m.
Proof.
  intros Hwf Hj Hi. unfold job_unlink. wp_run; bool_hyps; try congruence;
    (split; [|split; [done|eauto]]); unfold WF; msimpl;
    by eapply WF'_update_uninstalled.
Qed.

Lemma job_free_wf E j J m :
  WF m -> job_heap m !! j = Some J -> j_installed J = false ->
  wpg E (job_free j) (fun _ m' => WF m' /\ units m' = units m) m.
Proof.
  intros Hwf Hj Hi. unfold job_free. do 4 wp_step; [|bool_hyps; congruence].
  wp_use job_unlink_wf. intros _ m1 (Hwf1 & Hu1 & J1 & HJ1 & Hi1).
  wp_run. split; [|done]. unfold WF; msimpl. by eapply WF'_free.
Qed.

Lemma job_save_pending_finished_job_wf E j J m :
  WF m -> job_heap m !! j = Some J -> j_installed J = false ->
  wpg E (job_save_pending_finished_job j)
    (fun r m' => r = 1 /\ WF m' /\ units m' = units m) m.
Proof.
  intros Hwf Hj Hi. unfold job_save_pending_finished_job.
  wp_use job_unlink_wf. intros _ m1 (Hwf1 & Hu1 & J1 & HJ1 & Hi1).
  wp_run. done.
Qed.

Lemma requeue_neighbours_wf E l m :
  WF m -> (forall o, o ∈ l -> is_Some (units m !! o)) ->
  wpg E (requeue_neighbours l) (fun _ m' => WF m' /\ units m' = units m) m.
Proof.
  intros Hwf Hl. unfold requeue_neighbours.
  eapply wpg_mono.
  - apply (wpg_foreach E l _ (fun m' => WF m' /\ units m' = units m)); [done|].
    intros o m1 Ho [Hwf1 Hu1]. destruct (Hl o Ho) as [O HO]. rewrite <-Hu1 in HO.
    do 2 wp_step. destruct (u_job O) as [oj|] eqn:Hoj; [|by wp_run].
    destruct (wf_regular_slot Hwf1 o O oj HO Hoj) as (OJ & HOJ & ? & ? & ? & ?).
    wp_use job_add_to_run_queue_wf. intros _ m2 (Hwf2 & Hu2 & _). split; [done|congruence].
  - done.
Qed.

Lemma finish_label_wf E u U m :
  WF m -> units m !! u = Some U ->
  wpg E (finish_label u) (fun r m' => r = 0 /\ WF m' /\ units m' = units m) m.
Proof.
  intros Hwf HU. unfold finish_label. do 2 wp_step.
  wp_use requeue_neighbours_wf.
  { intros o Ho. by eapply (wf_dependency Hwf). }
  intros _ m1 [Hwf1 Hu1].
  wp_use requeue_neighbours_wf.
  { intros o Ho. rewrite Hu1. by eapply (wf_dependency Hwf). }
  intros _ m2 [Hwf2 Hu2]. wp_run. split; [done|]. split; [done|congruence].
Qed.

(** ** The finish kernel returns and keeps well-formedness *)

Lemma units_shrink_refl m : units_shrink m m.
Proof. by split. Qed.

Lemma units_shrink_trans m1 m2 m3 :
  units_shrink m1 m2 -> units_shrink m2 m3 -> units_shrink m1 m3.
Proof. intros [? ?] [? ?]. split; [lia|auto]. Qed.

Lemma units_shrink_eq m m' : units m' = units m -> units_shrink m m'.
Proof. intros H. unfold units_shrink. rewrite H. by split. Qed.

Lemma fail_dependents_wf E (finish : nat -> M Z) skip l (f : nat) m :
  (forall oj OJ m1, WF m1 -> job_heap m1 !! oj = Some OJ ->
     j_installed OJ = true ->
     JobType_to_Z (j_type OJ) < _JOB_TYPE_MAX_IN_TRANSACTION ->
     (occupied (units m1) <= f)%nat ->
     wpg E (finish oj) (fun _ m' => WF m' /\ units_shrink m1 m') m1) ->
  WF m -> (occupied (units m) <= f)%nat ->
  (forall o, o ∈ l -> is_Some (units m !! o)) ->
  wpg E (fail_dependents finish skip l) (fun _ m' => WF m' /\ units_shrink m m') m.
Proof.
  intros Hfin Hwf Hocc Hl. unfold fail_dependents.
  apply (wpg_foreach E l _ (fun m' => WF m' /\ units_shrink m m')).
  { split; [done|apply units_shrink_refl]. }
  intros o m1 Ho [Hwf1 Hs1].
  destruct (proj2 Hs1 o (Hl o Ho)) as [O HO].
  do 2 wp_step. destruct (u_job O) as [oj|] eqn:Hoj; [|by wp_run].
  destruct (wf_regular_slot Hwf1 o O oj HO Hoj) as (OJ & HOJ & ? & ? & ? & ?).
  do 3 wp_step; [|by wp_run].
  wp_use Hfin. { destruct Hs1. lia. }
  intros _ m2 [Hwf2 Hs2]. wp_run. split; [done|]. by eapply units_shrink_trans.
Qed.

Lemma job_finish_and_invalidate_rec_wf E f :
  forall m j J result recursive already,
  WF m -> job_heap m !! j = Some J -> j_installed J = true ->
  JobType_to_Z (j_type J) < _JOB_TYPE_MAX_IN_TRANSACTION ->
  (occupied (units m) <= f)%nat ->
  wpg E (job_finish_and_invalidate_rec (S f) j result recursive already)
    (fun r m' => r = 0 /\ WF m' /\ units_shrink m m') m.
Proof.
  induction f as [f IH] using lt_wf_ind.
  intros m j J result recursive already Hwf Hj Hi Ht Hocc.
  cbn [job_finish_and_invalidate_rec].
  destruct (wf_installed Hwf j J Hj Hi) as (U & HU & Hslot).
  do 6 wp_step; [|lia].
  apply wpg_bind, wpg_update_job. rewrite Hj. msimpl.
  apply wpg_bind, wpg_emit.
  set (m1 := set_trace _ _).
  assert (WF m1) as Hwf1.
  { unfold WF, m1; msimpl. by eapply WF'_update_job. }
  assert (units m1 = units m) as Hu1 by done.
  assert (job_heap m1 !! j = Some (set_j_result result J)) as Hj1.
  { unfold m1; msimpl. by rewrite lookup_insert_eq. }
  clearbody m1.
  apply wpg_bind.
  apply (wpg_mono _ _ (fun _ m2 => WF m2 /\ units m2 = units m /\
           job_heap m2 !! j = Some (set_j_result result J))).
  { wp_run; done. }
  intros _ m2 (Hwf2 & Hu2 & Hj2). clear m1 Hwf1 Hu1 Hj1.
  wp_use job_add_to_dbus_queue_wf.
  intros _ m3 (Hwf3 & Hu3 & J3 & Hj3 & Hc3). rewrite Hu2 in Hu3.
  unfold job_core in Hc3. msimpl. injection Hc3 as HuJ3 HiJ3 HtJ3 HsJ3.
  clear m2 Hwf2 Hu2 Hj2.
  destruct (bool_decide (result = JOB_DONE) && bool_decide (j_type J = JOB_RESTART)) eqn:Hbr.
  - (* the restart is patched into a start *)
    unfold job_change_type. apply wpg_bind, wpg_update_job. rewrite Hj3. msimpl.
    set (m4 := set_job_heap _ _).
    assert (WF m4) as Hwf4.
    { unfold WF, m4; msimpl. eapply WF'_update_job; try done; msimpl.
      rewrite HtJ3. bool_hyps. by rewrite H0. }
    assert (units m4 = units m) as Hu4 by done.
    assert (job_heap m4 !! j = Some (set_j_type JOB_START J3)) as Hj4.
    { unfold m4; msimpl. by rewrite lookup_insert_eq. }
    clearbody m4.
    wp_use job_set_state_wf; [done|].
    intros _ m5 (Hwf5 & Hu5 & J5 & Hj5 & ? & Hi5 & ? & ?). msimpl.
    wp_use job_add_to_run_queue_wf.
    intros _ m6 (Hwf6 & Hu6 & _).
    wp_use finish_label_wf. { rewrite Hu6, Hu5, Hu4. done. }
    intros r m7 [-> [Hwf7 Hu7]]. split; [done|]. split; [done|].
    apply units_shrink_eq. congruence.
  - (* the job goes away *)
    apply wpg_bind.
    apply (wpg_mono _ _ (fun _ m4 => WF m4 /\ units m4 = units m /\
             job_heap m4 !! j = Some J3)).
    { wp_run; done. }
    intros _ m4 (Hwf4 & Hu4 & Hj4). clear m3 Hwf3 Hu3 Hj3.
    wp_use job_uninstall_wf.
    intros _ m5 (Hwf5 & (J5 & Hj5 & Hi5 & HuJ5 & HtJ5) & (U' & HU' & Hslot' & Hu5)).
    rewrite Hu4, HuJ3 in HU'. rewrite HU in HU'. injection HU' as <-.
    rewrite Hu4, HuJ3, HtJ3 in Hu5.
    assert (units_shrink m m5) as Hs5.
    { split.
      - pose proof (occupied_clear_slot (units m) _ U (j_type J) j HU Hslot).
        rewrite Hu5. lia.
      - intros o [O HO]. rewrite Hu5. destruct (decide (o = j_unit J)) as [->|].
        + rewrite lookup_insert_eq. eauto.
        + rewrite lookup_insert_ne by done. eauto. }
    do 4 wp_step.
    apply wpg_bind.
    apply (wpg_mono _ _ (fun _ m6 => WF m6 /\ units m6 = units m5)).
    { destruct ((0 <? n_reloading m5) && j_reloaded J5).
      - wp_use job_save_pending_finished_job_wf.
        intros r m6 [-> [Hwf6 Hu6]]. by wp_run.
      - by wp_use job_free_wf. }
    intros _ m6 (Hwf6 & Hu6).
    assert (exists U6, units m6 !! j_unit J = Some U6 /\
              u_dependencies U6 = u_dependencies U) as (U6 & HU6 & Hd6).
    { rewrite Hu6, Hu5, lookup_insert_eq. eexists; split; [done|].
      unfold set_unit_slot. by destruct (decide (j_type J = JOB_NOP)). }
    do 2 wp_step.
    apply wpg_bind.
    apply (wpg_mono _ _ (fun _ m7 => WF m7 /\ units_shrink m6 m7)).
    { apply wpg_when.
      destruct (negb (bool_decide (result = JOB_DONE)) && recursive);
        [|split; [done|apply units_shrink_refl]].
      assert (is_start_or_verify (j_type J) = true \/ j_type J = JOB_STOP ->
              exists f', f = S f' /\ (occupied (units m6) <= f')%nat) as Hfuel.
      { intros Hreg.
        pose proof (occupied_clear_slot (units m) _ U (j_type J) j HU Hslot) as Hc.
        rewrite <-Hu5, <-Hu6 in Hc.
        destruct (decide (j_type J = JOB_NOP)) as [Hnop|_].
        { rewrite Hnop in Hreg. by destruct Hreg. }
        destruct f as [|f']; [lia|]. exists f'. split; [done|lia]. }
      assert (forall d o, o ∈ u_dependencies U6 d -> is_Some (units m6 !! o)) as Hdeps.
      { intros d o Ho. by eapply (wf_dependency Hwf6). }
      assert (forall f', f = S f' -> forall oj OJ m1, WF m1 ->
                job_heap m1 !! oj = Some OJ -> j_installed OJ = true ->
                JobType_to_Z (j_type OJ) < _JOB_TYPE_MAX_IN_TRANSACTION ->
                (occupied (units m1) <= f')%nat ->
                wpg E (job_finish_and_invalidate_rec f oj JOB_DEPENDENCY true false)
                  (fun _ m' => WF m' /\ units_shrink m1 m') m1) as Hfin.
      { intros f' -> oj OJ m1 ? ? ? ? ?. eapply wpg_mono; [eapply IH; eauto|].
        by intros ? ? (_ & ? & ?). }
      destruct (is_start_or_verify (j_type J)) eqn:Hsv.
      - destruct Hfuel as (f' & Hf & Hocc'); [by left|].
        specialize (Hfin f' Hf).
        wp_use fail_dependents_wf.
        intros _ m7 [Hwf7 Hs7].
        wp_use fail_dependents_wf.
        { destruct Hs7. lia. } { intros o Ho. apply Hs7. eauto. }
        intros _ m8 [Hwf8 Hs8].
        wp_use fail_dependents_wf.
        { destruct Hs7, Hs8. lia. } { intros o Ho. apply Hs8, Hs7. eauto. }
        intros _ m9 [Hwf9 Hs9]. split; [done|].
        eauto using units_shrink_trans.
      - destruct (bool_decide (j_type J = JOB_STOP)) eqn:Hstop;
          [|split; [done|apply units_shrink_refl]].
        bool_hyps.
        destruct Hfuel as (f' & Hf & Hocc'); [by right|].
        specialize (Hfin f' Hf).
        by wp_use fail_dependents_wf. }
    intros _ m7 [Hwf7 Hs7].
    apply wpg_bind.
    apply (wpg_mono _ _ (fun _ m8 => WF m8 /\ units m8 = units m7)).
    { wp_run; done. }
    intros _ m8 [Hwf8 Hu8].
    destruct (proj2 Hs7 (j_unit J) (mk_is_Some _ _ HU6)) as [U7 HU7].
    do 2 wp_step.
    eapply wpg_mono;
      [eapply (finish_label_wf E _ U7); [by unfold WF; msimpl|msimpl; by rewrite Hu8]|].
    msimpl.
    intros r m9 [-> [Hwf9 Hu9]]. split; [done|]. split; [done|].
    eapply units_shrink_trans; [exact Hs5|].
    eapply units_shrink_trans; [apply units_shrink_eq; exact Hu6|].
    eapply units_shrink_trans; [exact Hs7|].
    apply units_shrink_eq. congruence.
Qed.

(** ** What the helpers change *)

Lemma job_stable_refl m o O p :
  units m !! o = Some O -> u_job O = Some p -> job_stable m m o p.
Proof. intros HO Hp. split; [eauto|]. intros P HP. eauto. Qed.

Lemma job_stable_trans m1 m2 m3 o p :
  job_stable m1 m2 o p -> job_stable m2 m3 o p -> job_stable m1 m3 o p.
Proof.
  intros [_ H1] [H2 H3]. split; [done|]. intros P HP.
  destruct (H1 P HP) as (P' & HP' & ? & ?).
  destruct (H3 P' HP') as (P'' & HP'' & ? & ?).
  exists P''. repeat split; congruence.
Qed.

Lemma changes_refl X ex m : changes X ex m m.
Proof.
  constructor; [eauto|eauto|done| |done].
  exists []. split; [done|]. split; [|split].
  - intros p u t r H. by apply elem_of_nil in H.
  - intros o O p HO Hp. right; left. by eapply job_stable_refl.
  - intros q Q' HQ. right; right. eauto.
Qed.

Lemma changes_trans X ex m1 m2 m3 :
  changes X ex m1 m2 -> changes X ex m2 m3 -> changes X ex m1 m3.
Proof.
  intros [Hu1 Hv1 Hh1 (new1 & Ht1 & HX1 & Hs1 & Hr1) Hf1]
         [Hu2 Hv2 Hh2 (new2 & Ht2 & HX2 & Hs2 & Hr2) Hf2].
  constructor.
  - intros o O HO. destruct (Hu1 o O HO) as (O1 & HO1 & Hd1).
    destruct (Hu2 o O1 HO1) as (O2 & HO2 & Hd2). exists O2. split; [done|congruence].
  - intros o O3 HO3. destruct (Hv2 o O3 HO3) as (O2 & HO2 & Hd2).
    destruct (Hv1 o O2 HO2) as (O1 & HO1 & Hd1). exists O1. split; [done|].
    destruct Hd2 as [Hd2|Hd2]; [|by right]. rewrite Hd2. done.
  - intros p Hp Hi. rewrite Hh2; [by apply Hh1|done|].
    unfold job_is_installed in *. by rewrite Hh1.
  - exists (new2 ++ new1). split; [by rewrite Ht2, Ht1, app_assoc|].
    split; [|split].
    + intros p u t r [H|H]%elem_of_app; eauto.
    + intros o O p HO Hp.
      destruct (Hs1 o O p HO Hp) as [?|[Hst|(u & t & r & He & Hi)]]; [by left| |].
      * destruct Hst as [(O1 & HO1 & Hp1) Hst].
        destruct (Hs2 o O1 p HO1 Hp1) as [?|[Hst2|(u & t & r & He & Hi)]]; [by left| |].
        -- right; left. eapply job_stable_trans; [|done]. split; eauto.
        -- right; right. exists u, t, r. split; [|done]. apply elem_of_app. by left.
      * destruct (decide (Some p = ex)) as [?|Hne]; [by left|].
        right; right. exists u, t, r. split; [apply elem_of_app; by right|].
        intros Hr. unfold job_is_installed in *. rewrite Hh2; auto.
    + intros q Q3 HQ3.
      destruct (Hr2 q Q3 HQ3) as [?|[(u & t & r & He)|(Q2 & HQ2 & ? & ?)]]; [by left| |].
      * right; left. exists u, t, r. apply elem_of_app. by left.
      * destruct (Hr1 q Q2 HQ2) as [?|[(u & t & r & He)|(Q1 & HQ1 & ? & ?)]]; [by left| |].
        -- right; left. exists u, t, r. apply elem_of_app. by right.
        -- right; right. exists Q1. repeat split; congruence.
  - intros HX. rewrite Hf2, Hf1; done.
Qed.

Lemma changes_mono (X X' : nat -> JobResult -> Prop) ex m m' :
  (forall p r, X p r -> X' p r) -> changes X ex m m' -> changes X' ex m m'.
Proof.
  intros HXX [Hu Hv Hh (new & Ht & HX & Hs & Hr) Hf]. constructor; [done|done|done| |].
  - exists new. eauto 10.
  - intros HX'. apply Hf. intros p. destruct (HX' p). split; eauto.
Qed.

Lemma changes_exempt X j m m' : changes X None m m' -> changes X (Some j) m m'.
Proof.
  intros [Hu Hv Hh (new & Ht & HX & Hs & Hr) Hf]. constructor; [done|done| | |done].
  - intros p Hp. by apply Hh.
  - exists new. split; [done|]. split; [done|]. split.
    + intros o O p HO Hp. destruct (Hs o O p HO Hp) as [?|?]; [done|by right].
    + intros q Q' HQ. destruct (Hr q Q' HQ) as [?|?]; [done|by right].
Qed.

(** A step that only rewrites the job [j] and logs no finished job. *)
Lemma changes_touch X j m m' new :
  units m' = units m -> n_failed_jobs m' = n_failed_jobs m ->
  (forall p, p ≠ j -> job_heap m' !! p = job_heap m !! p) ->
  trace m' = new ++ trace m ->
  (forall p u t r, EvJobFinished p u t r ∉ new) ->
  changes X (Some j) m m'.
Proof.
  intros Hu Hn Hh Ht Hq. constructor.
  - intros o O HO. rewrite Hu. eauto.
  - intros o O' HO. rewrite <-Hu. eauto.
  - intros p Hp _. apply Hh. congruence.
  - exists new. split; [done|]. split; [intros p u t r H; by apply Hq in H|]. split.
    + intros o O p HO Hp. destruct (decide (p = j)) as [->|Hne]; [by left|].
      right; left. split; [rewrite Hu; eauto|].
      intros P HP. rewrite Hh by done. eauto.
    + intros q Q' HQ. destruct (decide (q = j)) as [->|Hne]; [by left|].
      right; right. rewrite Hh in HQ by done. eauto.
  - done.
Qed.

(** The same, for a step that logs finished jobs allowed by [X]. *)
Lemma changes_touch_log (X : nat -> JobResult -> Prop) j m m' new :
  units m' = units m -> n_failed_jobs m' = n_failed_jobs m ->
  (forall p, p ≠ j -> job_heap m' !! p = job_heap m !! p) ->
  trace m' = new ++ trace m ->
  (forall p u t r, EvJobFinished p u t r ∈ new -> X p r) ->
  changes X (Some j) m m'.
Proof.
  intros Hu Hn Hh Ht Hq. constructor.
  - intros o O HO. rewrite Hu. eauto.
  - intros o O' HO. rewrite <-Hu. eauto.
  - intros p Hp _. apply Hh. congruence.
  - exists new. split; [done|]. split; [done|]. split.
    + intros o O p HO Hp. destruct (decide (p = j)) as [->|Hne]; [by left|].
      right; left. split; [rewrite Hu; eauto|].
      intros P HP. rewrite Hh by done. eauto.
    + intros q Q' HQ. destruct (decide (q = j)) as [->|Hne]; [by left|].
      right; right. rewrite Hh in HQ by done. eauto.
  - done.
Qed.

Lemma logged_changes X ex m1 m2 m3 e :
  logged m1 m2 e -> changes X ex m2 m3 -> logged m1 m3 e.
Proof.
  intros (new1 & Ht1 & He) [_ _ _ (new2 & Ht2 & _) _].
  exists (new2 ++ new1). split; [by rewrite Ht2, Ht1, app_assoc|].
  apply elem_of_app. by right.
Qed.

Lemma trace_ext_nil (l : list Event) : l = [] ++ l.
Proof. done. Qed.

Lemma trace_ext_cons (e : Event) l' new l : l' = new ++ l -> e :: l' = (e :: new) ++ l.
Proof. by intros ->. Qed.

Ltac solve_trace_ext := repeat (apply trace_ext_cons); apply trace_ext_nil.

Ltac solve_quiet :=
  let H := fresh in
  intros ? ? ? ? H;
  repeat (apply elem_of_cons in H as [H|H]; [discriminate|]);
  by apply elem_of_nil in H.

Ltac solve_touch :=
  eapply changes_touch; msimpl;
  [ reflexivity
  | reflexivity
  | let p := fresh in let Hp := fresh in
    intros p Hp; by rewrite ?lookup_insert_ne, ?lookup_delete_ne by done
  | solve_trace_ext
  | solve_quiet ].

(** A step that rewrites an installed job, keeping its type and flags. *)
Lemma changes_soft X ex j J J' m m' new :
  job_heap m !! j = Some J -> j_installed J = true ->
  job_heap m' = <[j := J']> (job_heap m) ->
  j_type J' = j_type J -> j_override J' = j_override J ->
  units m' = units m -> n_failed_jobs m' = n_failed_jobs m ->
  trace m' = new ++ trace m ->
  (forall p u t r, EvJobFinished p u t r ∉ new) ->
  changes X ex m m'.
Proof.
  intros Hj Hi Hh Ht Ho Hu Hn Htr Hq. constructor.
  - intros o O HO. rewrite Hu. eauto.
  - intros o O' HO. rewrite <-Hu. eauto.
  - intros p _ Hp. rewrite Hh. apply lookup_insert_ne. intros ->.
    unfold job_is_installed in Hp. rewrite Hj in Hp. congruence.
  - exists new. split; [done|]. split; [intros p u t r H; by apply Hq in H|].
    split.
    + intros o O p HO Hp. right; left. split; [rewrite Hu; eauto|].
      intros P HP. rewrite Hh. destruct (decide (p = j)) as [->|Hne].
      * rewrite lookup_insert_eq. simplify_eq. eauto.
      * rewrite lookup_insert_ne by done. eauto.
    + intros q Q' HQ. right; right. rewrite Hh in HQ.
      destruct (decide (q = j)) as [->|Hne].
      * rewrite lookup_insert_eq in HQ. simplify_eq. eauto.
      * rewrite lookup_insert_ne in HQ by done. eauto.
  - done.
Qed.

(** A step that only logs events other than finished jobs. *)
Lemma changes_quiet X ex m m' new :
  units m' = units m -> job_heap m' = job_heap m ->
  n_failed_jobs m' = n_failed_jobs m ->
  trace m' = new ++ trace m ->
  (forall p u t r, EvJobFinished p u t r ∉ new) ->
  changes X ex m m'.
Proof.
  intros Hu Hh Hn Htr Hq. constructor.
  - intros o O HO. rewrite Hu. eauto.
  - intros o O' HO. rewrite <-Hu. eauto.
  - intros p _ _. by rewrite Hh.
  - exists new. split; [done|]. split; [intros p u t r H; by apply Hq in H|].
    split.
    + intros o O p HO Hp. right; left. split; [rewrite Hu; eauto|].
      intros P HP. rewrite Hh. eauto.
    + intros q Q' HQ. right; right. rewrite Hh in HQ. eauto.
  - done.
Qed.

(** Emptying the slot that holds the job [j]. *)
Lemma changes_clear_slot X j m m' new u U t :
  units m !! u = Some U -> unit_slot t U = Some j ->
  units m' = <[u := set_unit_slot t None U]> (units m) ->
  n_failed_jobs m' = n_failed_jobs m ->
  (forall p, p ≠ j -> job_heap m' !! p = job_heap m !! p) ->
  trace m' = new ++ trace m ->
  (forall p u t r, EvJobFinished p u t r ∉ new) ->
  changes X (Some j) m m'.
Proof.
  intros HU Hs Hu Hn Hh Ht Hq. constructor.
  - intros o O HO. rewrite Hu. destruct (decide (o = u)) as [->|Hne].
    + rewrite lookup_insert_eq. simplify_eq. eexists; split; [done|].
      unfold set_unit_slot. by destruct (decide (t = JOB_NOP)).
    + rewrite lookup_insert_ne by done. eauto.
  - intros o O' HO. rewrite Hu in HO. destruct (decide (o = u)) as [->|Hne].
    + rewrite lookup_insert_eq in HO. simplify_eq. eexists; split; [done|].
      unfold set_unit_slot. destruct (decide (t = JOB_NOP)); simpl; auto.
    + rewrite lookup_insert_ne in HO by done. eauto.
  - intros p Hp _. apply Hh. congruence.
  - exists new. split; [done|]. split; [intros p u' t' r H; by apply Hq in H|].
    split.
    + intros o O p HO Hp. destruct (decide (p = j)) as [->|Hne]; [by left|].
      right; left. split.
      * rewrite Hu. destruct (decide (o = u)) as [->|Hneo].
        -- rewrite lookup_insert_eq. simplify_eq. eexists; split; [done|].
           unfold set_unit_slot, unit_slot in *.
           destruct (decide (t = JOB_NOP)); simpl; congruence.
        -- rewrite lookup_insert_ne by done. eauto.
      * intros P HP. rewrite Hh by done. eauto.
    + intros q Q' HQ. destruct (decide (q = j)) as [->|Hne]; [by left|].
      right; right. rewrite Hh in HQ by done. eauto.
  - done.
Qed.

Ltac solve_quiet_step :=
  eapply changes_quiet; msimpl;
  [reflexivity|reflexivity|reflexivity|solve_trace_ext|solve_quiet].

Section helper_changes.
Context (X : nat -> JobResult -> Prop).

Lemma job_set_state_changes j s m :
  wlp (job_set_state j s) (fun _ m' => changes X (Some j) m m') m.
Proof.
  unfold job_set_state. wp_run; try apply changes_refl; solve_touch.
Qed.

Lemma job_add_to_dbus_queue_changes j m :
  wlp (job_add_to_dbus_queue j) (fun _ m' => changes X (Some j) m m') m.
Proof.
  unfold job_add_to_dbus_queue. wp_run; try apply changes_refl; solve_touch.
Qed.

Lemma job_add_to_run_queue_changes ex j m :
  wlp (job_add_to_run_queue j) (fun _ m' => changes X ex m m') m.
Proof.
  unfold job_add_to_run_queue. wp_run; try apply changes_refl.
  all: eapply changes_soft; msimpl; try done; [solve_trace_ext|solve_quiet].
Qed.

Lemma job_uninstall_changes j m :
  wlp (job_uninstall j)
    (fun _ m' => changes X (Some j) m m' /\ job_is_installed m' j = false) m.
Proof.
  unfold job_uninstall. do 4 wp_step.
  wp_use job_set_state_changes. intros ? m1 Hc1. wp_run; bool_hyps.
  all: split; [|unfold job_is_installed; msimpl; by rewrite lookup_insert_eq].
  all: eapply changes_trans; [done|].
  all: eapply changes_clear_slot; msimpl;
    [ done | done | reflexivity | reflexivity
    | intros; by rewrite lookup_insert_ne by done
    | solve_trace_ext | solve_quiet ].
Qed.

Lemma job_unlink_changes j m :
  wlp (job_unlink j)
    (fun _ m' => changes X (Some j) m m' /\ job_is_installed m' j = false) m.
Proof.
  unfold job_unlink. wp_run; bool_hyps.
  all: split; [solve_touch|].
  all: unfold job_is_installed; msimpl; by rewrite lookup_insert_eq.
Qed.

Lemma job_free_changes j m :
  wlp (job_free j)
    (fun _ m' => changes X (Some j) m m' /\ job_is_installed m' j = false) m.
Proof.
  unfold job_free. do 4 wp_step.
  wp_use job_unlink_changes. intros ? m1 [Hc1 Hi1]. wp_run. split.
  - eapply changes_trans; [done|]. solve_touch.
  - unfold job_is_installed; msimpl. by rewrite lookup_delete_eq.
Qed.

Lemma job_save_pending_finished_job_changes j m :
  wlp (job_save_pending_finished_job j)
    (fun r m' => r = 1 /\ changes X (Some j) m m' /\
       job_is_installed m' j = false) m.
Proof.
  unfold job_save_pending_finished_job.
  wp_use job_unlink_changes. intros ? m1 [Hc1 Hi1]. wp_run.
  split; [done|]. split; [|done].
  eapply changes_trans; [done|]. solve_touch.
Qed.

Lemma requeue_neighbours_changes ex l m :
  wlp (requeue_neighbours l) (fun _ m' => changes X ex m m') m.
Proof.
  unfold requeue_neighbours.
  apply (wpg_foreach True l _ (fun m' => changes X ex m m')); [apply changes_refl|].
  intros o m1 _ Hc1. do 2 wp_step. destruct (u_job u) as [oj|]; [|by wp_run].
  eapply wpg_mono; [apply (job_add_to_run_queue_changes ex)|].
  intros ? m2 Hc2. by eapply changes_trans.
Qed.

Lemma finish_label_changes ex u m :
  wlp (finish_label u) (fun _ m' => changes X ex m m') m.
Proof.
  unfold finish_label. do 2 wp_step.
  wp_use (requeue_neighbours_changes ex). intros ? m1 Hc1.
  wp_use (requeue_neighbours_changes ex). intros ? m2 Hc2.
  wp_run. eapply changes_trans; [done|]. eapply changes_trans; [done|].
  solve_quiet_step.
Qed.
End helper_changes.

(** ** What a run of the finish kernel changes *)

Lemma changes_unexempt X j m m' u t r :
  changes X (Some j) m m' -> job_is_installed m j = true ->
  logged m m' (EvJobFinished j u t r) ->
  (r ≠ JOB_DONE -> job_is_installed m' j = false) ->
  changes X None m m'.
Proof.
  intros [Hu Hv Hh (new & Ht & HX & Hs & Hr) Hf] Hi (new' & Ht' & He) Hgone.
  assert (new' = new) as -> by (apply (app_inv_tail (trace m)); congruence).
  constructor; [done|done| | |done].
  - intros p _ Hp. apply Hh; [|done]. intros Heq. injection Heq as ->.
    rewrite Hi in Hp. done.
  - exists new. split; [done|]. split; [done|]. split.
    + intros o O p HO Hp. destruct (Hs o O p HO Hp) as [[= ->]|?]; [|by right].
      right; right. eauto 10.
    + intros q Q' HQ. destruct (Hr q Q' HQ) as [[= ->]|?]; [|by right].
      right; left. eauto.
Qed.

Lemma changes_installed_false X m m' j :
  changes X None m m' -> job_is_installed m j = false ->
  job_is_installed m' j = false.
Proof.
  intros Hc Hi. unfold job_is_installed in *.
  by rewrite (ch_heap _ _ _ _ Hc j).
Qed.

Lemma changes_count_failure (X : nat -> JobResult -> Prop) ex m p r :
  X p r -> r = JOB_FAILED \/ r = JOB_INVALID ->
  changes X ex m (set_n_failed_jobs (u32 (n_failed_jobs m + 1)) m).
Proof.
  intros HX Hr. constructor; msimpl; [eauto|eauto|done| |].
  - exists []. split; [done|]. split; [by intros ? ? ? ? ?%elem_of_nil|].
    split; [|intros q Q' HQ; right; right; eauto].
    intros o O q HO Hq. right; left. split; msimpl; eauto.
  - intros Hno. destruct (Hno p) as [? ?]. destruct Hr as [->| ->]; done.
Qed.

Lemma finish_allows_nested j result oj p r :
  finish_allows oj JOB_DEPENDENCY p r -> finish_allows j result p r.
Proof. intros [[_ ->]| ->]; by right. Qed.

Lemma fail_dependents_changes j result (finish : nat -> M Z) skip l m :
  (forall oj m1, wlp (finish oj) (fun _ m' => finish_post oj JOB_DEPENDENCY m1 m') m1) ->
  job_is_installed m j = false ->
  wlp (fail_dependents finish skip l)
    (fun _ m' => changes (finish_allows j result) (Some j) m m' /\
                 job_is_installed m' j = false) m.
Proof.
  intros Hfin Hi. unfold fail_dependents.
  apply (wpg_foreach True l _
           (fun m' => changes (finish_allows j result) (Some j) m m' /\
                      job_is_installed m' j = false)).
  { split; [apply changes_refl|done]. }
  intros o m1 _ [Hc1 Hi1]. do 2 wp_step. destruct (u_job u) as [oj|]; [|by wp_run].
  do 3 wp_step; [|by wp_run].
  wp_use Hfin. intros ? m2 [Hc2 _]. wp_run.
  apply (changes_mono _ (finish_allows j result)) in Hc2;
    [|by apply finish_allows_nested].
  split; [|by eapply changes_installed_false].
  eapply changes_trans; [done|]. by apply changes_exempt.
Qed.

Lemma job_finish_and_invalidate_rec_changes fuel :
  forall j result recursive already m,
  wlp (job_finish_and_invalidate_rec fuel j result recursive already)
    (fun _ m' => finish_post j result m m') m.
Proof.
  induction fuel as [|fuel IH]; intros j result recursive already m; [done|].
  cbn [job_finish_and_invalidate_rec].
  do 6 wp_step.
  apply wpg_bind, wpg_update_job. rewrite Heqo. apply wpg_bind, wpg_emit. msimpl.
  set (X := finish_allows j result).
  set (ev := EvJobFinished j (j_unit j0) (j_type j0) result).
  set (m1 := set_trace _ _).
  assert (changes X (Some j) m m1) as Hc1.
  { eapply (changes_touch_log _ _ _ _ [ev]); unfold m1; msimpl; try done.
    - intros p Hp. by rewrite lookup_insert_ne.
    - intros p u t r [Heq|[]%elem_of_nil]%elem_of_cons.
      injection Heq as -> _ _ ->. by left. }
  assert (logged m m1 ev) as Hl1.
  { exists [ev]. split; [done|]. by left. }
  clearbody m1.
  assert (forall m', changes X (Some j) m1 m' ->
            (~ (result = JOB_DONE /\ j_type j0 = JOB_RESTART) ->
             job_is_installed m' j = false) ->
            finish_post j result m m') as Hend.
  { intros m' Hc' Hi'. split.
    - eapply changes_unexempt;
        [by eapply changes_trans| |by eapply logged_changes|].
      + unfold job_is_installed. by rewrite Heqo.
      + intros Hr. apply Hi'. by intros [? _].
    - intros J ?. simplify_eq. split; [by eapply logged_changes|done]. }
  clear Hc1 Hl1.
  apply wpg_bind.
  apply (wpg_mono _ _ (fun _ m2 => changes X (Some j) m1 m2)).
  { wp_run; [solve_quiet_step|apply changes_refl]. }
  intros ? m2 Hc2.
  wp_use (job_add_to_dbus_queue_changes X). intros ? m3 Hc3.
  destruct (bool_decide (result = JOB_DONE) && bool_decide (j_type j0 = JOB_RESTART)) eqn:Hbr.
  - unfold job_change_type. apply wpg_bind.
    apply (wpg_mono _ _ (fun _ m4 => changes X (Some j) m3 m4)).
    { wp_run. solve_touch. }
    intros ? m4 Hc4.
    wp_use (job_set_state_changes X). intros ? m5 Hc5.
    wp_use (job_add_to_run_queue_changes X (Some j)). intros ? m6 Hc6.
    wp_use (finish_label_changes X (Some j)). intros ? m7 Hc7.
    apply Hend; [eauto 10 using changes_trans|].
    bool_hyps. intros Hno. by destruct Hno.
  - apply wpg_bind.
    apply (wpg_mono _ _ (fun _ m4 => changes X (Some j) m3 m4)).
    { wp_run; [|apply changes_refl]. eapply changes_count_failure; [by left|].
      apply orb_prop in Heqb1 as [?|?]; bool_hyps; auto. }
    intros ? m4 Hc4.
    wp_use (job_uninstall_changes X). intros ? m5 [Hc5 Hi5].
    do 4 wp_step.
    apply wpg_bind.
    apply (wpg_mono _ _ (fun _ m6 => changes X (Some j) m5 m6 /\
             job_is_installed m6 j = false)).
    { destruct ((0 <? n_reloading m5) && j_reloaded j1).
      - wp_use (job_save_pending_finished_job_changes X).
        intros r m6 (-> & Hc6 & Hi6). by wp_run.
      - by wp_use (job_free_changes X). }
    intros ? m6 [Hc6 Hi6].
    do 2 wp_step.
    apply wpg_bind.
    apply (wpg_mono _ _ (fun _ m7 => changes X (Some j) m6 m7 /\
             job_is_installed m7 j = false)).
    { apply wpg_when.
      destruct (negb (bool_decide (result = JOB_DONE)) && recursive);
        [|split; [apply changes_refl|done]].
      assert (forall oj m1, wlp (job_finish_and_invalidate_rec fuel oj JOB_DEPENDENCY true false)
                (fun _ m' => finish_post oj JOB_DEPENDENCY m1 m') m1) as Hfin
        by (intros; apply IH).
      destruct (is_start_or_verify (j_type j0)).
      - wp_use (fail_dependents_changes j result). intros ? m7 [Hc7 Hi7].
        wp_use (fail_dependents_changes j result). intros ? m8 [Hc8 Hi8].
        wp_use (fail_dependents_changes j result). intros ? m9 [Hc9 Hi9].
        split; [|done]. eauto using changes_trans.
      - destruct (bool_decide (j_type j0 = JOB_STOP)); [|split; [apply changes_refl|done]].
        by wp_use (fail_dependents_changes j result). }
    intros ? m7 [Hc7 Hi7].
    apply wpg_bind.
    apply (wpg_mono _ _ (fun _ m8 => changes X (Some j) m7 m8 /\
             job_is_installed m8 j = false)).
    { wp_run; (split; [|done]); [solve_quiet_step|apply changes_refl]. }
    intros ? m8 [Hc8 Hi8].
    do 2 wp_step.
    eapply wpg_mono; [apply (finish_label_changes X None)|]. msimpl.
    intros ? m9 Hc9.
    apply Hend.
    + eapply changes_trans; [exact Hc2|]. eapply changes_trans; [exact Hc3|].
      eapply changes_trans; [exact Hc4|]. eapply changes_trans; [exact Hc5|].
      eapply changes_trans; [exact Hc6|]. eapply changes_trans; [exact Hc7|].
      eapply changes_trans; [exact Hc8|].
      eapply changes_trans; [|apply changes_exempt; exact Hc9].
      solve_quiet_step.
    + intros _. eapply changes_installed_false; [exact Hc9|].
      unfold job_is_installed in *. by msimpl.
Qed.

(** Without recursion, or with result [JOB_DONE], the finish kernel logs
    the end of no job but its own. *)
Lemma job_finish_and_invalidate_rec_alone fuel j result recursive already m :
  recursive = false \/ result = JOB_DONE ->
  wlp (job_finish_and_invalidate_rec fuel j result recursive already)
    (fun _ m' => changes (fun p r => p = j /\ r = result) (Some j) m m') m.
Proof.
  intros Hnr. destruct fuel as [|fuel]; [done|].
  cbn [job_finish_and_invalidate_rec].
  do 6 wp_step.
  apply wpg_bind, wpg_update_job. rewrite Heqo. apply wpg_bind, wpg_emit. msimpl.
  set (X := fun p r => p = j /\ r = result).
  set (ev := EvJobFinished j (j_unit j0) (j_type j0) result).
  set (m1 := set_trace _ _).
  assert (changes X (Some j) m m1) as Hc1.
  { eapply (changes_touch_log _ _ _ _ [ev]); unfold m1; msimpl; try done.
    - intros p Hp. by rewrite lookup_insert_ne.
    - intros p u t r [Heq|[]%elem_of_nil]%elem_of_cons.
      by injection Heq as -> _ _ ->. }
  clearbody m1.
  apply wpg_bind.
  apply (wpg_mono _ _ (fun _ m2 => changes X (Some j) m1 m2)).
  { wp_run; [solve_quiet_step|apply changes_refl]. }
  intros ? m2 Hc2.
  wp_use (job_add_to_dbus_queue_changes X). intros ? m3 Hc3.
  destruct (bool_decide (result = JOB_DONE) && bool_decide (j_type j0 = JOB_RESTART)) eqn:Hbr.
  - unfold job_change_type. apply wpg_bind.
    apply (wpg_mono _ _ (fun _ m4 => changes X (Some j) m3 m4)).
    { wp_run. solve_touch. }
    intros ? m4 Hc4.
    wp_use (job_set_state_changes X). intros ? m5 Hc5.
    wp_use (job_add_to_run_queue_changes X (Some j)). intros ? m6 Hc6.
    wp_use (finish_label_changes X (Some j)). intros ? m7 Hc7.
    eauto 10 using changes_trans.
  - apply wpg_bind.
    apply (wpg_mono _ _ (fun _ m4 => changes X (Some j) m3 m4)).
    { wp_run; [|apply changes_refl].
      eapply (changes_count_failure X _ _ j result); [done|].
      match goal with
      | H : (_ || _) = true |- _ => apply orb_prop in H as [?|?]
      end; bool_hyps; auto. }
    intros ? m4 Hc4.
    wp_use (job_uninstall_changes X). intros ? m5 [Hc5 Hi5].
    do 4 wp_step.
    apply wpg_bind.
    apply (wpg_mono _ _ (fun _ m6 => changes X (Some j) m5 m6 /\
             job_is_installed m6 j = false)).
    { match goal with |- wpg _ (if ?b then _ else _) _ _ => destruct b end.
      - wp_use (job_save_pending_finished_job_changes X).
        intros r m6 (-> & Hc6 & Hi6). by wp_run.
      - by wp_use (job_free_changes X). }
    intros ? m6 [Hc6 Hi6].
    do 2 wp_step.
    apply wpg_bind, wpg_when.
    assert (negb (bool_decide (result = JOB_DONE)) && recursive = false) as ->.
    { destruct Hnr as [->| ->]; [by rewrite andb_false_r|done]. }
    apply wpg_bind.
    apply (wpg_mono _ _ (fun _ m8 => changes X (Some j) m6 m8)).
    { wp_run; [solve_quiet_step|apply changes_refl]. }
    intros ? m8 Hc8.
    do 2 wp_step.
    eapply wpg_mono; [apply (finish_label_changes X (Some j))|]. msimpl.
    intros ? m9 Hc9.
    assert (changes X (Some j) m8 m9) as Hc89.
    { eapply changes_trans; [|exact Hc9]. solve_quiet_step. }
    eauto 10 using changes_trans.
Qed.

(** ** The finish kernel, summed up *)

Lemma wp_wpg {A} E (c : M A) Q m : wp c Q m -> wpg E c Q m.
Proof. unfold wpg. by destruct (c m). Qed.

(** On a well-formed manager [job_finish_and_invalidate] returns 0, for
    every installed job, result and flag. *)
Lemma job_finish_and_invalidate_spec E j J result recursive already m :
  WF m -> job_heap m !! j = Some J -> j_installed J = true ->
  JobType_to_Z (j_type J) < _JOB_TYPE_MAX_IN_TRANSACTION ->
  wpg E (job_finish_and_invalidate j result recursive already)
    (fun r m' => r = 0 /\ WF m' /\ units_shrink m m' /\
                 finish_post j result m m') m.
Proof.
  intros Hwf Hj Hi Ht. apply wp_wpg.
  eapply wpg_mono.
  - apply wp_and_wlp.
    + unfold job_finish_and_invalidate, wpg.
      apply (job_finish_and_invalidate_rec_wf False (size (units m)) m j J); try done.
      apply occupied_le_size.
    + unfold job_finish_and_invalidate, wpg.
      apply (job_finish_and_invalidate_rec_changes (S (size (units m)))).
  - intros r m' [(-> & ? & ?) ?]. done.
Qed.

(** ** C8: a timed-out job and the failure counter *)


(** ** C6: the merge algebra *)

(** C6: on the merge domain {start, verify-active, stop, reload, restart}
    the merge is commutative, merging a type with itself gives that type,
    and merge followed by collapse is associative for every fixed
    activation state of the unit: both ways of merging three types give
    the same type, or are both undefined. *)
Theorem job_type_merge_laws (a b c : JobType) (s : UnitActiveState) :
  in_merge_domain a = true -> in_merge_domain b = true ->
  in_merge_domain c = true ->
  job_type_lookup_merge a b = job_type_lookup_merge b a /\
  job_type_lookup_merge a a = Some a /\
  (merge_then_collapse a b s ≫= fun x => merge_then_collapse x c s)
  = (merge_then_collapse b c s ≫= fun y => merge_then_collapse a y s).
Proof.
  intros Ha Hb Hc.
  destruct a; try discriminate Ha; destruct b; try discriminate Hb;
    destruct c; try discriminate Hc; destruct s; vm_compute; done.
Qed.

Lemma job_type_merge_laws_witness :
  job_type_lookup_merge JOB_START JOB_RELOAD = job_type_lookup_merge JOB_RELOAD JOB_START /\
  job_type_lookup_merge JOB_START JOB_START = Some JOB_START /\
  (merge_then_collapse JOB_START JOB_RELOAD UNIT_ACTIVE
     ≫= fun x => merge_then_collapse x JOB_VERIFY_ACTIVE UNIT_ACTIVE)
  = (merge_then_collapse JOB_RELOAD JOB_VERIFY_ACTIVE UNIT_ACTIVE
       ≫= fun y => merge_then_collapse JOB_START y UNIT_ACTIVE).
Proof.
  apply (job_type_merge_laws JOB_START JOB_RELOAD JOB_VERIFY_ACTIVE UNIT_ACTIVE);
    reflexivity.
Defined.

(** ** C1: runnability *)

Lemma any_unit_has_job_spec us l m :
  units m = us -> (forall o, o ∈ l -> is_Some (us !! o)) ->
  exists b, any_unit_has_job l m = Done b m /\
    (b = false <-> forall o O, o ∈ l -> us !! o = Some O -> u_job O = None).
Proof.
  intros <-. induction l as [|o l IH]; intros Hl.
  - exists false. split; [done|]. split; [|done]. by intros _ o O ?%elem_of_nil.
  - destruct (Hl o) as [O HO]; [by left|].
    destruct IH as (b & Hrun & Hb); [intros; apply Hl; by right|].
    cbn [any_unit_has_job]. unfold mbind, M_bind, get_unit. rewrite HO.
    destruct (u_job O) as [p|] eqn:Hp.
    + exists true. split; [done|]. split; [done|].
      intros H. specialize (H o O (list_elem_of_here _ _) HO). congruence.
    + exists b. split; [done|]. rewrite Hb. split.
      * intros H o' O' [->|Hin]%elem_of_cons HO'; [congruence|eauto].
      * intros H o' O' Hin. apply H. by right.
Qed.

Lemma any_unit_has_stop_job_spec us h l m :
  units m = us -> job_heap m = h ->
  (forall o, o ∈ l -> is_Some (us !! o)) ->
  (forall o O p, o ∈ l -> us !! o = Some O -> u_job O = Some p -> is_Some (h !! p)) ->
  exists b, any_unit_has_stop_job l m = Done b m /\
    (b = false <->
     forall o O p P, o ∈ l -> us !! o = Some O -> u_job O = Some p ->
       h !! p = Some P -> j_type P ≠ JOB_STOP /\ j_type P ≠ JOB_RESTART).
Proof.
  intros <- <-. induction l as [|o l IH]; intros Hl Hj.
  - exists false. split; [done|]. split; [|done]. by intros _ o O p P ?%elem_of_nil.
  - destruct (Hl o) as [O HO]; [by left|].
    destruct IH as (b & Hrun & Hb); [intros; apply Hl; by right|
                                     intros ? ? ? ?; apply Hj; by right|].
    cbn [any_unit_has_stop_job]. unfold mbind, M_bind, get_unit. rewrite HO.
    destruct (u_job O) as [p|] eqn:Hp.
    + destruct (Hj o O p (list_elem_of_here _ _) HO Hp) as [P HP].
      unfold get_job. rewrite HP.
      destruct (bool_decide (j_type P = JOB_STOP) || bool_decide (j_type P = JOB_RESTART)) eqn:Ht.
      * exists true. split; [done|]. split; [done|].
        intros H. destruct (H o O p P (list_elem_of_here _ _) HO Hp HP).
        apply orb_prop in Ht as [?|?]; bool_hyps; done.
      * exists b. split; [done|]. rewrite Hb. bool_hyps. split.
        -- intros Hall o' O' p' P' [->|Hin]%elem_of_cons HO' Hp' HP'; [|eauto].
           simplify_eq. done.
        -- intros Hall o' O' p' P' Hin. apply Hall. by right.
    + exists b. split; [done|]. rewrite Hb. split.
      * intros H o' O' p' P' [->|Hin]%elem_of_cons HO' Hp' HP'; [congruence|eauto].
      * intros H o' O' p' P' Hin. apply H. by right.
Qed.

(** What [job_is_runnable] computes, on a well-formed manager. *)
Lemma job_is_runnable_spec m j J U :
  WF m -> job_heap m !! j = Some J -> j_installed J = true ->
  units m !! j_unit J = Some U ->
  exists b, job_is_runnable j m = Done b m /\
    (b = true <->
     runnable_rule (units m) (job_heap m) (j_ignore_order J) (j_type J) U).
Proof.
  intros Hwf Hj Hi HU.
  assert (forall d o, o ∈ u_dependencies U d -> is_Some (units m !! o)) as Hdeps.
  { intros d o Ho. by eapply (wf_dependency Hwf). }
  assert (forall o O p, units m !! o = Some O -> u_job O = Some p ->
            is_Some (job_heap m !! p)) as Hslots.
  { intros o O p HO Hp. destruct (wf_regular_slot Hwf o O p HO Hp) as (P & HP & _). eauto. }
  destruct (any_unit_has_job_spec (units m) (u_dependencies U UNIT_AFTER) m eq_refl)
    as (ba & Hra & Hba); [by apply Hdeps|].
  destruct (any_unit_has_stop_job_spec (units m) (job_heap m)
              (u_dependencies U UNIT_BEFORE) m eq_refl eq_refl)
    as (bb & Hrb & Hbb); [by apply Hdeps|by intros; eapply Hslots|].
  assert (wp (job_is_runnable j)
            (fun b m' => m' = m /\
               (b = true <->
                runnable_rule (units m) (job_heap m) (j_ignore_order J) (j_type J) U)) m)
    as Hwp; [|apply wp_Done in Hwp as (b & m' & Hrun & -> & Hb); eauto].
  unfold job_is_runnable, runnable_rule. do 4 wp_step.
  destruct (j_ignore_order J); [wp_run; split; [done|]; tauto|].
  destruct (decide (j_type J = JOB_NOP)) as [Hnop|Hnop];
    [wp_run; split; [done|]; tauto|].
  do 2 wp_step. fold (is_positive_type (j_type J)).
  destruct (is_positive_type (j_type J)) eqn:Hpos.
  - apply wpg_bind, wp_Done. exists ba, m. split; [done|].
    destruct ba.
    + wp_run. split; [done|]. split; [done|].
      intros [?|[?|[Ha _]]]; [done..|]. by apply Hba in Ha.
    + apply wpg_bind, wp_Done. exists bb, m. split; [done|]. wp_run.
      split; [done|]. destruct bb; simpl.
      * split; [done|]. intros [?|[?|[_ Hb]]]; [done..|]. by apply Hbb in Hb.
      * split; [|done]. intros _. right; right. split; [intros _; by apply Hba|by apply Hbb].
  - wp_step. wp_step. apply wpg_bind, wp_Done. exists bb, m. split; [done|]. wp_run.
    split; [done|]. destruct bb; simpl.
    * split; [done|]. intros [?|[?|[_ Hb]]]; [done..|]. by apply Hbb in Hb.
    * split; [|done]. intros _. right; right. split; [done|by apply Hbb].
Qed.

(** C1, as stated, fails.  Of two units the second is ordered after the
    first; a nop job is made and installed for the first, a start job
    for the second.  The first unit, in the after set of the second,
    then has an installed job, the nop job in its nop slot; the start
    job does not ignore the ordering and is runnable all the same. *)
Lemma nop_job_does_not_block :
  exists m J U O P,
    run_calls nop_calls (initial_manager ordered_units 0) = Some m /\
    job_heap m !! 1%nat = Some J /\
    j_installed J = true /\ j_type J = JOB_START /\ j_ignore_order J = false /\
    units m !! j_unit J = Some U /\
    0%nat ∈ u_dependencies U UNIT_AFTER /\
    units m !! 0%nat = Some O /\ u_nop_job O = Some 0%nat /\
    job_heap m !! 0%nat = Some P /\
    j_installed P = true /\ j_unit P = 0%nat /\ j_type P = JOB_NOP /\
    job_is_runnable 1 m = Done true m.
Proof.
  eexists _, _, _, _, _. split; [vm_compute; reflexivity|].
  split; [reflexivity|]. do 3 (split; [reflexivity|]).
  split; [reflexivity|]. split; [by left|]. split; [reflexivity|].
  split; [reflexivity|]. split; [reflexivity|]. do 3 (split; [reflexivity|]).
  vm_compute. reflexivity.
Qed.

(** C1, amended: an installed job about to be dispatched is runnable
    exactly when it ignores the ordering, or is a nop, or both (a) if it
    is a start, verify-active or reload job then no unit of its after
    set has a job in its regular slot and (b) no unit of its before set
    has a stop or restart job in its regular slot.  A nop job, which
    sits in the nop slot of its unit, blocks nothing. *)
Theorem job_is_runnable_iff m j J U :
  WF m -> job_heap m !! j = Some J -> j_installed J = true ->
  units m !! j_unit J = Some U ->
  exists b, job_is_runnable j m = Done b m /\
    (b = true <->
     j_ignore_order J = true \/ j_type J = JOB_NOP \/
     ((j_type J = JOB_START \/ j_type J = JOB_VERIFY_ACTIVE \/ j_type J = JOB_RELOAD ->
       forall o O, o ∈ u_dependencies U UNIT_AFTER -> units m !! o = Some O ->
         u_job O = None) /\
      (forall o O p P, o ∈ u_dependencies U UNIT_BEFORE -> units m !! o = Some O ->
         u_job O = Some p -> job_heap m !! p = Some P ->
         j_type P ≠ JOB_STOP /\ j_type P ≠ JOB_RESTART))).
Proof.
  intros Hwf Hj Hi HU.
  destruct (job_is_runnable_spec m j J U Hwf Hj Hi HU) as (b & Hrun & Hb).
  exists b. split; [done|]. rewrite Hb. unfold runnable_rule, is_positive_type.
  assert (bool_decide (j_type J = JOB_START) || bool_decide (j_type J = JOB_VERIFY_ACTIVE)
          || bool_decide (j_type J = JOB_RELOAD) = true
          <-> j_type J = JOB_START \/ j_type J = JOB_VERIFY_ACTIVE \/ j_type J = JOB_RELOAD)
    as ->; [|done].
  rewrite !orb_true_iff, !bool_decide_eq_true. tauto.
Qed.

Lemma job_is_runnable_iff_witness :
  exists b, job_is_runnable 0 nop_slot_scenario = Done b nop_slot_scenario /\
    (b = true <->
     j_ignore_order nop_slot_job = true \/ j_type nop_slot_job = JOB_NOP \/
     ((j_type nop_slot_job = JOB_START \/ j_type nop_slot_job = JOB_VERIFY_ACTIVE \/
       j_type nop_slot_job = JOB_RELOAD ->
       forall o O, o ∈ u_dependencies nop_slot_unit UNIT_AFTER ->
         units nop_slot_scenario !! o = Some O -> u_job O = None) /\
      (forall o O p P, o ∈ u_dependencies nop_slot_unit UNIT_BEFORE ->
         units nop_slot_scenario !! o = Some O ->
         u_job O = Some p -> job_heap nop_slot_scenario !! p = Some P ->
         j_type P ≠ JOB_STOP /\ j_type P ≠ JOB_RESTART))).
Proof.
  apply (job_is_runnable_iff nop_slot_scenario 0 nop_slot_job nop_slot_unit).
  - apply (bool_decide_unpack (WF nop_slot_scenario)). vm_compute. exact I.
  - reflexivity.
  - reflexivity.
  - reflexivity.
Defined.

(** ** C3: a restart job that is done becomes a start job *)

(** The job [j] is as the restart patch leaves it: installed in its slot,
    a waiting start job with the id [id], queued for dispatch. *)
Lemma job_add_to_run_queue_keeps_patched j id q m :
  patched j id m -> wlp (job_add_to_run_queue q) (fun _ m' => patched j id m') m.
Proof.
  intros (J & Hj & Hi & Ht & Hs & Hid & Hq & Hin).
  unfold job_add_to_run_queue. wp_run; try done.
  - exists J. done.
  - destruct (decide (q = j)) as [->|Hne]; [simplify_eq; congruence|].
    exists J. msimpl. rewrite lookup_insert_ne by done. repeat split; try done. by right.
  - destruct (decide (q = j)) as [->|Hne]; [simplify_eq; congruence|].
    exists J. msimpl. rewrite lookup_insert_ne by done. repeat split; try done. by right.
Qed.

Lemma finish_label_keeps_patched j id u m :
  patched j id m -> wlp (finish_label u) (fun _ m' => patched j id m') m.
Proof.
  intros Hp. unfold finish_label, requeue_neighbours. do 2 wp_step.
  assert (forall l m, patched j id m ->
            wlp (foreach l (fun other =>
                   O ← get_unit other;
                   match u_job O with
                   | Some oj => job_add_to_run_queue oj
                   | None => mret ()
                   end)) (fun _ m' => patched j id m') m) as Hloop.
  { intros l m1 Hp1. apply (wpg_foreach True l _ (patched j id)); [done|].
    intros o m2 _ Hp2. do 2 wp_step. destruct (u_job u1); [|by wp_run].
    by apply job_add_to_run_queue_keeps_patched. }
  wp_use Hloop. intros ? m1 Hp1. wp_use Hloop. intros ? m2 Hp2. wp_run.
  destruct Hp2 as (J & ?). by exists J.
Qed.

Lemma job_add_to_dbus_queue_sig j J m :
  job_heap m !! j = Some J ->
  wlp (job_add_to_dbus_queue j)
    (fun _ m' => run_queue m' = run_queue m /\
       exists J', job_heap m' !! j = Some J' /\ job_sig J' = job_sig J) m.
Proof.
  intros Hj. unfold job_add_to_dbus_queue. wp_run; eauto.
Qed.

Lemma job_set_state_sig j J s m :
  job_heap m !! j = Some J ->
  wlp (job_set_state j s)
    (fun _ m' => run_queue m' = run_queue m /\
       exists J', job_heap m' !! j = Some J' /\
         job_sig J' = job_sig (set_j_state s J)) m.
Proof.
  intros Hj. unfold job_set_state. wp_run; (split; [done|eauto]).
  exists J. split; [done|]. unfold job_sig. msimpl. congruence.
Qed.

Lemma job_add_to_run_queue_sig j J m :
  job_heap m !! j = Some J -> queued_if_marked j m ->
  wlp (job_add_to_run_queue j)
    (fun _ m' => j ∈ run_queue m' /\
       exists J', job_heap m' !! j = Some J' /\
         job_sig J' = job_sig (set_j_in_run_queue true J)) m.
Proof.
  intros Hj Hq. unfold job_add_to_run_queue. wp_run.
  - split; [by eapply Hq|]. exists J. split; [done|].
    unfold job_sig. msimpl. congruence.
  - split; [by left|eauto].
  - split; [by left|eauto].
Qed.

Lemma job_finish_and_invalidate_rec_patches fuel j J recursive already m :
  job_heap m !! j = Some J -> j_type J = JOB_RESTART -> queued_if_marked j m ->
  wlp (job_finish_and_invalidate_rec fuel j JOB_DONE recursive already)
    (fun _ m' => patched j (j_id J) m') m.
Proof.
  intros Hj Ht Hq. destruct fuel as [|fuel]; [done|].
  cbn [job_finish_and_invalidate_rec].
  do 6 wp_step. apply wpg_bind, wpg_update_job. rewrite Hj. msimpl.
  do 2 wp_step.
  apply wpg_bind.
  apply (wpg_mono _ _ (fun _ m1 => run_queue m1 = run_queue m /\
           job_heap m1 !! j = Some (set_j_result JOB_DONE J))).
  { wp_run; by rewrite ?lookup_insert_eq. }
  intros ? m1 [Hq1 Hj1].
  wp_use job_add_to_dbus_queue_sig. intros ? m2 (Hq2 & J2 & Hj2 & Hs2).
  rewrite Ht. lookup_simpl. cbn [andb]. unfold job_change_type.
  apply wpg_bind, wpg_update_job. rewrite Hj2.
  wp_use job_set_state_sig. { msimpl. apply lookup_insert_eq. }
  intros ? m3 (Hq3 & J3 & Hj3 & Hs3).
  wp_use job_add_to_run_queue_sig.
  { intros J' HJ' Hb. simplify_eq. rewrite Hq3. msimpl. rewrite Hq2, Hq1.
    apply (Hq J Hj). unfold job_sig in *. msimpl. congruence. }
  intros ? m4 (Hin4 & J4 & Hj4 & Hs4).
  wp_use finish_label_keeps_patched; [|by intros ? ? ?].
  exists J4. unfold job_sig in *. msimpl.
  injection Hs2 as ? ? ? ? ? ?. injection Hs3 as ? ? ? ? ? ?.
  injection Hs4 as ? ? ? ? ? ?.
  repeat split; try done; congruence.
Qed.




(** ** C4: installing over a conflicting incumbent *)

(** C4, as stated, fails: the incumbent start job is irreversible and
    running, the new stop job conflicts with it, and [job_install]
    returns the new job, installed in the slot, after it canceled the
    incumbent. *)
Lemma irreversible_incumbent_is_canceled :
  exists m' UJ,
    job_heap irreversible_scenario !! 0%nat = Some UJ /\
    j_installed UJ = true /\ j_irreversible UJ = true /\
    job_type_is_conflicting (j_type UJ) JOB_STOP = Some true /\
    job_install 1 irreversible_scenario = Done 1%nat m' /\
    job_is_installed m' 0 = false /\
    job_is_installed m' 1 = true /\
    (u_job <$> units m' !! 0%nat) = Some (Some 1%nat) /\
    EvJobFinished 0 0 JOB_START JOB_CANCELED ∈ trace m'.
Proof.
  eexists _, _. split; [reflexivity|]. do 3 (split; [reflexivity|]).
  split; [vm_compute; reflexivity|].
  split; [reflexivity|]. split; [reflexivity|]. split; [reflexivity|].
  cbn [trace]. repeat ((by left) || right).
Qed.

Lemma unit_slot_set t v U : unit_slot t (set_unit_slot t v U) = v.
Proof. unfold unit_slot, set_unit_slot. by destruct (decide (t = JOB_NOP)). Qed.

(** Called without recursion, [job_finish_and_invalidate] returns 0 and
    finishes the job it is given and no other. *)
Lemma job_finish_and_invalidate_alone_spec j J result already m :
  WF m -> job_heap m !! j = Some J -> j_installed J = true ->
  JobType_to_Z (j_type J) < _JOB_TYPE_MAX_IN_TRANSACTION ->
  wp (job_finish_and_invalidate j result false already)
    (fun r m' =>
       (r = 0 /\ WF m' /\ units_shrink m m' /\ finish_post j result m m') /\
       changes (fun p r => p = j /\ r = result) (Some j) m m') m.
Proof.
  intros Hwf Hj Hi Ht. apply wp_and_wlp.
  - by apply (job_finish_and_invalidate_spec False j J).
  - unfold job_finish_and_invalidate, wpg.
    apply (job_finish_and_invalidate_rec_alone (S (size (units m)))). by left.
Qed.

(** C4, amended: when the job in the slot conflicts in type with the new
    job, [job_install] does not look at the irreversible flag of the
    incumbent; it finishes the incumbent with result [canceled], which
    takes it out of the slot, installs the new job there, logs that and
    returns the new job.  The incumbent is finished without recursion:
    no other job is finished, and every other job that sat in the
    regular slot of a unit still does, with its type and override flag
    as they were. *)
Theorem job_install_cancels_conflicting_incumbent m j J U uj UJ :
  WF m -> job_heap m !! j = Some J -> j_installed J = false ->
  JobType_to_Z (j_type J) < _JOB_TYPE_MAX_IN_TRANSACTION ->
  j_state J = JOB_WAITING ->
  units m !! j_unit J = Some U -> unit_slot (j_type J) U = Some uj ->
  job_heap m !! uj = Some UJ ->
  job_type_is_conflicting (j_type UJ) (j_type J) = Some true ->
  exists m' U',
    job_install j m = Done j m' /\
    logged m m' (EvJobFinished uj (j_unit UJ) (j_type UJ) JOB_CANCELED) /\
    logged m m' (EvJobInstalled j (j_unit J) (j_type J)) /\
    only_finished uj m m' /\
    (forall o O p, units m !! o = Some O -> u_job O = Some p -> p ≠ uj ->
       job_stable m m' o p) /\
    job_is_installed m' uj = false /\
    job_is_installed m' j = true /\
    units m' !! j_unit J = Some U' /\ unit_slot (j_type J) U' = Some j.
Proof.
  intros Hwf Hj Hi Ht Hs HU Hslot Huj Hconf.
  assert (j_installed UJ = true /\
          JobType_to_Z (j_type UJ) < _JOB_TYPE_MAX_IN_TRANSACTION) as [HiU HtU].
  { unfold unit_slot in Hslot. destruct (decide (j_type J = JOB_NOP)).
    - destruct (wf_nop_slot Hwf _ _ _ HU Hslot) as (UJ' & ? & _ & ? & HtN).
      simplify_eq. rewrite HtN. done.
    - destruct (wf_regular_slot Hwf _ _ _ HU Hslot) as (UJ' & ? & _ & ? & _ & ?).
      simplify_eq. done. }
  assert (wp (job_install j)
            (fun r m' => r = j /\
               logged m m' (EvJobFinished uj (j_unit UJ) (j_type UJ) JOB_CANCELED) /\
               logged m m' (EvJobInstalled j (j_unit J) (j_type J)) /\
               only_finished uj m m' /\
               (forall o O p, units m !! o = Some O -> u_job O = Some p ->
                  p ≠ uj -> job_stable m m' o p) /\
               job_is_installed m' uj = false /\ job_is_installed m' j = true /\
               exists U', units m' !! j_unit J = Some U' /\
                          unit_slot (j_type J) U' = Some j) m) as Hwp.
  { unfold job_install. do 10 wp_next; try lia; try done; try (bool_hyps; congruence).
    do 2 wp_step. lookup_simpl.
    wp_use job_finish_and_invalidate_alone_spec.
    intros r m1 [(-> & Hwf1 & Hs1 & Hc1 & Hpost1) Halone].
    destruct (Hpost1 UJ Huj) as [Hlog1 Hinst1].
    assert (job_heap m1 !! j = Some J) as Hj1.
    { rewrite (ch_heap _ _ _ _ Hc1 j); [done|done|].
      unfold job_is_installed. by rewrite Hj. }
    destruct (proj2 Hs1 (j_unit J) (mk_is_Some _ _ HU)) as [U1 HU1].
    assert (uj ≠ j) as Hne by (intros ->; congruence).
    destruct Halone as [_ _ _ (new & Htr & HX & Hstable & _) _].
    wp_run. split; [done|].
    split.
    { destruct Hlog1 as (new1 & Htr1 & Hin). eexists (_ :: new1). msimpl.
      rewrite Htr1. split; [done|]. by right. }
    split.
    { eexists (_ :: new). msimpl. rewrite Htr. split; [done|]. by left. }
    split.
    { intros p u t r (new2 & Htr2 & Hin). revert Htr2. msimpl. rewrite Htr.
      intros Htr2.
      assert (new2 = EvJobInstalled j (j_unit J) (j_type J) :: new) as ->.
      { apply (app_inv_tail (trace m)). by rewrite <-Htr2. }
      apply elem_of_cons in Hin as [?|Hin]; [done|].
      by destruct (HX p u t r Hin). }
    split.
    { intros o O p HO Hp Hpne.
      destruct (Hstable o O p HO Hp) as [[= ->]|[Hst|(u & t & r & Hin & _)]];
        [done| |by destruct (HX p u t r Hin)].
      destruct Hst as [(O1 & HO1 & Hp1) Hkeep]. split.
      - msimpl. destruct (decide (o = j_unit J)) as [->|Hno].
        + rewrite lookup_insert_eq. eexists. split; [done|].
          rewrite HU1 in HO1. injection HO1 as <-.
          rewrite HU in HO. injection HO as <-.
          unfold set_unit_slot, unit_slot in *.
          destruct (decide (j_type J = JOB_NOP)); [done|]. congruence.
        + rewrite lookup_insert_ne by done. eauto.
      - intros P HP. msimpl. destruct (decide (p = j)) as [->|Hpj].
        + rewrite lookup_insert_eq. eexists. split; [done|].
          rewrite Hj in HP. injection HP as <-. done.
        + rewrite lookup_insert_ne by done. by apply Hkeep. }
    unfold job_is_installed in *. msimpl.
    rewrite lookup_insert_ne by done. rewrite lookup_insert_eq.
    split; [apply Hinst1; by intros [? _]|]. split; [done|].
    eexists. split; [done|]. apply unit_slot_set. }
  apply wp_Done in Hwp as (r & m' & Hrun & -> & ? & ? & ? & ? & ? & ? & U' & ? & ?).
  exists m', U'. done.
Qed.

Lemma job_install_cancels_conflicting_incumbent_witness :
  exists m' U',
    job_install 2 conflict_scenario = Done 2%nat m' /\
    logged conflict_scenario m' (EvJobFinished 0 0 JOB_START JOB_CANCELED) /\
    logged conflict_scenario m' (EvJobInstalled 2 0 JOB_STOP) /\
    only_finished 0 conflict_scenario m' /\
    job_stable conflict_scenario m' 1 1 /\
    job_is_installed m' 0 = false /\
    job_is_installed m' 2 = true /\
    units m' !! 0%nat = Some U' /\ unit_slot JOB_STOP U' = Some 2%nat.
Proof.
  destruct (job_install_cancels_conflicting_incumbent conflict_scenario 2
              (set_j_timer_event_source None
                 (set_j_installed false (example_job 0 3 JOB_STOP JOB_WAITING)))
              (example_unit (Some 0%nat)
                 (fun d => match d with UNIT_REQUIRED_BY => [1%nat] | _ => [] end))
              0
              (set_j_irreversible true (example_job 0 1 JOB_START JOB_RUNNING)))
    as (m' & U' & Hrun & Hfin & Hlog & Honly & Hstable & Hgone & Hin & HU' & Hslot).
  - apply (bool_decide_unpack (WF conflict_scenario)). vm_compute. exact I.
  - reflexivity.
  - reflexivity.
  - simpl. unfold _JOB_TYPE_MAX_IN_TRANSACTION. lia.
  - reflexivity.
  - reflexivity.
  - reflexivity.
  - reflexivity.
  - vm_compute. reflexivity.
  - exists m', U'. do 4 (split; [assumption|]). split; [|done].
    by apply (Hstable 1%nat (example_unit (Some 1%nat) no_dependencies) 1%nat).
Defined.

(** ** C5: a primitive that returns -EBADR *)

(** C5, as stated, fails for a start job: the primitive returns -EBADR,
    [job_run_and_invalidate] turns that into 0 and the job stays
    installed and running; no job is finished. *)
Lemma start_job_EBADR_keeps_running :
  exists m' J',
    job_run_and_invalidate (constant_vtable (- EBADR)) 0 (queued_scenario JOB_START)
      = Done 0 m' /\
    job_heap m' !! 0%nat = Some J' /\
    j_installed J' = true /\ j_state J' = JOB_RUNNING /\
    trace m' = [].
Proof.
  eexists _, _. split; [vm_compute; reflexivity|].
  split; [reflexivity|]. split; [reflexivity|]. split; [reflexivity|]. reflexivity.
Qed.

Lemma runnable_rule_update us h j J J' io t U :
  h !! j = Some J -> j_type J' = j_type J ->
  runnable_rule us h io t U -> runnable_rule us (<[j := J']> h) io t U.
Proof.
  intros Hj Ht [?|[?|[Ha Hb]]]; [by left|by right; left|].
  right; right. split; [done|].
  intros o O p P Ho HO Hp HP. destruct (decide (p = j)) as [->|Hne].
  - rewrite lookup_insert_eq in HP. injection HP as <-. rewrite Ht. eauto.
  - rewrite lookup_insert_ne in HP by done. eauto.
Qed.

Lemma job_set_state_jobs j s m :
  wlp (job_set_state j s) (fun _ m' => jobs m' = jobs m) m.
Proof. unfold job_set_state. wp_run; done. Qed.

Lemma job_add_to_dbus_queue_jobs j m :
  wlp (job_add_to_dbus_queue j) (fun _ m' => jobs m' = jobs m) m.
Proof. unfold job_add_to_dbus_queue. wp_run; done. Qed.

Lemma job_set_state_full j J s m :
  WF m -> job_heap m !! j = Some J ->
  (s = JOB_RUNNING -> n_running_jobs m + 1 < 2 ^ 32) ->
  wp (job_set_state j s)
    (fun _ m' => WF m' /\ jobs m' = jobs m /\
       changes (fun _ _ => False) (Some j) m m' /\
       exists J', job_heap m' !! j = Some J' /\ j_unit J' = j_unit J /\
         j_installed J' = j_installed J /\ j_type J' = j_type J /\
         j_state J' = s /\ j_id J' = j_id J) m.
Proof.
  intros Hwf Hj Hn. eapply wpg_mono.
  { apply wp_and_wlp; [apply wp_and_wlp; [apply wp_and_wlp|]|].
    - by eapply (job_set_state_wf False j J s m).
    - apply (job_set_state_changes (fun _ _ => False)).
    - apply job_set_state_jobs.
    - apply (job_set_state_sig j J s m Hj). }
  cbv beta.
  intros ? m' [[[(Hwf' & Hu' & J' & Hj' & ? & ? & ? & ?) Hc'] Hjobs'] (_ & J'' & Hj'' & Hsig)].
  assert (J'' = J') as -> by congruence.
  unfold job_sig in Hsig. injection Hsig as ? ? ? ? ? ?.
  repeat (split; [done|]). exists J'. msimpl. done.
Qed.

Lemma job_add_to_dbus_queue_full j J m :
  WF m -> job_heap m !! j = Some J -> j_installed J = true ->
  wp (job_add_to_dbus_queue j)
    (fun _ m' => WF m' /\ jobs m' = jobs m /\
       changes (fun _ _ => False) (Some j) m m' /\
       exists J', job_heap m' !! j = Some J' /\ job_sig J' = job_sig J) m.
Proof.
  intros Hwf Hj Hi. eapply wpg_mono.
  { apply wp_and_wlp; [apply wp_and_wlp; [apply wp_and_wlp|]|].
    - by eapply (job_add_to_dbus_queue_wf False j J m).
    - apply (job_add_to_dbus_queue_changes (fun _ _ => False)).
    - apply job_add_to_dbus_queue_jobs.
    - apply (job_add_to_dbus_queue_sig j J m Hj). }
  cbv beta. intros ? m' [[[(Hwf' & _) Hc'] Hjobs'] (_ & J' & Hj' & Hsig)].
  repeat (split; [done|]). eauto.
Qed.

(** The state [job_run_and_invalidate] is in when it calls the primitive
    of a runnable, waiting job: the job has left the run queue and is
    running, and nothing was finished. *)
Ltac run_to_primitive m j J U :=
  unfold job_run_and_invalidate;
  do 12 wp_next; try done; try (bool_hyps; simpl in *; lia);
  lookup_simpl; cbn [negb];
  lazymatch goal with
  | |- wpg _ _ _ ?m1 =>
      let Hwf1 := fresh "Hwf1" in
      let Hj1 := fresh "Hj1" in
      let Hc1 := fresh "Hc1" in
      assert (WF m1) as Hwf1
        by (unfold WF; msimpl; by eapply WF'_update_job);
      assert (job_heap m1 !! j = Some (set_j_in_run_queue false J)) as Hj1
        by (msimpl; apply lookup_insert_eq);
      assert (changes (fun _ _ => False) (Some j) m m1) as Hc1 by solve_touch;
      let b := fresh "b" in
      let Hb := fresh "Hb" in
      let Hiff := fresh "Hiff" in
      destruct (job_is_runnable_spec m1 j _ U Hwf1 Hj1) as (b & Hb & Hiff);
        [done..|];
      assert (b = true) as ->
        by (apply Hiff; msimpl; by eapply runnable_rule_update);
      apply wpg_bind, wp_Done; exists true, m1; split; [done|];
      cbn [negb];
      apply wpg_bind; eapply wpg_mono;
        [eapply (job_set_state_full j _ JOB_RUNNING m1);
           [done|done|intros _; msimpl; lia]|];
      cbv beta;
      let m2 := fresh "m2" in
      let Hwf2 := fresh "Hwf2" in
      let Hjobs2 := fresh "Hjobs2" in
      let Hc2 := fresh "Hc2" in
      let J2 := fresh "J2" in
      let Hj2 := fresh "Hj2" in
      intros ? m2 (Hwf2 & Hjobs2 & Hc2 & J2 & Hj2 & ? & ? & ? & ? & ?);
      apply wpg_bind; eapply wpg_mono;
        [eapply (job_add_to_dbus_queue_full j J2 m2); [done|done|msimpl; congruence]|];
      cbv beta;
      let m3 := fresh "m3" in
      let Hwf3 := fresh "Hwf3" in
      let Hjobs3 := fresh "Hjobs3" in
      let Hc3 := fresh "Hc3" in
      let J3 := fresh "J3" in
      let Hj3 := fresh "Hj3" in
      let Hsig := fresh "Hsig" in
      intros ? m3 (Hwf3 & Hjobs3 & Hc3 & J3 & Hj3 & Hsig);
      unfold job_sig in Hsig; injection Hsig as ? ? ? ? ? ?; msimpl
  | |- _ => idtac
  end.

Lemma changes_logged X ex m1 m2 m3 e :
  changes X ex m1 m2 -> logged m2 m3 e -> logged m1 m3 e.
Proof.
  intros [_ _ _ (new1 & Ht1 & _) _] (new2 & Ht2 & He).
  exists (new2 ++ new1). split; [by rewrite Ht2, Ht1, app_assoc|].
  apply elem_of_app. by left.
Qed.

Lemma changes_nothing_finished ex m m' p u t r :
  changes (fun _ _ => False) ex m m' -> ~ logged m m' (EvJobFinished p u t r).
Proof.
  intros [_ _ _ (new & Ht & HX & _) _] (new' & Ht' & He).
  assert (new' = new) as -> by (apply (app_inv_tail (trace m)); congruence).
  by apply HX in He.
Qed.

(** C5, amended: for a reload job the result of a primitive that returns
    -EBADR is [skipped]: the job is finished with that result and leaves
    its slot.  For a start, stop or restart job [job_run_and_invalidate]
    replaces -EBADR by 0: it returns 0, the job stays installed and
    running, and no job is finished.  (The job is taken to be waiting in
    the run queue, runnable and registered under its id, and the
    primitive to leave the manager as it is.) *)
Theorem job_run_and_invalidate_EBADR vt m j J U :
  WF m -> job_heap m !! j = Some J -> j_installed J = true ->
  j_in_run_queue J = true -> j_state J = JOB_WAITING ->
  units m !! j_unit J = Some U ->
  runnable_rule (units m) (job_heap m) (j_ignore_order J) (j_type J) U ->
  jobs m !! j_id J = Some j ->
  n_running_jobs m + 1 < 2 ^ 32 ->
  (j_type J = JOB_RELOAD ->
   (forall m1, unit_reload vt (j_unit J) m1 = Done (- EBADR) m1) ->
   exists m',
     job_run_and_invalidate vt j m = Done 0 m' /\
     logged m m' (EvJobFinished j (j_unit J) JOB_RELOAD JOB_SKIPPED) /\
     job_is_installed m' j = false) /\
  (j_type J = JOB_START ->
   (forall m1, unit_start vt (j_unit J) m1 = Done (- EBADR) m1) ->
   exists m' J',
     job_run_and_invalidate vt j m = Done 0 m' /\
     job_heap m' !! j = Some J' /\ j_installed J' = true /\
     j_state J' = JOB_RUNNING /\
     forall p u t r, ~ logged m m' (EvJobFinished p u t r)) /\
  (j_type J = JOB_STOP \/ j_type J = JOB_RESTART ->
   (forall m1, unit_stop vt (j_unit J) m1 = Done (- EBADR) m1) ->
   exists m' J',
     job_run_and_invalidate vt j m = Done 0 m' /\
     job_heap m' !! j = Some J' /\ j_installed J' = true /\
     j_state J' = JOB_RUNNING /\
     forall p u t r, ~ logged m m' (EvJobFinished p u t r)).
Proof.
  intros Hwf Hj Hi Hq Hs HU Hrun Hid Hn.
  assert (forall vt', (exists r, r = - EBADR /\
            (j_type J = JOB_START /\ (forall m1, unit_start vt' (j_unit J) m1 = Done r m1) \/
             (j_type J = JOB_STOP \/ j_type J = JOB_RESTART) /\
               (forall m1, unit_stop vt' (j_unit J) m1 = Done r m1))) ->
          exists m' J',
            job_run_and_invalidate vt' j m = Done 0 m' /\
            job_heap m' !! j = Some J' /\ j_installed J' = true /\
            j_state J' = JOB_RUNNING /\
            forall p u t r, ~ logged m m' (EvJobFinished p u t r)) as Hstay.
  { intros vt' (r0 & -> & Hcase).
    assert (JobType_to_Z (j_type J) < _JOB_TYPE_MAX_IN_TRANSACTION) as Hlt.
    { destruct Hcase as [[-> _]|[[-> | ->] _]];
        unfold _JOB_TYPE_MAX_IN_TRANSACTION; simpl; lia. }
    assert (wp (job_run_and_invalidate vt' j)
              (fun r m' => r = 0 /\ exists J', job_heap m' !! j = Some J' /\
                 j_installed J' = true /\ j_state J' = JOB_RUNNING /\
                 forall p u t r, ~ logged m m' (EvJobFinished p u t r)) m) as Hwp.
    { run_to_primitive m j J U.
      assert (jobs m3 !! j_id J = Some j) as Hid3 by (rewrite Hjobs3, Hjobs2; done).
      assert (forall Q, Q 0 m3 ->
                wp (found ← manager_get_job (j_id J);
                    match found with
                    | Some j =>
                        if decide (0 = - EALREADY) then job_finish_and_invalidate j JOB_DONE true true
                        else if decide (0 = - EBADR) then job_finish_and_invalidate j JOB_SKIPPED true false
                        else if decide (0 = - ENOEXEC) then job_finish_and_invalidate j JOB_INVALID true false
                        else if decide (0 = - EPROTO) then job_finish_and_invalidate j JOB_ASSERT true false
                        else if decide (0 = - ENOTSUP) then job_finish_and_invalidate j JOB_UNSUPPORTED true false
                        else if decide (0 = - EAGAIN) then job_set_state j JOB_WAITING;; mret 0
                        else if 0 <? 0 then job_finish_and_invalidate j JOB_FAILED true false
                        else mret 0
                    | None => mret 0
                    end) Q m3) as Htail.
      { intros Q HQ. unfold manager_get_job. do 2 wp_step. rewrite Hid3.
        repeat (destruct (decide _) as [Heq|_]; [discriminate Heq|]). done. }
      assert (Q3 : 0 = 0 /\ exists J', job_heap m3 !! j = Some J' /\
                j_installed J' = true /\ j_state J' = JOB_RUNNING /\
                forall p u t r, ~ logged m m3 (EvJobFinished p u t r)).
      { split; [done|]. exists J3. split; [done|]. split; [congruence|].
        split; [congruence|]. intros p u t r.
        apply changes_nothing_finished with (ex := Some j).
        eauto using changes_trans. }
      destruct Hcase as [[Ht Hprim]|[Ht Hprim]].
      - rewrite Ht. apply wpg_bind, wpg_bind, wp_Done.
        exists (- EBADR), m3. split; [apply Hprim|]. apply wpg_ret.
        rewrite decide_True by done. by apply Htail.
      - assert (match j_type J with
                | JOB_STOP | JOB_RESTART => True | _ => False end) as Hm
          by (destruct Ht as [-> | ->]; done).
        destruct (j_type J); try done.
        all: apply wpg_bind, wpg_bind, wp_Done.
        all: exists (- EBADR), m3; (split; [apply Hprim|]); apply wpg_ret.
        all: rewrite decide_True by done; by apply Htail. }
    apply wp_Done in Hwp as (r & m' & Hrun' & -> & J' & ?). eauto. }
  split; [|split].
  - intros Ht Hprim.
    assert (JobType_to_Z (j_type J) < _JOB_TYPE_MAX_IN_TRANSACTION) as Hlt
      by (rewrite Ht; unfold _JOB_TYPE_MAX_IN_TRANSACTION; simpl; lia).
    assert (wp (job_run_and_invalidate vt j)
              (fun r m' => r = 0 /\
                 logged m m' (EvJobFinished j (j_unit J) JOB_RELOAD JOB_SKIPPED) /\
                 job_is_installed m' j = false) m) as Hwp.
    { run_to_primitive m j J U.
      assert (jobs m3 !! j_id J = Some j) as Hid3 by (rewrite Hjobs3, Hjobs2; done).
      rewrite Ht. apply wpg_bind, wp_Done.
      exists (- EBADR), m3. split; [apply Hprim|].
      unfold manager_get_job. do 2 wp_step. rewrite Hid3.
      destruct (decide (- EBADR = - EALREADY)) as [Heq|_]; [discriminate Heq|].
      rewrite decide_True by done.
      eapply wpg_mono.
      { eapply (job_finish_and_invalidate_spec False j J3); [done|done|congruence|congruence]. }
      cbv beta. intros r m4 (-> & Hwf4 & _ & _ & Hpost).
      destruct (Hpost J3 Hj3) as [Hlog Hinst]. split; [done|]. split.
      - eapply changes_logged; [|eapply changes_logged; [|eapply changes_logged]];
          [exact Hc1|exact Hc2|exact Hc3|].
        replace (j_unit J) with (j_unit J3) by congruence.
        replace JOB_RELOAD with (j_type J3) by congruence. done.
      - apply Hinst. by intros [? _]. }
    apply wp_Done in Hwp as (r & m' & Hrun' & -> & ? & ?). eauto.
  - intros Ht Hprim. apply Hstay. exists (- EBADR). split; [done|]. by left.
  - intros Ht Hprim. apply Hstay. exists (- EBADR). split; [done|]. by right.
Qed.

Lemma job_run_and_invalidate_EBADR_witness :
  (JOB_RELOAD = JOB_RELOAD ->
   (forall m1, unit_reload (constant_vtable (- EBADR)) 0 m1 = Done (- EBADR) m1) ->
   exists m',
     job_run_and_invalidate (constant_vtable (- EBADR)) 0 (queued_scenario JOB_RELOAD)
       = Done 0 m' /\
     logged (queued_scenario JOB_RELOAD) m' (EvJobFinished 0 0 JOB_RELOAD JOB_SKIPPED) /\
     job_is_installed m' 0 = false) /\
  (JOB_RELOAD = JOB_START ->
   (forall m1, unit_start (constant_vtable (- EBADR)) 0 m1 = Done (- EBADR) m1) ->
   exists m' J',
     job_run_and_invalidate (constant_vtable (- EBADR)) 0 (queued_scenario JOB_RELOAD)
       = Done 0 m' /\
     job_heap m' !! 0%nat = Some J' /\ j_installed J' = true /\
     j_state J' = JOB_RUNNING /\
     forall p u t r, ~ logged (queued_scenario JOB_RELOAD) m' (EvJobFinished p u t r)) /\
  (JOB_RELOAD = JOB_STOP \/ JOB_RELOAD = JOB_RESTART ->
   (forall m1, unit_stop (constant_vtable (- EBADR)) 0 m1 = Done (- EBADR) m1) ->
   exists m' J',
     job_run_and_invalidate (constant_vtable (- EBADR)) 0 (queued_scenario JOB_RELOAD)
       = Done 0 m' /\
     job_heap m' !! 0%nat = Some J' /\ j_installed J' = true /\
     j_state J' = JOB_RUNNING /\
     forall p u t r, ~ logged (queued_scenario JOB_RELOAD) m' (EvJobFinished p u t r)).
Proof.
  apply (job_run_and_invalidate_EBADR (constant_vtable (- EBADR))
           (queued_scenario JOB_RELOAD) 0
           (set_j_in_run_queue true (example_job 0 1 JOB_RELOAD JOB_WAITING))
           (example_unit (Some 0%nat) no_dependencies)).
  - apply (bool_decide_unpack (WF (queued_scenario JOB_RELOAD))). vm_compute. exact I.
  - reflexivity.
  - reflexivity.
  - reflexivity.
  - reflexivity.
  - reflexivity.
  - right; right. split.
    + intros _ o O Ho. simpl in Ho. by apply elem_of_nil in Ho.
    + intros o O p P Ho. simpl in Ho. by apply elem_of_nil in Ho.
  - reflexivity.
  - simpl. lia.
Defined.

(** ** C2: a failed job fails its dependents *)

Lemma failed_dependency_changes X j m m1 m2 p :
  p ≠ j -> failed_dependency m m1 p -> changes X (Some j) m1 m2 ->
  failed_dependency m m2 p.
Proof.
  intros Hne [(u & t & Hl) Hi] Hc. split.
  - exists u, t. by eapply logged_changes.
  - unfold job_is_installed in *.
    rewrite (ch_heap _ _ _ _ Hc p); [done|congruence|done].
Qed.

(** A dependent of [m] either was failed on the way to [m1] or still sits
    in its slot, as it was. *)
Lemma dependent_job_cases j result m m1 skip o p :
  changes (finish_allows j result) (Some j) m m1 ->
  dependent_job m j skip o p ->
  failed_dependency m m1 p \/
  exists O1 P1, units m1 !! o = Some O1 /\ u_job O1 = Some p /\
    job_heap m1 !! p = Some P1 /\
    is_start_or_verify (j_type P1) = true /\
    (skip = true -> j_override P1 = false).
Proof.
  intros [_ _ _ (new & Ht & HX & Hs & _) _] (Hne & O & P & HO & Hp & HP & Ht' & Ho).
  destruct (Hs o O p HO Hp) as [?|[[(O1 & HO1 & Hp1) Hst]|(u & t & r & He & Hi)]].
  - congruence.
  - right. destruct (Hst P HP) as (P1 & HP1 & Hty & Hov).
    exists O1, P1. split; [done|]. split; [done|]. split; [done|].
    split; [by rewrite Hty|]. intros Hs'. rewrite Hov. auto.
  - left. destruct (HX _ _ _ _ He) as [[? _]| ->]; [done|].
    split; [|by apply Hi]. exists u, t, new. done.
Qed.

(** One dependency-failure loop fails every dependent of the units it
    visits, and keeps failed what was failed before. *)
Lemma fail_dependents_fails j result (K : nat -> Prop) m m1
    (finish : nat -> M Z) skip l :
  (forall oj m1, wlp (finish oj) (fun _ m' => finish_post oj JOB_DEPENDENCY m1 m') m1) ->
  (forall p, K p -> p ≠ j) ->
  changes (finish_allows j result) (Some j) m m1 ->
  job_is_installed m1 j = false ->
  (forall p, K p -> failed_dependency m m1 p) ->
  wlp (fail_dependents finish skip l)
    (fun _ m' => changes (finish_allows j result) (Some j) m m' /\
       job_is_installed m' j = false /\
       (forall p, K p -> failed_dependency m m' p) /\
       forall o p, o ∈ l -> dependent_job m j skip o p ->
         failed_dependency m m' p) m1.
Proof.
  intros Hfin HK Hc Hi HKf. unfold fail_dependents.
  apply (wpg_foreach_acc True l _
    (fun done m' => changes (finish_allows j result) (Some j) m m' /\
       job_is_installed m' j = false /\
       (forall p, K p -> failed_dependency m m' p) /\
       forall o p, o ∈ done -> dependent_job m j skip o p ->
         failed_dependency m m' p) []).
  { split; [done|]. split; [done|]. split; [done|]. by intros o p ?%elem_of_nil. }
  clear m1 Hc Hi HKf. intros done o m1 (Hc & Hi & HKf & Hd).
  do 2 wp_step.
  assert (forall m2, changes (finish_allows j result) (Some j) m1 m2 ->
            job_is_installed m2 j = false ->
            (forall p, dependent_job m j skip o p -> failed_dependency m m2 p) ->
            changes (finish_allows j result) (Some j) m m2 /\
            job_is_installed m2 j = false /\
            (forall p, K p -> failed_dependency m m2 p) /\
            forall o0 p, o0 ∈ done ++ [o] -> dependent_job m j skip o0 p ->
              failed_dependency m m2 p) as Hleaf.
  { intros m2 Hc2 Hi2 Ho. split; [by eapply changes_trans|]. split; [done|]. split.
    - intros p Hp.
      eapply (failed_dependency_changes _ j); [by apply HK|by apply HKf|done].
    - intros o0 p [Hin|Hin%list_elem_of_singleton]%elem_of_app Hdep.
      + eapply (failed_dependency_changes _ j); [by destruct Hdep|by eapply Hd|done].
      + subst. by apply Ho. }
  destruct (u_job u) as [q|] eqn:Hq.
  - do 2 wp_step.
    destruct (negb (skip && j_override j0) && is_start_or_verify (j_type j0)) eqn:Hcond.
    + wp_use Hfin. intros ? m2 [Hc2 Hp2]. wp_run.
      assert (changes (finish_allows j result) (Some j) m1 m2) as Hc2'.
      { apply changes_exempt. eapply changes_mono; [|exact Hc2].
        intros p r. apply finish_allows_nested. }
      apply Hleaf; [done|by eapply changes_installed_false|].
      intros p Hdep.
      destruct (dependent_job_cases _ _ _ _ _ _ _ Hc Hdep)
        as [Hf|(O1 & P1 & HO1 & Hp1 & HP1 & _)].
      * eapply (failed_dependency_changes _ j); [by destruct Hdep|done|done].
      * simplify_eq. edestruct Hp2 as [Hl Hinst]; [eassumption|]. split.
        -- do 2 eexists. eapply changes_logged; done.
        -- apply Hinst. by intros [? _].
    + wp_run. apply Hleaf; [apply changes_refl|done|].
      intros p Hdep.
      destruct (dependent_job_cases _ _ _ _ _ _ _ Hc Hdep)
        as [Hf|(O1 & P1 & HO1 & Hp1 & HP1 & Hty & Hov)]; [done|].
      simplify_eq. rewrite Hty in Hcond. destruct skip; simpl in Hcond; [|done].
      rewrite Hov in Hcond; done.
  - wp_run. apply Hleaf; [apply changes_refl|done|].
    intros p Hdep.
    destruct (dependent_job_cases _ _ _ _ _ _ _ Hc Hdep)
      as [Hf|(O1 & P1 & HO1 & Hp1 & _)]; [done|].
    simplify_eq.
Qed.

(** A loop that meets no dependent calls nothing and changes nothing. *)
Lemma fail_dependents_skips j result m m1 (finish : nat -> M Z) skip l :
  (forall m (Q : Z -> Manager -> Prop),
     job_is_installed m j = false -> wlp (finish j) Q m) ->
  changes (fun p r => p = j /\ r = result) (Some j) m m1 ->
  (forall o p, o ∈ l -> ~ dependent_job m j skip o p) ->
  job_is_installed m1 j = false ->
  wlp (fail_dependents finish skip l) (fun _ m' => m' = m1) m1.
Proof.
  intros Hab Hc Hno Hi. unfold fail_dependents.
  apply (wpg_foreach True l _ (fun m' => m' = m1)); [done|].
  intros o ? Ho ->. do 2 wp_step.
  destruct (u_job u) as [q|] eqn:Hq; [|by wp_run].
  do 2 wp_step.
  destruct (negb (skip && j_override j0) && is_start_or_verify (j_type j0)) eqn:Hcond;
    [|by wp_run].
  destruct (decide (q = j)) as [->|Hne]; [by apply wpg_bind, Hab|].
  exfalso. apply (Hno o q Ho). split; [done|].
  destruct Hc as [_ Hv _ (new & Ht & HX & _ & Hr) _].
  destruct (Hv o u) as (O & HO & [Heq|Heq]); [done| |congruence].
  destruct (Hr q j0) as [?|[(u' & t' & r' & He)|(Q & HQ & Hty & Hov)]];
    [done|congruence| |].
  { by destruct (HX _ _ _ _ He). }
  exists O, Q. split; [done|]. split; [congruence|]. split; [done|].
  apply andb_prop in Hcond as [Hs Hsov]. split; [congruence|].
  intros ->. simpl in Hs. rewrite <-Hov. by destruct (j_override j0).
Qed.

(** A job that is not installed cannot be finished: the assertion at the
    head of [job_finish_and_invalidate] fails. *)
Lemma job_finish_and_invalidate_rec_not_installed fuel j result recursive already m
    (Q : Z -> Manager -> Prop) :
  job_is_installed m j = false ->
  wlp (job_finish_and_invalidate_rec fuel j result recursive already) Q m.
Proof.
  intros Hi. destruct fuel as [|fuel]; [done|].
  cbn [job_finish_and_invalidate_rec]. unfold job_is_installed in Hi.
  do 3 wp_step. apply wpg_massert. by rewrite Hi.
Qed.

(** The run of [job_finish_and_invalidate] on a job whose result is not
    [JOB_DONE], with recursion on: what the dependency-failure block
    establishes is kept to the end. *)
Lemma job_finish_and_invalidate_rec_frame (X : nat -> JobResult -> Prop)
    (L : Manager -> Prop) fuel j J U result already m :
  X j result ->
  job_heap m !! j = Some J -> units m !! j_unit J = Some U ->
  result ≠ JOB_DONE ->
  (forall m1, changes X (Some j) m m1 -> job_is_installed m1 j = false ->
     wlp (let finish oj :=
            job_finish_and_invalidate_rec fuel oj JOB_DEPENDENCY true false in
          if is_start_or_verify (j_type J) then
            fail_dependents finish false (u_dependencies U UNIT_REQUIRED_BY);;
            fail_dependents finish false (u_dependencies U UNIT_BOUND_BY);;
            fail_dependents finish true (u_dependencies U UNIT_REQUIRED_BY_OVERRIDABLE)
          else if bool_decide (j_type J = JOB_STOP) then
            fail_dependents finish false (u_dependencies U UNIT_CONFLICTED_BY)
          else mret tt)
       (fun _ m2 => changes X (Some j) m m2 /\ job_is_installed m2 j = false /\ L m2)
       m1) ->
  (forall m2 m3, L m2 -> changes X (Some j) m2 m3 -> L m3) ->
  wlp (job_finish_and_invalidate_rec (S fuel) j result true already)
    (fun _ m' => changes X (Some j) m m' /\ L m') m.
Proof.
  intros HX Hj HU Hr Hloops HL.
  cbn [job_finish_and_invalidate_rec].
  do 6 wp_step.
  apply wpg_bind, wpg_update_job. rewrite Hj. apply wpg_bind, wpg_emit. msimpl.
  set (ev := EvJobFinished j (j_unit J) (j_type J) result).
  set (m1 := set_trace _ _).
  assert (changes X (Some j) m m1) as Hc1.
  { eapply (changes_touch_log _ _ _ _ [ev]); unfold m1; msimpl; try done.
    - intros p Hp. by rewrite lookup_insert_ne.
    - intros p u t r [Heq|[]%elem_of_nil]%elem_of_cons.
      by injection Heq as -> _ _ ->. }
  clearbody m1.
  apply wpg_bind.
  apply (wpg_mono _ _ (fun _ m2 => changes X (Some j) m1 m2)).
  { wp_run; [solve_quiet_step|apply changes_refl]. }
  intros ? m2 Hc2.
  wp_use (job_add_to_dbus_queue_changes X). intros ? m3 Hc3.
  rewrite (bool_decide_eq_false_2 _ Hr). cbn [andb negb].
  apply wpg_bind.
  apply (wpg_mono _ _ (fun _ m4 => changes X (Some j) m3 m4)).
  { wp_run; [|apply changes_refl]. eapply changes_count_failure; [exact HX|].
    match goal with
    | H : (_ || _) = true |- _ => apply orb_prop in H as [?|?]
    end; bool_hyps; auto. }
  intros ? m4 Hc4.
  wp_use (job_uninstall_changes X). intros ? m5 [Hc5 Hi5].
  do 4 wp_step.
  apply wpg_bind.
  apply (wpg_mono _ _ (fun _ m6 => changes X (Some j) m5 m6 /\
           job_is_installed m6 j = false)).
  { match goal with |- wpg _ (if ?b then _ else _) _ _ => destruct b end.
    - wp_use (job_save_pending_finished_job_changes X).
      intros r m6 (-> & Hc6 & Hi6). by wp_run.
    - by wp_use (job_free_changes X). }
  intros ? m6 [Hc6 Hi6].
  assert (changes X (Some j) m m6) as Hc06 by eauto 10 using changes_trans.
  do 2 wp_step.
  destruct (ch_units _ _ _ _ Hc06 _ _ HU) as (U' & HU' & Hdeps).
  assert (U' = u) as -> by congruence. rewrite Hdeps.
  apply wpg_bind, wpg_when.
  eapply wpg_mono; [by apply Hloops|]. cbv beta.
  intros ? m7 (Hc7 & Hi7 & HL7).
  apply wpg_bind.
  apply (wpg_mono _ _ (fun _ m8 => changes X (Some j) m7 m8)).
  { wp_run; [solve_quiet_step|apply changes_refl]. }
  intros ? m8 Hc8.
  do 2 wp_step.
  eapply wpg_mono; [apply (finish_label_changes X (Some j))|]. msimpl.
  intros ? m9 Hc9.
  assert (changes X (Some j) m7 m9) as Hc79.
  { eapply changes_trans; [exact Hc8|].
    eapply changes_trans; [|exact Hc9]. solve_quiet_step. }
  split; [by eapply changes_trans|by eapply HL].
Qed.

Section dependency_failure.
Context (fuel j : nat) (J : Job) (U : Unit) (result : JobResult)
  (already : bool) (m : Manager).
Hypothesis Hj : job_heap m !! j = Some J.
Hypothesis HU : units m !! j_unit J = Some U.
Hypothesis Hr : result ≠ JOB_DONE.

(** Every dependent the block visits is failed. *)
Lemma job_finish_and_invalidate_rec_fails_dependents :
  wlp (job_finish_and_invalidate_rec (S fuel) j result true already)
    (fun _ m' => forall skip o p,
       propagates_to J U skip o -> dependent_job m j skip o p ->
       failed_dependency m m' p) m.
Proof.
  eapply wpg_mono.
  - apply (job_finish_and_invalidate_rec_frame (finish_allows j result)
      (fun m' => forall skip o p,
         propagates_to J U skip o -> dependent_job m j skip o p ->
         failed_dependency m m' p) fuel j J U); try done.
    + by left.
    + intros m1 Hc1 Hi1. cbv zeta.
      assert (forall oj m1,
                wlp (job_finish_and_invalidate_rec fuel oj JOB_DEPENDENCY true false)
                  (fun _ m' => finish_post oj JOB_DEPENDENCY m1 m') m1) as Hfin
        by (intros; apply job_finish_and_invalidate_rec_changes).
      destruct (is_start_or_verify (j_type J)) eqn:Hsov.
      * wp_use (fail_dependents_fails j result (fun _ => False) m m1);
          try done.
        intros ? m2 (Hc2 & Hi2 & _ & H2).
        wp_use (fail_dependents_fails j result
                  (fun p => exists o, o ∈ u_dependencies U UNIT_REQUIRED_BY /\
                                      dependent_job m j false o p) m m2);
          try done.
        { by intros p (o & _ & ? & _). }
        { intros p (o & ? & ?). eauto. }
        intros ? m3 (Hc3 & Hi3 & H2' & H3).
        wp_use (fail_dependents_fails j result
                  (fun p => exists o, (o ∈ u_dependencies U UNIT_REQUIRED_BY \/
                                       o ∈ u_dependencies U UNIT_BOUND_BY) /\
                                      dependent_job m j false o p) m m3);
          try done.
        { by intros p (o & _ & ? & _). }
        { intros p (o & [?|?] & ?); eauto. }
        intros ? m4 (Hc4 & Hi4 & H23 & H4).
        split; [done|]. split; [done|].
        intros skip o p [[_ [[-> Ho]|[-> Ho]]]|[Hstop _]] Hdep; eauto.
        unfold is_start_or_verify in Hsov. rewrite Hstop in Hsov. done.
      * destruct (bool_decide (j_type J = JOB_STOP)) eqn:Hstop.
        -- wp_use (fail_dependents_fails j result (fun _ => False) m m1);
             try done.
           intros ? m2 (Hc2 & Hi2 & _ & H2).
           split; [done|]. split; [done|].
           intros skip o p [[? _]|(_ & -> & Ho)] Hdep; [congruence|eauto].
        -- wp_run. split; [done|]. split; [done|].
           apply bool_decide_eq_false_1 in Hstop.
           intros skip o p [[? _]|(? & _)] Hdep; [congruence|done].
    + intros m2 m3 HL Hc skip o p Hp Hdep.
      eapply (failed_dependency_changes _ j); [by destruct Hdep|eauto|done].
  - by intros ? m' [_ ?].
Qed.

(** A block that meets no dependent finishes no other job. *)
Lemma job_finish_and_invalidate_rec_skips :
  (forall skip o p, propagates_to J U skip o -> ~ dependent_job m j skip o p) ->
  wlp (job_finish_and_invalidate_rec (S fuel) j result true already)
    (fun _ m' => only_finished j m m') m.
Proof.
  intros Hno. eapply wpg_mono.
  - apply (job_finish_and_invalidate_rec_frame (fun p r => p = j /\ r = result)
      (fun _ => True) fuel j J U); try done.
    intros m1 Hc1 Hi1. cbv zeta.
    assert (forall m (Q : Z -> Manager -> Prop), job_is_installed m j = false ->
              wlp (job_finish_and_invalidate_rec fuel j JOB_DEPENDENCY true false) Q m)
      as Hab by (intros; by apply job_finish_and_invalidate_rec_not_installed).
    destruct (is_start_or_verify (j_type J)) eqn:Hsov.
    + wp_use (fail_dependents_skips j result m m1); try done.
      { intros o p Ho. apply Hno. left. auto. }
      intros ? ? ->.
      wp_use (fail_dependents_skips j result m m1); try done.
      { intros o p Ho. apply Hno. left. auto. }
      intros ? ? ->.
      wp_use (fail_dependents_skips j result m m1); try done.
      { intros o p Ho. apply Hno. left. auto. }
      by intros ? ? ->.
    + destruct (bool_decide (j_type J = JOB_STOP)) eqn:Hstop; [|by wp_run].
      apply bool_decide_eq_true_1 in Hstop.
      wp_use (fail_dependents_skips j result m m1); try done.
      { intros o p Ho. apply Hno. right. auto. }
      by intros ? ? ->.
  - intros ? m' [[_ _ _ (new & Ht & HX & _) _] _] p u t r (new' & Ht' & He).
    assert (new' = new) as -> by (apply (app_inv_tail (trace m)); congruence).
    by destruct (HX _ _ _ _ He).
Qed.
End dependency_failure.


(** In the override scenario job 0 has no dependent: the only peer job
    carries the override flag. *)
Example override_scenario_no_dependent skip o p :
  propagates_to (example_job 0 1 JOB_START JOB_RUNNING)
    (example_unit (Some 0%nat)
       (fun d => match d with
                 | UNIT_REQUIRED_BY_OVERRIDABLE => [1%nat]
                 | _ => []
                 end))
    skip o ->
  ~ dependent_job override_scenario 0 skip o p.
Proof.
  intros [[_ [[-> [H|H]]|[-> H]]]|[H _]]; simpl in H;
    try (by apply elem_of_nil in H); try done.
  apply list_elem_of_singleton in H as ->.
  intros (Hne & O & P & HO & Hp & HP & Hsov & Hov).
  vm_compute in HO. injection HO as <-. simpl in Hp. injection Hp as <-.
  vm_compute in HP. injection HP as <-. by specialize (Hov eq_refl).
Qed.

(** C2: when [job_finish_and_invalidate] runs on an installed job with a
    result other than [done] and with [recursive] set, it returns 0 and
    every dependent is finished with result [dependency] and leaves its
    slot: for a start or verify-active job, the start or verify-active
    job of each unit in [required_by] or [bound_by] of the job's unit,
    and of each unit in [required_by_overridable] unless that job has the
    override flag; for a stop job, the start or verify-active job of each
    unit in [conflicted_by].  Jobs with the override flag are skipped: if
    the lists hold no other dependent, no job but the finished one is
    finished. *)
Theorem failed_job_fails_its_dependents m j J U result already :
  WF m -> job_heap m !! j = Some J -> j_installed J = true ->
  JobType_to_Z (j_type J) < _JOB_TYPE_MAX_IN_TRANSACTION ->
  units m !! j_unit J = Some U ->
  result ≠ JOB_DONE ->
  exists m',
    job_finish_and_invalidate j result true already m = Done 0 m' /\
    (forall skip o p,
       propagates_to J U skip o -> dependent_job m j skip o p ->
       failed_dependency m m' p) /\
    ((forall skip o p,
        propagates_to J U skip o -> ~ dependent_job m j skip o p) ->
     only_finished j m m').
Proof.
  intros Hwf Hj Hi Ht HU Hr.
  pose proof (job_finish_and_invalidate_spec False j J result true already m
                Hwf Hj Hi Ht) as Hspec.
  apply wp_Done in Hspec as (r & m' & Hrun & -> & _).
  exists m'. split; [done|]. unfold job_finish_and_invalidate in Hrun. split.
  - eapply (wlp_Done _ _ _ _ _
              (job_finish_and_invalidate_rec_fails_dependents _ j J U result
                 already m Hj HU Hr) Hrun).
  - intros Hno.
    eapply (wlp_Done _ _ _ _ _
              (job_finish_and_invalidate_rec_skips _ j J U result
                 already m Hj HU Hr Hno) Hrun).
Qed.

Lemma failed_job_fails_its_dependents_witness :
  (exists m',
     job_finish_and_invalidate 0 JOB_TIMEOUT true false timeout_scenario
       = Done 0 m' /\
     (forall skip o p,
        propagates_to (example_job 0 1 JOB_START JOB_RUNNING)
          (example_unit (Some 0%nat)
             (fun d => match d with UNIT_REQUIRED_BY => [1%nat] | _ => [] end))
          skip o ->
        dependent_job timeout_scenario 0 skip o p ->
        failed_dependency timeout_scenario m' p) /\
     ((forall skip o p,
         propagates_to (example_job 0 1 JOB_START JOB_RUNNING)
           (example_unit (Some 0%nat)
              (fun d => match d with UNIT_REQUIRED_BY => [1%nat] | _ => [] end))
           skip o ->
         ~ dependent_job timeout_scenario 0 skip o p) ->
      only_finished 0 timeout_scenario m')) /\
  (exists m',
     job_finish_and_invalidate 0 JOB_FAILED true false override_scenario
       = Done 0 m' /\
     (forall skip o p,
        propagates_to (example_job 0 1 JOB_START JOB_RUNNING)
          (example_unit (Some 0%nat)
             (fun d => match d with
                       | UNIT_REQUIRED_BY_OVERRIDABLE => [1%nat]
                       | _ => []
                       end))
          skip o ->
        dependent_job override_scenario 0 skip o p ->
        failed_dependency override_scenario m' p) /\
     ((forall skip o p,
         propagates_to (example_job 0 1 JOB_START JOB_RUNNING)
           (example_unit (Some 0%nat)
              (fun d => match d with
                        | UNIT_REQUIRED_BY_OVERRIDABLE => [1%nat]
                        | _ => []
                        end))
           skip o ->
         ~ dependent_job override_scenario 0 skip o p) ->
      only_finished 0 override_scenario m')).
Proof.
  split.
  - apply (failed_job_fails_its_dependents timeout_scenario 0
             (example_job 0 1 JOB_START JOB_RUNNING)).
    + apply (bool_decide_unpack (WF timeout_scenario)). vm_compute. exact I.
    + reflexivity.
    + reflexivity.
    + simpl. unfold _JOB_TYPE_MAX_IN_TRANSACTION. lia.
    + reflexivity.
    + discriminate.
  - apply (failed_job_fails_its_dependents override_scenario 0
             (example_job 0 1 JOB_START JOB_RUNNING)).
    + apply (bool_decide_unpack (WF override_scenario)). vm_compute. exact I.
    + reflexivity.
    + reflexivity.
    + simpl. unfold _JOB_TYPE_MAX_IN_TRANSACTION. lia.
    + reflexivity.
    + discriminate.
Defined.

(** ** C8: the timer of a job *)



(** ** The invariant of the job store *)

Lemma LIST_REMOVE_elem j p (q : list nat) :
  p ∈ LIST_REMOVE j q <-> p ∈ q /\ p ≠ j.
Proof. unfold LIST_REMOVE. rewrite list_elem_of_filter. tauto. Qed.

Section Inv_steps.
Context (h : gmap nat Job) (q : list nat) (n : nat).
Hypothesis HI : Inv' h q n.

(** Rewriting a job in place, its queue bit as before. *)
Lemma Inv'_update j J J' :
  h !! j = Some J -> j_in_run_queue J' = j_in_run_queue J ->
  (j_installed J' = true -> in_transaction_range (j_type J')) ->
  Inv' (<[j := J']> h) q n.
Proof.
  intros Hj Hb Ht. destruct HI as [Hf Hty Hn Hq]. constructor; [| |done|].
  - intros p P. destruct (decide (p = j)) as [->|Hne].
    + intros _. by eapply Hf.
    + rewrite lookup_insert_ne by done. apply Hf.
  - intros p P. destruct (decide (p = j)) as [->|Hne].
    + rewrite lookup_insert_eq. by intros [= <-].
    + rewrite lookup_insert_ne by done. apply Hty.
  - intros p. rewrite Hq. destruct (decide (p = j)) as [->|Hne].
    + rewrite lookup_insert_eq. split.
      * intros (P & HP & HbP). simplify_eq. eexists. split; [done|congruence].
      * intros (P & [= <-] & HbP). eexists. split; [done|congruence].
    + by rewrite lookup_insert_ne.
Qed.

(** Putting a job at the head of the run queue and setting its bit. *)
Lemma Inv'_enqueue j J J' :
  h !! j = Some J -> j_in_run_queue J = false -> j_in_run_queue J' = true ->
  (j_installed J' = true -> in_transaction_range (j_type J')) ->
  Inv' (<[j := J']> h) (j :: q) n.
Proof.
  intros Hj Hb Hb' Ht. destruct HI as [Hf Hty Hn Hq]. constructor.
  - intros p P. destruct (decide (p = j)) as [->|Hne].
    + intros _. by eapply Hf.
    + rewrite lookup_insert_ne by done. apply Hf.
  - intros p P. destruct (decide (p = j)) as [->|Hne].
    + rewrite lookup_insert_eq. by intros [= <-].
    + rewrite lookup_insert_ne by done. apply Hty.
  - apply NoDup_cons. split; [|done]. rewrite Hq.
    intros (P & HP & HbP). congruence.
  - intros p. rewrite elem_of_cons, Hq. destruct (decide (p = j)) as [->|Hne].
    + rewrite lookup_insert_eq. split; [eauto|by left].
    + rewrite lookup_insert_ne by done. split; [by intros [?|?]|by right].
Qed.

(** Taking a job from the run queue and clearing its bit. *)
Lemma Inv'_dequeue j J J' :
  h !! j = Some J -> j_in_run_queue J' = false ->
  (j_installed J' = true -> in_transaction_range (j_type J')) ->
  Inv' (<[j := J']> h) (LIST_REMOVE j q) n.
Proof.
  intros Hj Hb' Ht. destruct HI as [Hf Hty Hn Hq]. constructor.
  - intros p P. destruct (decide (p = j)) as [->|Hne].
    + intros _. by eapply Hf.
    + rewrite lookup_insert_ne by done. apply Hf.
  - intros p P. destruct (decide (p = j)) as [->|Hne].
    + rewrite lookup_insert_eq. by intros [= <-].
    + rewrite lookup_insert_ne by done. apply Hty.
  - by apply NoDup_filter.
  - intros p. rewrite LIST_REMOVE_elem, Hq. destruct (decide (p = j)) as [->|Hne].
    + rewrite lookup_insert_eq. split; [by intros [_ ?]|].
      intros (P & [= <-] & HbP). congruence.
    + rewrite lookup_insert_ne by done. split; [by intros [? _]|done].
Qed.

(** Freeing a job that is not queued. *)
Lemma Inv'_delete j J :
  h !! j = Some J -> j_in_run_queue J = false -> Inv' (delete j h) q n.
Proof.
  intros Hj Hb. destruct HI as [Hf Hty Hn Hq]. constructor; [| |done|].
  - intros p P [_ HP]%lookup_delete_Some. by eapply Hf.
  - intros p P [_ HP]%lookup_delete_Some. by eapply Hty.
  - intros p. rewrite Hq. split.
    + intros (P & HP & HbP). exists P. split; [|done].
      apply lookup_delete_Some. split; [congruence|done].
    + intros (P & [_ HP]%lookup_delete_Some & HbP). eauto.
Qed.

(** Allocating a job at the next address. *)
Lemma Inv'_alloc J :
  j_in_run_queue J = false ->
  (j_installed J = true -> in_transaction_range (j_type J)) ->
  Inv' (<[n := J]> h) q (S n).
Proof.
  intros Hb Ht. destruct HI as [Hf Hty Hn Hq].
  assert (h !! n = None) as Hnone.
  { destruct (h !! n) eqn:Hn'; [|done]. apply Hf in Hn'. lia. }
  constructor; [| |done|].
  - intros p P. destruct (decide (p = n)) as [->|Hne]; [lia|].
    rewrite lookup_insert_ne by done. intros HP%Hf. lia.
  - intros p P. destruct (decide (p = n)) as [->|Hne].
    + rewrite lookup_insert_eq. by intros [= <-].
    + rewrite lookup_insert_ne by done. apply Hty.
  - intros p. rewrite Hq. destruct (decide (p = n)) as [->|Hne].
    + rewrite lookup_insert_eq, Hnone. split.
      * by intros (P & ? & _).
      * intros (P & [= <-] & HbP). congruence.
    + by rewrite lookup_insert_ne.
Qed.
End Inv_steps.

Ltac inv_lookup :=
  first [ eassumption | apply lookup_insert_eq
        | rewrite lookup_insert_ne by done; eassumption ].

Ltac inv_type :=
  simpl; intros; first
    [ done
    | congruence
    | unfold in_transaction_range, _JOB_TYPE_MAX_IN_TRANSACTION; simpl; lia
    | eapply inv_type; [eassumption|eassumption|done]
    | eapply inv_type; [eassumption|eassumption|simpl; congruence] ].

Ltac solve_inv :=
  unfold Inv in *; msimpl;
  first
    [ eassumption
    | eapply Inv'_update; [solve_inv|inv_lookup|simpl; congruence|inv_type]
    | eapply Inv'_enqueue;
        [solve_inv|inv_lookup|simpl; congruence|simpl; congruence|inv_type]
    | eapply Inv'_dequeue; [solve_inv|inv_lookup|simpl; congruence|inv_type]
    | eapply Inv'_delete; [solve_inv|inv_lookup|simpl; congruence] ].

Section helper_Inv.
Context (m : Manager).
Hypothesis HI : Inv m.

Lemma job_set_state_Inv j s :
  wlp (job_set_state j s) (fun _ m' => Inv m') m.
Proof. unfold job_set_state. wp_run. all: solve_inv. Qed.

Lemma job_add_to_dbus_queue_Inv j :
  wlp (job_add_to_dbus_queue j) (fun _ m' => Inv m') m.
Proof. unfold job_add_to_dbus_queue. wp_run. all: solve_inv. Qed.

Lemma job_add_to_run_queue_Inv j :
  wlp (job_add_to_run_queue j) (fun _ m' => Inv m') m.
Proof. unfold job_add_to_run_queue. wp_run. all: solve_inv. Qed.

Lemma job_change_type_Inv j t :
  in_transaction_range t ->
  wlp (job_change_type j t) (fun _ m' => Inv m') m.
Proof. intros Ht. unfold job_change_type. wp_run. all: solve_inv. Qed.

Lemma job_unlink_Inv j :
  wlp (job_unlink j)
    (fun _ m' => Inv m' /\
       exists J, job_heap m' !! j = Some J /\ j_in_run_queue J = false /\
                 j_installed J = false) m.
Proof.
  unfold job_unlink. wp_run.
  all: (split; [solve_inv|]).
  all: eexists; split; [first [reflexivity|apply lookup_insert_eq]|].
  all: simpl; bool_hyps; split; congruence.
Qed.
End helper_Inv.

Lemma job_free_Inv j m :
  Inv m -> wlp (job_free j) (fun _ m' => Inv m') m.
Proof.
  intros HI. unfold job_free. do 4 wp_step.
  wp_use job_unlink_Inv. intros ? m1 (HI1 & J1 & HJ1 & Hb1 & _).
  wp_run. solve_inv.
Qed.

Lemma job_save_pending_finished_job_Inv j m :
  Inv m -> wlp (job_save_pending_finished_job j) (fun _ m' => Inv m') m.
Proof.
  intros HI. unfold job_save_pending_finished_job.
  wp_use job_unlink_Inv. intros ? m1 (HI1 & _).
  wp_run. solve_inv.
Qed.

Lemma job_uninstall_Inv j m :
  Inv m -> wlp (job_uninstall j) (fun _ m' => Inv m') m.
Proof.
  intros HI. unfold job_uninstall. do 4 wp_step.
  wp_use job_set_state_Inv. intros ? m1 HI1.
  wp_run. all: solve_inv.
Qed.

Lemma requeue_neighbours_Inv l m :
  Inv m -> wlp (requeue_neighbours l) (fun _ m' => Inv m') m.
Proof.
  intros HI. unfold requeue_neighbours.
  apply (wpg_foreach True l _ Inv); [done|].
  intros o m1 _ HI1. do 2 wp_step. destruct (u_job u) as [oj|]; [|by wp_run].
  by apply job_add_to_run_queue_Inv.
Qed.

Lemma finish_label_Inv u m :
  Inv m -> wlp (finish_label u) (fun _ m' => Inv m') m.
Proof.
  intros HI. unfold finish_label. do 2 wp_step.
  wp_use requeue_neighbours_Inv. intros ? m1 HI1.
  wp_use requeue_neighbours_Inv. intros ? m2 HI2.
  wp_run. solve_inv.
Qed.

Lemma fail_dependents_Inv (finish : nat -> M Z) skip l m :
  (forall oj m1, Inv m1 -> wlp (finish oj) (fun _ m' => Inv m') m1) ->
  Inv m -> wlp (fail_dependents finish skip l) (fun _ m' => Inv m') m.
Proof.
  intros Hfin HI. unfold fail_dependents.
  apply (wpg_foreach True l _ Inv); [done|].
  intros o m1 _ HI1. do 2 wp_step. destruct (u_job u) as [oj|]; [|by wp_run].
  do 3 wp_step; [|by wp_run].
  wp_use Hfin. intros ? m2 HI2. by wp_run.
Qed.

(** Run the next statement, which keeps the invariant by [tac]. *)
Ltac inv_next tac :=
  apply wpg_bind; apply (wpg_mono _ _ (fun _ m' => Inv m'));
  [tac|let m' := fresh "m" in let H := fresh "HI" in intros ? m' H].

Lemma job_finish_and_invalidate_rec_Inv fuel :
  forall j result recursive already m,
  Inv m ->
  wlp (job_finish_and_invalidate_rec fuel j result recursive already)
    (fun _ m' => Inv m') m.
Proof.
  induction fuel as [|fuel IH]; intros j result recursive already m HI; [done|].
  cbn [job_finish_and_invalidate_rec].
  do 6 wp_step.
  inv_next ltac:(wp_run; solve_inv).
  inv_next ltac:(wp_run; solve_inv).
  inv_next ltac:(wp_run; solve_inv).
  inv_next ltac:(by apply job_add_to_dbus_queue_Inv).
  destruct (bool_decide (result = JOB_DONE) && bool_decide (j_type j0 = JOB_RESTART)).
  - inv_next ltac:(by apply job_change_type_Inv).
    inv_next ltac:(by apply job_set_state_Inv).
    inv_next ltac:(by apply job_add_to_run_queue_Inv).
    by apply finish_label_Inv.
  - inv_next ltac:(wp_run; solve_inv).
    inv_next ltac:(by apply job_uninstall_Inv).
    do 4 wp_step.
    inv_next ltac:(idtac).
    { match goal with |- wpg _ (if ?b then _ else _) _ _ => destruct b end.
      - wp_use job_save_pending_finished_job_Inv. intros r ms HIs.
        apply wpg_when. destruct (r <? 0); [by apply job_free_Inv|done].
      - by apply job_free_Inv. }
    do 2 wp_step.
    inv_next ltac:(idtac).
    { apply wpg_when.
      match goal with |- if ?b then _ else _ => destruct b; [|done] end.
      assert (forall oj m1, Inv m1 ->
                wlp (job_finish_and_invalidate_rec fuel oj JOB_DEPENDENCY true false)
                  (fun _ m' => Inv m') m1) as Hfin by (intros; by apply IH).
      destruct (is_start_or_verify (j_type j0)).
      - wp_use fail_dependents_Inv. intros ? mr HIr.
        wp_use fail_dependents_Inv. intros ? mb HIb.
        by apply fail_dependents_Inv.
      - destruct (bool_decide (j_type j0 = JOB_STOP)); [|by wp_run].
        by apply fail_dependents_Inv. }
    inv_next ltac:(wp_run; solve_inv).
    inv_next ltac:(wp_run; solve_inv).
    by apply finish_label_Inv.
Qed.

Lemma job_finish_and_invalidate_Inv j result recursive already m :
  Inv m ->
  wlp (job_finish_and_invalidate j result recursive already)
    (fun _ m' => Inv m') m.
Proof.
  intros HI. unfold job_finish_and_invalidate, wpg.
  by apply (job_finish_and_invalidate_rec_Inv (S (size (units m)))).
Qed.

Lemma job_type_merge_and_collapse_range a b s c t :
  job_type_merge_and_collapse a b s = Some (c, t) ->
  in_transaction_range a -> in_transaction_range t.
Proof.
  unfold in_transaction_range, _JOB_TYPE_MAX_IN_TRANSACTION.
  destruct a, b, s; vm_compute; intros [= <- <-] Ha;
    repeat split; try discriminate; by destruct Ha.
Qed.

Lemma job_new_raw_Inv u m :
  Inv m ->
  wlp (job_new_raw u)
    (fun j m' => Inv m' /\
       exists J, job_heap m' !! j = Some J /\ j_installed J = false /\
                 j_in_run_queue J = false) m.
Proof.
  intros HI. unfold job_new_raw. wp_run. split.
  - unfold Inv in *. msimpl. by apply Inv'_alloc.
  - eexists. split; [first [reflexivity|apply lookup_insert_eq]|]. done.
Qed.

Lemma job_new_Inv u t m :
  Inv m -> wlp (job_new u t) (fun _ m' => Inv m') m.
Proof.
  intros HI. unfold job_new. do 2 wp_step.
  wp_use job_new_raw_Inv. intros j m1 (HI1 & J & HJ & Hi & Hb).
  wp_run. solve_inv.
Qed.

Lemma job_merge_into_installed_Inv j other m :
  Inv m -> wlp (job_merge_into_installed j other) (fun _ m' => Inv m') m.
Proof.
  intros HI. unfold job_merge_into_installed. do 8 wp_step.
  inv_next ltac:(idtac).
  { destruct (decide (j_type j0 ≠ JOB_NOP)).
    - do 2 wp_step.
      destruct (job_type_merge_and_collapse _ _ _) as [[c t]|] eqn:Hm; [|done].
      wp_run. eapply Inv'_update; [done|done|done|]. simpl. intros _.
      eapply job_type_merge_and_collapse_range; [done|].
      by eapply inv_type.
    - wp_run. done. }
  wp_run. solve_inv.
Qed.

Lemma any_unit_has_job_pure l m :
  wlp (any_unit_has_job l) (fun _ m' => m' = m) m.
Proof.
  induction l as [|o l IH]; [done|]. simpl. do 2 wp_step.
  destruct (u_job u); [done|apply IH].
Qed.

Lemma any_unit_has_stop_job_pure l m :
  wlp (any_unit_has_stop_job l) (fun _ m' => m' = m) m.
Proof.
  induction l as [|o l IH]; [done|]. simpl. do 2 wp_step.
  destruct (u_job u); [|apply IH]. do 2 wp_step.
  match goal with |- wpg _ (if ?b then _ else _) _ _ => destruct b end;
    [done|apply IH].
Qed.

Lemma job_is_runnable_pure j m :
  wlp (job_is_runnable j) (fun _ m' => m' = m) m.
Proof.
  unfold job_is_runnable. do 4 wp_step.
  destruct (j_ignore_order j0); [done|].
  destruct (decide (j_type j0 = JOB_NOP)); [done|].
  do 3 wp_step.
  apply (wpg_mono _ _ (fun _ m' => m' = m)).
  { match goal with |- wpg _ (if ?b then _ else _) _ _ => destruct b end;
      [apply any_unit_has_job_pure|done]. }
  intros blocked ? ->. destruct blocked; [done|].
  wp_use any_unit_has_stop_job_pure. by intros ? ? ->.
Qed.

Lemma wlp_and {A} (c : M A) (Q1 Q2 : A -> Manager -> Prop) m :
  wlp c Q1 m -> wlp c Q2 m -> wlp c (fun a m' => Q1 a m' /\ Q2 a m') m.
Proof. unfold wpg. by destruct (c m). Qed.

Lemma in_transaction_range_intro t :
  JobType_to_Z t < _JOB_TYPE_MAX_IN_TRANSACTION -> t ≠ _JOB_TYPE_INVALID ->
  in_transaction_range t.
Proof.
  unfold in_transaction_range, _JOB_TYPE_MAX_IN_TRANSACTION.
  destruct t; simpl; intros ? ?; (done || lia).
Qed.

(** Finishing another job leaves a job that is not installed as it is. *)
Lemma job_finish_and_invalidate_frame uj result recursive already j m :
  Inv m -> job_is_installed m j = false ->
  wlp (job_finish_and_invalidate uj result recursive already)
    (fun _ m' => Inv m' /\ job_heap m' !! j = job_heap m !! j) m.
Proof.
  intros HI Hi. eapply wpg_mono.
  - apply wlp_and; [by apply job_finish_and_invalidate_Inv|].
    unfold job_finish_and_invalidate, wpg.
    apply (job_finish_and_invalidate_rec_changes (S (size (units m)))).
  - intros ? m' [HI' [Hc _]]. split; [done|].
    by apply (ch_heap _ _ _ _ Hc).
Qed.

Lemma job_install_Inv j m :
  Inv m ->
  (forall J, job_heap m !! j = Some J -> j_type J ≠ _JOB_TYPE_INVALID) ->
  wlp (job_install j) (fun _ m' => Inv m') m.
Proof.
  intros HI Hty. unfold job_install. do 8 wp_step.
  assert (in_transaction_range (j_type j0)) as Hr.
  { apply in_transaction_range_intro; [by apply Z.ltb_lt|by apply Hty]. }
  assert (job_is_installed m j = false) as Hni.
  { unfold job_is_installed. rewrite Heqo. by destruct (j_installed j0). }
  do 2 wp_step.
  destruct (unit_slot (j_type j0) u) as [uj|].
  - do 2 wp_step.
    destruct (job_type_is_conflicting (j_type j1) (j_type j0)) as [[|]|]; [| |done].
    + wp_use job_finish_and_invalidate_frame. intros ? m1 [HI1 Hj1].
      rewrite Heqo in Hj1. wp_run. solve_inv.
    + apply wpg_bind.
      apply (wpg_mono _ _ (fun _ m' => m' = m)).
      { destruct (bool_decide (j_state j1 = JOB_WAITING)); [done|].
        destruct (job_type_allows_late_merge (j_type j0)); [|done].
        by destruct (job_type_is_superset (j_type j1) (j_type j0)). }
      intros late ? ->. destruct late.
      * wp_use job_merge_into_installed_Inv. intros ? m1 HI1. wp_run. solve_inv.
      * wp_use job_merge_into_installed_Inv. intros ? m1 HI1.
        do 2 wp_step. apply wpg_bind, wpg_emit.
        apply wpg_bind. eapply wpg_mono; [apply job_set_state_Inv; solve_inv|].
        intros ? m2 HI2. by wp_run.
  - wp_run. solve_inv.
Qed.

Lemma job_install_deserialized_Inv j m :
  Inv m -> wlp (job_install_deserialized j) (fun _ m' => Inv m') m.
Proof.
  intros HI. unfold job_install_deserialized. do 4 wp_step.
  destruct ((JobType_to_Z (j_type j0) <? 0) ||
            (_JOB_TYPE_MAX_IN_TRANSACTION <=? JobType_to_Z (j_type j0))) eqn:Hc;
    [by wp_run|].
  apply orb_false_elim in Hc as [Hlo%Z.ltb_ge Hhi%Z.leb_gt].
  assert (in_transaction_range (j_type j0)) as Hr by done.
  do 2 wp_step. destruct (unit_slot (j_type j0) u); [by wp_run|].
  wp_run. all: solve_inv.
Qed.

Lemma job_start_timer_Inv now j m :
  Inv m -> wlp (job_start_timer now j) (fun _ m' => Inv m') m.
Proof.
  intros HI. unfold job_start_timer. do 2 wp_step.
  destruct (j_timer_event_source j0); [by wp_run|].
  wp_run. all: solve_inv.
Qed.

Lemma job_dispatch_timer_Inv j m :
  Inv m -> wlp (job_dispatch_timer j) (fun _ m' => Inv m') m.
Proof.
  intros HI. unfold job_dispatch_timer. do 4 wp_step.
  wp_use job_finish_and_invalidate_Inv. intros ? m1 HI1.
  wp_run. solve_inv.
Qed.

Lemma hashmap_put_job_Inv j m :
  Inv m -> wlp (hashmap_put_job j) (fun _ m' => Inv m') m.
Proof. intros HI. unfold hashmap_put_job. wp_run. solve_inv. Qed.

Lemma unit_notify_Inv u s m :
  Inv m -> wlp (unit_notify u s) (fun _ m' => Inv m') m.
Proof. intros HI. unfold unit_notify. wp_run. solve_inv. Qed.

Lemma job_run_and_invalidate_Inv r j m :
  Inv m ->
  wlp (job_run_and_invalidate (constant_vtable r) j) (fun _ m' => Inv m') m.
Proof.
  intros HI. unfold job_run_and_invalidate. do 8 wp_step.
  do 2 wp_step.
  inv_next ltac:(wp_run; solve_inv).
  destruct (negb (bool_decide (j_state j0 = JOB_WAITING))); [by wp_run|].
  wp_use job_is_runnable_pure. intros runnable ? ->.
  destruct (negb runnable); [by wp_run|].
  inv_next ltac:(by apply job_set_state_Inv).
  inv_next ltac:(by apply job_add_to_dbus_queue_Inv).
  apply wpg_bind.
  apply (wpg_mono _ _ (fun _ m' => m' = m2)).
  { destruct (j_type j0); simpl; by wp_run. }
  intros r' ? ->. unfold manager_get_job. do 2 wp_step.
  destruct (jobs m2 !! j_id j0) as [j'|]; [|by wp_run].
  repeat match goal with
         | |- wpg _ (if decide ?P then _ else _) _ _ => destruct (decide P)
         | |- wpg _ (if ?b then _ else _) _ _ => destruct b
         end;
    try (by apply job_finish_and_invalidate_Inv); try (by wp_run).
  wp_use job_set_state_Inv. intros ? m3 HI3. by wp_run.
Qed.

Lemma job_deserialize_line_Inv j l m :
  Inv m -> wlp (job_deserialize_line j l) (fun _ m' => Inv m') m.
Proof.
  intros HI. unfold job_deserialize_line.
  destruct (split_assignment l) as [key v].
  repeat match goal with
         | |- wpg _ (if String.eqb ?a ?b then _ else _) _ _ =>
             destruct (String.eqb a b)
         | |- wpg _ (match ?o with Some _ => _ | None => _ end) _ _ =>
             destruct o
         end;
    try (by wp_run); try (by apply job_set_state_Inv);
    try (wp_run; solve_inv).
  cbv zeta.
  destruct (JobType_to_Z (job_type_from_string v) <? 0) eqn:Hlo; [by wp_run|].
  destruct (_JOB_TYPE_MAX_IN_TRANSACTION <=? JobType_to_Z (job_type_from_string v))
    eqn:Hhi; [by wp_run|].
  apply Z.ltb_ge in Hlo. apply Z.leb_gt in Hhi.
  assert (in_transaction_range (job_type_from_string v)) as Hr by done.
  wp_run. solve_inv.
Qed.

Lemma job_deserialize_loop_Inv fuel :
  forall j f m,
  Inv m -> wlp (job_deserialize_loop fuel j f) (fun _ m' => Inv m') m.
Proof.
  induction fuel as [|fuel IH]; intros j f m HI; [done|].
  cbn [job_deserialize_loop].
  destruct (read_line LONG_LINE_MAX f) as [[r l] rest].
  destruct (r <? 0); [by wp_run|]. destruct (r =? 0); [by wp_run|].
  cbv zeta. destruct (String.eqb (strstrip l) EmptyString); [by wp_run|].
  wp_use job_deserialize_line_Inv. intros ? m1 HI1. by apply IH.
Qed.

Lemma job_deserialize_Inv j f m :
  Inv m -> wlp (job_deserialize j f) (fun _ m' => Inv m') m.
Proof.
  intros HI. unfold job_deserialize. do 2 wp_step.
  by apply job_deserialize_loop_Inv.
Qed.

(** ** Every reachable manager satisfies the invariant *)

Lemma initial_manager_Inv us reloading : Inv (initial_manager us reloading).
Proof.
  constructor; simpl.
  - by intros p P ?%lookup_empty_Some.
  - by intros p P ?%lookup_empty_Some.
  - constructor.
  - intros p. split; [by intros ?%elem_of_nil|].
    by intros (P & ?%lookup_empty_Some & _).
Qed.

Lemma run_call_Inv c m :
  Inv m -> call_allowed m c = true ->
  wlp (run_call c) (fun _ m' => Inv m') m.
Proof.
  intros HI Hok. destruct c; simpl.
  - wp_use job_new_Inv. intros ? m1 HI1. by wp_run.
  - wp_use job_new_raw_Inv. intros ? m1 [HI1 _]. by wp_run.
  - by apply job_free_Inv.
  - by apply job_uninstall_Inv.
  - wp_use job_install_Inv.
    { intros J HJ. simpl in Hok. rewrite HJ in Hok.
      by apply negb_true_iff, bool_decide_eq_false_1 in Hok. }
    intros ? m1 HI1. by wp_run.
  - wp_use job_install_deserialized_Inv. intros ? m1 HI1. by wp_run.
  - wp_use job_deserialize_Inv. intros ? m1 HI1. by wp_run.
  - by apply job_add_to_run_queue_Inv.
  - by apply job_add_to_dbus_queue_Inv.
  - wp_use job_run_and_invalidate_Inv. intros ? m1 HI1. by wp_run.
  - wp_use job_finish_and_invalidate_Inv. intros ? m1 HI1. by wp_run.
  - wp_use job_dispatch_timer_Inv. intros ? m1 HI1. by wp_run.
  - wp_use job_start_timer_Inv. intros ? m1 HI1. by wp_run.
  - by apply hashmap_put_job_Inv.
  - by apply unit_notify_Inv.
Qed.

Lemma reachable_Inv m : reachable m -> Inv m.
Proof.
  induction 1 as [us reloading _|m c m' _ IH Hok Hrun].
  - apply initial_manager_Inv.
  - by apply (wlp_Done _ _ _ _ _ (run_call_Inv c m IH Hok) Hrun).
Qed.

Lemma reachable_run_calls cs : forall m m',
  reachable m -> run_calls cs m = Some m' -> reachable m'.
Proof.
  induction cs as [|c cs IH]; intros m m' Hm; simpl.
  - by intros [= <-].
  - destruct (call_allowed m c) eqn:Hok; [|done].
    destruct (run_call c m) as [[] m1| |] eqn:Hrun; [|done|done].
    apply IH. by eapply reachable_call.
Qed.

(** ** C7: the run queue and the [in_run_queue] bit *)

Lemma ordered_units_empty_slots : empty_slots ordered_units.
Proof.
  apply (bool_decide_unpack (map_Forall _ ordered_units)). vm_compute. exact I.
Qed.

Lemma blocked_calls_reachable m :
  run_calls blocked_calls (initial_manager ordered_units 0) = Some m ->
  reachable m.
Proof.
  apply reachable_run_calls, reachable_initial, ordered_units_empty_slots.
Qed.

Lemma requeue_calls_reachable m :
  run_calls requeue_calls (initial_manager ordered_units 0) = Some m ->
  reachable m.
Proof.
  apply reachable_run_calls, reachable_initial, ordered_units_empty_slots.
Qed.

(** C7, as stated, fails in both directions.  After the start job of the
    second unit was picked from the run queue and found blocked
    ([-EAGAIN]) it is installed and waiting, its bit is clear and it is
    not in the run queue.  And after the job of a neighbour ended, the
    running start job of the first unit is in the run queue with its bit
    set. *)
Lemma installed_waiting_differs_from_queued :
  (exists m J,
     reachable m /\ job_heap m !! 1%nat = Some J /\
     j_installed J = true /\ j_state J = JOB_WAITING /\
     j_in_run_queue J = false /\ 1%nat ∉ run_queue m) /\
  (exists m J,
     reachable m /\ job_heap m !! 0%nat = Some J /\
     j_installed J = true /\ j_state J = JOB_RUNNING /\
     j_in_run_queue J = true /\ 0%nat ∈ run_queue m).
Proof.
  split.
  - destruct (run_calls blocked_calls (initial_manager ordered_units 0))
      as [m|] eqn:Hm; [|by vm_compute in Hm].
    pose proof (blocked_calls_reachable m Hm) as Hreach.
    vm_compute in Hm. injection Hm as <-.
    eexists _, _. split; [exact Hreach|]. split; [reflexivity|].
    repeat split. by intros [?|?%elem_of_nil]%elem_of_cons.
  - destruct (run_calls requeue_calls (initial_manager ordered_units 0))
      as [m|] eqn:Hm; [|by vm_compute in Hm].
    pose proof (requeue_calls_reachable m Hm) as Hreach.
    vm_compute in Hm. injection Hm as <-.
    eexists _, _. split; [exact Hreach|]. split; [reflexivity|].
    repeat split. by left.
Qed.

(** C7, amended: in every reachable manager the run queue holds no job
    twice, and a job is in the run queue if and only if it is allocated
    and its [in_run_queue] bit is set.  (Being installed and waiting is
    neither necessary nor sufficient for being queued.) *)
Theorem in_run_queue_bit_iff_queued m :
  reachable m ->
  NoDup (run_queue m) /\
  forall j, j ∈ run_queue m <->
    exists J, job_heap m !! j = Some J /\ j_in_run_queue J = true.
Proof.
  intros [_ _ Hn Hq]%reachable_Inv. done.
Qed.

Lemma in_run_queue_bit_iff_queued_witness :
  exists m,
    run_calls blocked_calls (initial_manager ordered_units 0) = Some m /\
    NoDup (run_queue m) /\
    forall j, j ∈ run_queue m <->
      exists J, job_heap m !! j = Some J /\ j_in_run_queue J = true.
Proof.
  eexists. split; [vm_compute; reflexivity|].
  apply in_run_queue_bit_iff_queued.
  apply (reachable_run_calls blocked_calls (initial_manager ordered_units 0)).
  - apply reachable_initial.
    apply (bool_decide_unpack (map_Forall _ ordered_units)). vm_compute. exact I.
  - vm_compute. reflexivity.
Defined.

(** ** C10: the type of an installed job *)

Lemma wlp_const {A} (c : M A) (P : Prop) m : P -> wlp c (fun _ _ => P) m.
Proof. unfold wpg. by destruct (c m). Qed.

(** [job_install] goes through only for a job whose type is below
    [_JOB_TYPE_MAX_IN_TRANSACTION]: its assertion fails for the compound
    types. *)
Lemma job_install_requires_range j J m r m' :
  job_heap m !! j = Some J -> job_install j m = Done r m' ->
  JobType_to_Z (j_type J) < _JOB_TYPE_MAX_IN_TRANSACTION.
Proof.
  intros HJ Hrun.
  apply (wlp_Done (job_install j)
           (fun _ _ => JobType_to_Z (j_type J) < _JOB_TYPE_MAX_IN_TRANSACTION)
           m r m'); [|done].
  unfold job_install. do 6 wp_step.
  apply Z.ltb_lt in Heqb0. by apply wlp_const.
Qed.

(** [job_install_deserialized] installs only a job whose type lies in
    the transaction range, and answers [-EINVAL] otherwise. *)
Lemma job_install_deserialized_requires_range j J m r m' :
  job_heap m !! j = Some J -> job_install_deserialized j m = Done r m' ->
  (in_transaction_range (j_type J) \/ (r = - EINVAL /\ m' = m)).
Proof.
  intros HJ Hrun.
  apply (wlp_Done (job_install_deserialized j)
           (fun r m' => in_transaction_range (j_type J) \/ (r = - EINVAL /\ m' = m))
           m r m'); [|done].
  unfold job_install_deserialized. do 4 wp_step.
  destruct (JobType_to_Z (j_type J) <? 0) eqn:Hlo; [wp_run; by right|].
  destruct (_JOB_TYPE_MAX_IN_TRANSACTION <=? JobType_to_Z (j_type J)) eqn:Hhi;
    [wp_run; by right|].
  apply Z.ltb_ge in Hlo. apply Z.leb_gt in Hhi. simpl orb. cbv iota.
  eapply wpg_mono; [apply (wlp_const _ (in_transaction_range (j_type J))); done|].
  intros ? ? ?. by left.
Qed.

(** C10, as stated, fails: the assertion of [job_install] has no lower
    bound, so it lets through the type of a raw job, which [job_new_raw]
    sets to [_JOB_TYPE_INVALID]; after [job_new_raw] and [job_install]
    the job is installed with a type that is none of the six. *)
Lemma job_install_admits_raw_job :
  exists m' J,
    (job_new_raw 0;; job_install 0)
      (initial_manager ordered_units 0) = Done 0%nat m' /\
    job_heap m' !! 0%nat = Some J /\ j_installed J = true /\
    j_type J = _JOB_TYPE_INVALID /\
    j_type J ∉ [JOB_START; JOB_VERIFY_ACTIVE; JOB_STOP; JOB_RELOAD;
                JOB_RESTART; JOB_NOP].
Proof.
  eexists _, _. split; [vm_compute; reflexivity|]. split; [reflexivity|].
  split; [reflexivity|]. split; [reflexivity|].
  cbn [j_type]. rewrite !not_elem_of_cons. repeat split; try discriminate.
  apply not_elem_of_nil.
Qed.

(** C10, amended: in every manager reached from one without jobs by the
    entry points of job.c, [job_install] never being called on a job
    whose type is still [_JOB_TYPE_INVALID], the type of an installed
    job is one of start, verify-active, stop, reload, restart and nop,
    never one of the compound types. *)
Theorem installed_job_type_in_transaction_range m j J :
  reachable m -> job_heap m !! j = Some J -> j_installed J = true ->
  j_type J ∈ [JOB_START; JOB_VERIFY_ACTIVE; JOB_STOP; JOB_RELOAD;
              JOB_RESTART; JOB_NOP] /\
  j_type J ≠ JOB_RELOAD_OR_START /\ j_type J ≠ JOB_TRY_RESTART /\
  j_type J ≠ JOB_TRY_RELOAD.
Proof.
  intros Hm HJ Hi. apply reachable_Inv in Hm.
  pose proof (inv_type _ _ _ Hm j J HJ Hi) as Hr.
  unfold in_transaction_range, _JOB_TYPE_MAX_IN_TRANSACTION in Hr.
  destruct (j_type J); simpl in Hr; try lia; (split; [|done]).
  all: repeat ((by left) || right).
Qed.

Lemma installed_job_type_in_transaction_range_witness :
  exists m J,
    run_calls merge_calls (initial_manager ordered_units 0) = Some m /\
    job_heap m !! 0%nat = Some J /\
    j_type J ∈ [JOB_START; JOB_VERIFY_ACTIVE; JOB_STOP; JOB_RELOAD;
                JOB_RESTART; JOB_NOP] /\
    j_type J ≠ JOB_RELOAD_OR_START /\ j_type J ≠ JOB_TRY_RESTART /\
    j_type J ≠ JOB_TRY_RELOAD.
Proof.
  eexists _, _. split; [vm_compute; reflexivity|]. split; [reflexivity|].
  eapply (installed_job_type_in_transaction_range _ 0).
  - apply (reachable_run_calls merge_calls (initial_manager ordered_units 0)).
    + apply reachable_initial.
      apply (bool_decide_unpack (map_Forall _ ordered_units)). vm_compute. exact I.
    + vm_compute. reflexivity.
  - reflexivity.
  - reflexivity.
Defined.

(** ** C9: serialize, then deserialize *)

(** *** Strings *)

Lemma string_append_cons x (a b : string) :
  String.append (String x a) b = String x (String.append a b).
Proof. reflexivity. Qed.

Lemma string_append_nil_l (b : string) : String.append EmptyString b = b.
Proof. reflexivity. Qed.

Lemma string_append_nil_r (a : string) : String.append a EmptyString = a.
Proof.
  induction a as [|x a IH]; [done|]. rewrite string_append_cons. by f_equal.
Qed.

Lemma string_append_assoc (a b c : string) :
  String.append (String.append a b) c = String.append a (String.append b c).
Proof.
  induction a as [|x a IH]; [done|].
  rewrite !string_append_cons. by f_equal.
Qed.

Lemma string_length_append (a b : string) :
  String.length (String.append a b) = (String.length a + String.length b)%nat.
Proof.
  induction a as [|x a IH]; [done|].
  rewrite string_append_cons. simpl. by f_equal.
Qed.

Lemma plain_append (a b : string) :
  plain (String.append a b) = plain a && plain b.
Proof.
  induction a as [|x a IH]; [done|].
  rewrite string_append_cons. simpl. by rewrite IH, andb_assoc.
Qed.

Lemma plain_char_not_delimiter c :
  plain_char c = true -> Ascii.eqb c NEWLINE || Ascii.eqb c NUL = false.
Proof.
  unfold plain_char, is_whitespace. intros [Hw Hn]%andb_prop.
  apply negb_true_iff in Hw, Hn. rewrite Hn, orb_false_r.
  apply orb_false_elim in Hw as [Hw _]. apply orb_false_elim in Hw as [_ Hw].
  exact Hw.
Qed.

(** [read_line] on a line of plain characters that fits the limit. *)
Lemma read_line_from_plain limit (l rest : string) : forall n,
  plain l = true -> n + Z.of_nat (String.length l) < limit ->
  read_line_from limit n (String.append l (String NEWLINE rest))
  = (Z.of_nat (String.length l) + 1, l, rest).
Proof.
  induction l as [|c l IH]; intros n Hp Hn;
    rewrite ?string_append_cons, ?string_append_nil_l; simpl in *.
  - destruct (limit <=? n) eqn:Hl; [apply Z.leb_le in Hl; lia|done].
  - destruct (limit <=? n) eqn:Hl; [apply Z.leb_le in Hl; lia|].
    apply andb_prop in Hp as [Hc Hp].
    rewrite (plain_char_not_delimiter c Hc), (IH (n + 1)) by (done || lia).
    destruct (Z.of_nat (String.length l) + 1 <? 0) eqn:Hneg;
      [apply Z.ltb_lt in Hneg; lia|].
    f_equal. f_equal. lia.
Qed.

Lemma drop_trailing_whitespace_plain (l : string) :
  plain l = true -> drop_trailing_whitespace l = l.
Proof.
  induction l as [|c l IH]; simpl; [done|]. intros [Hc Hp]%andb_prop.
  rewrite (IH Hp). unfold plain_char in Hc. apply andb_prop in Hc as [Hw _].
  apply negb_true_iff in Hw. rewrite Hw. by destruct l.
Qed.

Lemma strstrip_plain (l : string) : plain l = true -> strstrip l = l.
Proof.
  intros Hp. unfold strstrip.
  assert (skip_whitespace l = l) as ->.
  { destruct l as [|c l]; simpl in *; [done|].
    apply andb_prop in Hp as [Hc _]. unfold plain_char in Hc.
    apply andb_prop in Hc as [Hw _]. apply negb_true_iff in Hw. by rewrite Hw. }
  by apply drop_trailing_whitespace_plain.
Qed.

(** *** The loop of [job_deserialize] on a stream of lines *)

Lemma job_deserialize_loop_lines j rest : forall ls fuel J m,
  Forall (line_effect j) ls ->
  job_heap m !! j = Some J -> j_installed J = false ->
  (String.length (stream_of_lines ls rest) < fuel)%nat ->
  wp (job_deserialize_loop fuel j (stream_of_lines ls rest))
     (fun r m' => r = (0, rest) /\
        job_heap m' !! j = Some (fold_left (fun J lf => snd lf J) ls J)) m.
Proof.
  induction ls as [|[l f] ls IH]; intros fuel J m Hls HJ Hi Hfuel.
  - destruct fuel as [|fuel]; [simpl in Hfuel; lia|].
    unfold wpg. simpl. done.
  - destruct fuel as [|fuel]; [simpl in Hfuel; lia|].
    apply Forall_cons in Hls as [(Hp & Hne & Hlen & Hinst & Heff) Hls].
    simpl in Hp, Hne, Hlen, Hinst, Heff.
    change (stream_of_lines ((l, f) :: ls) rest)
      with (String.append l (String NEWLINE (stream_of_lines ls rest))) in *.
    cbn [job_deserialize_loop]. unfold read_line.
    rewrite read_line_from_plain by (done || lia).
    destruct (Z.of_nat (String.length l) + 1 <? 0) eqn:H1;
      [apply Z.ltb_lt in H1; lia|].
    destruct (Z.of_nat (String.length l) + 1 =? 0) eqn:H2;
      [apply Z.eqb_eq in H2; lia|].
    rewrite strstrip_plain by done.
    destruct (String.eqb l EmptyString) eqn:H3; [by apply String.eqb_eq in H3|].
    apply wpg_bind. eapply wpg_mono; [by apply Heff|]. cbv beta.
    intros ? m1 HJ1. simpl. apply IH; try done.
    + by rewrite Hinst.
    + rewrite string_length_append in Hfuel. simpl in Hfuel. lia.
Qed.

(** *** Decimal numerals *)

Lemma string_of_uint_digits (d : Decimal.uint) :
  plain (NilEmpty.string_of_uint d) = true /\
  digits_prefix (NilEmpty.string_of_uint d) = NilEmpty.string_of_uint d /\
  String.length (NilEmpty.string_of_uint d) = Decimal.nb_digits d.
Proof.
  induction d as [|d (IH1 & IH2 & IH3)|d (IH1 & IH2 & IH3)|d (IH1 & IH2 & IH3)
                  |d (IH1 & IH2 & IH3)|d (IH1 & IH2 & IH3)|d (IH1 & IH2 & IH3)
                  |d (IH1 & IH2 & IH3)|d (IH1 & IH2 & IH3)|d (IH1 & IH2 & IH3)
                  |d (IH1 & IH2 & IH3)];
    [done|..]; cbn -[String.append]; rewrite IH1, IH2, IH3; done.
Qed.

Lemma little_double_nb_digits (d : Decimal.uint) :
  (Decimal.nb_digits (Decimal.Little.double d) <= S (Decimal.nb_digits d))%nat /\
  (Decimal.nb_digits (Decimal.Little.succ_double d) <= S (Decimal.nb_digits d))%nat.
Proof.
  induction d as [|d [IH1 IH2]|d [IH1 IH2]|d [IH1 IH2]|d [IH1 IH2]|d [IH1 IH2]
                  |d [IH1 IH2]|d [IH1 IH2]|d [IH1 IH2]|d [IH1 IH2]|d [IH1 IH2]];
    simpl; lia.
Qed.

Lemma to_little_uint_nb_digits (p : positive) :
  (Decimal.nb_digits (Pos.to_little_uint p) <= Pos.size_nat p)%nat.
Proof.
  induction p as [p IH|p IH|]; simpl; [| |lia].
  - pose proof (little_double_nb_digits (Pos.to_little_uint p)) as [_ H]. lia.
  - pose proof (little_double_nb_digits (Pos.to_little_uint p)) as [H _]. lia.
Qed.

Lemma print_unsigned_facts z :
  0 <= z < 2 ^ 64 ->
  plain (print_unsigned z) = true /\
  print_unsigned z ≠ EmptyString /\
  digits_prefix (print_unsigned z) = print_unsigned z /\
  (String.length (print_unsigned z) <= 65)%nat /\
  decimal_value (print_unsigned z) = Some z.
Proof.
  intros Hz. unfold print_unsigned, decimal_value.
  destruct (Z.to_N z) as [|p] eqn:Hn.
  { assert (z = 0) as -> by lia. vm_compute.
    split; [done|]. split; [done|]. split; [done|]. split; [lia|done]. }
  assert (N.to_uint (N.pos p) ≠ Decimal.Nil) as Hnil
    by apply Unsigned.to_uint_nonnil.
  assert (Z.of_N (N.pos p) = z) as Hval by lia.
  rewrite NilZero.usu by done. rewrite DecimalN.Unsigned.of_to, Hval.
  assert (NilZero.string_of_uint (N.to_uint (N.pos p))
          = NilEmpty.string_of_uint (N.to_uint (N.pos p))) as ->.
  { by destruct (N.to_uint (N.pos p)). }
  destruct (string_of_uint_digits (N.to_uint (N.pos p))) as (H1 & H2 & H3).
  split; [done|]. split.
  { intros Hs. rewrite Hs in H3. simpl in H3. symmetry in H3.
    by apply nb_digits_0 in H3. }
  split; [done|]. split; [|done].
  rewrite H3. simpl. unfold Pos.to_uint. rewrite nb_digits_rev.
  etrans; [apply to_little_uint_nb_digits|].
  assert (p < 2 ^ 64)%positive as Hp by lia.
  apply Pos.size_nat_monotone in Hp. etrans; [exact Hp|].
  vm_compute. lia.
Qed.

Lemma safe_atou32_print z :
  0 <= z < 2 ^ 32 -> safe_atou32 (print_unsigned z) = Some z.
Proof.
  intros Hz. destruct (print_unsigned_facts z) as (_ & Hne & _ & _ & Hv); [lia|].
  unfold safe_atou32. apply String.eqb_neq in Hne. rewrite Hne, Hv.
  destruct (z <? 2 ^ 32) eqn:Hlt; [done|]. apply Z.ltb_ge in Hlt. lia.
Qed.

Lemma digit_starts_numeral c :
  is_digit c = true ->
  isspace c = false /\ Ascii.eqb c "-" = false /\ Ascii.eqb c "+" = false.
Proof.
  destruct c as [[] [] [] [] [] [] [] []]; vm_compute; intros Hc;
    first [discriminate Hc | done].
Qed.

Lemma sscanf_llu_print z :
  0 <= z < 2 ^ 64 -> sscanf_llu (print_unsigned z) = Some z.
Proof.
  intros Hz. destruct (print_unsigned_facts z) as (_ & Hne & Hd & _ & Hv); [done|].
  unfold sscanf_llu.
  destruct (print_unsigned z) as [|c s] eqn:Hs; [done|].
  assert (is_digit c = true) as Hc.
  { simpl in Hd. by destruct (is_digit c). }
  destruct (digit_starts_numeral c Hc) as (Hsp & Hm & Hpl).
  cbn [skip_isspace]. rewrite Hsp. cbn [scan_sign]. rewrite Hm, Hpl.
  rewrite Hd, Hv. cbn [String.eqb].
  destruct (ULLONG_MAX <? z) eqn:Hmax; [|done].
  apply Z.ltb_lt in Hmax. unfold ULLONG_MAX in Hmax. lia.
Qed.

(** *** What each line does *)

Lemma split_assignment_assignment (key v : string) :
  forallb (fun c => negb (Ascii.eqb c "=")) (list_ascii_of_string key) = true ->
  split_assignment (assignment key v) = (key, v).
Proof.
  unfold assignment. induction key as [|c key IH]; intros Hk.
  - rewrite string_append_nil_l. done.
  - rewrite string_append_cons. simpl in *. apply andb_prop in Hk as [Hc Hk].
    apply negb_true_iff in Hc. by rewrite Hc, IH.
Qed.

Lemma update_job_effect j f J m :
  job_heap m !! j = Some J ->
  wp (update_job j f) (fun _ m' => job_heap m' !! j = Some (f J)) m.
Proof.
  intros HJ. unfold update_job. wp_run.
  first [reflexivity|apply lookup_insert_eq].
Qed.

Lemma set_j_state_same J : set_j_state (j_state J) J = J.
Proof. by destruct J. Qed.

Lemma job_set_state_effect j s J m :
  job_heap m !! j = Some J -> j_installed J = false ->
  wp (job_set_state j s) (fun _ m' => job_heap m' !! j = Some (set_j_state s J)) m.
Proof.
  intros HJ Hi. unfold job_set_state. do 2 wp_step.
  destruct (decide (j_state J = s)) as [<-|Hne].
  - wp_run. by rewrite set_j_state_same.
  - do 2 wp_step. rewrite Hi. by wp_run.
Qed.

(** A line [key=v] whose key is one of the literal keys and whose value
    is plain and short. *)
Lemma line_effect_intro j (key v : string) (f : Job -> Job) (h : M ()) :
  plain key = true -> key ≠ EmptyString ->
  (String.length key <= 30)%nat ->
  plain v = true -> (String.length v <= 255)%nat ->
  (forall J, j_installed (f J) = j_installed J) ->
  job_deserialize_line j (assignment key v) = h ->
  (forall J m, job_heap m !! j = Some J -> j_installed J = false ->
     wp h (fun _ m' => job_heap m' !! j = Some (f J)) m) ->
  line_effect j (assignment key v, f).
Proof.
  intros Hk Hne Hlk Hv Hlv Hinst Hh Heff. unfold line_effect. simpl.
  split; [|split; [|split; [|split]]].
  - unfold assignment. rewrite plain_append, Hk. simpl. by rewrite Hv.
  - unfold assignment. destruct key; [done|]. by rewrite string_append_cons.
  - unfold assignment. rewrite string_length_append. simpl.
    unfold LONG_LINE_MAX. lia.
  - done.
  - intros J m HJ Hi. rewrite Hh. by apply Heff.
Qed.

Lemma parse_boolean_yes_no b : parse_boolean (yes_no b) = Some b.
Proof. by destruct b. Qed.

Lemma yes_no_plain b : plain (yes_no b) = true /\ (String.length (yes_no b) <= 255)%nat.
Proof. destruct b; simpl; split; (done || lia). Qed.

Ltac literal_line h :=
  apply (line_effect_intro _ _ _ _ h);
  [ reflexivity | discriminate | simpl; lia | .. ].

Lemma serialized_lines_effect j J :
  in_transaction_range (j_type J) ->
  0 <= j_id J < 2 ^ 32 -> 0 <= j_begin_usec J < 2 ^ 64 ->
  Forall bus_name (j_clients J) ->
  Forall (line_effect j) (serialized_lines J).
Proof.
  intros Hty Hid Hbegin Hclients. unfold serialized_lines.
  repeat first [apply Forall_cons; split | apply Forall_app; split].
  - destruct (print_unsigned_facts (j_id J)) as (Hp & _ & _ & Hl & _); [lia|].
    literal_line (update_job j (set_j_id (j_id J))); try done; [lia| |].
    + unfold job_deserialize_line.
      rewrite split_assignment_assignment by reflexivity.
      cbv iota beta. rewrite safe_atou32_print by done. reflexivity.
    + intros J' m HJ' _. by apply update_job_effect.
  - unfold in_transaction_range, _JOB_TYPE_MAX_IN_TRANSACTION in Hty.
    destruct (j_type J) eqn:Ht; simpl in Hty; try lia.
    all: match goal with
         | |- line_effect _ (_, set_j_type ?t) =>
             literal_line (update_job j (set_j_type t))
         end; try done; try (simpl; lia).
    all: intros J' m HJ' _; by apply update_job_effect.
  - destruct (j_state J) eqn:Hs.
    all: match goal with
         | |- line_effect _ (_, set_j_state ?s) =>
             literal_line (job_set_state j s)
         end; try done; try (simpl; lia).
    all: intros J' m HJ' Hi'; by apply job_set_state_effect.
  - destruct (yes_no_plain (j_override J)) as [Hp Hl].
    literal_line (update_job j (fun J' =>
      set_j_override (j_override J' || j_override J) J')); try done.
    + unfold job_deserialize_line.
      rewrite split_assignment_assignment by reflexivity.
      cbv iota beta. rewrite parse_boolean_yes_no. reflexivity.
    + intros J' m HJ' _.
      match goal with
      | |- wpg _ (update_job _ ?f) _ _ => exact (update_job_effect j f J' m HJ')
      end.
  - destruct (yes_no_plain (j_irreversible J)) as [Hp Hl].
    literal_line (update_job j (fun J' =>
      set_j_irreversible (j_irreversible J' || j_irreversible J) J')); try done.
    + unfold job_deserialize_line.
      rewrite split_assignment_assignment by reflexivity.
      cbv iota beta. rewrite parse_boolean_yes_no. reflexivity.
    + intros J' m HJ' _.
      match goal with
      | |- wpg _ (update_job _ ?f) _ _ => exact (update_job_effect j f J' m HJ')
      end.
  - destruct (yes_no_plain (j_sent_dbus_new_signal J)) as [Hp Hl].
    literal_line (update_job j (fun J' =>
      set_j_sent_dbus_new_signal
        (j_sent_dbus_new_signal J' || j_sent_dbus_new_signal J) J')); try done.
    + unfold job_deserialize_line.
      rewrite split_assignment_assignment by reflexivity.
      cbv iota beta. rewrite parse_boolean_yes_no. reflexivity.
    + intros J' m HJ' _.
      match goal with
      | |- wpg _ (update_job _ ?f) _ _ => exact (update_job_effect j f J' m HJ')
      end.
  - destruct (yes_no_plain (j_ignore_order J)) as [Hp Hl].
    literal_line (update_job j (fun J' =>
      set_j_ignore_order (j_ignore_order J' || j_ignore_order J) J')); try done.
    + unfold job_deserialize_line.
      rewrite split_assignment_assignment by reflexivity.
      cbv iota beta. rewrite parse_boolean_yes_no. reflexivity.
    + intros J' m HJ' _.
      match goal with
      | |- wpg _ (update_job _ ?f) _ _ => exact (update_job_effect j f J' m HJ')
      end.
  - destruct (0 <? j_begin_usec J); [|by apply Forall_nil].
    apply Forall_cons; split; [|by apply Forall_nil].
    destruct (print_unsigned_facts (j_begin_usec J)) as (Hp & _ & _ & Hl & _);
      [lia|].
    literal_line (update_job j (set_j_begin_usec (j_begin_usec J)));
      try done; [lia| |].
    + unfold job_deserialize_line.
      rewrite split_assignment_assignment by reflexivity.
      cbv iota beta. rewrite sscanf_llu_print by done. reflexivity.
    + intros J' m HJ' _. by apply update_job_effect.
  - induction Hclients as [|c cs [Hp Hl] _ IH]; cbn [map]; [by apply Forall_nil|].
    apply Forall_cons; split; [|done].
    literal_line (update_job j (fun J' =>
      set_j_deserialized_clients (j_deserialized_clients J' ++ [c]) J'));
      try done.
    intros J' m HJ' _.
    match goal with
    | |- wpg _ (update_job _ ?f) _ _ => exact (update_job_effect j f J' m HJ')
    end.
Qed.

(** *** The stream [job_serialize] writes *)

Lemma line_stream (key v acc : string) :
  String.append (line key v) acc
  = String.append (assignment key v) (String NEWLINE acc).
Proof.
  unfold line, assignment.
  rewrite !string_append_assoc, !string_append_cons, !string_append_assoc.
  by rewrite string_append_cons, string_append_nil_l.
Qed.

Lemma bus_track_serialize_stream (cs : list string) (acc : string) :
  String.append (bus_track_serialize cs) acc
  = fold_right (fun (lf : string * (Job -> Job)) acc =>
                  String.append (fst lf) (String NEWLINE acc)) acc
      (map (fun c => (assignment "subscribed" c,
                      fun J' => set_j_deserialized_clients
                                  (j_deserialized_clients J' ++ [c]) J')) cs).
Proof.
  unfold bus_track_serialize. induction cs as [|c cs IH]; [done|].
  cbn [map fold_right fst]. rewrite <-IH, <-line_stream.
  destruct cs as [|c' cs]; cbn [map String.concat].
  - by rewrite ?string_append_nil_l.
  - by rewrite string_append_nil_l, string_append_assoc.
Qed.

Lemma job_serialize_stream j J m rest :
  job_heap m !! j = Some J ->
  exists text,
    job_serialize j EmptyString m = Done (0, text) m /\
    String.append text rest = stream_of_lines (serialized_lines J) rest.
Proof.
  intros HJ.
  assert (wp (job_serialize j EmptyString)
            (fun r m' => m' = m /\ fst r = 0 /\
               String.append (snd r) rest
               = stream_of_lines (serialized_lines J) rest) m) as Hwp.
  { unfold job_serialize. do 3 wp_step. split; [done|]. split; [done|].
    cbn [snd]. unfold stream_of_lines, serialized_lines.
    cbn [String.concat app fold_right fst].
    rewrite !fold_right_app, <-bus_track_serialize_stream.
    rewrite !string_append_nil_l, !string_append_assoc, !line_stream.
    rewrite (string_append_cons NEWLINE EmptyString rest), string_append_nil_l.
    destruct (0 <? j_begin_usec J); cbn [fold_right fst].
    - by rewrite line_stream.
    - by rewrite string_append_nil_l. }
  apply wp_Done in Hwp as ([r text] & m' & Hrun & -> & Hr & Htext).
  simpl in Hr, Htext. subst r. eauto.
Qed.

Lemma fold_left_clients (cs : list string) : forall J0,
  fold_left (fun J (lf : string * (Job -> Job)) => snd lf J)
    (map (fun c => (assignment "subscribed" c,
                    fun J' => set_j_deserialized_clients
                                (j_deserialized_clients J' ++ [c]) J')) cs) J0
  = set_j_deserialized_clients (j_deserialized_clients J0 ++ cs) J0.
Proof.
  induction cs as [|c cs IH]; intros J0; cbn [map fold_left snd].
  - rewrite app_nil_r. by destruct J0.
  - rewrite IH. destruct J0; simpl. unfold set_j_deserialized_clients. simpl.
    by rewrite <-app_assoc.
Qed.

(** The job [job_deserialize] builds from the lines of [J], starting
    from a job as [job_new_raw] leaves it. *)
Lemma fold_left_serialized_lines J J0 :
  0 <= j_begin_usec J ->
  j_override J0 = false -> j_irreversible J0 = false ->
  j_sent_dbus_new_signal J0 = false -> j_ignore_order J0 = false ->
  j_begin_usec J0 = 0 -> j_deserialized_clients J0 = [] ->
  let J' := fold_left (fun J (lf : string * (Job -> Job)) => snd lf J)
              (serialized_lines J) J0 in
  j_id J' = j_id J /\ j_type J' = j_type J /\ j_state J' = j_state J /\
  j_override J' = j_override J /\ j_irreversible J' = j_irreversible J /\
  j_sent_dbus_new_signal J' = j_sent_dbus_new_signal J /\
  j_ignore_order J' = j_ignore_order J /\
  j_begin_usec J' = j_begin_usec J /\
  j_deserialized_clients J' = j_clients J.
Proof.
  intros Hb H1 H2 H3 H4 H5 H6. cbv zeta. unfold serialized_lines.
  cbn [app fold_left snd]. rewrite !fold_left_app, fold_left_clients.
  destruct (0 <? j_begin_usec J) eqn:Hpos; cbn [fold_left snd]; simpl;
    rewrite ?H1, ?H2, ?H3, ?H4, ?H5, ?H6; simpl; repeat split; try done.
  apply Z.ltb_ge in Hpos. lia.
Qed.

(** C9: serializing a job whose type is of the transaction range (as the
    type of every installed job is) and deserializing the stream into a
    job fresh from [job_new_raw] reproduces the id, the type, the state,
    the override, irreversible, sent_dbus_new_signal and ignore_order
    flags and begin_usec, and leaves the subscribers, in the order
    written, in [deserialized_clients]; [job_deserialize] returns 0 and
    stops right after the end marker.  (The id is a 32-bit and begin_usec
    a 64-bit unsigned value, and the subscribers are bus names.) *)
Theorem serialize_then_deserialize (m m1 : Manager) j J u (rest : string) :
  job_heap m !! j = Some J ->
  in_transaction_range (j_type J) ->
  0 <= j_id J < 2 ^ 32 -> 0 <= j_begin_usec J < 2 ^ 64 ->
  Forall bus_name (j_clients J) ->
  is_Some (units m1 !! u) ->
  exists text j' m2 m3 J',
    job_serialize j EmptyString m = Done (0, text) m /\
    job_new_raw u m1 = Done j' m2 /\
    job_deserialize j' (String.append text rest) m2 = Done (0, rest) m3 /\
    job_heap m3 !! j' = Some J' /\
    j_id J' = j_id J /\ j_type J' = j_type J /\ j_state J' = j_state J /\
    j_override J' = j_override J /\ j_irreversible J' = j_irreversible J /\
    j_sent_dbus_new_signal J' = j_sent_dbus_new_signal J /\
    j_ignore_order J' = j_ignore_order J /\
    j_begin_usec J' = j_begin_usec J /\
    j_deserialized_clients J' = j_clients J.
Proof.
  intros HJ Hty Hid Hbegin Hclients [U HU].
  destruct (job_serialize_stream j J m rest HJ) as (text & Hser & Htext).
  exists text.
  assert (wp (job_new_raw u)
            (fun j' m2 => exists J0,
               job_heap m2 !! j' = Some J0 /\ j_installed J0 = false /\
               j_override J0 = false /\ j_irreversible J0 = false /\
               j_sent_dbus_new_signal J0 = false /\ j_ignore_order J0 = false /\
               j_begin_usec J0 = 0 /\ j_deserialized_clients J0 = []) m1) as Hnew.
  { unfold job_new_raw. wp_run. eexists.
    split; [first [reflexivity|apply lookup_insert_eq]|]. by repeat split. }
  apply wp_Done in Hnew
    as (j' & m2 & Hraw & J0 & HJ0 & Hi & H1 & H2 & H3 & H4 & H5 & H6).
  exists j', m2.
  pose proof (job_deserialize_loop_lines j' rest (serialized_lines J)
                (S (String.length (String.append text rest))) J0 m2
                (serialized_lines_effect j' J Hty Hid Hbegin Hclients)
                HJ0 Hi) as Hloop.
  rewrite <-Htext in Hloop. specialize (Hloop ltac:(lia)).
  assert (wp (job_deserialize j' (String.append text rest))
            (fun r m3 => r = (0, rest) /\
               job_heap m3 !! j'
               = Some (fold_left (fun J (lf : string * (Job -> Job)) => snd lf J)
                         (serialized_lines J) J0)) m2) as Hdes.
  { unfold job_deserialize. do 2 wp_step. exact Hloop. }
  apply wp_Done in Hdes as (r & m3 & Hrun & -> & HJ').
  exists m3, (fold_left (fun J (lf : string * (Job -> Job)) => snd lf J)
                (serialized_lines J) J0).
  split; [done|]. split; [done|]. split; [done|]. split; [done|].
  apply fold_left_serialized_lines; try done. lia.
Qed.

Lemma serialize_then_deserialize_witness :
  exists text j' m2 m3 J',
    job_serialize 0 EmptyString subscribed_scenario
      = Done (0, text) subscribed_scenario /\
    job_new_raw 0 (initial_manager ordered_units 1) = Done j' m2 /\
    job_deserialize j' (String.append text EmptyString) m2
      = Done (0, EmptyString) m3 /\
    job_heap m3 !! j' = Some J' /\
    j_id J' = 7 /\ j_type J' = JOB_VERIFY_ACTIVE /\ j_state J' = JOB_RUNNING /\
    j_override J' = true /\ j_irreversible J' = false /\
    j_sent_dbus_new_signal J' = true /\
    j_ignore_order J' = false /\
    j_begin_usec J' = 1234567 /\
    j_deserialized_clients J' = [":1.42"; "org.example.Client"]%string.
Proof.
  apply (serialize_then_deserialize subscribed_scenario
           (initial_manager ordered_units 1) 0 subscribed_job 0 EmptyString).
  - reflexivity.
  - unfold in_transaction_range, _JOB_TYPE_MAX_IN_TRANSACTION. simpl. lia.
  - simpl. lia.
  - simpl. lia.
  - simpl. repeat constructor; simpl; lia.
  - vm_compute. eauto.
Defined.

(** * Further properties of the engine *)

(** ** The job-type algebra *)

(** X1: on the merge domain, with the merge result collapsed at once,
    mergeability is transitive, and if the merge of two types cannot be
    merged with a third then one of the two cannot either (the two
    remarks above [job_merging_table]). *)
Theorem mergeability_is_transitive (a b c : JobType) (s : UnitActiveState) :
  in_merge_domain a = true -> in_merge_domain b = true ->
  in_merge_domain c = true ->
  (is_Some (merge_then_collapse a b s) ->
   is_Some (merge_then_collapse b c s) ->
   is_Some (merge_then_collapse a c s)) /\
  (forall x, merge_then_collapse a b s = Some x ->
     merge_then_collapse x c s = None ->
     merge_then_collapse a c s = None \/ merge_then_collapse b c s = None).
Proof.
  intros Ha Hb Hc. split.
  - destruct a; try discriminate Ha; destruct b; try discriminate Hb;
      destruct c; try discriminate Hc; destruct s; vm_compute; clear.
    all: intros [? H1] [? H2];
      first [discriminate H1 | discriminate H2 | eexists; reflexivity].
  - destruct a; try discriminate Ha; destruct b; try discriminate Hb;
      destruct c; try discriminate Hc; destruct s; clear; intros x.
    all: vm_compute (merge_then_collapse _ _ _) at 1.
    all: intros Hx; first [discriminate Hx | injection Hx as <-].
    all: vm_compute.
    all: intros Hn;
      first [discriminate Hn | left; reflexivity | right; reflexivity].
Qed.

Lemma mergeability_is_transitive_witness :
  (is_Some (merge_then_collapse JOB_START JOB_RELOAD UNIT_ACTIVE) ->
   is_Some (merge_then_collapse JOB_RELOAD JOB_RESTART UNIT_ACTIVE) ->
   is_Some (merge_then_collapse JOB_START JOB_RESTART UNIT_ACTIVE)) /\
  (forall x, merge_then_collapse JOB_START JOB_RELOAD UNIT_ACTIVE = Some x ->
     merge_then_collapse x JOB_RESTART UNIT_ACTIVE = None ->
     merge_then_collapse JOB_START JOB_RESTART UNIT_ACTIVE = None \/
     merge_then_collapse JOB_RELOAD JOB_RESTART UNIT_ACTIVE = None).
Proof.
  apply (mergeability_is_transitive JOB_START JOB_RELOAD JOB_RESTART UNIT_ACTIVE);
    reflexivity.
Defined.

(** X2: [job_type_merge_and_collapse] trips an assertion exactly when one
    of the two types lies outside the merge domain.  On the merge domain
    it returns 0 or [-EEXIST]; with [-EEXIST], when the table holds -1
    for the pair, it leaves [*a] as it was, and either way [*a] is a type
    of the merge domain again. *)
Theorem job_type_merge_and_collapse_closed (a b : JobType) (s : UnitActiveState) :
  (job_type_merge_and_collapse a b s = None <->
   in_merge_domain a = false \/ in_merge_domain b = false) /\
  (forall r t, job_type_merge_and_collapse a b s = Some (r, t) ->
     in_merge_domain t = true /\
     ((r = 0 /\ job_type_lookup_merge a b ≠ Some _JOB_TYPE_INVALID) \/
      (r = - EEXIST /\ t = a /\
       job_type_lookup_merge a b = Some _JOB_TYPE_INVALID))).
Proof.
  destruct a, b, s; vm_compute; (split; [split|]);
    try (intros [?|?]; done); try done; try (intros _; auto; fail);
    intros r t [= <- <-]; (split; [done|]);
    first [left; split; [done|discriminate] | right; done].
Qed.

(** X3: [job_type_collapse] is idempotent and leaves the types of the
    transaction range alone.  It takes try-restart and reload-or-start
    into the transaction range, so that the assertion of [job_install]
    holds for the collapsed type and [job_type_is_redundant] is defined
    on it. *)
Theorem job_type_collapse_lands_in_range (t : JobType) (s : UnitActiveState) :
  job_type_collapse (job_type_collapse t s) s = job_type_collapse t s /\
  (in_transaction_range t -> job_type_collapse t s = t) /\
  (in_transaction_range t \/ t = JOB_TRY_RESTART \/ t = JOB_RELOAD_OR_START ->
   in_transaction_range (job_type_collapse t s) /\
   is_Some (job_type_is_redundant (job_type_collapse t s) s)).
Proof.
  unfold in_transaction_range, _JOB_TYPE_MAX_IN_TRANSACTION.
  split; [by destruct t, s|]. split.
  - destruct t; simpl; intros ?; (done || lia).
  - intros [H|[-> | ->]]; [destruct t; simpl in H; try lia| |];
      destruct s; simpl; (split; [lia|eauto]).
Qed.

Lemma job_type_collapse_lands_in_range_witness :
  job_type_collapse (job_type_collapse JOB_TRY_RESTART UNIT_INACTIVE) UNIT_INACTIVE
    = job_type_collapse JOB_TRY_RESTART UNIT_INACTIVE /\
  (in_transaction_range JOB_TRY_RESTART ->
   job_type_collapse JOB_TRY_RESTART UNIT_INACTIVE = JOB_TRY_RESTART) /\
  (in_transaction_range JOB_TRY_RESTART \/ JOB_TRY_RESTART = JOB_TRY_RESTART \/
   JOB_TRY_RESTART = JOB_RELOAD_OR_START ->
   in_transaction_range (job_type_collapse JOB_TRY_RESTART UNIT_INACTIVE) /\
   is_Some (job_type_is_redundant
              (job_type_collapse JOB_TRY_RESTART UNIT_INACTIVE) UNIT_INACTIVE)).
Proof. apply (job_type_collapse_lands_in_range JOB_TRY_RESTART UNIT_INACTIVE). Defined.

Lemma job_type_merge_and_collapse_closed_witness :
  in_merge_domain JOB_START = true /\
  ((0 = 0 /\ job_type_lookup_merge JOB_START JOB_RELOAD ≠ Some _JOB_TYPE_INVALID) \/
   (0 = - EEXIST /\ JOB_START = JOB_START /\
    job_type_lookup_merge JOB_START JOB_RELOAD = Some _JOB_TYPE_INVALID)).
Proof.
  apply (job_type_merge_and_collapse_closed JOB_START JOB_RELOAD UNIT_INACTIVE).
  reflexivity.
Defined.

(** ** The string tables *)

Lemma table_to_from {A} `{EqDecision A} (table : list (A * string)) k s :
  NoDup (table.*2) ->
  table_to_string table k = Some s -> table_from_string table s = Some k.
Proof.
  induction table as [|[k' s'] table IH]; intros Hnd; simpl; [done|].
  apply NoDup_cons in Hnd as [Hnotin Hnd].
  destruct (decide (k' = k)) as [->|Hne].
  - intros [= ->]. by rewrite String.eqb_refl.
  - intros Hs. destruct (String.eqb s' s) eqn:Heq.
    + apply String.eqb_eq in Heq as ->. exfalso. apply Hnotin.
      clear -Hs. induction table as [|[k'' s''] table IH]; simpl in *; [done|].
      destruct (decide (k'' = k)); [injection Hs as ->; by left|].
      right. by apply IH.
    + by apply IH.
Qed.

Lemma table_from_to {A} `{EqDecision A} (table : list (A * string)) k s :
  NoDup (table.*1) ->
  table_from_string table s = Some k -> table_to_string table k = Some s.
Proof.
  induction table as [|[k' s'] table IH]; intros Hnd; simpl; [done|].
  apply NoDup_cons in Hnd as [Hnotin Hnd].
  destruct (String.eqb s' s) eqn:Heq.
  - apply String.eqb_eq in Heq as ->. intros [= ->].
    by destruct (decide (k = k)).
  - intros Hk. destruct (decide (k' = k)) as [->|Hne]; [|by apply IH].
    exfalso. apply Hnotin.
    clear -Hk. induction table as [|[k'' s''] table IH]; simpl in *; [done|].
    destruct (String.eqb s'' s); [injection Hk as ->; by left|].
    right. by apply IH.
Qed.

(** X4: the four string tables of job.c translate back and forth without
    loss: the name of a type, state, mode or result is parsed back to it,
    and a string that is parsed is the name of what it is parsed to.
    ([job_type_from_string] answers [_JOB_TYPE_INVALID] for a string
    that is no name.) *)
Theorem string_tables_round_trip :
  (forall t s, job_type_to_string t = Some s -> job_type_from_string s = t) /\
  (forall s, job_type_from_string s ≠ _JOB_TYPE_INVALID ->
     job_type_to_string (job_type_from_string s) = Some s) /\
  (forall x s, job_state_to_string x = Some s <-> job_state_from_string s = Some x) /\
  (forall x s, job_mode_to_string x = Some s <-> job_mode_from_string s = Some x) /\
  (forall x s, job_result_to_string x = Some s <-> job_result_from_string s = Some x).
Proof.
  assert (NoDup (job_type_table.*1) /\ NoDup (job_type_table.*2)) as [Ht1 Ht2].
  { split; apply (bool_decide_unpack _); vm_compute; exact I. }
  assert (NoDup (job_state_table.*1) /\ NoDup (job_state_table.*2)) as [Hs1 Hs2].
  { split; apply (bool_decide_unpack _); vm_compute; exact I. }
  assert (NoDup (job_mode_table.*1) /\ NoDup (job_mode_table.*2)) as [Hm1 Hm2].
  { split; apply (bool_decide_unpack _); vm_compute; exact I. }
  assert (NoDup (job_result_table.*1) /\ NoDup (job_result_table.*2)) as [Hr1 Hr2].
  { split; apply (bool_decide_unpack _); vm_compute; exact I. }
  split; [|split; [|split; [|split]]].
  - intros t s Hs. unfold job_type_from_string.
    by rewrite (table_to_from job_type_table t s Ht2 Hs).
  - intros s. unfold job_type_from_string, job_type_to_string.
    destruct (table_from_string job_type_table s) as [t|] eqn:Ht; [|done].
    intros _. by apply table_from_to.
  - intros x s. split; [by apply table_to_from|by apply table_from_to].
  - intros x s. split; [by apply table_to_from|by apply table_from_to].
  - intros x s. split; [by apply table_to_from|by apply table_from_to].
Qed.

(** ** Status messages *)

(** X5: [job_log_status_message] logs nothing for a restart,
    verify-active or nop job, whatever the result.  Unless the log goes
    to the console, it logs every done, failed or timed-out start, stop
    or reload job, whatever the unit kind provides, at priority
    [LOG_INFO] for the result [done] and [LOG_ERR] otherwise. *)
Theorem job_log_status_message_coverage (formats : UnitStatusMessageFormats)
    (log_on_console : bool) (t : JobType) (result : JobResult) :
  job_type_valid t = true ->
  (t ≠ JOB_START -> t ≠ JOB_STOP -> t ≠ JOB_RELOAD ->
   job_log_status_message formats log_on_console t result = Some None) /\
  (log_on_console = false ->
   t = JOB_START \/ t = JOB_STOP \/ t = JOB_RELOAD ->
   result = JOB_DONE \/ result = JOB_FAILED \/ result = JOB_TIMEOUT ->
   exists e,
     job_log_status_message formats log_on_console t result = Some (Some e) /\
     log_result e = result /\
     log_priority e = (if bool_decide (result = JOB_DONE) then LOG_INFO else LOG_ERR)).
Proof.
  intros Hv. split.
  - intros H1 H2 H3. unfold job_log_status_message. rewrite Hv. simpl.
    destruct log_on_console; [done|].
    unfold job_get_status_message_format_try_harder,
      job_get_status_message_format. rewrite Hv. simpl.
    destruct t; try done; simpl;
      try (destruct (finished_stop_job formats result); simpl);
      by destruct result.
  - intros -> Ht Hr. unfold job_log_status_message,
      job_get_status_message_format_try_harder, job_get_status_message_format.
    rewrite Hv. simpl.
    destruct Ht as [-> |[-> | ->]]; simpl.
    + destruct (finished_start_job formats result) eqn:Hf; simpl;
        destruct Hr as [-> |[-> | ->]]; simpl; eauto.
    + destruct (finished_stop_job formats result) eqn:Hf; simpl;
        destruct Hr as [-> |[-> | ->]]; simpl; eauto.
    + destruct Hr as [-> |[-> | ->]]; simpl; eauto.
Qed.

Lemma job_log_status_message_coverage_witness :
  (JOB_RELOAD ≠ JOB_START -> JOB_RELOAD ≠ JOB_STOP -> JOB_RELOAD ≠ JOB_RELOAD ->
   job_log_status_message (mkFormats (fun _ => None) (fun _ => None)) false
     JOB_RELOAD JOB_FAILED = Some None) /\
  (false = false ->
   JOB_RELOAD = JOB_START \/ JOB_RELOAD = JOB_STOP \/ JOB_RELOAD = JOB_RELOAD ->
   JOB_FAILED = JOB_DONE \/ JOB_FAILED = JOB_FAILED \/ JOB_FAILED = JOB_TIMEOUT ->
   exists e,
     job_log_status_message (mkFormats (fun _ => None) (fun _ => None)) false
       JOB_RELOAD JOB_FAILED = Some (Some e) /\
     log_result e = JOB_FAILED /\
     log_priority e = (if bool_decide (JOB_FAILED = JOB_DONE) then LOG_INFO else LOG_ERR)).
Proof.
  apply (job_log_status_message_coverage
           (mkFormats (fun _ => None) (fun _ => None)) false JOB_RELOAD JOB_FAILED).
  reflexivity.
Defined.

(** X6: on the console, [job_print_status_message] shows the FAILED tag
    and the hint to run systemctl status only for a failed start job.  A
    stop or restart job that failed is shown with the OK tag, like one
    that is done, and a start job that is done is shown only if the
    conditions of the unit held. *)
Theorem job_print_status_message_tags (formats : UnitStatusMessageFormats)
    (condition_result : bool) (t : JobType) (result : JobResult) :
  job_type_valid t = true ->
  (forall c,
     job_print_status_message formats condition_result t result = Some (Some c) ->
     (cs_tag c = TAG_FAILED \/ cs_hint c = true) ->
     t = JOB_START /\ result = JOB_FAILED) /\
  (forall f, t = JOB_STOP \/ t = JOB_RESTART ->
     result = JOB_DONE \/ result = JOB_FAILED ->
     finished_stop_job formats result = Some f ->
     job_print_status_message formats condition_result t result
     = Some (Some (mkConsoleStatus TAG_OK f false false))) /\
  (t = JOB_START -> result = JOB_DONE -> condition_result = false ->
   job_print_status_message formats condition_result t result = Some None).
Proof.
  intros Hv. unfold job_print_status_message, job_get_status_message_format.
  rewrite Hv. simpl. split; [|split].
  - intros c. destruct t; simpl; try done.
    + destruct (finished_start_job formats result); simpl; [|done].
      destruct result; simpl; try done;
        try (destruct condition_result; simpl; try done);
        intros [= <-]; simpl; intros [?|?]; done.
    + destruct (bool_decide (result = JOB_SKIPPED)); [|done].
      intros [= <-]; simpl; intros [?|?]; done.
    + destruct (finished_stop_job formats result); simpl; [|done].
      destruct result; simpl; try done;
        intros [= <-]; simpl; intros [?|?]; done.
    + destruct (finished_stop_job formats result); simpl; [|done].
      destruct result; simpl; try done;
        intros [= <-]; simpl; intros [?|?]; done.
  - intros f [-> | ->] [-> | ->] Hf; simpl; by rewrite Hf.
  - intros -> -> ->. simpl. by destruct (finished_start_job formats JOB_DONE).
Qed.

Lemma job_print_status_message_tags_witness :
  job_print_status_message
    (mkFormats (fun _ => None) (fun _ => Some "Stopped %s."%string))
    true JOB_STOP JOB_FAILED
  = Some (Some (mkConsoleStatus TAG_OK "Stopped %s." false false)).
Proof.
  apply (job_print_status_message_tags
           (mkFormats (fun _ => None) (fun _ => Some "Stopped %s."%string))
           true JOB_STOP JOB_FAILED).
  - reflexivity.
  - by left.
  - by right.
  - reflexivity.
Defined.

(** ** Queueing a job over the bus *)

(** X7: the bus method ReloadOrRestart on a unit that cannot reload is
    the method Restart.  On a unit that can reload the type becomes
    reload-or-start before the checks: the access check asks for the
    permission reload, not start, and the two flags that refuse manual
    start and stop are not looked at. *)
Theorem reload_or_restart_checks (access : string -> Z) (u : BusUnit)
    (smode : string) (mode : JobMode) :
  job_mode_from_string smode = Some mode ->
  (bu_can_reload u = false ->
   bus_unit_method MethodReloadOrRestart access u smode
   = bus_unit_method MethodRestart access u smode) /\
  (bu_can_reload u = true ->
   bus_unit_method MethodReloadOrRestart access u smode
   = if access "reload"%string <? 0
     then Some (AccessError (access "reload"%string))
     else Some (ManagerAddJob JOB_RELOAD_OR_START mode)).
Proof.
  intros Hmode. unfold bus_unit_method, bus_unit_method_start_generic.
  rewrite Hmode. simpl. unfold bus_unit_queue_job. simpl. split.
  - by intros ->.
  - intros ->. simpl. by destruct (access "reload"%string <? 0).
Qed.

Lemma reload_or_restart_checks_witness :
  (bu_can_reload (mkBusUnit true false UNIT_INACTIVE true true) = false ->
   bus_unit_method MethodReloadOrRestart (fun _ => 0)
     (mkBusUnit true false UNIT_INACTIVE true true) "replace"
   = bus_unit_method MethodRestart (fun _ => 0)
       (mkBusUnit true false UNIT_INACTIVE true true) "replace") /\
  (bu_can_reload (mkBusUnit true false UNIT_INACTIVE true true) = true ->
   bus_unit_method MethodReloadOrRestart (fun _ => 0)
     (mkBusUnit true false UNIT_INACTIVE true true) "replace"
   = if 0 <? 0 then Some (AccessError 0)
     else Some (ManagerAddJob JOB_RELOAD_OR_START JOB_REPLACE)).
Proof.
  apply (reload_or_restart_checks (fun _ => 0)
           (mkBusUnit true false UNIT_INACTIVE true true) "replace" JOB_REPLACE).
  reflexivity.
Defined.

(** The assertions of the two functions hold for the types the seven
    methods pass. *)
Lemma bus_unit_method_outcomes (method : StartMethod) (access : string -> Z)
    (u : BusUnit) (smode : string) :
  exists o, bus_unit_method method access u smode = Some o.
Proof.
  unfold bus_unit_method, bus_unit_method_start_generic, bus_unit_queue_job.
  destruct method; simpl; destruct (job_mode_from_string smode); simpl; eauto;
    repeat match goal with
           | |- context [if ?b then _ else _] => destruct b; simpl; eauto
           end.
Qed.

(** X8: none of the seven bus methods fails an assertion, and none
    reaches [manager_add_job] unless the mode string names a job mode and
    the access check, for one of the permissions start, stop and reload,
    returned a value that is not negative.  A start job is not passed on
    for a unit that refuses manual start, nor a stop job for one that
    refuses manual stop, nor a restart or try-restart job for one that
    refuses either. *)
Theorem bus_unit_method_guards (method : StartMethod) (access : string -> Z)
    (u : BusUnit) (smode : string) :
  is_Some (bus_unit_method method access u smode) /\
  forall t mode,
    bus_unit_method method access u smode = Some (ManagerAddJob t mode) ->
    job_mode_from_string smode = Some mode /\
    (exists verb, verb ∈ ["start"; "stop"; "reload"]%string /\ 0 <= access verb) /\
    (t = JOB_START -> bu_refuse_manual_start u = false) /\
    (t = JOB_STOP -> bu_refuse_manual_stop u = false) /\
    (t = JOB_RESTART \/ t = JOB_TRY_RESTART ->
     bu_refuse_manual_start u = false /\ bu_refuse_manual_stop u = false).
Proof.
  split; [apply bus_unit_method_outcomes|].
  intros t mode. unfold bus_unit_method, bus_unit_method_start_generic.
  assert (forall type reload,
            job_type_valid type = true ->
            match job_mode_from_string smode with
            | Some mode0 => bus_unit_queue_job access u type mode0 reload
            | None => Some InvalidArgs
            end = Some (ManagerAddJob t mode) ->
            job_mode_from_string smode = Some mode /\
            (exists verb, verb ∈ ["start"; "stop"; "reload"]%string /\
                          0 <= access verb) /\
            (t = JOB_START -> bu_refuse_manual_start u = false) /\
            (t = JOB_STOP -> bu_refuse_manual_stop u = false) /\
            (t = JOB_RESTART \/ t = JOB_TRY_RESTART ->
             bu_refuse_manual_start u = false /\
             bu_refuse_manual_stop u = false)) as Hgen.
  { intros type reload Hv. destruct (job_mode_from_string smode) as [mode0|];
      [|done].
    unfold bus_unit_queue_job. rewrite Hv. cbn [negb].
    set (type' := if reload && bu_can_reload u then _ else type).
    set (verb := (if bool_decide (type' = JOB_START)
                     || bool_decide (type' = JOB_RESTART)
                     || bool_decide (type' = JOB_TRY_RESTART) then "start"
                  else if bool_decide (type' = JOB_STOP) then "stop"
                  else "reload")%string).
    destruct (access verb <? 0) eqn:Hacc; [done|]. apply Z.ltb_ge in Hacc.
    destruct (bool_decide (type' = JOB_STOP) && bu_not_loaded u && _); [done|].
    match goal with
    | |- (if ?b then _ else _) = _ -> _ => destruct b eqn:Hrefuse; [done|]
    end.
    intros [= <- <-].
    split; [done|]. split.
    { exists verb. split; [|done]. clear. subst verb.
      repeat match goal with
             | |- (if ?b then _ else _) ∈ _ => destruct b
             end.
      all: repeat first [by left|right]. }
    apply orb_false_elim in Hrefuse as [Hrefuse H3].
    apply orb_false_elim in Hrefuse as [H1 H2].
    split; [|split].
    - intros Heq. rewrite Heq in H1. done.
    - intros Heq. rewrite Heq in H2. done.
    - intros Heq. apply andb_false_iff in H3 as [H3|H3].
      + destruct Heq as [Heq|Heq]; rewrite Heq in H3; done.
      + by apply orb_false_elim in H3. }
  destruct method; simpl; by apply Hgen.
Qed.

Lemma bus_unit_method_guards_witness :
  is_Some (bus_unit_method MethodStart (fun _ => 0)
             (mkBusUnit false false UNIT_INACTIVE false false) "fail") /\
  forall t mode,
    bus_unit_method MethodStart (fun _ => 0)
      (mkBusUnit false false UNIT_INACTIVE false false) "fail"
    = Some (ManagerAddJob t mode) ->
    job_mode_from_string "fail" = Some mode /\
    (exists verb, verb ∈ ["start"; "stop"; "reload"]%string /\
                  0 <= (fun _ : string => 0) verb) /\
    (t = JOB_START ->
     bu_refuse_manual_start (mkBusUnit false false UNIT_INACTIVE false false) = false) /\
    (t = JOB_STOP ->
     bu_refuse_manual_stop (mkBusUnit false false UNIT_INACTIVE false false) = false) /\
    (t = JOB_RESTART \/ t = JOB_TRY_RESTART ->
     bu_refuse_manual_start (mkBusUnit false false UNIT_INACTIVE false false) = false /\
     bu_refuse_manual_stop (mkBusUnit false false UNIT_INACTIVE false false) = false).
Proof.
  apply (bus_unit_method_guards MethodStart (fun _ => 0)
           (mkBusUnit false false UNIT_INACTIVE false false) "fail").
Defined.

(** ** Reading a line (fileio.c) *)






(** ** Job dependency links *)

Lemma list_of_insert (lists : gmap nat (list nat)) k v j :
  list_of (<[k := v]> lists) j = if decide (j = k) then v else list_of lists j.
Proof.
  unfold list_of. destruct (decide (j = k)) as [->|Hne].
  - by rewrite lookup_insert_eq.
  - by rewrite lookup_insert_ne.
Qed.

Lemma LIST_REMOVE_fresh l (q : list nat) : l ∉ q -> LIST_REMOVE l q = q.
Proof.
  intros Hl. unfold LIST_REMOVE. induction q as [|x q IH]; [done|].
  apply not_elem_of_cons in Hl as [Hx Hq].
  rewrite filter_cons_True by done. by rewrite IH.
Qed.

Lemma LIST_REMOVE_head l (q : list nat) :
  l ∉ q -> LIST_REMOVE l (l :: q) = q.
Proof.
  intros Hl. unfold LIST_REMOVE. rewrite filter_cons_False by (intros H; by apply H).
  by apply LIST_REMOVE_fresh.
Qed.

Lemma links_ok_fresh_object ls j :
  links_ok ls -> link_next ls ∉ list_of (object_list ls) j.
Proof.
  intros Hok Hin. apply (lo_object ls Hok) in Hin as (L & HL & _).
  apply (lo_fresh ls Hok) in HL. lia.
Qed.

Lemma links_ok_fresh_subject ls j :
  links_ok ls -> link_next ls ∉ list_of (subject_list ls) j.
Proof.
  intros Hok Hin. apply (lo_subject ls Hok) in Hin as (L & HL & _).
  apply (lo_fresh ls Hok) in HL. lia.
Qed.

Lemma job_dependency_new_ok subject object matters conflicts ls :
  links_ok ls ->
  links_ok (job_dependency_new subject object matters conflicts ls).2.
Proof.
  intros Hok. pose proof (links_ok_fresh_object ls) as Hfo.
  pose proof (links_ok_fresh_subject ls) as Hfs.
  unfold job_dependency_new. simpl. split; simpl.
  - intros l L. destruct (decide (l = link_next ls)) as [->|Hne]; [lia|].
    rewrite lookup_insert_ne by done. intros HL.
    apply (lo_fresh ls Hok) in HL. lia.
  - intros j l. rewrite list_of_insert.
    destruct (decide (l = link_next ls)) as [->|Hne].
    + rewrite lookup_insert_eq. destruct (decide (j = object)) as [->|Hj].
      * split; [eauto|]. intros _. by left.
      * split; [intros Hin; by apply Hfo in Hin|].
        intros (L & [= <-] & HL). simpl in HL. congruence.
    + rewrite lookup_insert_ne by done.
      destruct (decide (j = object)) as [->|Hj]; [|apply (lo_object ls Hok)].
      rewrite elem_of_cons. rewrite (lo_object ls Hok). tauto.
  - intros j l. destruct subject as [s|].
    + rewrite list_of_insert.
      destruct (decide (l = link_next ls)) as [->|Hne].
      * rewrite lookup_insert_eq. destruct (decide (j = s)) as [->|Hj].
        -- split; [eauto|]. intros _. by left.
        -- split; [intros Hin; by apply Hfs in Hin|].
           intros (L & [= <-] & HL). simpl in HL. congruence.
      * rewrite lookup_insert_ne by done.
        destruct (decide (j = s)) as [->|Hj]; [|apply (lo_subject ls Hok)].
        rewrite elem_of_cons. rewrite (lo_subject ls Hok). tauto.
    + destruct (decide (l = link_next ls)) as [->|Hne].
      * rewrite lookup_insert_eq.
        split; [intros Hin; by apply Hfs in Hin|].
        intros (L & [= <-] & HL). done.
      * rewrite lookup_insert_ne by done. apply (lo_subject ls Hok).
  - intros j. rewrite list_of_insert. destruct (decide (j = object)) as [->|Hj].
    + apply NoDup_cons. split; [by apply Hfo|apply (lo_object_nodup ls Hok)].
    + apply (lo_object_nodup ls Hok).
  - intros j. destruct subject as [s|]; [|apply (lo_subject_nodup ls Hok)].
    rewrite list_of_insert. destruct (decide (j = s)) as [->|Hj].
    + apply NoDup_cons. split; [by apply Hfs|apply (lo_subject_nodup ls Hok)].
    + apply (lo_subject_nodup ls Hok).
Qed.

Lemma job_dependency_free_ok l ls ls' :
  links_ok ls -> job_dependency_free l ls = Some ls' -> links_ok ls'.
Proof.
  intros Hok. unfold job_dependency_free.
  destruct (link_heap ls !! l) as [L|] eqn:HL; [|done]. intros [= <-].
  split; simpl.
  - intros l' L' [_ H]%lookup_delete_Some. by apply (lo_fresh ls Hok) in H.
  - intros j l'. rewrite list_of_insert.
    destruct (decide (j = l_object L)) as [->|Hj].
    + rewrite LIST_REMOVE_elem, (lo_object ls Hok). split.
      * intros [(L' & HL' & Ho) Hne]. exists L'. split; [|done].
        apply lookup_delete_Some. done.
      * intros (L' & [Hne HL']%lookup_delete_Some & Ho). eauto.
    + rewrite (lo_object ls Hok). split.
      * intros (L' & HL' & Ho). exists L'. split; [|done].
        apply lookup_delete_Some. split; [|done]. intros <-. congruence.
      * intros (L' & [Hne HL']%lookup_delete_Some & Ho). eauto.
  - intros j l'. destruct (l_subject L) as [s|] eqn:Hs.
    + rewrite list_of_insert. destruct (decide (j = s)) as [->|Hj].
      * rewrite LIST_REMOVE_elem, (lo_subject ls Hok). split.
        -- intros [(L' & HL' & Ho) Hne]. exists L'. split; [|done].
           apply lookup_delete_Some. done.
        -- intros (L' & [Hne HL']%lookup_delete_Some & Ho). eauto.
      * rewrite (lo_subject ls Hok). split.
        -- intros (L' & HL' & Ho). exists L'. split; [|done].
           apply lookup_delete_Some. split; [|done]. intros <-. congruence.
        -- intros (L' & [Hne HL']%lookup_delete_Some & Ho). eauto.
    + rewrite (lo_subject ls Hok). split.
      * intros (L' & HL' & Ho). exists L'. split; [|done].
        apply lookup_delete_Some. split; [|done]. intros <-. congruence.
      * intros (L' & [Hne HL']%lookup_delete_Some & Ho). eauto.
  - intros j. rewrite list_of_insert. destruct (decide (j = l_object L)).
    + apply NoDup_filter, (lo_object_nodup ls Hok).
    + apply (lo_object_nodup ls Hok).
  - intros j. destruct (l_subject L) as [s|]; [|apply (lo_subject_nodup ls Hok)].
    rewrite list_of_insert. destruct (decide (j = s)).
    + apply NoDup_filter, (lo_subject_nodup ls Hok).
    + apply (lo_subject_nodup ls Hok).
Qed.

(** X11: the links stay consistent.  From a consistent store,
    [job_dependency_new] and [job_dependency_free] lead to one: every
    link is once in the object list of its object and once in the
    subject list of its subject (in none for the anchor), and the lists
    hold no freed link. *)
Theorem job_dependency_links_stay_consistent ls :
  links_ok ls ->
  (forall subject object matters conflicts,
     links_ok (job_dependency_new subject object matters conflicts ls).2) /\
  (forall l ls', job_dependency_free l ls = Some ls' ->
     links_ok ls' /\ link_heap ls' !! l = None /\
     forall j, (l ∉ list_of (object_list ls') j) /\
               (l ∉ list_of (subject_list ls') j)).
Proof.
  intros Hok. split.
  - intros. by apply job_dependency_new_ok.
  - intros l ls' Hfree.
    pose proof (job_dependency_free_ok l ls ls' Hok Hfree) as Hok'.
    assert (link_heap ls' !! l = None) as Hnone.
    { unfold job_dependency_free in Hfree.
      destruct (link_heap ls !! l); [|done]. injection Hfree as <-.
      simpl. apply lookup_delete_eq. }
    split; [done|]. split; [done|]. intros j. split.
    + intros (L & HL & _)%(lo_object ls' Hok'). congruence.
    + intros (L & HL & _)%(lo_subject ls' Hok'). congruence.
Qed.

Lemma no_links_ok : links_ok no_links.
Proof.
  split; simpl; try done.
  - intros j l. unfold list_of. rewrite lookup_empty. simpl.
    split; [by intros ?%elem_of_nil|]. by intros (L & ? & _).
  - intros j l. unfold list_of. rewrite lookup_empty. simpl.
    split; [by intros ?%elem_of_nil|]. by intros (L & ? & _).
  - intros j. unfold list_of. rewrite lookup_empty. apply NoDup_nil_2.
  - intros j. unfold list_of. rewrite lookup_empty. apply NoDup_nil_2.
Qed.

Lemma job_dependency_links_stay_consistent_witness :
  (forall subject object matters conflicts,
     links_ok (job_dependency_new subject object matters conflicts no_links).2) /\
  (forall l ls', job_dependency_free l no_links = Some ls' ->
     links_ok ls' /\ link_heap ls' !! l = None /\
     forall j, (l ∉ list_of (object_list ls') j) /\
               (l ∉ list_of (subject_list ls') j)).
Proof.
  apply (job_dependency_links_stay_consistent no_links).
  apply no_links_ok.
Defined.

(** X12: a link that was just made can be freed, and freeing it undoes
    the making: the link store and the two lists of every job are as
    before. *)
Theorem job_dependency_new_then_free subject object matters conflicts ls :
  links_ok ls ->
  exists ls',
    job_dependency_free
      (job_dependency_new subject object matters conflicts ls).1
      (job_dependency_new subject object matters conflicts ls).2 = Some ls' /\
    link_heap ls' = link_heap ls /\
    forall j, list_of (object_list ls') j = list_of (object_list ls) j /\
              list_of (subject_list ls') j = list_of (subject_list ls) j.
Proof.
  intros Hok. pose proof (links_ok_fresh_object ls) as Hfo.
  pose proof (links_ok_fresh_subject ls) as Hfs.
  unfold job_dependency_new, job_dependency_free. simpl.
  rewrite lookup_insert_eq. simpl. eexists. split; [done|]. simpl. split.
  - rewrite delete_insert_eq. apply delete_id.
    destruct (link_heap ls !! link_next ls) as [L|] eqn:HL; [|done].
    apply (lo_fresh ls Hok) in HL. lia.
  - intros j. split.
    + rewrite !list_of_insert. destruct (decide (j = object)) as [->|]; [|done].
      rewrite decide_True by done. apply LIST_REMOVE_head, Hfo, Hok.
    + destruct subject as [s|]; [|done].
      rewrite !list_of_insert. destruct (decide (j = s)) as [->|]; [|done].
      rewrite decide_True by done. apply LIST_REMOVE_head, Hfs, Hok.
Qed.

Lemma job_dependency_new_then_free_witness :
  exists ls',
    job_dependency_free
      (job_dependency_new (Some 1%nat) 2%nat true false no_links).1
      (job_dependency_new (Some 1%nat) 2%nat true false no_links).2 = Some ls' /\
    link_heap ls' = link_heap no_links /\
    forall j, list_of (object_list ls') j = list_of (object_list no_links) j /\
              list_of (subject_list ls') j = list_of (subject_list no_links) j.
Proof.
  apply (job_dependency_new_then_free (Some 1%nat) 2%nat true false no_links).
  apply no_links_ok.
Defined.

(** ** The finish kernel: more of what it guarantees *)

(** On a well-formed manager an installed job has a type of the
    transaction range. *)
Lemma wf_installed_range m j J :
  WF m -> job_heap m !! j = Some J -> j_installed J = true ->
  JobType_to_Z (j_type J) < _JOB_TYPE_MAX_IN_TRANSACTION.
Proof.
  intros Hwf Hj Hi. destruct (wf_installed Hwf j J Hj Hi) as (U & HU & Hslot).
  unfold unit_slot in Hslot. destruct (decide (j_type J = JOB_NOP)) as [->|Hne].
  - by vm_compute.
  - destruct (wf_regular_slot Hwf _ U j HU Hslot) as (J' & HJ' & _ & _ & _ & Hr).
    by simplify_eq.
Qed.









(** ** Running a job: what becomes of it *)

Lemma job_set_state_units j s m :
  wlp (job_set_state j s) (fun _ m' => units m' = units m) m.
Proof. unfold job_set_state. wp_run; done. Qed.

Lemma job_add_to_dbus_queue_units j m :
  wlp (job_add_to_dbus_queue j) (fun _ m' => units m' = units m) m.
Proof. unfold job_add_to_dbus_queue. wp_run; done. Qed.

(** [run_to_primitive], with the units kept track of. *)
Ltac run_to_switch m j J U :=
  unfold job_run_and_invalidate;
  do 12 wp_next; try done; try (bool_hyps; simpl in *; lia);
  lookup_simpl; cbn [negb];
  lazymatch goal with
  | |- wpg _ _ _ ?m1 =>
      let Hwf1 := fresh "Hwf1" in
      let Hj1 := fresh "Hj1" in
      let Hc1 := fresh "Hc1" in
      assert (WF m1) as Hwf1
        by (unfold WF; msimpl; by eapply WF'_update_job);
      assert (job_heap m1 !! j = Some (set_j_in_run_queue false J)) as Hj1
        by (msimpl; apply lookup_insert_eq);
      assert (changes (fun _ _ => False) (Some j) m m1) as Hc1 by solve_touch;
      let b := fresh "b" in
      let Hb := fresh "Hb" in
      let Hiff := fresh "Hiff" in
      destruct (job_is_runnable_spec m1 j _ U Hwf1 Hj1) as (b & Hb & Hiff);
        [done..|];
      assert (b = true) as ->
        by (apply Hiff; msimpl; by eapply runnable_rule_update);
      apply wpg_bind, wp_Done; exists true, m1; split; [done|];
      cbn [negb];
      apply wpg_bind; eapply wpg_mono;
        [apply wp_and_wlp;
           [eapply (job_set_state_full j _ JOB_RUNNING m1);
              [done|done|intros _; msimpl; lia]
           |apply wlp_and;
              [apply job_set_state_units
              |eapply (job_set_state_sig j); exact Hj1]]|];
      cbv beta;
      let m2 := fresh "m2" in
      let Hwf2 := fresh "Hwf2" in
      let Hjobs2 := fresh "Hjobs2" in
      let Hc2 := fresh "Hc2" in
      let J2 := fresh "J2" in
      let Hj2 := fresh "Hj2" in
      let Hu2 := fresh "Hu2" in
      let J2' := fresh "J2'" in
      let Hj2' := fresh "Hj2'" in
      let Hsig2 := fresh "Hsig2" in
      let Hq2 := fresh "Hq2" in
      intros ? m2 [(Hwf2 & Hjobs2 & Hc2 & J2 & Hj2 & ? & ? & ? & ? & ?)
                   [Hu2 (_ & J2' & Hj2' & Hsig2)]];
      assert (j_in_run_queue J2 = false) as Hq2
        by (rewrite Hj2 in Hj2'; injection Hj2' as <-;
            unfold job_sig in Hsig2; by injection Hsig2);
      clear J2' Hj2' Hsig2;
      apply wpg_bind; eapply wpg_mono;
        [apply wp_and_wlp;
           [eapply (job_add_to_dbus_queue_full j J2 m2);
              [done|done|msimpl; congruence]
           |apply job_add_to_dbus_queue_units]|];
      cbv beta;
      let m3 := fresh "m3" in
      let Hwf3 := fresh "Hwf3" in
      let Hjobs3 := fresh "Hjobs3" in
      let Hc3 := fresh "Hc3" in
      let J3 := fresh "J3" in
      let Hj3 := fresh "Hj3" in
      let Hsig := fresh "Hsig" in
      let Hu3 := fresh "Hu3" in
      intros ? m3 [(Hwf3 & Hjobs3 & Hc3 & J3 & Hj3 & Hsig) Hu3];
      unfold job_sig in Hsig; injection Hsig as ? ? ? ? ? ?; msimpl
  | |- _ => idtac
  end.

(** The chain of tests after the switch, for a code that finishes the
    job. *)
Lemma dispatch_finishes (j : nat) r result (Q : Z -> Manager -> Prop) m :
  result_of_errno r = Some result ->
  wp (job_finish_and_invalidate j result true (bool_decide (r = - EALREADY))) Q m ->
  wp (if decide (r = - EALREADY) then job_finish_and_invalidate j JOB_DONE true true
      else if decide (r = - EBADR) then job_finish_and_invalidate j JOB_SKIPPED true false
      else if decide (r = - ENOEXEC) then job_finish_and_invalidate j JOB_INVALID true false
      else if decide (r = - EPROTO) then job_finish_and_invalidate j JOB_ASSERT true false
      else if decide (r = - ENOTSUP) then job_finish_and_invalidate j JOB_UNSUPPORTED true false
      else if decide (r = - EAGAIN) then job_set_state j JOB_WAITING;; mret r
      else if r <? 0 then job_finish_and_invalidate j JOB_FAILED true false
      else mret r) Q m.
Proof.
  unfold result_of_errno.
  destruct (decide (r = - EALREADY)) as [->|Hne].
  { intros [= <-]. by rewrite bool_decide_eq_true_2. }
  rewrite (bool_decide_eq_false_2 _ Hne).
  repeat (destruct (decide _); [by intros [= <-]|]).
  destruct (r <? 0); [by intros [= <-]|done].
Qed.

(** Finishing a restart job with [JOB_DONE] patches it. *)
Lemma wlp_patches_restart j J result recursive already m :
  job_heap m !! j = Some J -> queued_if_marked j m ->
  wlp (job_finish_and_invalidate j result recursive already)
    (fun _ m' => result = JOB_DONE /\ j_type J = JOB_RESTART ->
                 patched j (j_id J) m') m.
Proof.
  intros Hj Hq.
  destruct (decide (result = JOB_DONE /\ j_type J = JOB_RESTART)) as [[-> Ht]|Hno].
  - unfold job_finish_and_invalidate, wpg. eapply wpg_mono.
    + by apply (job_finish_and_invalidate_rec_patches _ j J).
    + done.
  - apply wlp_intro. intros ? ? _ ?. done.
Qed.

Section run.
Context (vt : UnitVTable) (m : Manager) (j : nat) (J : Job) (U : Unit).
Hypothesis Hwf : WF m.
Hypothesis Hj : job_heap m !! j = Some J.
Hypothesis Hi : j_installed J = true.
Hypothesis Hq : j_in_run_queue J = true.
Hypothesis Hs : j_state J = JOB_WAITING.
Hypothesis HU : units m !! j_unit J = Some U.
Hypothesis Hrun : runnable_rule (units m) (job_heap m) (j_ignore_order J) (j_type J) U.
Hypothesis Hid : jobs m !! j_id J = Some j.
Hypothesis Hn : n_running_jobs m + 1 < 2 ^ 32.

(** The code of the switch decides: a code with a result finishes the
    job with it. *)
Lemma job_run_and_invalidate_switch_finishes code result :
  (forall m3 (Q : Z -> Manager -> Prop),
     units m3 = units m -> Q code m3 ->
     wp (match j_type J with
         | JOB_START =>
             r ← unit_start vt (j_unit J);
             mret (if decide (r = - EBADR) then 0 else r)
         | JOB_VERIFY_ACTIVE =>
             U ← get_unit (j_unit J);
             if UNIT_IS_ACTIVE_OR_RELOADING (u_active_state U) then mret (- EALREADY)
             else if decide (u_active_state U = UNIT_ACTIVATING) then mret (- EAGAIN)
             else mret (- EBADR)
         | JOB_STOP | JOB_RESTART =>
             r ← unit_stop vt (j_unit J);
             mret (if decide (r = - EBADR) then 0 else r)
         | JOB_RELOAD => unit_reload vt (j_unit J)
         | JOB_NOP => mret (- EALREADY)
         | _ => abort
         end) Q m3) ->
  result_of_errno code = Some result ->
  wp (job_run_and_invalidate vt j)
    (fun r m' => r = 0 /\ WF m' /\
       logged m m' (EvJobFinished j (j_unit J) (j_type J) result) /\
       (~ (result = JOB_DONE /\ j_type J = JOB_RESTART) ->
        job_is_installed m' j = false) /\
       (result = JOB_DONE /\ j_type J = JOB_RESTART ->
        patched j (j_id J) m')) m.
Proof.
  intros Hswitch Hres.
  pose proof (wf_installed_range m j J Hwf Hj Hi) as Hlt.
  run_to_switch m j J U.
  assert (jobs m3 !! j_id J = Some j) as Hid3 by (rewrite Hjobs3, Hjobs2; done).
  apply wpg_bind, Hswitch; [by rewrite Hu3, Hu2|].
  unfold manager_get_job. do 2 wp_step. rewrite Hid3.
  apply dispatch_finishes with (result := result); [done|].
  eapply wpg_mono.
  { apply wp_and_wlp.
    - eapply (job_finish_and_invalidate_spec False j J3);
        [done|done|congruence|congruence].
    - apply (wlp_patches_restart j J3 result); [done|].
      intros J' HJ' Hq'. simplify_eq. congruence. }
  cbv beta. intros r m4 [(-> & Hwf4 & _ & _ & Hpost) Hpatch].
  destruct (Hpost J3 Hj3) as [Hlog Hinst]. split; [done|]. split; [done|].
  split; [|split].
  - eapply changes_logged; [|eapply changes_logged; [|eapply changes_logged]];
      [exact Hc1|exact Hc2|exact Hc3|].
    replace (j_unit J) with (j_unit J3) by congruence.
    replace (j_type J) with (j_type J3) by congruence. done.
  - intros Hno. apply Hinst. intros [? ?]. apply Hno. split; [done|congruence].
  - intros [? ?]. replace (j_id J) with (j_id J3) by congruence.
    apply Hpatch. split; [done|congruence].
Qed.

(** A code without a result leaves the job installed: running, or
    waiting again after [-EAGAIN]. *)
Lemma job_run_and_invalidate_switch_keeps code :
  (forall m3 (Q : Z -> Manager -> Prop),
     units m3 = units m -> Q code m3 ->
     wp (match j_type J with
         | JOB_START =>
             r ← unit_start vt (j_unit J);
             mret (if decide (r = - EBADR) then 0 else r)
         | JOB_VERIFY_ACTIVE =>
             U ← get_unit (j_unit J);
             if UNIT_IS_ACTIVE_OR_RELOADING (u_active_state U) then mret (- EALREADY)
             else if decide (u_active_state U = UNIT_ACTIVATING) then mret (- EAGAIN)
             else mret (- EBADR)
         | JOB_STOP | JOB_RESTART =>
             r ← unit_stop vt (j_unit J);
             mret (if decide (r = - EBADR) then 0 else r)
         | JOB_RELOAD => unit_reload vt (j_unit J)
         | JOB_NOP => mret (- EALREADY)
         | _ => abort
         end) Q m3) ->
  result_of_errno code = None ->
  wp (job_run_and_invalidate vt j)
    (fun r m' => r = code /\ WF m' /\
       (exists J', job_heap m' !! j = Some J' /\ j_installed J' = true /\
          j_type J' = j_type J /\
          j_state J' = if decide (code = - EAGAIN) then JOB_WAITING
                       else JOB_RUNNING) /\
       forall p u t r', ~ logged m m' (EvJobFinished p u t r')) m.
Proof.
  intros Hswitch Hres.
  pose proof (wf_installed_range m j J Hwf Hj Hi) as Hlt.
  run_to_switch m j J U.
  assert (jobs m3 !! j_id J = Some j) as Hid3 by (rewrite Hjobs3, Hjobs2; done).
  apply wpg_bind, Hswitch; [by rewrite Hu3, Hu2|].
  unfold manager_get_job. do 2 wp_step. rewrite Hid3.
  unfold result_of_errno in Hres.
  repeat (destruct (decide _); [done|]).
  destruct (decide (code = - EAGAIN)) as [->|Hne].
  - apply wpg_bind. eapply wpg_mono.
    { eapply (job_set_state_full j J3 JOB_WAITING m3); [done|done|done]. }
    cbv beta. intros ? m4 (Hwf4 & _ & Hc4 & J4 & Hj4 & ? & ? & ? & ? & ?).
    apply wpg_ret. split; [done|]. split; [done|]. split.
    + exists J4. split; [done|]. split; [congruence|]. split; [congruence|done].
    + intros p u t r'. apply changes_nothing_finished with (ex := Some j).
      eauto using changes_trans.
  - destruct (code <? 0); [done|]. apply wpg_ret.
    split; [done|]. split; [done|]. split.
    + exists J3. split; [done|]. split; [congruence|]. split; [congruence|].
      congruence.
    + intros p u t r'. apply changes_nothing_finished with (ex := Some j).
      eauto using changes_trans.
Qed.

(** The switch, for a job whose type has a primitive that returns [r0]
    and leaves the manager alone. *)
Lemma switch_of_operation op r0 :
  unit_operation vt (j_type J) = Some op ->
  (forall m1, op (j_unit J) m1 = Done r0 m1) ->
  forall m3 (Q : Z -> Manager -> Prop),
    units m3 = units m -> Q (operation_code (j_type J) r0) m3 ->
    wp (match j_type J with
        | JOB_START =>
            r ← unit_start vt (j_unit J);
            mret (if decide (r = - EBADR) then 0 else r)
        | JOB_VERIFY_ACTIVE =>
            U ← get_unit (j_unit J);
            if UNIT_IS_ACTIVE_OR_RELOADING (u_active_state U) then mret (- EALREADY)
            else if decide (u_active_state U = UNIT_ACTIVATING) then mret (- EAGAIN)
            else mret (- EBADR)
        | JOB_STOP | JOB_RESTART =>
            r ← unit_stop vt (j_unit J);
            mret (if decide (r = - EBADR) then 0 else r)
        | JOB_RELOAD => unit_reload vt (j_unit J)
        | JOB_NOP => mret (- EALREADY)
        | _ => abort
        end) Q m3.
Proof.
  intros Hop Hprim m3 Q _ HQ. unfold unit_operation, operation_code in *.
  destruct (j_type J); try done; injection Hop as <-.
  - apply wpg_bind, wp_Done. exists r0, m3. split; [apply Hprim|]. by apply wpg_ret.
  - apply wpg_bind, wp_Done. exists r0, m3. split; [apply Hprim|]. by apply wpg_ret.
  - apply wp_Done. exists r0, m3. split; [apply Hprim|]. done.
  - apply wpg_bind, wp_Done. exists r0, m3. split; [apply Hprim|]. by apply wpg_ret.
Qed.

(** The switch, for a verify-active job and for a nop job. *)
Lemma switch_of_state code :
  (j_type J = JOB_VERIFY_ACTIVE /\
   code = (if UNIT_IS_ACTIVE_OR_RELOADING (u_active_state U) then - EALREADY
           else if decide (u_active_state U = UNIT_ACTIVATING) then - EAGAIN
           else - EBADR)) \/
  (j_type J = JOB_NOP /\ code = - EALREADY) ->
  forall m3 (Q : Z -> Manager -> Prop),
    units m3 = units m -> Q code m3 ->
    wp (match j_type J with
        | JOB_START =>
            r ← unit_start vt (j_unit J);
            mret (if decide (r = - EBADR) then 0 else r)
        | JOB_VERIFY_ACTIVE =>
            U ← get_unit (j_unit J);
            if UNIT_IS_ACTIVE_OR_RELOADING (u_active_state U) then mret (- EALREADY)
            else if decide (u_active_state U = UNIT_ACTIVATING) then mret (- EAGAIN)
            else mret (- EBADR)
        | JOB_STOP | JOB_RESTART =>
            r ← unit_stop vt (j_unit J);
            mret (if decide (r = - EBADR) then 0 else r)
        | JOB_RELOAD => unit_reload vt (j_unit J)
        | JOB_NOP => mret (- EALREADY)
        | _ => abort
        end) Q m3.
Proof.
  intros [[Ht ->]|[Ht ->]] m3 Q Hu HQ; rewrite Ht.
  - apply wpg_bind, wpg_get_unit. rewrite Hu, HU.
    destruct (UNIT_IS_ACTIVE_OR_RELOADING (u_active_state U)); [by apply wpg_ret|].
    destruct (decide (u_active_state U = UNIT_ACTIVATING)); by apply wpg_ret.
  - by apply wpg_ret.
Qed.
End run.

(** X16: a waiting, runnable job taken from the run queue whose unit
    operation fails is finished with the result that belongs to the
    error: [-EALREADY] gives [done], [-EBADR] (from reload only; for
    start and stop it counts as 0) [skipped], [-ENOEXEC] [invalid],
    [-EPROTO] [assert], [-ENOTSUP] [unsupported], every other negative
    code but [-EAGAIN] [failed].  [job_run_and_invalidate] then returns
    0, not the error.  The finished job leaves its slot, with one
    exception: a restart job whose stop operation returns [-EALREADY]
    is finished with [done] and so patched: it stays installed, as a
    waiting start job with the same id, back in the run queue. *)
Theorem job_run_and_invalidate_finishes_failed_operation
    vt m j J U op r0 result :
  WF m -> job_heap m !! j = Some J -> j_installed J = true ->
  j_in_run_queue J = true -> j_state J = JOB_WAITING ->
  units m !! j_unit J = Some U ->
  runnable_rule (units m) (job_heap m) (j_ignore_order J) (j_type J) U ->
  jobs m !! j_id J = Some j ->
  n_running_jobs m + 1 < 2 ^ 32 ->
  unit_operation vt (j_type J) = Some op ->
  (forall m1, op (j_unit J) m1 = Done r0 m1) ->
  result_of_errno (operation_code (j_type J) r0) = Some result ->
  exists m',
    job_run_and_invalidate vt j m = Done 0 m' /\ WF m' /\
    logged m m' (EvJobFinished j (j_unit J) (j_type J) result) /\
    if bool_decide (result = JOB_DONE /\ j_type J = JOB_RESTART)
    then patched j (j_id J) m'
    else job_is_installed m' j = false.
Proof.
  intros Hwf Hj Hi Hq Hs HU Hrun Hid Hn Hop Hprim Hres.
  assert (wp (job_run_and_invalidate vt j)
            (fun r m' => r = 0 /\ WF m' /\
               logged m m' (EvJobFinished j (j_unit J) (j_type J) result) /\
               (~ (result = JOB_DONE /\ j_type J = JOB_RESTART) ->
                job_is_installed m' j = false) /\
               (result = JOB_DONE /\ j_type J = JOB_RESTART ->
                patched j (j_id J) m')) m) as Hwp.
  { eapply (job_run_and_invalidate_switch_finishes vt m j J U
              Hwf Hj Hi Hq Hs HU Hrun Hid Hn
              (operation_code (j_type J) r0) result); [|done].
    eapply switch_of_operation; eassumption. }
  apply wp_Done in Hwp as (r & m' & Hrun' & -> & Hwf' & Hlog & Hgone & Hpatch).
  exists m'. do 3 (split; [done|]).
  destruct (bool_decide (result = JOB_DONE /\ j_type J = JOB_RESTART)) eqn:Hb.
  - apply bool_decide_eq_true in Hb. by apply Hpatch.
  - apply bool_decide_eq_false in Hb. by apply Hgone.
Qed.

Lemma job_run_and_invalidate_finishes_failed_operation_witness :
  (exists m',
     job_run_and_invalidate (constant_vtable (- ENOEXEC)) 0
       (queued_scenario JOB_START) = Done 0 m' /\ WF m' /\
     logged (queued_scenario JOB_START) m'
       (EvJobFinished 0 0 JOB_START JOB_INVALID) /\
     if bool_decide (JOB_INVALID = JOB_DONE /\ JOB_START = JOB_RESTART)
     then patched 0 1 m'
     else job_is_installed m' 0 = false) /\
  (exists m',
     job_run_and_invalidate (constant_vtable (- EALREADY)) 0
       (queued_scenario JOB_RESTART) = Done 0 m' /\ WF m' /\
     logged (queued_scenario JOB_RESTART) m'
       (EvJobFinished 0 0 JOB_RESTART JOB_DONE) /\
     if bool_decide (JOB_DONE = JOB_DONE /\ JOB_RESTART = JOB_RESTART)
     then patched 0 1 m'
     else job_is_installed m' 0 = false).
Proof.
  split.
  - apply (job_run_and_invalidate_finishes_failed_operation
             (constant_vtable (- ENOEXEC)) (queued_scenario JOB_START) 0
             (set_j_in_run_queue true (example_job 0 1 JOB_START JOB_WAITING))
             (example_unit (Some 0%nat) no_dependencies)
             (fun _ => mret (- ENOEXEC)) (- ENOEXEC) JOB_INVALID).
    + apply (bool_decide_unpack (WF (queued_scenario JOB_START))).
      vm_compute. exact I.
    + reflexivity.
    + reflexivity.
    + reflexivity.
    + reflexivity.
    + reflexivity.
    + right; right. split; [|by intros ? ? ? ? ?%elem_of_nil]. intros _ o O Ho.
      by apply elem_of_nil in Ho.
    + reflexivity.
    + vm_compute. reflexivity.
    + reflexivity.
    + reflexivity.
    + reflexivity.
  - apply (job_run_and_invalidate_finishes_failed_operation
             (constant_vtable (- EALREADY)) (queued_scenario JOB_RESTART) 0
             (set_j_in_run_queue true (example_job 0 1 JOB_RESTART JOB_WAITING))
             (example_unit (Some 0%nat) no_dependencies)
             (fun _ => mret (- EALREADY)) (- EALREADY) JOB_DONE).
    + apply (bool_decide_unpack (WF (queued_scenario JOB_RESTART))).
      vm_compute. exact I.
    + reflexivity.
    + reflexivity.
    + reflexivity.
    + reflexivity.
    + reflexivity.
    + right; right. split; [|by intros ? ? ? ? ?%elem_of_nil]. intros _ o O Ho.
      by apply elem_of_nil in Ho.
    + reflexivity.
    + vm_compute. reflexivity.
    + reflexivity.
    + reflexivity.
    + reflexivity.
Defined.



(** X18: a verify-active job needs no unit operation: taken from the run
    queue it is finished with [done] when its unit is active or
    reloading and with [skipped] when the unit is in any other state but
    activating; while the unit is activating it stays installed, waiting
    again, and [-EAGAIN] is returned.  A nop job is finished with [done]
    at once. *)
Theorem job_run_and_invalidate_without_operation vt m j J U :
  WF m -> job_heap m !! j = Some J -> j_installed J = true ->
  j_in_run_queue J = true -> j_state J = JOB_WAITING ->
  units m !! j_unit J = Some U ->
  runnable_rule (units m) (job_heap m) (j_ignore_order J) (j_type J) U ->
  jobs m !! j_id J = Some j ->
  n_running_jobs m + 1 < 2 ^ 32 ->
  j_type J = JOB_VERIFY_ACTIVE \/ j_type J = JOB_NOP ->
  if bool_decide (j_type J = JOB_VERIFY_ACTIVE)
     && bool_decide (u_active_state U = UNIT_ACTIVATING)
  then
    exists m' J',
      job_run_and_invalidate vt j m = Done (- EAGAIN) m' /\
      job_heap m' !! j = Some J' /\ j_installed J' = true /\
      j_state J' = JOB_WAITING /\
      forall p u t r, ~ logged m m' (EvJobFinished p u t r)
  else
    exists m',
      job_run_and_invalidate vt j m = Done 0 m' /\
      logged m m'
        (EvJobFinished j (j_unit J) (j_type J)
           (if bool_decide (j_type J = JOB_NOP)
               || UNIT_IS_ACTIVE_OR_RELOADING (u_active_state U)
            then JOB_DONE else JOB_SKIPPED)) /\
      job_is_installed m' j = false.
Proof.
  intros Hwf Hj Hi Hq Hs HU Hrun Hid Hn Ht.
  set (code := if bool_decide (j_type J = JOB_NOP) then - EALREADY
               else if UNIT_IS_ACTIVE_OR_RELOADING (u_active_state U) then - EALREADY
               else if decide (u_active_state U = UNIT_ACTIVATING) then - EAGAIN
               else - EBADR).
  assert ((j_type J = JOB_VERIFY_ACTIVE /\
           code = (if UNIT_IS_ACTIVE_OR_RELOADING (u_active_state U) then - EALREADY
                   else if decide (u_active_state U = UNIT_ACTIVATING) then - EAGAIN
                   else - EBADR)) \/
          (j_type J = JOB_NOP /\ code = - EALREADY)) as Hcode.
  { unfold code. destruct Ht as [Ht|Ht]; rewrite Ht; [left|right]; done. }
  assert (forall m3 (Q : Z -> Manager -> Prop),
            units m3 = units m -> Q code m3 ->
            wp (match j_type J with
                | JOB_START =>
                    r ← unit_start vt (j_unit J);
                    mret (if decide (r = - EBADR) then 0 else r)
                | JOB_VERIFY_ACTIVE =>
                    U ← get_unit (j_unit J);
                    if UNIT_IS_ACTIVE_OR_RELOADING (u_active_state U) then mret (- EALREADY)
                    else if decide (u_active_state U = UNIT_ACTIVATING) then mret (- EAGAIN)
                    else mret (- EBADR)
                | JOB_STOP | JOB_RESTART =>
                    r ← unit_stop vt (j_unit J);
                    mret (if decide (r = - EBADR) then 0 else r)
                | JOB_RELOAD => unit_reload vt (j_unit J)
                | JOB_NOP => mret (- EALREADY)
                | _ => abort
                end) Q m3) as Hswitch.
  { eapply switch_of_state; eassumption. }
  destruct (bool_decide (j_type J = JOB_VERIFY_ACTIVE)
            && bool_decide (u_active_state U = UNIT_ACTIVATING)) eqn:Hact.
  - apply andb_prop in Hact as [Hva%bool_decide_eq_true Hst%bool_decide_eq_true].
    assert (code = - EAGAIN) as Hc.
    { unfold code. rewrite Hva, Hst. done. }
    rewrite Hc in Hswitch.
    pose proof (job_run_and_invalidate_switch_keeps vt m j J U
      Hwf Hj Hi Hq Hs HU Hrun Hid Hn _ Hswitch eq_refl) as Hwp.
    apply wp_Done in Hwp as (r & m' & Hrun' & -> & Hwf' & (J' & ? & ? & ? & HsJ') & ?).
    exists m', J'. rewrite decide_True in HsJ' by done. done.
  - set (result := if bool_decide (j_type J = JOB_NOP)
                      || UNIT_IS_ACTIVE_OR_RELOADING (u_active_state U)
                   then JOB_DONE else JOB_SKIPPED).
    assert (result_of_errno code = Some result) as Hres.
    { unfold code, result. destruct (bool_decide (j_type J = JOB_NOP)) eqn:Hnop; [done|].
      simpl. destruct (UNIT_IS_ACTIVE_OR_RELOADING (u_active_state U)); [done|].
      destruct (decide (u_active_state U = UNIT_ACTIVATING)) as [Hst|]; [|done].
      destruct Ht as [Ht|Ht].
      + rewrite Ht, Hst in Hact. done.
      + apply bool_decide_eq_false_1 in Hnop. done. }
    pose proof (job_run_and_invalidate_switch_finishes vt m j J U
      Hwf Hj Hi Hq Hs HU Hrun Hid Hn _ result Hswitch Hres) as Hwp.
    apply wp_Done in Hwp as (r & m' & Hrun' & -> & _ & Hlog & Hinst & _).
    exists m'. split; [done|]. split; [done|]. apply Hinst.
    intros [_ Hre]. destruct Ht; congruence.
Qed.

Lemma job_run_and_invalidate_without_operation_witness :
  exists m',
    job_run_and_invalidate (constant_vtable 0) 0
      (queued_scenario JOB_VERIFY_ACTIVE) = Done 0 m' /\
    logged (queued_scenario JOB_VERIFY_ACTIVE) m'
      (EvJobFinished 0 0 JOB_VERIFY_ACTIVE
         (if bool_decide (JOB_VERIFY_ACTIVE = JOB_NOP)
             || UNIT_IS_ACTIVE_OR_RELOADING
                  (u_active_state (example_unit (Some 0%nat) no_dependencies))
          then JOB_DONE else JOB_SKIPPED)) /\
    job_is_installed m' 0 = false.
Proof.
  apply (job_run_and_invalidate_without_operation
           (constant_vtable 0) (queued_scenario JOB_VERIFY_ACTIVE) 0
           (set_j_in_run_queue true (example_job 0 1 JOB_VERIFY_ACTIVE JOB_WAITING))
           (example_unit (Some 0%nat) no_dependencies)).
  - apply (bool_decide_unpack (WF (queued_scenario JOB_VERIFY_ACTIVE))).
    vm_compute. exact I.
  - reflexivity.
  - reflexivity.
  - reflexivity.
  - reflexivity.
  - reflexivity.
  - right; right. split; [|by intros ? ? ? ? ?%elem_of_nil]. intros _ o O Ho.
    by apply elem_of_nil in Ho.
  - reflexivity.
  - vm_compute. reflexivity.
  - by left.
Defined.

(** ** Jobs that are only taken off the run queue *)

Lemma runnable_rule_same_type us h j J J' io t U :
  h !! j = Some J -> j_type J' = j_type J ->
  runnable_rule us (<[j := J']> h) io t U -> runnable_rule us h io t U.
Proof.
  intros Hj Ht Hr.
  assert (h = <[j := J]> (<[j := J']> h)) as ->
    by (by rewrite insert_insert_eq, insert_id).
  eapply runnable_rule_update; [apply lookup_insert_eq|done|done].
Qed.

(** X19: a job taken from the run queue that is not waiting, or is
    waiting but not runnable yet, is only taken off the queue: the
    manager is otherwise as it was, whatever the unit kind, and the
    return value is 0 for a job that is not waiting and [-EAGAIN] for
    one that is not runnable. *)
Theorem job_run_and_invalidate_only_dequeues vt m j J U :
  WF m -> job_heap m !! j = Some J -> j_installed J = true ->
  j_in_run_queue J = true -> units m !! j_unit J = Some U ->
  j_state J ≠ JOB_WAITING \/
  ~ runnable_rule (units m) (job_heap m) (j_ignore_order J) (j_type J) U ->
  job_run_and_invalidate vt j m =
    Done (if decide (j_state J = JOB_WAITING) then - EAGAIN else 0)
      (set_job_heap (<[j := set_j_in_run_queue false J]> (job_heap m))
         (set_run_queue (LIST_REMOVE j (run_queue m)) m)).
Proof.
  intros Hwf Hj Hi Hq HU Hcase.
  pose proof (wf_installed_range m j J Hwf Hj Hi) as Hlt.
  set (m1 := set_job_heap _ _).
  assert (wp (job_run_and_invalidate vt j)
            (fun r m' => r = (if decide (j_state J = JOB_WAITING) then - EAGAIN else 0)
                         /\ m' = m1) m) as Hwp.
  { unfold job_run_and_invalidate.
    do 12 wp_next; try done; try (bool_hyps; simpl in *; lia).
    lookup_simpl.
    destruct (decide (j_state J = JOB_WAITING)) as [Hs|Hs].
    - rewrite (bool_decide_eq_true_2 _ Hs). cbn [negb].
      destruct Hcase as [?|Hnr]; [done|].
      assert (WF m1) as Hwf1
        by (unfold WF, m1; msimpl; by eapply WF'_update_job).
      assert (job_heap m1 !! j = Some (set_j_in_run_queue false J)) as Hj1
        by (unfold m1; msimpl; apply lookup_insert_eq).
      destruct (job_is_runnable_spec m1 j _ U Hwf1 Hj1) as (b & Hb & Hiff);
        [done..|].
      assert (b = false) as ->.
      { destruct b; [|done]. exfalso. apply Hnr.
        eapply (runnable_rule_same_type _ _ j J); [done| |by apply Hiff]. done. }
      apply wpg_bind, wp_Done. exists false, m1. split; [done|]. by apply wpg_ret.
    - rewrite (bool_decide_eq_false_2 _ Hs). cbn [negb]. by apply wpg_ret. }
  apply wp_Done in Hwp as (r & m' & Hrun & -> & ->). done.
Qed.

Lemma job_run_and_invalidate_only_dequeues_witness :
  job_run_and_invalidate (constant_vtable 0) 0 running_queued_scenario =
    Done (if decide
               (j_state (set_j_in_run_queue true
                           (example_job 0 1 JOB_START JOB_RUNNING)) = JOB_WAITING)
          then - EAGAIN else 0)
      (set_job_heap
         (<[0%nat := set_j_in_run_queue false
                       (set_j_in_run_queue true
                          (example_job 0 1 JOB_START JOB_RUNNING))]>
            (job_heap running_queued_scenario))
         (set_run_queue (LIST_REMOVE 0 (run_queue running_queued_scenario))
            running_queued_scenario)).
Proof.
  apply (job_run_and_invalidate_only_dequeues (constant_vtable 0)
           running_queued_scenario 0
           (set_j_in_run_queue true (example_job 0 1 JOB_START JOB_RUNNING))
           (example_unit (Some 0%nat) no_dependencies)).
  - apply (bool_decide_unpack (WF running_queued_scenario)). vm_compute. exact I.
  - reflexivity.
  - reflexivity.
  - reflexivity.
  - reflexivity.
  - left. simpl. discriminate.
Defined.

(** ** Installing a job *)

(** Putting a job that is not installed into the empty slot of its
    unit; the counter follows if the job is running. *)
Lemma WF'_install us h n j J U J' :
  WF' us h n -> h !! j = Some J -> j_installed J = false ->
  us !! j_unit J = Some U -> unit_slot (j_type J) U = None ->
  JobType_to_Z (j_type J) < _JOB_TYPE_MAX_IN_TRANSACTION ->
  j_unit J' = j_unit J -> j_type J' = j_type J -> j_installed J' = true ->
  WF' (<[j_unit J := set_unit_slot (j_type J) (Some j) U]> us)
      (<[j := J']> h)
      (n + Z.of_nat (Nat.b2n (bool_decide (j_state J' = JOB_RUNNING)))).
Proof.
  intros Hwf Hj Hi HU Hslot Hlt Hu' Ht' Hi'.
  apply WF'_intro.
  - intros u U0 p HU0 Hp.
    destruct (decide (u = j_unit J)) as [->|Hne].
    + rewrite lookup_insert_eq in HU0. injection HU0 as <-.
      unfold set_unit_slot in Hp.
      destruct (decide (j_type J = JOB_NOP)) as [Hnop|Hnop]; simpl in Hp.
      * destruct (wf_regular_slot Hwf _ U p HU Hp) as (J0 & HJ0 & ? & ? & ? & ?).
        destruct (decide (p = j)) as [->|Hnp]; [congruence|].
        rewrite lookup_insert_ne by done. eauto 10.
      * injection Hp as <-. rewrite lookup_insert_eq. exists J'.
        rewrite Hu', Ht'. done.
    + rewrite lookup_insert_ne in HU0 by done.
      destruct (wf_regular_slot Hwf _ U0 p HU0 Hp) as (J0 & HJ0 & ? & ? & ? & ?).
      destruct (decide (p = j)) as [->|Hnp]; [congruence|].
      rewrite lookup_insert_ne by done. eauto 10.
  - intros u U0 p HU0 Hp.
    destruct (decide (u = j_unit J)) as [->|Hne].
    + rewrite lookup_insert_eq in HU0. injection HU0 as <-.
      unfold set_unit_slot in Hp.
      destruct (decide (j_type J = JOB_NOP)) as [Hnop|Hnop]; simpl in Hp.
      * injection Hp as <-. rewrite lookup_insert_eq. exists J'.
        rewrite Hu', Ht'. done.
      * destruct (wf_nop_slot Hwf _ U p HU Hp) as (J0 & HJ0 & ? & ? & ?).
        destruct (decide (p = j)) as [->|Hnp]; [congruence|].
        rewrite lookup_insert_ne by done. eauto 10.
    + rewrite lookup_insert_ne in HU0 by done.
      destruct (wf_nop_slot Hwf _ U0 p HU0 Hp) as (J0 & HJ0 & ? & ? & ?).
      destruct (decide (p = j)) as [->|Hnp]; [congruence|].
      rewrite lookup_insert_ne by done. eauto 10.
  - intros u U0 d o HU0 Ho.
    assert (is_Some (us !! o)) as [O HO].
    { destruct (decide (u = j_unit J)) as [->|Hne].
      - rewrite lookup_insert_eq in HU0. injection HU0 as <-.
        apply (wf_dependency Hwf (j_unit J) U d o HU).
        unfold set_unit_slot in Ho. by destruct (decide (j_type J = JOB_NOP)).
      - rewrite lookup_insert_ne in HU0 by done.
        by apply (wf_dependency Hwf u U0 d o). }
    destruct (decide (o = j_unit J)) as [->|Hne].
    + rewrite lookup_insert_eq. eauto.
    + rewrite lookup_insert_ne by done. eauto.
  - intros p J0 Hp Hi0.
    destruct (decide (p = j)) as [->|Hne].
    + rewrite lookup_insert_eq in Hp. injection Hp as <-.
      rewrite Hu', Ht', lookup_insert_eq. eexists. split; [done|].
      apply unit_slot_set.
    + rewrite lookup_insert_ne in Hp by done.
      destruct (wf_installed Hwf p J0 Hp Hi0) as (U0 & HU0 & Hs0).
      destruct (decide (j_unit J0 = j_unit J)) as [Heq|Hneu].
      * rewrite Heq, lookup_insert_eq. rewrite Heq in HU0. simplify_eq.
        eexists; split; [done|].
        unfold unit_slot, set_unit_slot in *.
        destruct (decide (j_type J = JOB_NOP)), (decide (j_type J0 = JOB_NOP));
          simpl; congruence.
      * rewrite lookup_insert_ne by done. eauto.
  - pose proof (wf_running _ _ _ Hwf) as Hn.
    rewrite (count_running_delete h j), Hj in Hn. simpl in Hn.
    rewrite count_running_insert.
    unfold running_installed in *. rewrite Hi in Hn. rewrite Hi'. simpl in *. lia.
Qed.

(** X20: [job_install] on a waiting job whose slot is empty installs
    it: the job is returned, it sits in the slot of its unit and is
    marked as installed, [n_installed_jobs] goes up by one (modulo
    2^32), the one line logged is the debug line that reports the new
    job, and the manager stays well-formed. *)
Theorem job_install_into_empty_slot m j J U :
  WF m -> job_heap m !! j = Some J -> j_installed J = false ->
  JobType_to_Z (j_type J) < _JOB_TYPE_MAX_IN_TRANSACTION ->
  j_state J = JOB_WAITING ->
  units m !! j_unit J = Some U -> unit_slot (j_type J) U = None ->
  exists m',
    job_install j m = Done j m' /\ WF m' /\
    units m' !! j_unit J = Some (set_unit_slot (j_type J) (Some j) U) /\
    job_heap m' !! j = Some (set_j_installed true J) /\
    n_installed_jobs m' = u32 (n_installed_jobs m + 1) /\
    n_running_jobs m' = n_running_jobs m /\
    trace m' = EvJobInstalled j (j_unit J) (j_type J) :: trace m.
Proof.
  intros Hwf Hj Hi Hlt Hs HU Hslot.
  assert (wp (job_install j)
            (fun r m' => r = j /\ WF m' /\
               units m' !! j_unit J = Some (set_unit_slot (j_type J) (Some j) U) /\
               job_heap m' !! j = Some (set_j_installed true J) /\
               n_installed_jobs m' = u32 (n_installed_jobs m + 1) /\
               n_running_jobs m' = n_running_jobs m /\
               trace m' = EvJobInstalled j (j_unit J) (j_type J) :: trace m) m) as Hwp.
  { unfold job_install. do 10 wp_next; try done.
    all: try (bool_hyps; simpl in *; lia).
    all: try (bool_hyps; congruence).
    wp_run. split; [done|]. split; [|done].
    unfold WF. msimpl.
    pose proof (WF'_install _ _ _ j J U (set_j_installed true J)
                  Hwf Hj Hi HU Hslot Hlt eq_refl eq_refl eq_refl) as Hwf'.
    msimpl. rewrite Hs in Hwf'. simpl in Hwf'. by rewrite Z.add_0_r in Hwf'. }
  apply wp_Done in Hwp as (r & m' & Hrun & -> & ?). eauto.
Qed.

Lemma job_install_into_empty_slot_witness :
  exists m',
    job_install 0 (uninstalled_scenario JOB_START JOB_WAITING) = Done 0%nat m' /\
    WF m' /\
    units m' !! 0%nat
      = Some (set_unit_slot JOB_START (Some 0%nat)
                (example_unit None no_dependencies)) /\
    job_heap m' !! 0%nat
      = Some (set_j_installed true
                (set_j_installed false (example_job 0 1 JOB_START JOB_WAITING))) /\
    n_installed_jobs m'
      = u32 (n_installed_jobs (uninstalled_scenario JOB_START JOB_WAITING) + 1) /\
    n_running_jobs m'
      = n_running_jobs (uninstalled_scenario JOB_START JOB_WAITING) /\
    trace m' = EvJobInstalled 0 0 JOB_START
                 :: trace (uninstalled_scenario JOB_START JOB_WAITING).
Proof.
  apply (job_install_into_empty_slot (uninstalled_scenario JOB_START JOB_WAITING) 0
           (set_j_installed false (example_job 0 1 JOB_START JOB_WAITING))
           (example_unit None no_dependencies)).
  - apply (bool_decide_unpack (WF (uninstalled_scenario JOB_START JOB_WAITING))).
    vm_compute. exact I.
  - reflexivity.
  - reflexivity.
  - vm_compute. reflexivity.
  - reflexivity.
  - reflexivity.
  - reflexivity.
Defined.

(** What [job_install_deserialized] does to a job that is not
    installed, on a well-formed manager. *)
Lemma job_install_deserialized_spec m j J U :
  WF m -> job_heap m !! j = Some J -> j_installed J = false ->
  units m !! j_unit J = Some U ->
  n_running_jobs m + 1 < 2 ^ 32 ->
  wp (job_install_deserialized j)
    (fun r m' =>
       n_installed_jobs m' = n_installed_jobs m /\
       WF m' /\
       if bool_decide (in_transaction_range (j_type J))
       then
         match unit_slot (j_type J) U with
         | Some _ => r = - EEXIST /\ m' = m
         | None =>
             r = 0 /\
             units m' !! j_unit J
               = Some (set_unit_slot (j_type J) (Some j) U) /\
             job_heap m' !! j
               = Some (set_j_reloaded true (set_j_installed true J)) /\
             n_running_jobs m' =
               n_running_jobs m
               + (if bool_decide (j_state J = JOB_RUNNING) then 1 else 0)
         end
       else r = - EINVAL /\ m' = m) m.
Proof.
  intros Hwf Hj Hi HU Hn.
  pose proof (WF_n_running_nonneg m Hwf) as Hn0.
  unfold job_install_deserialized. do 4 wp_next; try done.
  2: { rewrite Hi in *. done. }
  destruct ((JobType_to_Z (j_type J) <? 0) ||
            (_JOB_TYPE_MAX_IN_TRANSACTION <=? JobType_to_Z (j_type J))) eqn:Hc.
  - apply wpg_ret. split; [done|]. split; [done|].
    rewrite (bool_decide_eq_false_2 (in_transaction_range (j_type J))); [done|].
    unfold in_transaction_range. intros [? ?].
    apply orb_prop in Hc as [Hc%Z.ltb_lt|Hc%Z.leb_le]; lia.
  - apply orb_false_elim in Hc as [Hlo%Z.ltb_ge Hhi%Z.leb_gt].
    rewrite (bool_decide_eq_true_2 (in_transaction_range (j_type J)))
      by (unfold in_transaction_range; lia).
    do 2 wp_next. destruct (unit_slot (j_type J) U) eqn:Hslot.
    + by apply wpg_ret.
    + pose proof (WF'_install _ _ _ j J U
                    (set_j_reloaded true (set_j_installed true J))
                    Hwf Hj Hi HU Hslot Hhi eq_refl eq_refl eq_refl) as Hwf'.
      msimpl.
      wp_run; (split; [done|]); unfold WF; msimpl.
      * simpl in Hwf'. unfold u32. rewrite Z.mod_small by lia. done.
      * simpl in Hwf'. rewrite !Z.add_0_r in *. done.
Qed.

(** X21: [job_install_deserialized] never replaces a job: it returns
    [-EINVAL] for a type outside the transaction range and [-EEXIST]
    when the slot is taken, and leaves the manager as it is; else it
    returns 0, the job sits in its slot, installed and marked as
    reloaded, and the manager stays well-formed: a running job is
    counted in [n_running_jobs].  [n_installed_jobs] is not touched. *)
Theorem job_install_deserialized_outcomes m j J U :
  WF m -> job_heap m !! j = Some J -> j_installed J = false ->
  units m !! j_unit J = Some U ->
  n_running_jobs m + 1 < 2 ^ 32 ->
  exists r m',
    job_install_deserialized j m = Done r m' /\
    n_installed_jobs m' = n_installed_jobs m /\
    WF m' /\
    if bool_decide (in_transaction_range (j_type J))
    then
      match unit_slot (j_type J) U with
      | Some _ => r = - EEXIST /\ m' = m
      | None =>
          r = 0 /\
          units m' !! j_unit J = Some (set_unit_slot (j_type J) (Some j) U) /\
          job_heap m' !! j = Some (set_j_reloaded true (set_j_installed true J)) /\
          n_running_jobs m' =
            n_running_jobs m + (if bool_decide (j_state J = JOB_RUNNING) then 1 else 0)
      end
    else r = - EINVAL /\ m' = m.
Proof.
  intros Hwf Hj Hi HU Hn.
  pose proof (job_install_deserialized_spec m j J U Hwf Hj Hi HU Hn) as Hwp.
  apply wp_Done in Hwp as (r & m' & Hrun & ?). eauto.
Qed.

Lemma job_install_deserialized_outcomes_witness :
  exists r m',
    job_install_deserialized 0 (uninstalled_scenario JOB_START JOB_RUNNING)
      = Done r m' /\
    n_installed_jobs m'
      = n_installed_jobs (uninstalled_scenario JOB_START JOB_RUNNING) /\
    WF m' /\
    r = 0 /\
    units m' !! 0%nat
      = Some (set_unit_slot JOB_START (Some 0%nat)
                (example_unit None no_dependencies)) /\
    job_heap m' !! 0%nat
      = Some (set_j_reloaded true
                (set_j_installed true
                   (set_j_installed false
                      (example_job 0 1 JOB_START JOB_RUNNING)))) /\
    n_running_jobs m'
      = n_running_jobs (uninstalled_scenario JOB_START JOB_RUNNING) + 1.
Proof.
  apply (job_install_deserialized_outcomes
           (uninstalled_scenario JOB_START JOB_RUNNING) 0
           (set_j_installed false (example_job 0 1 JOB_START JOB_RUNNING))
           (example_unit None no_dependencies)).
  - apply (bool_decide_unpack (WF (uninstalled_scenario JOB_START JOB_RUNNING))).
    vm_compute. exact I.
  - reflexivity.
  - reflexivity.
  - reflexivity.
  - vm_compute. reflexivity.
Defined.

(** ** Making and freeing a job *)

Lemma manager_eq (m m' : Manager) :
  units m = units m' -> job_heap m = job_heap m' -> next_ptr m = next_ptr m' ->
  jobs m = jobs m' -> run_queue m = run_queue m' ->
  dbus_job_queue m = dbus_job_queue m' ->
  pending_finished_jobs m = pending_finished_jobs m' ->
  current_job_id m = current_job_id m' ->
  n_installed_jobs m = n_installed_jobs m' ->
  n_running_jobs m = n_running_jobs m' -> n_failed_jobs m = n_failed_jobs m' ->
  n_reloading m = n_reloading m' -> trace m = trace m' ->
  m = m'.
Proof. destruct m, m'; simpl; intros; by simplify_eq. Qed.

(** X22: in a reachable manager [job_new] hands out an address that no
    job has, and gives the job the current id; the new job waits and is
    neither installed nor queued, and no other job changes.  Freeing it
    at once gives back the manager as it was, but for the address and
    the id, which are used up. *)
Theorem job_new_then_free m u U t :
  reachable m -> units m !! u = Some U ->
  JobType_to_Z t < _JOB_TYPE_MAX ->
  job_heap m !! next_ptr m = None /\
  exists m1 J,
    job_new u t m = Done (next_ptr m) m1 /\
    job_heap m1 = <[next_ptr m := J]> (job_heap m) /\
    j_unit J = u /\ j_id J = current_job_id m /\ j_type J = t /\
    j_state J = JOB_WAITING /\ j_installed J = false /\
    j_in_run_queue J = false /\ j_in_dbus_queue J = false /\
    job_free (next_ptr m) m1 =
      Done tt (set_current_job_id (u32 (current_job_id m + 1))
                 (set_next_ptr (S (next_ptr m)) m)).
Proof.
  intros Hreach HU Ht. apply reachable_Inv in Hreach as HI.
  assert (job_heap m !! next_ptr m = None) as Hfresh.
  { destruct (job_heap m !! next_ptr m) as [P|] eqn:HP; [|done].
    apply (inv_fresh _ _ _ HI) in HP. lia. }
  split; [done|].
  assert (wp (job_new u t)
            (fun r m1 => r = next_ptr m /\ exists J,
               m1 = set_job_heap (<[next_ptr m := J]> (job_heap m))
                      (set_current_job_id (u32 (current_job_id m + 1))
                         (set_next_ptr (S (next_ptr m)) m)) /\
               j_unit J = u /\ j_id J = current_job_id m /\ j_type J = t /\
               j_state J = JOB_WAITING /\ j_installed J = false /\
               j_in_run_queue J = false /\ j_in_dbus_queue J = false /\
               j_timer_event_source J = None) m) as Hnew.
  { unfold job_new, job_new_raw. wp_run.
    - split; [done|]. eexists. split.
      + apply manager_eq; msimpl; done.
      + done.
    - apply Z.ltb_ge in Heqb. lia. }
  apply wp_Done in Hnew as (r & m1 & Hrun1 & -> & J & -> & HuJ & HidJ & HtJ & HsJ &
                            HiJ & HqJ & HdJ & HtimerJ).
  eexists _, J. split; [exact Hrun1|]. msimpl. do 8 (split; [done|]).
  assert (wp (job_free (next_ptr m))
            (fun _ m2 => m2 = set_current_job_id (u32 (current_job_id m + 1))
                                (set_next_ptr (S (next_ptr m)) m))
            (set_job_heap (<[next_ptr m := J]> (job_heap m))
               (set_current_job_id (u32 (current_job_id m + 1))
                  (set_next_ptr (S (next_ptr m)) m)))) as Hfree.
  { unfold job_free, job_unlink. wp_run; try congruence.
    all: try (rewrite HiJ in *; done).
    apply manager_eq; msimpl; try done.
    rewrite delete_insert_eq. by apply delete_id. }
  apply wp_Done in Hfree as ([] & m2 & Hrun2 & ->). done.
Qed.

Lemma job_new_then_free_witness :
  job_heap (initial_manager ordered_units 0)
    !! next_ptr (initial_manager ordered_units 0) = None /\
  exists m1 J,
    job_new 0 JOB_START (initial_manager ordered_units 0)
      = Done (next_ptr (initial_manager ordered_units 0)) m1 /\
    job_heap m1 = <[next_ptr (initial_manager ordered_units 0) := J]>
                    (job_heap (initial_manager ordered_units 0)) /\
    j_unit J = 0%nat /\ j_id J = current_job_id (initial_manager ordered_units 0) /\
    j_type J = JOB_START /\
    j_state J = JOB_WAITING /\ j_installed J = false /\
    j_in_run_queue J = false /\ j_in_dbus_queue J = false /\
    job_free (next_ptr (initial_manager ordered_units 0)) m1 =
      Done tt (set_current_job_id
                 (u32 (current_job_id (initial_manager ordered_units 0) + 1))
                 (set_next_ptr (S (next_ptr (initial_manager ordered_units 0)))
                    (initial_manager ordered_units 0))).
Proof.
  apply (job_new_then_free (initial_manager ordered_units 0) 0
           (example_unit None
              (fun d => match d with UNIT_BEFORE => [1%nat] | _ => [] end))
           JOB_START).
  - apply reachable_initial. apply ordered_units_empty_slots.
  - reflexivity.
  - vm_compute. reflexivity.
Defined.

(** ** Bus paths *)

Lemma string_append_inj_l (p a b : string) :
  String.append p a = String.append p b -> a = b.
Proof.
  induction p as [|c p IH]; [done|].
  rewrite !string_append_cons. intros [= H]. by apply IH.
Qed.

(** X23: [job_dbus_path] names a job by its id: the paths of two jobs
    are the same exactly when their ids are. *)
Theorem job_dbus_path_injective m j1 j2 J1 J2 :
  job_heap m !! j1 = Some J1 -> job_heap m !! j2 = Some J2 ->
  0 <= j_id J1 < 2 ^ 32 -> 0 <= j_id J2 < 2 ^ 32 ->
  exists p1 p2,
    job_dbus_path j1 m = Done p1 m /\ job_dbus_path j2 m = Done p2 m /\
    (p1 = p2 <-> j_id J1 = j_id J2).
Proof.
  intros H1 H2 Hr1 Hr2. unfold job_dbus_path.
  exists (String.append "/org/freedesktop/systemd1/job/" (print_unsigned (j_id J1))),
         (String.append "/org/freedesktop/systemd1/job/" (print_unsigned (j_id J2))).
  split; [|split].
  - unfold mbind, M_bind, get_job. by rewrite H1.
  - unfold mbind, M_bind, get_job. by rewrite H2.
  - split; [|by intros ->].
    intros Heq%string_append_inj_l.
    pose proof (safe_atou32_print _ Hr1) as Hp1.
    pose proof (safe_atou32_print _ Hr2) as Hp2.
    rewrite Heq in Hp1. congruence.
Qed.

Lemma job_dbus_path_injective_witness :
  exists p1 p2,
    job_dbus_path 0 timeout_scenario = Done p1 timeout_scenario /\
    job_dbus_path 1 timeout_scenario = Done p2 timeout_scenario /\
    (p1 = p2 <->
     j_id (example_job 0 1 JOB_START JOB_RUNNING)
     = j_id (set_j_in_run_queue true (example_job 1 2 JOB_START JOB_WAITING))).
Proof.
  apply (job_dbus_path_injective timeout_scenario 0 1
           (example_job 0 1 JOB_START JOB_RUNNING)
           (set_j_in_run_queue true (example_job 1 2 JOB_START JOB_WAITING))).
  - reflexivity.
  - reflexivity.
  - simpl. lia.
  - simpl. lia.
Defined.

(** ** Timers across a reload *)

(** X24: the deadline of a job survives a reload.  For an installed job
    that began at a time other than 0 on a unit with a job timeout,
    [job_coldplug] arms the timer for the deadline [job_start_timer]
    armed when the job began, begin time plus timeout, whatever the
    timer was before; the begin time is kept, and a waiting job is
    marked as queued again. *)
Theorem job_coldplug_rearms_timer track m j J U :
  job_heap m !! j = Some J -> j_installed J = true ->
  units m !! j_unit J = Some U ->
  0 <= (track (j_clients J) (j_deserialized_clients J)).1.1 ->
  j_begin_usec J ≠ 0 -> 0 < u_job_timeout U ->
  exists m1 m2 J1 J2,
    job_start_timer (j_begin_usec J)
      j (set_job_heap (<[j := set_j_timer_event_source None J]> (job_heap m)) m)
      = Done 0 m1 /\
    job_coldplug track j m = Done 0 m2 /\
    job_heap m1 !! j = Some J1 /\ job_heap m2 !! j = Some J2 /\
    j_timer_event_source J2 = j_timer_event_source J1 /\
    j_timer_event_source J2
      = Some ((j_begin_usec J + u_job_timeout U) mod 2 ^ 64) /\
    j_begin_usec J2 = j_begin_usec J /\ j_begin_usec J1 = j_begin_usec J /\
    (j_state J = JOB_WAITING -> j_in_run_queue J2 = true).
Proof.
  intros Hj Hi HU Htrack Hb Ht.
  assert (wp (job_start_timer (j_begin_usec J) j)
            (fun r m1 => r = 0 /\ exists J1, job_heap m1 !! j = Some J1 /\
               j_timer_event_source J1
                 = Some ((j_begin_usec J + u_job_timeout U) mod 2 ^ 64) /\
               j_begin_usec J1 = j_begin_usec J)
            (set_job_heap (<[j := set_j_timer_event_source None J]> (job_heap m)) m))
    as Hstart.
  { unfold job_start_timer. wp_run.
    - apply Z.leb_le in Heqb. lia.
    - split; [done|]. eauto. }
  assert (wp (job_coldplug track j)
            (fun r m2 => r = 0 /\ exists J2, job_heap m2 !! j = Some J2 /\
               j_timer_event_source J2
                 = Some ((j_begin_usec J + u_job_timeout U) mod 2 ^ 64) /\
               j_begin_usec J2 = j_begin_usec J /\
               (j_state J = JOB_WAITING -> j_in_run_queue J2 = true)) m)
    as Hcold.
  { unfold job_coldplug. do 2 wp_step.
    destruct (track (j_clients J) (j_deserialized_clients J)) as [[r c] d] eqn:Htr.
    simpl in Htrack.
    assert ((r <? 0) = false) as Hneg by (apply Z.ltb_ge; lia).
    assert ((j_begin_usec J =? 0) || (u_job_timeout U =? 0) = false) as Hgo.
    { apply orb_false_intro; apply Z.eqb_neq; lia. }
    unfold job_add_to_run_queue.
    wp_run; try congruence.
    all: split; [done|]; eexists; split; [done|]; msimpl.
    all: split; [done|]; split; [done|]; try done.
    all: intros Hw; bool_hyps; done. }
  apply wp_Done in Hstart as (r1 & m1 & Hrun1 & -> & J1 & HJ1 & Ht1 & Hb1).
  apply wp_Done in Hcold as (r2 & m2 & Hrun2 & -> & J2 & HJ2 & Ht2 & Hb2 & Hq2).
  exists m1, m2, J1, J2. rewrite Ht1, Ht2. done.
Qed.

Lemma job_coldplug_rearms_timer_witness :
  exists m1 m2 J1 J2,
    job_start_timer (j_begin_usec (example_job 0 1 JOB_START JOB_RUNNING)) 0
      (set_job_heap
         (<[0%nat := set_j_timer_event_source None
                       (example_job 0 1 JOB_START JOB_RUNNING)]>
            (job_heap timeout_scenario)) timeout_scenario)
      = Done 0 m1 /\
    job_coldplug (fun c d => (0, c ++ d, [])) 0 timeout_scenario = Done 0 m2 /\
    job_heap m1 !! 0%nat = Some J1 /\ job_heap m2 !! 0%nat = Some J2 /\
    j_timer_event_source J2 = j_timer_event_source J1 /\
    j_timer_event_source J2
      = Some ((j_begin_usec (example_job 0 1 JOB_START JOB_RUNNING)
               + u_job_timeout
                   (example_unit (Some 0%nat)
                      (fun d => match d with
                                | UNIT_REQUIRED_BY => [1%nat] | _ => [] end)))
              mod 2 ^ 64) /\
    j_begin_usec J2 = j_begin_usec (example_job 0 1 JOB_START JOB_RUNNING) /\
    j_begin_usec J1 = j_begin_usec (example_job 0 1 JOB_START JOB_RUNNING) /\
    (j_state (example_job 0 1 JOB_START JOB_RUNNING) = JOB_WAITING ->
     j_in_run_queue J2 = true).
Proof.
  apply (job_coldplug_rearms_timer (fun c d => (0, c ++ d, [])) timeout_scenario 0
           (example_job 0 1 JOB_START JOB_RUNNING)
           (example_unit (Some 0%nat)
              (fun d => match d with UNIT_REQUIRED_BY => [1%nat] | _ => [] end))).
  - reflexivity.
  - reflexivity.
  - reflexivity.
  - simpl. lia.
  - simpl. lia.
  - simpl. lia.
Defined.

(** ** Deserializing any stream *)

Lemma deserialized_refl J : deserialized J J.
Proof. constructor; auto. exists []. by rewrite app_nil_r. Qed.

Lemma deserialized_trans J1 J2 J3 :
  deserialized J1 J2 -> deserialized J2 J3 -> deserialized J1 J3.
Proof.
  intros H1 H2. constructor.
  - rewrite (ds_unit _ _ H2). apply (ds_unit _ _ H1).
  - rewrite (ds_installed _ _ H2). apply (ds_installed _ _ H1).
  - rewrite (ds_in_run_queue _ _ H2). apply (ds_in_run_queue _ _ H1).
  - rewrite (ds_in_dbus_queue _ _ H2). apply (ds_in_dbus_queue _ _ H1).
  - rewrite (ds_timer _ _ H2). apply (ds_timer _ _ H1).
  - rewrite (ds_result _ _ H2). apply (ds_result _ _ H1).
  - rewrite (ds_reloaded _ _ H2). apply (ds_reloaded _ _ H1).
  - rewrite (ds_clients _ _ H2). apply (ds_clients _ _ H1).
  - destruct (ds_type _ _ H2) as [->|?]; [apply (ds_type _ _ H1)|by right].
  - destruct (ds_id _ _ H2) as [->|?]; [apply (ds_id _ _ H1)|by right].
  - destruct (ds_begin _ _ H2) as [->|?]; [apply (ds_begin _ _ H1)|by right].
  - intros ?. by apply (ds_override _ _ H2), (ds_override _ _ H1).
  - intros ?. by apply (ds_irreversible _ _ H2), (ds_irreversible _ _ H1).
  - intros ?. by apply (ds_ignore_order _ _ H2), (ds_ignore_order _ _ H1).
  - intros ?.
    by apply (ds_sent_dbus_new_signal _ _ H2), (ds_sent_dbus_new_signal _ _ H1).
  - destruct (ds_subscribed _ _ H1) as [n1 E1], (ds_subscribed _ _ H2) as [n2 E2].
    exists (n1 ++ n2). by rewrite E2, E1, app_assoc.
Qed.

Lemma set_job_heap_id m j J :
  job_heap m !! j = Some J -> set_job_heap (<[j := J]> (job_heap m)) m = m.
Proof. intros Hj. apply manager_eq; msimpl; try done. by apply insert_id. Qed.

Lemma decimal_value_nonneg s n : decimal_value s = Some n -> 0 <= n.
Proof.
  unfold decimal_value. destruct (NilZero.uint_of_string s); [|done].
  intros [= <-]. lia.
Qed.

Lemma safe_atou32_range v id : safe_atou32 v = Some id -> 0 <= id < 2 ^ 32.
Proof.
  unfold safe_atou32. destruct (String.eqb v EmptyString); [done|].
  destruct (decimal_value v) as [n|] eqn:Hn; [|done].
  apply decimal_value_nonneg in Hn.
  destruct (n <? 2 ^ 32) eqn:Hlt; [|done]. intros [= <-].
  apply Z.ltb_lt in Hlt. lia.
Qed.

Lemma sscanf_llu_range v n : sscanf_llu v = Some n -> 0 <= n < 2 ^ 64.
Proof.
  unfold sscanf_llu. destruct (scan_sign (skip_isspace v)) as [negative s].
  destruct (String.eqb _ EmptyString); [done|].
  destruct (decimal_value _) as [k|] eqn:Hk; [|done].
  apply decimal_value_nonneg in Hk.
  destruct (ULLONG_MAX <? k) eqn:Hmax.
  { intros [= <-]. by vm_compute. }
  apply Z.ltb_ge in Hmax. unfold ULLONG_MAX in Hmax.
  destruct negative; intros [= <-]; [|lia].
  apply Z.mod_pos_bound. lia.
Qed.

(** What the conversion makes of a sign, of white space, of a numeral
    that is too long and of a missing digit. *)
Example sscanf_llu_examples :
  sscanf_llu "-5" = Some (2 ^ 64 - 5) /\
  sscanf_llu " +7 usec" = Some 7 /\
  sscanf_llu (String "011" (String "012" "12")) = Some 12 /\
  sscanf_llu "99999999999999999999" = Some ULLONG_MAX /\
  sscanf_llu "-99999999999999999999" = Some ULLONG_MAX /\
  sscanf_llu "-0" = Some 0 /\
  sscanf_llu "-" = None /\
  sscanf_llu "- 5" = None /\
  sscanf_llu "" = None.
Proof. vm_compute. repeat split. Qed.

(** One line, whatever it holds. *)
Lemma job_deserialize_line_any j l J m :
  job_heap m !! j = Some J -> j_installed J = false ->
  wp (job_deserialize_line j l)
    (fun _ m' => exists J',
       m' = set_job_heap (<[j := J']> (job_heap m)) m /\ deserialized J J') m.
Proof.
  intros Hj Hi.
  assert (forall (Q : () -> Manager -> Prop), Q tt m -> Q tt m) as _ by done.
  assert (exists J', m = set_job_heap (<[j := J']> (job_heap m)) m /\
                     deserialized J J') as Hsame.
  { exists J. split; [by rewrite set_job_heap_id|apply deserialized_refl]. }
  assert (forall f, deserialized J (f J) ->
            wp (update_job j f)
              (fun _ m' => exists J',
                 m' = set_job_heap (<[j := J']> (job_heap m)) m /\
                 deserialized J J') m) as Hupd.
  { intros f Hf. unfold update_job. wp_run. eauto. }
  unfold job_deserialize_line. destruct (split_assignment l) as [key v].
  repeat match goal with
         | |- wpg _ (if String.eqb ?a ?b then _ else _) _ _ =>
             destruct (String.eqb a b)
         end.
  - destruct (safe_atou32 v) as [id|] eqn:Hid; [|by apply wpg_ret].
    apply safe_atou32_range in Hid.
    apply Hupd. constructor; msimpl; auto. exists []. by rewrite app_nil_r.
  - destruct (JobType_to_Z (job_type_from_string v) <? 0) eqn:Hlo;
      [by apply wpg_ret|].
    destruct (_JOB_TYPE_MAX_IN_TRANSACTION <=? _) eqn:Hhi; [by apply wpg_ret|].
    apply Z.ltb_ge in Hlo. apply Z.leb_gt in Hhi.
    apply Hupd. constructor; msimpl; auto.
    + right. done.
    + exists []. by rewrite app_nil_r.
  - destruct (job_state_from_string v) as [s|]; [|by apply wpg_ret].
    unfold job_set_state. wp_run; try done; try (rewrite Hi in *; done).
    eexists. split; [done|]. constructor; msimpl; auto.
    exists []. by rewrite app_nil_r.
  - destruct (parse_boolean v) as [b|]; [|by apply wpg_ret].
    apply Hupd. constructor; msimpl; auto.
    + intros ->. done.
    + exists []. by rewrite app_nil_r.
  - destruct (parse_boolean v) as [b|]; [|by apply wpg_ret].
    apply Hupd. constructor; msimpl; auto.
    + intros ->. done.
    + exists []. by rewrite app_nil_r.
  - destruct (parse_boolean v) as [b|]; [|by apply wpg_ret].
    apply Hupd. constructor; msimpl; auto.
    + intros ->. done.
    + exists []. by rewrite app_nil_r.
  - destruct (parse_boolean v) as [b|]; [|by apply wpg_ret].
    apply Hupd. constructor; msimpl; auto.
    + intros ->. done.
    + exists []. by rewrite app_nil_r.
  - destruct (sscanf_llu v) as [n|] eqn:Hn; [|by apply wpg_ret].
    apply sscanf_llu_range in Hn.
    apply Hupd. constructor; msimpl; auto. exists []. by rewrite app_nil_r.
  - apply Hupd. constructor; msimpl; auto. by exists [v].
  - by apply wpg_ret.
Qed.

(** What [read_line] leaves is the end of what it was given, and
    shorter if anything was read. *)
Lemma read_line_from_rest limit (f : string) : forall n r line rest,
  read_line_from limit n f = (r, line, rest) ->
  (exists pre, f = String.append pre rest) /\
  (0 < r -> (String.length rest < String.length f)%nat) /\
  (r < 0 -> r = - ENOBUFS).
Proof.
  induction f as [|c f IH]; intros n r line rest; simpl.
  - destruct (limit <=? n); intros [= <- <- <-].
    + split; [by exists EmptyString|]. split; [unfold ENOBUFS; lia|done].
    + split; [by exists EmptyString|]. split; lia.
  - destruct (limit <=? n).
    { intros [= <- <- <-]. split; [by exists EmptyString|].
      split; [unfold ENOBUFS; lia|done]. }
    destruct (Ascii.eqb c NEWLINE || Ascii.eqb c NUL).
    { intros [= <- <- <-]. split; [by exists (String c EmptyString)|].
      split; [simpl; lia|lia]. }
    destruct (read_line_from limit (n + 1) f) as [[r' line'] rest'] eqn:Hrec.
    intros [= <- <- <-].
    destruct (IH _ _ _ _ Hrec) as ((pre & Hpre) & Hlen & Herr).
    split; [exists (String c pre); by rewrite string_append_cons, <-Hpre|].
    destruct (r' <? 0) eqn:Hneg.
    + apply Z.ltb_lt in Hneg. split; [lia|]. intros _. by apply Herr.
    + apply Z.ltb_ge in Hneg. split; [|lia]. intros _.
      destruct (decide (r' = 0)) as [->|Hne].
      * simpl. assert (String.length rest' <= String.length f)%nat; [|lia].
        rewrite Hpre, string_length_append. lia.
      * assert (0 < r') as Hpos by lia. apply Hlen in Hpos. simpl. lia.
Qed.

Lemma job_deserialize_loop_any j : forall fuel f J m,
  job_heap m !! j = Some J -> j_installed J = false ->
  (String.length f < fuel)%nat ->
  wp (job_deserialize_loop fuel j f)
    (fun r m' =>
       (r.1 = 0 \/ r.1 = - ENOBUFS) /\
       (exists pre, f = String.append pre r.2) /\
       exists J', m' = set_job_heap (<[j := J']> (job_heap m)) m /\
                  deserialized J J') m.
Proof.
  induction fuel as [|fuel IH]; intros f J m Hj Hi Hfuel; [lia|].
  cbn [job_deserialize_loop]. unfold read_line.
  destruct (read_line_from LONG_LINE_MAX 0 f) as [[r l] rest] eqn:Hread.
  destruct (read_line_from_rest _ _ _ _ _ _ Hread) as (Hpre & Hlen & Herr).
  assert (exists J', m = set_job_heap (<[j := J']> (job_heap m)) m /\
                     deserialized J J') as Hsame.
  { exists J. split; [by rewrite set_job_heap_id|apply deserialized_refl]. }
  destruct (r <? 0) eqn:Hneg.
  { apply wpg_ret. simpl. apply Z.ltb_lt in Hneg. auto. }
  apply Z.ltb_ge in Hneg.
  destruct (r =? 0) eqn:Hzero.
  { apply wpg_ret. simpl. auto. }
  apply Z.eqb_neq in Hzero.
  destruct (String.eqb (strstrip l) EmptyString).
  { apply wpg_ret. simpl. auto. }
  apply wpg_bind. eapply wpg_mono; [by apply job_deserialize_line_any|].
  cbv beta. intros _ m1 (J1 & -> & HJ1).
  eapply wpg_mono.
  { apply (IH rest J1).
    - msimpl. apply lookup_insert_eq.
    - by rewrite (ds_installed _ _ HJ1).
    - assert (0 < r) as Hpos by lia. apply Hlen in Hpos. lia. }
  cbv beta. intros [r' rest'] m2 (Hr' & (pre' & Hpre') & J2 & -> & HJ2).
  simpl in *. split; [done|]. split.
  - destruct Hpre as [pre ->]. exists (String.append pre pre').
    by rewrite string_append_assoc, <-Hpre'.
  - exists J2. split; [|by eapply deserialized_trans].
    apply manager_eq; msimpl; try done. by rewrite insert_insert_eq.
Qed.

(** X25: [job_deserialize] copes with any stream.  For a job that is
    not installed it returns, with 0 or, after a line of
    [LONG_LINE_MAX] characters or more, with [-ENOBUFS]; what it leaves
    of the stream is an end of the stream; it changes nothing in the
    manager but this job, and of the job only what the lines stand for:
    the id stays an unsigned 32-bit number, a type it sets lies in the
    transaction range, the four flags are raised but never cleared, and
    client names are only added. *)
Theorem job_deserialize_any_stream m j J (f : string) :
  job_heap m !! j = Some J -> j_installed J = false ->
  exists r rest J',
    job_deserialize j f m
      = Done (r, rest) (set_job_heap (<[j := J']> (job_heap m)) m) /\
    (r = 0 \/ r = - ENOBUFS) /\
    (exists pre, f = String.append pre rest) /\
    deserialized J J'.
Proof.
  intros Hj Hi.
  assert (wp (job_deserialize j f)
            (fun r m' =>
               (r.1 = 0 \/ r.1 = - ENOBUFS) /\
               (exists pre, f = String.append pre r.2) /\
               exists J', m' = set_job_heap (<[j := J']> (job_heap m)) m /\
                          deserialized J J') m) as Hwp.
  { unfold job_deserialize. do 2 wp_step.
    apply (job_deserialize_loop_any j _ f J m Hj Hi). lia. }
  apply wp_Done in Hwp as ([r rest] & m' & Hrun & Hr & Hpre & J' & -> & HJ').
  exists r, rest, J'. done.
Qed.

Lemma job_deserialize_any_stream_witness :
  exists r rest J',
    job_deserialize 0 "job-type=bogus
job-override=yes
job-begin=-5
 job-id = 7
=
unknown

left over" (uninstalled_scenario JOB_START JOB_WAITING)
      = Done (r, rest)
          (set_job_heap
             (<[0%nat := J']> (job_heap (uninstalled_scenario JOB_START JOB_WAITING)))
             (uninstalled_scenario JOB_START JOB_WAITING)) /\
    (r = 0 \/ r = - ENOBUFS) /\
    (exists pre, "job-type=bogus
job-override=yes
job-begin=-5
 job-id = 7
=
unknown

left over"%string = String.append pre rest) /\
    deserialized (set_j_installed false (example_job 0 1 JOB_START JOB_WAITING)) J' /\
    rest = "left over"%string /\
    j_type J' = JOB_START /\ j_id J' = 1 /\ j_override J' = true /\
    j_begin_usec J' = 2 ^ 64 - 5.
Proof.
  destruct (job_deserialize_any_stream (uninstalled_scenario JOB_START JOB_WAITING) 0
              (set_j_installed false (example_job 0 1 JOB_START JOB_WAITING))
              "job-type=bogus
job-override=yes
job-begin=-5
 job-id = 7
=
unknown

left over") as (r & rest & J' & Hrun & Hr & Hpre & Hd).
  - reflexivity.
  - reflexivity.
  - exists r, rest, J'. do 4 (split; [assumption|]).
    pose proof (f_equal (fun o => match o with
                                  | Done (_, rest) m => Some (rest, job_heap m !! 0%nat)
                                  | _ => None
                                  end) Hrun) as Heq.
    vm_compute in Heq. injection Heq as <- <-. repeat split.
Defined.

(** ** The queue of jobs with pending bus signals *)

Section DInv_steps.
Context (h : gmap nat Job) (q : list nat) (n : nat).
Hypothesis HI : DInv' h q n.

(** Rewriting a job in place, its queue bit as before. *)
Lemma DInv'_update j J J' :
  h !! j = Some J -> j_in_dbus_queue J' = j_in_dbus_queue J ->
  DInv' (<[j := J']> h) q n.
Proof.
  intros Hj Hb. destruct HI as [Hf Hn Hq]. constructor; [|done|].
  - intros p P. destruct (decide (p = j)) as [->|Hne].
    + intros _. by eapply Hf.
    + rewrite lookup_insert_ne by done. apply Hf.
  - intros p. rewrite Hq. destruct (decide (p = j)) as [->|Hne].
    + rewrite lookup_insert_eq. split.
      * intros (P & HP & HbP). simplify_eq. eexists. split; [done|congruence].
      * intros (P & [= <-] & HbP). eexists. split; [done|congruence].
    + by rewrite lookup_insert_ne.
Qed.

(** Putting a job at the head of the queue and setting its bit. *)
Lemma DInv'_enqueue j J J' :
  h !! j = Some J -> j_in_dbus_queue J = false -> j_in_dbus_queue J' = true ->
  DInv' (<[j := J']> h) (j :: q) n.
Proof.
  intros Hj Hb Hb'. destruct HI as [Hf Hn Hq]. constructor.
  - intros p P. destruct (decide (p = j)) as [->|Hne].
    + intros _. by eapply Hf.
    + rewrite lookup_insert_ne by done. apply Hf.
  - apply NoDup_cons. split; [|done]. rewrite Hq.
    intros (P & HP & HbP). congruence.
  - intros p. rewrite elem_of_cons, Hq. destruct (decide (p = j)) as [->|Hne].
    + rewrite lookup_insert_eq. split; [eauto|by left].
    + rewrite lookup_insert_ne by done. split; [by intros [?|?]|by right].
Qed.

(** Taking a job from the queue and clearing its bit. *)
Lemma DInv'_dequeue j J J' :
  h !! j = Some J -> j_in_dbus_queue J' = false ->
  DInv' (<[j := J']> h) (LIST_REMOVE j q) n.
Proof.
  intros Hj Hb'. destruct HI as [Hf Hn Hq]. constructor.
  - intros p P. destruct (decide (p = j)) as [->|Hne].
    + intros _. by eapply Hf.
    + rewrite lookup_insert_ne by done. apply Hf.
  - by apply NoDup_filter.
  - intros p. rewrite LIST_REMOVE_elem, Hq. destruct (decide (p = j)) as [->|Hne].
    + rewrite lookup_insert_eq. split; [by intros [_ ?]|].
      intros (P & [= <-] & HbP). congruence.
    + rewrite lookup_insert_ne by done. split; [by intros [? _]|done].
Qed.

(** Freeing a job that is not queued. *)
Lemma DInv'_delete j J :
  h !! j = Some J -> j_in_dbus_queue J = false -> DInv' (delete j h) q n.
Proof.
  intros Hj Hb. destruct HI as [Hf Hn Hq]. constructor; [|done|].
  - intros p P [_ HP]%lookup_delete_Some. by eapply Hf.
  - intros p. rewrite Hq. split.
    + intros (P & HP & HbP). exists P. split; [|done].
      apply lookup_delete_Some. split; [congruence|done].
    + intros (P & [_ HP]%lookup_delete_Some & HbP). eauto.
Qed.

(** Allocating a job at the next address. *)
Lemma DInv'_alloc J :
  j_in_dbus_queue J = false -> DInv' (<[n := J]> h) q (S n).
Proof.
  intros Hb. destruct HI as [Hf Hn Hq].
  assert (h !! n = None) as Hnone.
  { destruct (h !! n) eqn:Hn'; [|done]. apply Hf in Hn'. lia. }
  constructor; [|done|].
  - intros p P. destruct (decide (p = n)) as [->|Hne]; [lia|].
    rewrite lookup_insert_ne by done. intros HP%Hf. lia.
  - intros p. rewrite Hq. destruct (decide (p = n)) as [->|Hne].
    + rewrite lookup_insert_eq, Hnone. split.
      * by intros (P & ? & _).
      * intros (P & [= <-] & HbP). congruence.
    + by rewrite lookup_insert_ne.
Qed.
End DInv_steps.

Ltac solve_dinv :=
  unfold DInv in *; msimpl;
  first
    [ eassumption
    | eapply DInv'_update; [solve_dinv|inv_lookup|simpl; congruence]
    | eapply DInv'_enqueue;
        [solve_dinv|inv_lookup|simpl; congruence|simpl; congruence]
    | eapply DInv'_dequeue; [solve_dinv|inv_lookup|simpl; congruence]
    | eapply DInv'_delete; [solve_dinv|inv_lookup|simpl; congruence] ].

Section helper_DInv.
Context (m : Manager).
Hypothesis HI : DInv m.

Lemma job_set_state_DInv j s :
  wlp (job_set_state j s) (fun _ m' => DInv m') m.
Proof. unfold job_set_state. wp_run. all: solve_dinv. Qed.

Lemma job_add_to_dbus_queue_DInv j :
  wlp (job_add_to_dbus_queue j) (fun _ m' => DInv m') m.
Proof. unfold job_add_to_dbus_queue. wp_run. all: solve_dinv. Qed.

Lemma job_add_to_run_queue_DInv j :
  wlp (job_add_to_run_queue j) (fun _ m' => DInv m') m.
Proof. unfold job_add_to_run_queue. wp_run. all: solve_dinv. Qed.

Lemma job_change_type_DInv j t :
  wlp (job_change_type j t) (fun _ m' => DInv m') m.
Proof. unfold job_change_type. wp_run. all: solve_dinv. Qed.

Lemma job_unlink_DInv j :
  wlp (job_unlink j)
    (fun _ m' => DInv m' /\
       exists J, job_heap m' !! j = Some J /\ j_in_dbus_queue J = false) m.
Proof.
  unfold job_unlink. wp_run.
  all: (split; [solve_dinv|]).
  all: eexists; split; [first [reflexivity|apply lookup_insert_eq]|].
  all: simpl; bool_hyps; congruence.
Qed.
End helper_DInv.

Lemma job_free_DInv j m :
  DInv m -> wlp (job_free j) (fun _ m' => DInv m') m.
Proof.
  intros HI. unfold job_free. do 4 wp_step.
  wp_use job_unlink_DInv. intros ? m1 (HI1 & J1 & HJ1 & Hb1).
  wp_run. solve_dinv.
Qed.

Lemma job_save_pending_finished_job_DInv j m :
  DInv m -> wlp (job_save_pending_finished_job j) (fun _ m' => DInv m') m.
Proof.
  intros HI. unfold job_save_pending_finished_job.
  wp_use job_unlink_DInv. intros ? m1 (HI1 & _).
  wp_run. solve_dinv.
Qed.

Lemma job_uninstall_DInv j m :
  DInv m -> wlp (job_uninstall j) (fun _ m' => DInv m') m.
Proof.
  intros HI. unfold job_uninstall. do 4 wp_step.
  wp_use job_set_state_DInv. intros ? m1 HI1.
  wp_run. all: solve_dinv.
Qed.

Lemma requeue_neighbours_DInv l m :
  DInv m -> wlp (requeue_neighbours l) (fun _ m' => DInv m') m.
Proof.
  intros HI. unfold requeue_neighbours.
  apply (wpg_foreach True l _ DInv); [done|].
  intros o m1 _ HI1. do 2 wp_step. destruct (u_job u) as [oj|]; [|by wp_run].
  by apply job_add_to_run_queue_DInv.
Qed.

Lemma finish_label_DInv u m :
  DInv m -> wlp (finish_label u) (fun _ m' => DInv m') m.
Proof.
  intros HI. unfold finish_label. do 2 wp_step.
  wp_use requeue_neighbours_DInv. intros ? m1 HI1.
  wp_use requeue_neighbours_DInv. intros ? m2 HI2.
  wp_run. solve_dinv.
Qed.

Lemma fail_dependents_DInv (finish : nat -> M Z) skip l m :
  (forall oj m1, DInv m1 -> wlp (finish oj) (fun _ m' => DInv m') m1) ->
  DInv m -> wlp (fail_dependents finish skip l) (fun _ m' => DInv m') m.
Proof.
  intros Hfin HI. unfold fail_dependents.
  apply (wpg_foreach True l _ DInv); [done|].
  intros o m1 _ HI1. do 2 wp_step. destruct (u_job u) as [oj|]; [|by wp_run].
  do 3 wp_step; [|by wp_run].
  wp_use Hfin. intros ? m2 HI2. by wp_run.
Qed.

(** Run the next statement, which keeps the invariant by [tac]. *)
Ltac dinv_next tac :=
  apply wpg_bind; apply (wpg_mono _ _ (fun _ m' => DInv m'));
  [tac|let m' := fresh "m" in let H := fresh "HI" in intros ? m' H].

Lemma job_finish_and_invalidate_rec_DInv fuel :
  forall j result recursive already m,
  DInv m ->
  wlp (job_finish_and_invalidate_rec fuel j result recursive already)
    (fun _ m' => DInv m') m.
Proof.
  induction fuel as [|fuel IH]; intros j result recursive already m HI; [done|].
  cbn [job_finish_and_invalidate_rec].
  do 6 wp_step.
  dinv_next ltac:(wp_run; solve_dinv).
  dinv_next ltac:(wp_run; solve_dinv).
  dinv_next ltac:(wp_run; solve_dinv).
  dinv_next ltac:(by apply job_add_to_dbus_queue_DInv).
  destruct (bool_decide (result = JOB_DONE) && bool_decide (j_type j0 = JOB_RESTART)).
  - dinv_next ltac:(by apply job_change_type_DInv).
    dinv_next ltac:(by apply job_set_state_DInv).
    dinv_next ltac:(by apply job_add_to_run_queue_DInv).
    by apply finish_label_DInv.
  - dinv_next ltac:(wp_run; solve_dinv).
    dinv_next ltac:(by apply job_uninstall_DInv).
    do 4 wp_step.
    dinv_next ltac:(idtac).
    { match goal with |- wpg _ (if ?b then _ else _) _ _ => destruct b end.
      - wp_use job_save_pending_finished_job_DInv. intros r ms HIs.
        apply wpg_when. destruct (r <? 0); [by apply job_free_DInv|done].
      - by apply job_free_DInv. }
    do 2 wp_step.
    dinv_next ltac:(idtac).
    { apply wpg_when.
      match goal with |- if ?b then _ else _ => destruct b; [|done] end.
      assert (forall oj m1, DInv m1 ->
                wlp (job_finish_and_invalidate_rec fuel oj JOB_DEPENDENCY true false)
                  (fun _ m' => DInv m') m1) as Hfin by (intros; by apply IH).
      destruct (is_start_or_verify (j_type j0)).
      - wp_use fail_dependents_DInv. intros ? mr HIr.
        wp_use fail_dependents_DInv. intros ? mb HIb.
        by apply fail_dependents_DInv.
      - destruct (bool_decide (j_type j0 = JOB_STOP)); [|by wp_run].
        by apply fail_dependents_DInv. }
    dinv_next ltac:(wp_run; solve_dinv).
    dinv_next ltac:(wp_run; solve_dinv).
    by apply finish_label_DInv.
Qed.

Lemma job_finish_and_invalidate_DInv j result recursive already m :
  DInv m ->
  wlp (job_finish_and_invalidate j result recursive already)
    (fun _ m' => DInv m') m.
Proof.
  intros HI. unfold job_finish_and_invalidate, wpg.
  by apply (job_finish_and_invalidate_rec_DInv (S (size (units m)))).
Qed.

Lemma job_new_raw_DInv u m :
  DInv m ->
  wlp (job_new_raw u)
    (fun j m' => DInv m' /\
       exists J, job_heap m' !! j = Some J /\ j_in_dbus_queue J = false) m.
Proof.
  intros HI. unfold job_new_raw. wp_run. split.
  - unfold DInv in *. msimpl. by apply DInv'_alloc.
  - eexists. split; [first [reflexivity|apply lookup_insert_eq]|]. done.
Qed.

Lemma job_new_DInv u t m :
  DInv m -> wlp (job_new u t) (fun _ m' => DInv m') m.
Proof.
  intros HI. unfold job_new. do 2 wp_step.
  wp_use job_new_raw_DInv. intros j m1 (HI1 & J & HJ & Hb).
  wp_run. solve_dinv.
Qed.

Lemma job_merge_into_installed_DInv j other m :
  DInv m -> wlp (job_merge_into_installed j other) (fun _ m' => DInv m') m.
Proof.
  intros HI. unfold job_merge_into_installed. do 8 wp_step.
  dinv_next ltac:(idtac).
  { destruct (decide (j_type j0 ≠ JOB_NOP)).
    - do 2 wp_step.
      destruct (job_type_merge_and_collapse _ _ _) as [[c t]|] eqn:Hm; [|done].
      wp_run. solve_dinv.
    - wp_run. done. }
  wp_run. solve_dinv.
Qed.

Lemma job_install_DInv j m :
  DInv m -> wlp (job_install j) (fun _ m' => DInv m') m.
Proof.
  intros HI. unfold job_install. do 10 wp_step.
  destruct (unit_slot (j_type j0) u) as [uj|].
  - do 2 wp_step.
    destruct (job_type_is_conflicting (j_type j1) (j_type j0)) as [[|]|]; [| |done].
    + wp_use job_finish_and_invalidate_DInv. intros ? m1 HI1.
      wp_run. all: solve_dinv.
    + apply wpg_bind.
      apply (wpg_mono _ _ (fun _ m' => m' = m)).
      { destruct (bool_decide (j_state j1 = JOB_WAITING)); [done|].
        destruct (job_type_allows_late_merge (j_type j0)); [|done].
        by destruct (job_type_is_superset (j_type j1) (j_type j0)). }
      intros late ? ->. destruct late.
      * wp_use job_merge_into_installed_DInv. intros ? m1 HI1. wp_run. solve_dinv.
      * wp_use job_merge_into_installed_DInv. intros ? m1 HI1.
        do 2 wp_step. apply wpg_bind, wpg_emit.
        apply wpg_bind. eapply wpg_mono; [apply job_set_state_DInv; solve_dinv|].
        intros ? m2 HI2. by wp_run.
  - wp_run. solve_dinv.
Qed.

Lemma job_install_deserialized_DInv j m :
  DInv m -> wlp (job_install_deserialized j) (fun _ m' => DInv m') m.
Proof.
  intros HI. unfold job_install_deserialized. wp_run. all: solve_dinv.
Qed.

Lemma job_start_timer_DInv now j m :
  DInv m -> wlp (job_start_timer now j) (fun _ m' => DInv m') m.
Proof.
  intros HI. unfold job_start_timer. do 2 wp_step.
  destruct (j_timer_event_source j0); [by wp_run|].
  wp_run. all: solve_dinv.
Qed.

Lemma job_dispatch_timer_DInv j m :
  DInv m -> wlp (job_dispatch_timer j) (fun _ m' => DInv m') m.
Proof.
  intros HI. unfold job_dispatch_timer. do 4 wp_step.
  wp_use job_finish_and_invalidate_DInv. intros ? m1 HI1.
  wp_run. solve_dinv.
Qed.

Lemma hashmap_put_job_DInv j m :
  DInv m -> wlp (hashmap_put_job j) (fun _ m' => DInv m') m.
Proof. intros HI. unfold hashmap_put_job. wp_run. solve_dinv. Qed.

Lemma unit_notify_DInv u s m :
  DInv m -> wlp (unit_notify u s) (fun _ m' => DInv m') m.
Proof. intros HI. unfold unit_notify. wp_run. solve_dinv. Qed.

Lemma job_run_and_invalidate_DInv r j m :
  DInv m ->
  wlp (job_run_and_invalidate (constant_vtable r) j) (fun _ m' => DInv m') m.
Proof.
  intros HI. unfold job_run_and_invalidate. do 8 wp_step.
  do 2 wp_step.
  dinv_next ltac:(wp_run; solve_dinv).
  destruct (negb (bool_decide (j_state j0 = JOB_WAITING))); [by wp_run|].
  wp_use job_is_runnable_pure. intros runnable ? ->.
  destruct (negb runnable); [by wp_run|].
  dinv_next ltac:(by apply job_set_state_DInv).
  dinv_next ltac:(by apply job_add_to_dbus_queue_DInv).
  apply wpg_bind.
  apply (wpg_mono _ _ (fun _ m' => m' = m2)).
  { destruct (j_type j0); simpl; by wp_run. }
  intros r' ? ->. unfold manager_get_job. do 2 wp_step.
  destruct (jobs m2 !! j_id j0) as [j'|]; [|by wp_run].
  repeat match goal with
         | |- wpg _ (if decide ?P then _ else _) _ _ => destruct (decide P)
         | |- wpg _ (if ?b then _ else _) _ _ => destruct b
         end;
    try (by apply job_finish_and_invalidate_DInv); try (by wp_run).
  wp_use job_set_state_DInv. intros ? m3 HI3. by wp_run.
Qed.

Lemma job_deserialize_line_DInv j l m :
  DInv m -> wlp (job_deserialize_line j l) (fun _ m' => DInv m') m.
Proof.
  intros HI. unfold job_deserialize_line.
  destruct (split_assignment l) as [key v].
  repeat match goal with
         | |- wpg _ (if String.eqb ?a ?b then _ else _) _ _ =>
             destruct (String.eqb a b)
         | |- wpg _ (match ?o with Some _ => _ | None => _ end) _ _ =>
             destruct o
         end;
    try (by wp_run); try (by apply job_set_state_DInv);
    try (wp_run; solve_dinv).
Qed.

Lemma job_deserialize_loop_DInv fuel :
  forall j f m,
  DInv m -> wlp (job_deserialize_loop fuel j f) (fun _ m' => DInv m') m.
Proof.
  induction fuel as [|fuel IH]; intros j f m HI; [done|].
  cbn [job_deserialize_loop].
  destruct (read_line LONG_LINE_MAX f) as [[r l] rest].
  destruct (r <? 0); [by wp_run|]. destruct (r =? 0); [by wp_run|].
  cbv zeta. destruct (String.eqb (strstrip l) EmptyString); [by wp_run|].
  wp_use job_deserialize_line_DInv. intros ? m1 HI1. by apply IH.
Qed.

Lemma job_deserialize_DInv j f m :
  DInv m -> wlp (job_deserialize j f) (fun _ m' => DInv m') m.
Proof.
  intros HI. unfold job_deserialize. do 2 wp_step.
  by apply job_deserialize_loop_DInv.
Qed.

Lemma initial_manager_DInv us reloading : DInv (initial_manager us reloading).
Proof.
  constructor; simpl.
  - by intros p P ?%lookup_empty_Some.
  - constructor.
  - intros p. split; [by intros ?%elem_of_nil|].
    by intros (P & ?%lookup_empty_Some & _).
Qed.

Lemma run_call_DInv c m :
  DInv m -> wlp (run_call c) (fun _ m' => DInv m') m.
Proof.
  intros HI. destruct c; simpl.
  - wp_use job_new_DInv. intros ? m1 HI1. by wp_run.
  - wp_use job_new_raw_DInv. intros ? m1 [HI1 _]. by wp_run.
  - by apply job_free_DInv.
  - by apply job_uninstall_DInv.
  - wp_use job_install_DInv. intros ? m1 HI1. by wp_run.
  - wp_use job_install_deserialized_DInv. intros ? m1 HI1. by wp_run.
  - wp_use job_deserialize_DInv. intros ? m1 HI1. by wp_run.
  - by apply job_add_to_run_queue_DInv.
  - by apply job_add_to_dbus_queue_DInv.
  - wp_use job_run_and_invalidate_DInv. intros ? m1 HI1. by wp_run.
  - wp_use job_finish_and_invalidate_DInv. intros ? m1 HI1. by wp_run.
  - wp_use job_dispatch_timer_DInv. intros ? m1 HI1. by wp_run.
  - wp_use job_start_timer_DInv. intros ? m1 HI1. by wp_run.
  - by apply hashmap_put_job_DInv.
  - by apply unit_notify_DInv.
Qed.

Lemma reachable_DInv m : reachable m -> DInv m.
Proof.
  induction 1 as [us reloading _|m c m' _ IH Hok Hrun].
  - apply initial_manager_DInv.
  - by apply (wlp_Done _ _ _ _ _ (run_call_DInv c m IH) Hrun).
Qed.

(** X26: in every reachable manager the queue of jobs with pending bus
    signals holds no job twice, and a job is in it if and only if it is
    allocated and its [in_dbus_queue] bit is set; so [job_free] leaves
    no freed job in the queue. *)
Theorem in_dbus_queue_bit_iff_queued m :
  reachable m ->
  NoDup (dbus_job_queue m) /\
  forall j, j ∈ dbus_job_queue m <->
    exists J, job_heap m !! j = Some J /\ j_in_dbus_queue J = true.
Proof.
  intros [_ Hn Hq]%reachable_DInv. done.
Qed.

Lemma in_dbus_queue_bit_iff_queued_witness :
  exists m,
    run_calls requeue_calls (initial_manager ordered_units 0) = Some m /\
    NoDup (dbus_job_queue m) /\
    forall j, j ∈ dbus_job_queue m <->
      exists J, job_heap m !! j = Some J /\ j_in_dbus_queue J = true.
Proof.
  eexists. split; [vm_compute; reflexivity|].
  apply in_dbus_queue_bit_iff_queued.
  apply (reachable_run_calls requeue_calls (initial_manager ordered_units 0)).
  - apply reachable_initial. apply ordered_units_empty_slots.
  - vm_compute. reflexivity.
Defined.

(** ** A finished job is parked or freed *)










(** ** A job carried over a reload *)

(** A new job that is not installed does not disturb the manager. *)
Lemma WF'_alloc us h n p J :
  WF' us h n -> h !! p = None -> j_installed J = false ->
  WF' us (<[p := J]> h) n.
Proof.
  intros Hwf Hp Hi. apply WF'_intro.
  - intros u U q HU Hq.
    destruct (wf_regular_slot Hwf u U q HU Hq) as (J0 & HJ0 & ? & ? & ? & ?).
    destruct (decide (q = p)) as [->|Hne]; [congruence|].
    rewrite lookup_insert_ne by done. eauto 10.
  - intros u U q HU Hq.
    destruct (wf_nop_slot Hwf u U q HU Hq) as (J0 & HJ0 & ? & ? & ?).
    destruct (decide (q = p)) as [->|Hne]; [congruence|].
    rewrite lookup_insert_ne by done. eauto 10.
  - intros. by eapply (wf_dependency Hwf).
  - intros q J0 Hq Hi0. destruct (decide (q = p)) as [->|Hne].
    + rewrite lookup_insert_eq in Hq. injection Hq as <-. congruence.
    + rewrite lookup_insert_ne in Hq by done. by apply (wf_installed Hwf).
  - pose proof (wf_running _ _ _ Hwf) as Hn.
    rewrite count_running_insert, delete_id by done.
    unfold running_installed. rewrite Hi. simpl. lia.
Qed.

(** X28: a job is carried over a reload.  The stream [job_serialize]
    writes for a job, read by [job_deserialize] into a job fresh from
    [job_new_raw] for a unit whose slot is empty, is accepted by
    [job_install_deserialized]: all three return 0, and the job sits
    in the slot of its unit, installed and marked as reloaded, with the
    id, the type and the state of the job that was written; the manager
    is well-formed again, a running job counted in [n_running_jobs]. *)
Theorem reloaded_job_is_reinstalled m m1 j J u U (rest : string) :
  job_heap m !! j = Some J ->
  in_transaction_range (j_type J) ->
  0 <= j_id J < 2 ^ 32 -> 0 <= j_begin_usec J < 2 ^ 64 ->
  Forall bus_name (j_clients J) ->
  WF m1 -> job_heap m1 !! next_ptr m1 = None ->
  units m1 !! u = Some U -> unit_slot (j_type J) U = None ->
  n_running_jobs m1 + 1 < 2 ^ 32 ->
  exists text m2 m3 m4 J',
    job_serialize j EmptyString m = Done (0, text) m /\
    job_new_raw u m1 = Done (next_ptr m1) m2 /\
    job_deserialize (next_ptr m1) (String.append text rest) m2
      = Done (0, rest) m3 /\
    job_install_deserialized (next_ptr m1) m3 = Done 0 m4 /\
    WF m4 /\
    units m4 !! u = Some (set_unit_slot (j_type J) (Some (next_ptr m1)) U) /\
    job_heap m4 !! next_ptr m1 = Some J' /\
    j_unit J' = u /\ j_installed J' = true /\ j_reloaded J' = true /\
    j_id J' = j_id J /\ j_type J' = j_type J /\ j_state J' = j_state J /\
    n_running_jobs m4 =
      n_running_jobs m1 + (if bool_decide (j_state J = JOB_RUNNING) then 1 else 0).
Proof.
  intros HJ Hty Hid Hbegin Hclients Hwf1 Hfresh HU Hslot Hn.
  destruct (job_serialize_stream j J m rest HJ) as (text & Hser & Htext).
  exists text.
  set (p := next_ptr m1).
  assert (wp (job_new_raw u)
            (fun j' m2 => j' = p /\ exists J0,
               m2 = set_next_ptr (S p)
                      (set_job_heap (<[p := J0]> (job_heap m1)) m1) /\
               j_unit J0 = u /\ j_installed J0 = false /\
               j_override J0 = false /\ j_irreversible J0 = false /\
               j_sent_dbus_new_signal J0 = false /\ j_ignore_order J0 = false /\
               j_begin_usec J0 = 0 /\ j_deserialized_clients J0 = []) m1) as Hnew.
  { unfold job_new_raw. wp_run. split; [done|]. eexists. split; [reflexivity|].
    by repeat split. }
  apply wp_Done in Hnew
    as (j' & m2 & Hraw & -> & J0 & -> & Hu0 & Hi0 & H1 & H2 & H3 & H4 & H5 & H6).
  set (m2 := set_next_ptr (S p) (set_job_heap (<[p := J0]> (job_heap m1)) m1)) in *.
  assert (job_heap m2 !! p = Some J0) as HJ0 by apply lookup_insert_eq.
  assert (WF m2) as Hwf2.
  { unfold WF, m2. msimpl. by apply WF'_alloc. }
  set (J3 := fold_left (fun J (lf : string * (Job -> Job)) => snd lf J)
               (serialized_lines J) J0).
  assert (wp (job_deserialize p (String.append text rest))
            (fun r m3 => (r = (0, rest) /\ job_heap m3 !! p = Some J3) /\
               exists J', m3 = set_job_heap (<[p := J']> (job_heap m2)) m2 /\
                          deserialized J0 J') m2) as Hdes.
  { pose proof (job_deserialize_loop_lines p rest (serialized_lines J)
                  (S (String.length (String.append text rest))) J0 m2
                  (serialized_lines_effect p J Hty Hid Hbegin Hclients)
                  HJ0 Hi0) as Hloop.
    rewrite <-Htext in Hloop. specialize (Hloop ltac:(lia)).
    unfold job_deserialize. do 2 wp_step.
    eapply wpg_mono.
    - apply wp_and_wlp.
      + exact Hloop.
      + apply wp_wlp.
        apply (job_deserialize_loop_any p
                 (S (String.length (String.append text rest)))
                 (String.append text rest) J0 m2 HJ0 Hi0). lia.
    - cbv beta. intros r m3 [? (_ & _ & ?)]. done. }
  apply wp_Done in Hdes as (r & m3 & Hrun3 & [-> HJ3] & J3' & -> & Hds).
  assert (J3' = J3) as ->.
  { msimpl. rewrite lookup_insert_eq in HJ3. congruence. }
  set (m3 := set_job_heap (<[p := J3]> (job_heap m2)) m2) in *.
  destruct (fold_left_serialized_lines J J0 ltac:(lia) H1 H2 H3 H4 H5 H6)
    as (Hid3 & Hty3 & Hst3 & _).
  fold J3 in Hid3, Hty3, Hst3.
  assert (j_installed J3 = false) as Hi3 by (by rewrite (ds_installed _ _ Hds)).
  assert (j_unit J3 = u) as Hu3 by (by rewrite (ds_unit _ _ Hds)).
  assert (WF m3) as Hwf3.
  { unfold WF, m3. msimpl. by eapply WF'_update_uninstalled. }
  assert (units m3 !! j_unit J3 = Some U) as HU3 by (by rewrite Hu3).
  pose proof (job_install_deserialized_spec m3 p J3 U Hwf3 HJ3 Hi3 HU3 Hn) as Hinst.
  apply wp_Done in Hinst as (r4 & m4 & Hrun4 & _ & Hwf4 & Hcase).
  rewrite Hty3 in Hcase.
  rewrite (bool_decide_eq_true_2 _ Hty), Hslot in Hcase.
  destruct Hcase as (-> & HU4 & HJ4 & Hn4).
  exists m2, m3, m4, (set_j_reloaded true (set_j_installed true J3)).
  rewrite Hu3 in HU4. rewrite Hst3 in Hn4. msimpl.
  repeat (split; [done|]). done.
Qed.

Lemma reloaded_job_is_reinstalled_witness :
  exists text m2 m3 m4 J',
    job_serialize 0 EmptyString timeout_scenario = Done (0, text) timeout_scenario /\
    job_new_raw 0 idle_scenario = Done (next_ptr idle_scenario) m2 /\
    job_deserialize (next_ptr idle_scenario) (String.append text "rest") m2
      = Done (0, "rest"%string) m3 /\
    job_install_deserialized (next_ptr idle_scenario) m3 = Done 0 m4 /\
    WF m4 /\
    units m4 !! 0%nat
      = Some (set_unit_slot (j_type (example_job 0 1 JOB_START JOB_RUNNING))
                (Some (next_ptr idle_scenario))
                (example_unit None no_dependencies)) /\
    job_heap m4 !! next_ptr idle_scenario = Some J' /\
    j_unit J' = 0%nat /\ j_installed J' = true /\ j_reloaded J' = true /\
    j_id J' = j_id (example_job 0 1 JOB_START JOB_RUNNING) /\
    j_type J' = j_type (example_job 0 1 JOB_START JOB_RUNNING) /\
    j_state J' = j_state (example_job 0 1 JOB_START JOB_RUNNING) /\
    n_running_jobs m4 =
      n_running_jobs idle_scenario
      + (if bool_decide (j_state (example_job 0 1 JOB_START JOB_RUNNING) = JOB_RUNNING)
         then 1 else 0).
Proof.
  apply (reloaded_job_is_reinstalled timeout_scenario idle_scenario 0
           (example_job 0 1 JOB_START JOB_RUNNING) 0
           (example_unit None no_dependencies) "rest").
  - reflexivity.
  - unfold in_transaction_range, _JOB_TYPE_MAX_IN_TRANSACTION. simpl. lia.
  - simpl. lia.
  - simpl. lia.
  - simpl. constructor.
  - apply (bool_decide_unpack (WF idle_scenario)). vm_compute. exact I.
  - reflexivity.
  - reflexivity.
  - reflexivity.
  - vm_compute. reflexivity.
Defined.

(** ** Merging into an installed job *)

(** Two regular types of the transaction range merge into a regular type
    of the transaction range, or not at all. *)
Lemma job_type_merge_and_collapse_regular a b s :
  in_transaction_range a -> a ≠ JOB_NOP ->
  in_transaction_range b -> b ≠ JOB_NOP ->
  exists c t,
    job_type_merge_and_collapse a b s = Some (c, t) /\
    in_transaction_range t /\ t ≠ JOB_NOP /\
    t = default a (merge_then_collapse a b s).
Proof.
  unfold in_transaction_range, _JOB_TYPE_MAX_IN_TRANSACTION.
  intros Ha Hna Hb Hnb.
  destruct a; simpl in Ha; try lia; try done;
    destruct b; simpl in Hb; try lia; try done;
    destruct s; vm_compute; eexists _, _; (split; [reflexivity|]);
    repeat split; discriminate.
Qed.

(** X29: [job_merge_into_installed] leaves the installed job in its
    slot and the manager well-formed.  The override, irreversible and
    ignore_order flags of the other job are added to those of the
    installed one; a regular job takes the merged and collapsed type,
    again a regular type of the transaction range, and keeps its type
    when the two types conflict; a nop job stays one.  Nothing else
    changes. *)
Theorem job_merge_into_installed_keeps_slot m j other J O :
  WF m -> job_heap m !! j = Some J -> j_installed J = true ->
  job_heap m !! other = Some O -> j_unit O = j_unit J ->
  in_transaction_range (j_type J) -> in_transaction_range (j_type O) ->
  (j_type J = JOB_NOP <-> j_type O = JOB_NOP) ->
  exists U t,
    units m !! j_unit J = Some U /\
    t = (if decide (j_type J = JOB_NOP) then JOB_NOP
         else default (j_type J)
                (merge_then_collapse (j_type J) (j_type O) (u_active_state U))) /\
    in_transaction_range t /\ (t = JOB_NOP <-> j_type J = JOB_NOP) /\
    job_merge_into_installed j other m =
      Done tt
        (set_job_heap
           (<[j := set_j_ignore_order (j_ignore_order J || j_ignore_order O)
                     (set_j_irreversible (j_irreversible J || j_irreversible O)
                        (set_j_override (j_override J || j_override O)
                           (set_j_type t J)))]> (job_heap m)) m) /\
    WF (set_job_heap
          (<[j := set_j_ignore_order (j_ignore_order J || j_ignore_order O)
                    (set_j_irreversible (j_irreversible J || j_irreversible O)
                       (set_j_override (j_override J || j_override O)
                          (set_j_type t J)))]> (job_heap m)) m).
Proof.
  intros Hwf Hj Hi HO Hu HtJ HtO Hnop.
  destruct (wf_installed Hwf j J Hj Hi) as (U & HU & Hslot).
  set (t := if decide (j_type J = JOB_NOP) then JOB_NOP
            else default (j_type J)
                   (merge_then_collapse (j_type J) (j_type O) (u_active_state U))).
  exists U, t. split; [done|]. split; [done|].
  assert (in_transaction_range t /\ (t = JOB_NOP <-> j_type J = JOB_NOP) /\
          wp (if decide (j_type J ≠ JOB_NOP) then
                U ← get_unit (j_unit J);
                match job_type_merge_and_collapse (j_type J) (j_type O)
                        (u_active_state U) with
                | Some (_, t) => update_job j (set_j_type t)
                | None => abort
                end
              else massert (bool_decide (j_type O = JOB_NOP)))
             (fun _ m' => m' = set_job_heap (<[j := set_j_type t J]> (job_heap m)) m)
             m) as (Hrange & Hkind & Hstep).
  { unfold t. destruct (decide (j_type J = JOB_NOP)) as [Hn|Hn].
    - split; [by vm_compute|]. split; [done|].
      rewrite decide_False by (intros ?; done).
      apply wpg_massert. rewrite bool_decide_eq_true_2 by (by apply Hnop).
      rewrite <-Hn.
      assert (set_j_type (j_type J) J = J) as -> by (by destruct J).
      symmetry. by apply set_job_heap_id.
    - assert (j_type O ≠ JOB_NOP) as HnO by (intros ?; by apply Hn, Hnop).
      destruct (job_type_merge_and_collapse_regular (j_type J) (j_type O)
                  (u_active_state U) HtJ Hn HtO HnO)
        as (c & t' & Hm & Hr' & Hn' & Ht').
      rewrite <-Ht'. split; [done|]. split; [done|].
      rewrite decide_True by done.
      apply wpg_bind, wpg_get_unit. rewrite HU, Hm.
      unfold update_job. wp_run. done. }
  split; [done|]. split; [done|].
  assert (wp (job_merge_into_installed j other)
            (fun _ m' => m' =
               set_job_heap
                 (<[j := set_j_ignore_order (j_ignore_order J || j_ignore_order O)
                           (set_j_irreversible (j_irreversible J || j_irreversible O)
                              (set_j_override (j_override J || j_override O)
                                 (set_j_type t J)))]> (job_heap m)) m) m) as Hwp.
  { unfold job_merge_into_installed. do 8 wp_next; try done.
    apply wpg_bind. eapply wpg_mono; [exact Hstep|].
    cbv beta. intros _ ? ->. unfold update_job. wp_run.
    apply manager_eq; msimpl; done. }
  apply wp_Done in Hwp as ([] & m' & Hrun & ->). split; [done|].
  unfold WF. msimpl. eapply WF'_update_job; try done; msimpl.
  - apply bool_decide_ext. done.
  - intros _. apply Hrange.
Qed.

Lemma job_merge_into_installed_keeps_slot_witness :
  exists m',
    job_merge_into_installed 0 1 merge_scenario = Done tt m' /\
    m' = set_job_heap
           (<[0%nat := set_j_irreversible true
                         (set_j_override true
                            (set_j_type JOB_START merge_scenario_job))]>
              (job_heap merge_scenario)) merge_scenario /\
    WF m'.
Proof.
  destruct (job_merge_into_installed_keeps_slot merge_scenario 0 1
              merge_scenario_job merge_scenario_other)
    as (U & t & HU & Ht & _ & _ & Hrun & Hwf).
  - apply (bool_decide_unpack (WF merge_scenario)). vm_compute. exact I.
  - reflexivity.
  - reflexivity.
  - reflexivity.
  - reflexivity.
  - unfold in_transaction_range, _JOB_TYPE_MAX_IN_TRANSACTION. simpl. lia.
  - unfold in_transaction_range, _JOB_TYPE_MAX_IN_TRANSACTION. simpl. lia.
  - simpl. done.
  - injection HU as <-.
    assert (t = JOB_START) as -> by (rewrite Ht; reflexivity).
    eexists. split; [exact Hrun|]. split; [reflexivity|]. exact Hwf.
Defined.
